(** * RepoGate VS Code extension: a shallow embedding and its properties

    The development follows the TypeScript sources module by module:

    - [Js]            the JavaScript array, string and [Map] primitives the
                      sources rely on;
    - [Model]         models/DependencyInfo.ts, parsers/DependencyParser.ts
                      and the payload types of api/client.ts;
    - [Notifications] ui/notifications/notificationManager.ts;
    - [Diagnostics]   ui/diagnostics/diagnosticsProvider.ts;
    - [Watcher]       watchers/gradleWatcher.ts;
    - [Json], [Npm]   JSON values and parsers/NpmDependencyParser.ts;
    - [Manifest]      the watcher reading manifests with the npm parser;
    - [Auth]          auth/authManager.ts;
    - [ApiClient]     the retrying client of api/client.ts;
    - [Bootstrap]     services/bootstrap.ts and [activate] of extension.ts;
    - [Validator]     services/DependencyValidator.ts;
    - [Logger]        utils/logger.ts;
    - [Heartbeat]     services/heartbeatService.ts;
    - [Editor]        services/DiagnosticsManager.ts;
    - [LegacyClient]  api/RepoGateApiClient.ts;
    - [Monitor]       services/DependencyMonitor.ts;
    - [Maven]         parsers/MavenDependencyParser.ts.

    Asynchronous handlers are modelled as state transformers: the
    answers of the outside world (configuration, HTTP results, file
    contents) are passed in as arguments, and the calls a handler makes
    are appended to a list of effects kept in the state.  A handler is
    one step from its call to its end, except where the source lets a
    call go on behind its caller: [startPolling] of the watcher and
    [start] of the heartbeat service stop at their [await] and are
    resumed by an event of their own, and the removal handler of the
    watcher is also given in two parts, before and after its [update]
    call.  Calls to the logger are left out. *)

From Stdlib Require Import ZArith List String Ascii Lia DecimalString.
From Stdlib Require QArith Lqa.
From stdpp Require Import base gmap strings list.
From Equations Require Import Equations.

Set Warnings "-register-all".

Local Open Scope string_scope.

(* ------------------------------------------------------------------ *)
(** ** JavaScript primitives *)

Module Js.

(** [Array.prototype.findIndex]: index of the first element satisfying
    [p], [None] standing for the result [-1]. *)
Fixpoint findIndex {A} (p : A -> bool) (l : list A) : option nat :=
  match l with
  | [] => None
  | x :: l' => if p x then Some 0 else S <$> findIndex p l'
  end.

(** [arr.splice(i, 1)]: removes the element at index [i]. *)
Definition splice1 {A} (i : nat) (l : list A) : list A := delete i l.

(** [arr.push(x)]. *)
Definition push {A} (l : list A) (x : A) : list A := l ++ [x].

(** [s.includes(sub)] on strings. *)
Fixpoint includes (s sub : string) : bool :=
  if String.prefix sub s then true
  else match s with
       | EmptyString => false
       | String _ s' => includes s' sub
       end.

(** The period, in milliseconds, of the timer that
    [setInterval(callback, delay)] creates: Node sets a delay below 1 or
    above 2147483647 to 1. *)
Definition timerPeriod (delay : N) : N :=
  if ((delay <? 1) || (2147483647 <? delay))%N then 1%N else delay.

(** A [Map<string, V>] keeps its entries in insertion order; [set] on a
    key already present replaces the value where it stands. *)
Abbreviation Map V := (list (string * V)).

Definition map_get {V} (m : Map V) (k : string) : option V :=
  snd <$> List.find (fun e => String.eqb (fst e) k) m.

Definition map_has {V} (m : Map V) (k : string) : bool :=
  existsb (fun e => String.eqb (fst e) k) m.

Fixpoint map_set {V} (m : Map V) (k : string) (v : V) : Map V :=
  match m with
  | [] => [(k, v)]
  | e :: m' => if String.eqb (fst e) k then (k, v) :: m' else e :: map_set m' k v
  end.

Definition map_delete {V} (m : Map V) (k : string) : Map V :=
  List.filter (fun e => negb (String.eqb (fst e) k)) m.

(** [String(i)] for a natural number [i]. *)
Definition natToString (i : nat) : string :=
  NilZero.string_of_uint (Nat.to_uint i).

(** White space as [trim] sees it, for the ASCII range. *)
Definition is_space (c : ascii) : bool :=
  let n := nat_of_ascii c in
  (n =? 32)%nat || ((9 <=? n)%nat && (n <=? 13)%nat).

Fixpoint trimStart (s : string) : string :=
  match s with
  | String c s' => if is_space c then trimStart s' else s
  | EmptyString => EmptyString
  end.

Fixpoint trimEnd (s : string) : string :=
  match s with
  | String c s' =>
      let r := trimEnd s' in
      if String.eqb r "" && is_space c then "" else String c r
  | EmptyString => EmptyString
  end.

(** [s.trim()]. *)
Definition trim (s : string) : string := trimEnd (trimStart s).

(** The line feed written [\n] in the sources. *)
Definition nl : string := String "010"%char EmptyString.

End Js.

(* ------------------------------------------------------------------ *)
(** ** models/DependencyInfo.ts, api/client.ts (types) *)

Module Model.

Inductive ApprovalStatus :=
  | PENDING | APPROVED | DENIED | SCANNING | NOT_FOUND | ERROR.

Record DependencyInfo := mkDependencyInfo {
  packageName : string;
  packageManager : string;
  version : string;
  status : ApprovalStatus
}.

(** The [status] field of [CheckResponse] / [DependencyResponse]. *)
Inductive ResponseStatus :=
  | approved | denied | pending | scanning | not_found.

Record CheckResponse := mkCheckResponse {
  r_status : ResponseStatus;
  r_approved : bool;
  r_message : string;
  r_packageName : string;
  r_packageManager : string;
  r_reasonUrl : option string
}.

(** [dep.status = response.status as any]: the enum member carrying the
    same string. *)
Definition status_of_response (r : ResponseStatus) : ApprovalStatus :=
  match r with
  | approved => APPROVED
  | denied => DENIED
  | pending => PENDING
  | scanning => SCANNING
  | not_found => NOT_FOUND
  end.

#[global] Instance ApprovalStatus_eq_dec : EqDecision ApprovalStatus.
Proof. solve_decision. Defined.

#[global] Instance ResponseStatus_eq_dec : EqDecision ResponseStatus.
Proof. solve_decision. Defined.

(** Terminal verdicts: [approved] and [denied]. *)
Definition terminal (r : ResponseStatus) : bool :=
  match r with approved | denied => true | _ => false end.

(** An awaited call either resolves with a value or rejects (throws). *)
Inductive Promise (A : Type) :=
  | Resolved (a : A)
  | Rejected (reason : string).
Arguments Resolved {A} a.
Arguments Rejected {A} reason.

(** auth/authManager.ts *)
Record RepoGateConfig := mkConfig {
  apiUrl : string;
  apiToken : string;
  pollIntervalMs : N;
  includeDevDependencies : bool
}.

(** api/client.ts: the payloads of the three per-dependency operations. *)
Record RequestPayload := mkRequestPayload {
  rq_projectName : string;
  rq_ecosystem : string;
  rq_name : string;
  rq_version : string;
  rq_path : string;
  rq_repository : bool
}.

Record CheckPayload := mkCheckPayload {
  ck_projectName : string;
  ck_ecosystem : string;
  ck_name : string;
  ck_version : string;
  ck_repository : bool
}.

Record UpdatePayload := mkUpdatePayload {
  up_projectName : string;
  up_ecosystem : string;
  up_name : string;
  up_fromVersion : string;
  up_toVersion : option string;
  up_action : string;
  up_timestamp : string;
  up_repository : bool
}.

(** parsers/DependencyParser.ts: the interface, and the constructor of
    [BaseDependencyParser]. *)
Record DependencyParser := mkParser {
  supports : string -> bool;
  parseNewDependencies : string -> string -> list DependencyInfo;
  parseAllDependencies : string -> list DependencyInfo;
  getPackageManager : string
}.

Definition createDependencyInfo (manager packageName version : string)
    : DependencyInfo :=
  {| packageName := packageName;
     packageManager := manager;
     version := version;
     status := PENDING |}.

End Model.

(* ------------------------------------------------------------------ *)
(** ** ui/notifications/notificationManager.ts *)

Module Notifications.

(** The three kinds of popup of [vscode.window]. *)
Inductive Popup :=
  | InformationMessage (text : string) (buttons : list string)
  | WarningMessage (text : string) (buttons : list string)
  | ErrorMessage (text : string) (buttons : list string).

(** One constructor per method of [NotificationManager] the watchers call. *)
Inductive Call :=
  | showDenied (packageName version message : string) (reasonUrl : option string)
  | showPending (packageName version : string)
  | showScanning (packageName version : string)
  | showApproved (packageName version : string) (silent : bool)
  | showNotFound (packageName version : string)
  | showRemovalConfirmed (packageName version : string)
  | showError (message : string).

Definition pkgDisplay (packageName version : string) : string :=
  if String.eqb version "" then packageName else packageName ++ "@" ++ version.

(** The popups a call opens. [showApproved] opens none when [silent]. *)
Definition popups (c : Call) : list Popup :=
  match c with
  | showDenied n v m url =>
      [ErrorMessage
         ("❌ RepoGate: Package '" ++ pkgDisplay n v ++ "' has been denied"
            ++ Js.nl ++ m)
         ("View Details" :: match url with
                            | Some u => if String.eqb u "" then [] else ["Learn More"]
                            | None => []
                            end)]
  | showPending n v =>
      [InformationMessage
         ("⏳ RepoGate: Package '" ++ pkgDisplay n v
            ++ "' is pending review by your security team") []]
  | showScanning n v =>
      [InformationMessage
         ("🔍 RepoGate: Package '" ++ pkgDisplay n v
            ++ "' is being scanned for vulnerabilities") []]
  | showApproved n v silent =>
      if silent then []
      else [InformationMessage
              ("✓ RepoGate: Package '" ++ pkgDisplay n v ++ "' is approved for use") []]
  | showNotFound n v =>
      [WarningMessage
         ("❓ RepoGate: Package '" ++ pkgDisplay n v
            ++ "' not found. A request will be submitted for review.") []]
  | showRemovalConfirmed n v =>
      [InformationMessage
         ("✓ RepoGate: Removed denied package '" ++ pkgDisplay n v
            ++ "' - Platform has been notified") []]
  | showError m => [ErrorMessage ("❌ RepoGate: " ++ m) []]
  end.

(** The package a per-dependency notification is about. *)
Definition subject (c : Call) : option string :=
  match c with
  | showDenied n _ _ _ | showPending n _ | showScanning n _
  | showApproved n _ _ | showNotFound n _ | showRemovalConfirmed n _ => Some n
  | showError _ => None
  end.

End Notifications.

(* ------------------------------------------------------------------ *)
(** ** ui/diagnostics/diagnosticsProvider.ts *)

Module Diagnostics.
Import Model.

Record DependencyDiagnostic := mkDiag {
  name : string;
  d_version : string;
  d_status : ResponseStatus;
  message : string;
  line : nat;
  reasonUrl : option string
}.

Inductive Severity := SevError | SevWarning | SevInformation.

(** What [updateDiagnostics] hands to VS Code for one entry. *)
Record VsDiagnostic := mkVs {
  vs_line : nat;
  vs_severity : Severity;
  vs_message : string;
  vs_related : option string
}.

Definition at_version (v : string) : string :=
  if String.eqb v "" then "" else "@" ++ v.

Definition toVs (d : DependencyDiagnostic) : VsDiagnostic :=
  let body := name d ++ at_version (d_version d) ++ ": " ++ message d in
  let '(sev, msg) :=
    match d_status d with
    | denied => (SevError, "❌ " ++ body)
    | pending => (SevWarning, "⏳ " ++ body)
    | scanning => (SevInformation, "🔍 " ++ body)
    | not_found => (SevWarning, "❓ " ++ body)
    | approved => (SevInformation, "✓ " ++ body)
    end in
  {| vs_line := Nat.max 0 (line d - 1);
     vs_severity := sev;
     vs_message := msg;
     vs_related :=
       match reasonUrl d with
       | Some u => if String.eqb u "" then None else Some ("More info: " ++ u)
       | None => None
       end |}.

(** The provider: [fileDiagnostics] and the VS Code collection it feeds. *)
Record Provider := mkProvider {
  fileDiagnostics : gmap string (list DependencyDiagnostic);
  diagnosticCollection : gmap string (list VsDiagnostic)
}.

Definition empty : Provider := mkProvider ∅ ∅.

Definition has_name (n : string) (d : DependencyDiagnostic) : bool :=
  String.eqb (name d) n.

Definition updateDiagnostics
    (fd : gmap string (list DependencyDiagnostic))
    (coll : gmap string (list VsDiagnostic)) (filePath : string)
    : gmap string (list VsDiagnostic) :=
  <[filePath := toVs <$> default [] (fd !! filePath)]> coll.

Definition addDiagnostic (filePath : string) (diagnostic : DependencyDiagnostic)
    (p : Provider) : Provider :=
  let diagnostics := default [] (fileDiagnostics p !! filePath) in
  let diagnostics :=
    match Js.findIndex (has_name (name diagnostic)) diagnostics with
    | Some index => Js.splice1 index diagnostics
    | None => diagnostics
    end in
  let fd := <[filePath := Js.push diagnostics diagnostic]> (fileDiagnostics p) in
  mkProvider fd (updateDiagnostics fd (diagnosticCollection p) filePath).

Definition removeDiagnostic (filePath packageName : string) (p : Provider)
    : Provider :=
  match fileDiagnostics p !! filePath with
  | Some diagnostics =>
      match Js.findIndex (has_name packageName) diagnostics with
      | Some index =>
          let fd := <[filePath := Js.splice1 index diagnostics]> (fileDiagnostics p) in
          mkProvider fd (updateDiagnostics fd (diagnosticCollection p) filePath)
      | None => p
      end
  | None => p
  end.

Definition clearFile (filePath : string) (p : Provider) : Provider :=
  mkProvider (delete filePath (fileDiagnostics p))
             (delete filePath (diagnosticCollection p)).

Definition clearAll (p : Provider) : Provider := empty.

(** The calls a client can make, and their effect in sequence. *)
Inductive Op :=
  | Add (filePath : string) (d : DependencyDiagnostic)
  | Remove (filePath packageName : string)
  | ClearFile (filePath : string)
  | ClearAll.

Definition step (p : Provider) (o : Op) : Provider :=
  match o with
  | Add f d => addDiagnostic f d p
  | Remove f n => removeDiagnostic f n p
  | ClearFile f => clearFile f p
  | ClearAll => clearAll p
  end.

Definition run (ops : list Op) : Provider := fold_left step ops empty.

(** Entries of a file carrying a given package name. *)
Definition entries (p : Provider) (filePath n : string) : list DependencyDiagnostic :=
  filter (fun d => has_name n d = true) (default [] (fileDiagnostics p !! filePath)).

(** Invariant: names are pairwise distinct per file, and the VS Code
    collection mirrors [fileDiagnostics]. *)
Definition wf (p : Provider) : Prop :=
  (forall f l, fileDiagnostics p !! f = Some l -> NoDup (name <$> l)) /\
  diagnosticCollection p = (fun l : list DependencyDiagnostic => toVs <$> l) <$> fileDiagnostics p.

(** [getCounts]: the three counters, each incremented by the entries
    carrying its status. *)
Record Counts := mkCounts {
  c_pending : nat;
  c_denied : nat;
  c_scanning : nat
}.

(** The body of the inner loop, for one entry. *)
Definition countDiag (c : Counts) (diag : DependencyDiagnostic) : Counts :=
  let c := if decide (d_status diag = pending)
           then mkCounts (S (c_pending c)) (c_denied c) (c_scanning c) else c in
  let c := if decide (d_status diag = denied)
           then mkCounts (c_pending c) (S (c_denied c)) (c_scanning c) else c in
  if decide (d_status diag = scanning)
  then mkCounts (c_pending c) (c_denied c) (S (c_scanning c)) else c.

(** The inner loop, over the entries of one file. *)
Definition countFile (filePath : string) (diagnostics : list DependencyDiagnostic)
    (c : Counts) : Counts :=
  fold_left countDiag diagnostics c.

Definition getCounts (p : Provider) : Counts :=
  map_fold countFile (mkCounts 0 0 0) (fileDiagnostics p).

(** *** Facts about [findIndex] *)

Lemma findIndex_None {A} (p : A -> bool) (l : list A) :
  Js.findIndex p l = None -> Forall (fun x => p x = false) l.
Proof.
  induction l as [|x l IH]; simpl; [constructor|].
  destruct (p x) eqn:Hx; [discriminate|].
  destruct (Js.findIndex p l); [discriminate|].
  intros _. constructor; auto.
Qed.

Lemma findIndex_Some {A} (p : A -> bool) (l : list A) (i : nat) :
  Js.findIndex p l = Some i ->
  exists x, l !! i = Some x /\ p x = true /\
            Forall (fun y => p y = false) (take i l).
Proof.
  revert i. induction l as [|x l IH]; simpl; intros i; [discriminate|].
  destruct (p x) eqn:Hx.
  - intros [= <-]. exists x. simpl. repeat split; auto.
  - destruct (Js.findIndex p l) as [j|] eqn:Hj; simpl; [|discriminate].
    intros [= <-]. destruct (IH j eq_refl) as (y & Hy & Hpy & Hall).
    exists y. simpl. repeat split; auto.
Qed.

Lemma has_name_true n d : has_name n d = true <-> name d = n.
Proof. apply String.eqb_eq. Qed.

Lemma has_name_false n d : has_name n d = false <-> name d <> n.
Proof. apply String.eqb_neq. Qed.

(** Dropping the first entry named [n] from a list with distinct names
    leaves no entry named [n]. *)
Lemma drop_first_named n (l : list DependencyDiagnostic) :
  NoDup (name <$> l) ->
  let l' := match Js.findIndex (has_name n) l with
            | Some index => Js.splice1 index l
            | None => l
            end in
  NoDup (name <$> l') /\ n ∉ name <$> l'.
Proof.
  intros Hnd. destruct (Js.findIndex (has_name n) l) as [i|] eqn:Hi; simpl.
  - unfold Js.splice1. split.
    + rewrite list_fmap_delete. eapply sublist_NoDup; [done|apply sublist_delete].
    + destruct (findIndex_Some _ _ _ Hi) as (x & Hx & Hpx & _).
      apply has_name_true in Hpx.
      rewrite <- (take_drop_middle l i x Hx) in Hnd.
      rewrite fmap_app, fmap_cons, Hpx in Hnd.
      apply NoDup_app in Hnd as (_ & Hdisj & Htail).
      apply NoDup_cons in Htail as [Hn _].
      rewrite delete_take_drop, fmap_app. intros Hin.
      apply elem_of_app in Hin as [Hin|Hin]; [|done].
      apply (Hdisj n Hin). left.
  - split; [done|]. apply findIndex_None in Hi.
    intros (d & Hd & Hin)%list_elem_of_fmap.
    rewrite Forall_forall in Hi. specialize (Hi d Hin).
    apply has_name_false in Hi. congruence.
Qed.

Lemma filter_named_nil n (l : list DependencyDiagnostic) :
  n ∉ name <$> l -> filter (fun d => has_name n d = true) l = [].
Proof.
  induction l as [|d l IH]; [done|]. rewrite fmap_cons, not_elem_of_cons.
  intros [Hne Hnin]. rewrite filter_cons_False; [auto|].
  rewrite has_name_true. congruence.
Qed.

Lemma addDiagnostic_wf f d p : wf p -> wf (addDiagnostic f d p).
Proof.
  intros [Hnd Hcoll]. unfold addDiagnostic, updateDiagnostics, Js.push.
  set (l := default [] (fileDiagnostics p !! f)).
  assert (Hl : NoDup (name <$> l)).
  { subst l. destruct (fileDiagnostics p !! f) eqn:E; simpl; eauto. constructor. }
  destruct (drop_first_named (name d) l Hl) as [Hnd' Hnin].
  split; simpl.
  - intros g k. rewrite lookup_insert. case_decide; [|by eauto].
    intros [= <-]. rewrite fmap_app. apply NoDup_app. split; [done|].
    split; [|apply NoDup_singleton].
    intros x Hx ->%list_elem_of_singleton. done.
  - rewrite lookup_insert_eq. simpl. rewrite fmap_insert, Hcoll. done.
Qed.

Lemma removeDiagnostic_wf f n p : wf p -> wf (removeDiagnostic f n p).
Proof.
  intros [Hnd Hcoll]. unfold removeDiagnostic, updateDiagnostics.
  destruct (fileDiagnostics p !! f) as [l|] eqn:E; [|done].
  destruct (Js.findIndex (has_name n) l) as [i|] eqn:Hi; [|done].
  split; simpl.
  - intros g k. rewrite lookup_insert. case_decide; [|by eauto].
    intros [= <-]. unfold Js.splice1. rewrite list_fmap_delete.
    eapply sublist_NoDup; [eauto|apply sublist_delete].
  - rewrite lookup_insert_eq. simpl. rewrite fmap_insert, Hcoll. done.
Qed.

Lemma step_wf p o : wf p -> wf (step p o).
Proof.
  destruct o; simpl; auto using addDiagnostic_wf, removeDiagnostic_wf.
  - intros [Hnd Hcoll]. split; simpl.
    + intros g k [_ Hk]%lookup_delete_Some. eauto.
    + rewrite fmap_delete, Hcoll. done.
  - intros _. split; simpl; [by intros g k; rewrite lookup_empty|].
    by rewrite fmap_empty.
Qed.

Lemma fold_step_wf ops p : wf p -> wf (fold_left step ops p).
Proof. revert p. induction ops as [|o ops IH]; simpl; auto using step_wf. Qed.

Lemma empty_wf : wf empty.
Proof.
  split; simpl; [by intros g k; rewrite lookup_empty|]. by rewrite fmap_empty.
Qed.

(** After [addDiagnostic] the file holds exactly one entry for the
    package: the new one. *)
Lemma addDiagnostic_entries f d p :
  wf p -> entries (addDiagnostic f d p) f (name d) = [d].
Proof.
  intros [Hnd _]. unfold entries, addDiagnostic, Js.push. simpl.
  rewrite lookup_insert_eq. simpl.
  set (l := default [] (fileDiagnostics p !! f)).
  assert (Hl : NoDup (name <$> l)).
  { subst l. destruct (fileDiagnostics p !! f) eqn:E; simpl; eauto. constructor. }
  destruct (drop_first_named (name d) l Hl) as [_ Hnin].
  rewrite filter_app, (filter_named_nil _ _ Hnin). simpl.
  rewrite filter_cons_True; [done|]. by apply has_name_true.
Qed.

(** After [removeDiagnostic] the file holds no entry for the package. *)
Lemma removeDiagnostic_entries f n p :
  wf p -> entries (removeDiagnostic f n p) f n = [].
Proof.
  intros [Hnd _]. unfold entries, removeDiagnostic.
  destruct (fileDiagnostics p !! f) as [l|] eqn:E; [|by rewrite E].
  pose proof (drop_first_named n l (Hnd f l E)) as [_ Hnin].
  destruct (Js.findIndex (has_name n) l) as [i|] eqn:Hi; simpl in *.
  - rewrite lookup_insert_eq. simpl. by apply filter_named_nil.
  - rewrite E. simpl. by apply filter_named_nil.
Qed.

(** C8. Whatever sequence of [addDiagnostic], [removeDiagnostic],
    [clearFile] and [clearAll] calls is made on a fresh provider, every
    file holds at most one entry per package name (the names of a file's
    entries are pairwise distinct, and the VS Code collection holds one
    diagnostic per entry); a further [addDiagnostic] leaves exactly one
    entry for its package in that file, namely the diagnostic just added,
    so an existing entry is replaced and no duplicate is appended. *)
Theorem diagnostics_one_entry_per_package (ops : list Op) :
  let p := run ops in
  (forall f l, fileDiagnostics p !! f = Some l -> NoDup (name <$> l)) /\
  (forall f, length (default [] (diagnosticCollection p !! f))
             = length (default [] (fileDiagnostics p !! f))) /\
  (forall f n, length (entries p f n) <= 1) /\
  (forall f d, entries (addDiagnostic f d p) f (name d) = [d]).
Proof.
  pose proof (fold_step_wf ops empty empty_wf) as Hwf. fold (run ops) in Hwf.
  simpl. destruct Hwf as [Hnd Hcoll]. repeat split.
  - exact Hnd.
  - intros f. rewrite Hcoll, lookup_fmap.
    destruct (fileDiagnostics (run ops) !! f); simpl; [apply length_fmap|done].
  - intros f n. unfold entries.
    destruct (fileDiagnostics (run ops) !! f) as [l|] eqn:E; simpl; [|lia].
    specialize (Hnd f l E). clear E. induction l as [|d l IH]; simpl; [lia|].
    rewrite fmap_cons in Hnd. apply NoDup_cons in Hnd as [Hd Hnd].
    destruct (decide (has_name n d = true)) as [Hn|Hn].
    + rewrite filter_cons_True by done. apply has_name_true in Hn. subst n.
      rewrite (filter_named_nil _ _ Hd). simpl. lia.
    + rewrite filter_cons_False by done. auto.
  - intros f d. apply addDiagnostic_entries. by split.
Qed.

(** *** Counting *)

Lemma countDiag_comm c a b :
  countDiag (countDiag c a) b = countDiag (countDiag c b) a.
Proof.
  unfold countDiag. destruct c as [x y z].
  destruct (d_status a), (d_status b); reflexivity.
Qed.

Lemma fold_countDiag_comm l c a :
  fold_left countDiag l (countDiag c a) = countDiag (fold_left countDiag l c) a.
Proof.
  revert c. induction l as [|x l IH]; intros c; [done|].
  cbn [fold_left]. by rewrite (countDiag_comm c a x), IH.
Qed.

Lemma fold_countDiag_swap l1 l2 c :
  fold_left countDiag l1 (fold_left countDiag l2 c)
  = fold_left countDiag l2 (fold_left countDiag l1 c).
Proof.
  revert c. induction l1 as [|x l1 IH]; intros c; [done|].
  cbn [fold_left]. by rewrite <- IH, (fold_countDiag_comm l2).
Qed.

(** Counting a list is counting it without its [i]-th entry, then that
    entry. *)
Lemma fold_countDiag_delete l i x c :
  l !! i = Some x ->
  countDiag (fold_left countDiag (delete i l) c) x = fold_left countDiag l c.
Proof.
  intros Hx. rewrite <- (take_drop_middle l i x Hx) at 2.
  rewrite delete_take_drop, !fold_left_app. cbn [fold_left].
  by rewrite fold_countDiag_comm.
Qed.

(** The counters of a provider, seen from one of its files. *)
Lemma getCounts_file (fd : gmap string (list DependencyDiagnostic)) (f : string) :
  map_fold countFile (mkCounts 0 0 0) fd
  = fold_left countDiag (default [] (fd !! f))
      (map_fold countFile (mkCounts 0 0 0) (delete f fd)).
Proof.
  destruct (fd !! f) as [l|] eqn:E; simpl.
  - apply (map_fold_delete_L countFile _ f l fd); [|done].
    intros. apply fold_countDiag_swap.
  - by rewrite (delete_id fd f E).
Qed.

Lemma getCounts_insert (fd : gmap string (list DependencyDiagnostic)) (f : string)
    (l : list DependencyDiagnostic) :
  map_fold countFile (mkCounts 0 0 0) (<[f := l]> fd)
  = fold_left countDiag l (map_fold countFile (mkCounts 0 0 0) (delete f fd)).
Proof.
  rewrite <- (insert_delete_eq fd f l).
  rewrite (map_fold_insert_L countFile _ f l (delete f fd)).
  - reflexivity.
  - intros. apply fold_countDiag_swap.
  - apply lookup_delete_eq.
Qed.

(** The entry [findIndex] stops at is the first one of the package. *)
Lemma head_entries n (l : list DependencyDiagnostic) :
  head (filter (fun d => has_name n d = true) l)
  = match Js.findIndex (has_name n) l with
    | Some index => l !! index
    | None => None
    end.
Proof.
  induction l as [|d l IH]; [done|]. simpl.
  destruct (has_name n d) eqn:E.
  - by rewrite filter_cons_True.
  - rewrite filter_cons_False by congruence. rewrite IH.
    by destruct (Js.findIndex (has_name n) l).
Qed.

(** X1. [getCounts] follows the entries.  Filing a diagnostic for a
    package that has none in the file counts it; filing one for a package
    that has an entry counts the new status in place of the old one, so
    an update never counts a package twice; removing a diagnostic takes
    it out of its counter; after [clearAll] all three counters are zero.
    (Counters are compared after adding the entry that left, which avoids
    subtraction.) *)
Theorem counts_follow_the_entries (f n : string) (d : DependencyDiagnostic)
    (p : Provider) :
  match head (entries p f (name d)) with
  | None => getCounts (addDiagnostic f d p) = countDiag (getCounts p) d
  | Some old =>
      countDiag (getCounts (addDiagnostic f d p)) old = countDiag (getCounts p) d
  end /\
  match head (entries p f n) with
  | None => getCounts (removeDiagnostic f n p) = getCounts p
  | Some old => countDiag (getCounts (removeDiagnostic f n p)) old = getCounts p
  end /\
  getCounts (clearAll p) = mkCounts 0 0 0.
Proof.
  split; [|split].
  - unfold entries. rewrite head_entries. unfold getCounts, addDiagnostic.
    cbn [fileDiagnostics].
    rewrite getCounts_insert, (getCounts_file (fileDiagnostics p) f).
    set (l := default [] (fileDiagnostics p !! f)).
    set (base := map_fold countFile (mkCounts 0 0 0) (delete f (fileDiagnostics p))).
    unfold Js.push, Js.splice1.
    destruct (Js.findIndex (has_name (name d)) l) as [i|] eqn:Hi.
    + destruct (findIndex_Some _ _ _ Hi) as (old & Hold & _). rewrite Hold.
      rewrite fold_left_app. cbn [fold_left].
      by rewrite countDiag_comm, (fold_countDiag_delete l i old base Hold).
    + by rewrite fold_left_app.
  - unfold entries. rewrite head_entries. unfold getCounts, removeDiagnostic.
    destruct (fileDiagnostics p !! f) as [l|] eqn:E; simpl; [|done].
    destruct (Js.findIndex (has_name n) l) as [i|] eqn:Hi; [|done].
    destruct (findIndex_Some _ _ _ Hi) as (old & Hold & _). rewrite Hold.
    cbn [fileDiagnostics].
    rewrite getCounts_insert, (getCounts_file (fileDiagnostics p) f), E.
    apply fold_countDiag_delete, Hold.
  - unfold getCounts, clearAll, empty. simpl. apply map_fold_empty.
Qed.

End Diagnostics.

(* ------------------------------------------------------------------ *)
(** ** watchers/gradleWatcher.ts

    [GradleWatcher] is modelled with its parser and ecosystem tag as
    section variables, so that the same handlers can be read with any
    implementation of the [DependencyParser] interface.

    [DependencyInfo] objects are shared between [statusCache] and the
    closures of the polling intervals and mutated through [dep.status]:
    they live in a heap and are referred to by address.  Intervals are
    kept in a table indexed by their handle; [clearInterval] empties the
    slot, after which the callback never runs again.

    [startPolling] is an [async] function called without [await]: it
    clears the interval registered under the key at once, and reaches
    [setInterval] and [pollingIntervals.set] only when its
    [await getConfig()] is over.  The calls waiting there are kept in
    [starting]; an event of its own resumes one of them.  The other
    handlers run from their call to their end in one step. *)

Module Watcher.
Import Model.

(** What a handler learns from the outside world while it runs. *)
Record Env := mkEnv {
  getConfig : option RepoGateConfig;
  request : RequestPayload -> Promise CheckResponse;
  check : CheckPayload -> Promise CheckResponse;
  update : UpdatePayload -> Promise unit;
  findDependencyLine : string -> string -> nat;
  now : string
}.

(** Calls on the API client and on the notification manager, in order. *)
Inductive Effect :=
  | ApiRequest (p : RequestPayload)
  | ApiCheck (p : CheckPayload)
  | ApiUpdate (p : UpdatePayload)
  | Notify (c : Notifications.Call).

Definition loc := nat.

(** The closure of one [setInterval] callback. *)
Record Interval := mkInterval {
  i_uri : string;
  i_dep : loc;
  i_delay : N
}.

(** A call of [startPolling] waiting for [getConfig]: its arguments and
    the [key] it computed before the wait. *)
Record Start := mkStart {
  st_uri : string;
  st_dep : loc;
  st_key : string
}.

Record State := mkState {
  fileCache : gmap string string;
  statusCache : gmap string (Js.Map loc);
  pollingIntervals : gmap string nat;
  pendingNotifications : gset string;
  hasRepository : bool;
  heap : list DependencyInfo;
  timers : list (option Interval);
  diagnostics : Diagnostics.Provider;
  effects : list Effect;
  starting : list Start
}.

Definition init (hasRepo : bool) : State :=
  {| fileCache := ∅; statusCache := ∅; pollingIntervals := ∅;
     pendingNotifications := ∅; hasRepository := hasRepo;
     heap := []; timers := []; diagnostics := Diagnostics.empty;
     effects := []; starting := [] |}.

Definition dummy : DependencyInfo := mkDependencyInfo "" "" "" PENDING.

(** Reading the object at an address. *)
Definition deref (s : State) (l : loc) : DependencyInfo :=
  default dummy (heap s !! l).

Definition emit (e : Effect) (s : State) : State :=
  mkState (fileCache s) (statusCache s) (pollingIntervals s)
          (pendingNotifications s) (hasRepository s) (heap s) (timers s)
          (diagnostics s) (effects s ++ [e]) (starting s).

(** [dep.status = st]. *)
Definition set_status (l : loc) (st : ApprovalStatus) (s : State) : State :=
  let d := deref s l in
  mkState (fileCache s) (statusCache s) (pollingIntervals s)
          (pendingNotifications s) (hasRepository s)
          (<[l := mkDependencyInfo (packageName d) (packageManager d) (version d) st]>
             (heap s))
          (timers s) (diagnostics s) (effects s) (starting s).

(** A fresh object, as the parser returns it. *)
Definition alloc (d : DependencyInfo) (s : State) : loc * State :=
  (length (heap s),
   mkState (fileCache s) (statusCache s) (pollingIntervals s)
           (pendingNotifications s) (hasRepository s) (heap s ++ [d])
           (timers s) (diagnostics s) (effects s) (starting s)).

Definition key (fsPath packageName : string) : string :=
  fsPath ++ ":" ++ packageName.

(** [clearInterval(h)]. *)
Definition clearInterval (h : nat) (ts : list (option Interval))
    : list (option Interval) :=
  <[h := None]> ts.

(** The interval running under handle [h], if it was not cleared. *)
Definition live (s : State) (h : nat) : option Interval :=
  mjoin (timers s !! h).

Section Handlers.

Variable parser : DependencyParser.
Variable ecosystem : string.
(** [getWorkspaceId()] and [vscode.workspace.asRelativePath]. *)
Variable workspaceId : string.
Variable asRelativePath : string -> string.

Definition requestPayload (uri : string) (d : DependencyInfo) (repo : bool)
    : RequestPayload :=
  {| rq_projectName := workspaceId; rq_ecosystem := ecosystem;
     rq_name := packageName d; rq_version := version d;
     rq_path := asRelativePath uri; rq_repository := repo |}.

Definition checkPayload (d : DependencyInfo) (repo : bool) : CheckPayload :=
  {| ck_projectName := workspaceId; ck_ecosystem := ecosystem;
     ck_name := packageName d; ck_version := version d;
     ck_repository := repo |}.

Definition updatePayload (d : DependencyInfo) (timestamp : string) (repo : bool)
    : UpdatePayload :=
  {| up_projectName := workspaceId; up_ecosystem := ecosystem;
     up_name := packageName d; up_fromVersion := version d;
     up_toVersion := None; up_action := "removed";
     up_timestamp := timestamp; up_repository := repo |}.

Definition notifyOnce (name : string) (c : Notifications.Call) (s : State)
    : State :=
  if decide (name ∈ pendingNotifications s) then s
  else
    let s := emit (Notify c) s in
    mkState (fileCache s) (statusCache s) (pollingIntervals s)
            ({[name]} ∪ pendingNotifications s) (hasRepository s) (heap s)
            (timers s) (diagnostics s) (effects s) (starting s).

Definition handleDependencyResponse (env : Env) (uri : string) (dep : loc)
    (response : CheckResponse) (s : State) : State :=
  let d := deref s dep in
  let line := findDependencyLine env uri (packageName d) in
  let s :=
    mkState (fileCache s) (statusCache s) (pollingIntervals s)
            (pendingNotifications s) (hasRepository s) (heap s) (timers s)
            (Diagnostics.addDiagnostic uri
               (Diagnostics.mkDiag (packageName d) (version d)
                  (r_status response) (r_message response) line
                  (r_reasonUrl response))
               (diagnostics s))
            (effects s) (starting s) in
  match r_status response with
  | approved =>
      emit (Notify (Notifications.showApproved (packageName d) (version d) true)) s
  | denied =>
      emit (Notify (Notifications.showDenied (packageName d) (version d)
                      (r_message response) (r_reasonUrl response))) s
  | pending =>
      notifyOnce (packageName d)
        (Notifications.showPending (packageName d) (version d)) s
  | scanning =>
      notifyOnce (packageName d)
        (Notifications.showScanning (packageName d) (version d)) s
  | not_found =>
      notifyOnce (packageName d)
        (Notifications.showNotFound (packageName d) (version d)) s
  end.

(** [startPolling] from its call to [await this.authManager.getConfig()]:
    the interval registered under the key is cleared, its entry stays. *)
Definition startPolling (uri : string) (dep : loc) (s : State) : State :=
  let k := key uri (packageName (deref s dep)) in
  let ts :=
    match pollingIntervals s !! k with
    | Some h => clearInterval h (timers s)
    | None => timers s
    end in
  mkState (fileCache s) (statusCache s) (pollingIntervals s)
          (pendingNotifications s) (hasRepository s) (heap s) ts
          (diagnostics s) (effects s) (starting s ++ [mkStart uri dep k]).

(** The rest of [startPolling], for the [n]-th call that waits: the
    interval is created and stored under the key, over whatever handle
    the key holds by then. *)
Definition startPolling_resumed (env : Env) (n : nat) (s : State) : State :=
  match starting s !! n with
  | None => s
  | Some c =>
      let pollInterval :=
        match getConfig env with
        | Some config =>
            if (pollIntervalMs config =? 0)%N then 10000%N
            else pollIntervalMs config
        | None => 10000%N
        end in
      let interval := length (timers s) in
      mkState (fileCache s) (statusCache s)
              (<[st_key c := interval]> (pollingIntervals s))
              (pendingNotifications s) (hasRepository s) (heap s)
              (timers s ++ [Some (mkInterval (st_uri c) (st_dep c) pollInterval)])
              (diagnostics s) (effects s) (delete n (starting s))
  end.

Definition stopPolling (uri : string) (dep : loc) (s : State) : State :=
  let name := packageName (deref s dep) in
  let k := key uri name in
  let '(pi, ts) :=
    match pollingIntervals s !! k with
    | Some h => (delete k (pollingIntervals s), clearInterval h (timers s))
    | None => (pollingIntervals s, timers s)
    end in
  mkState (fileCache s) (statusCache s) pi
          (pendingNotifications s ∖ {[name]}) (hasRepository s) (heap s) ts
          (diagnostics s) (effects s) (starting s).

(** [statusMap.set(dep.packageName, dep)], creating the map of the file
    when it has none. *)
Definition track (uri name : string) (dep : loc) (s : State) : State :=
  let statusMap := default [] (statusCache s !! uri) in
  mkState (fileCache s) (<[uri := Js.map_set statusMap name dep]> (statusCache s))
          (pollingIntervals s) (pendingNotifications s) (hasRepository s)
          (heap s) (timers s) (diagnostics s) (effects s) (starting s).

Definition handleNewDependency (env : Env) (uri : string) (d : DependencyInfo)
    (s : State) : State :=
  match getConfig env with
  | None => s
  | Some config =>
      let '(dep, s) := alloc d s in
      let s := track uri (packageName d) dep s in
      let payload := requestPayload uri d (hasRepository s) in
      let s := emit (ApiRequest payload) s in
      match request env payload with
      | Resolved response =>
          let s := set_status dep (status_of_response (r_status response)) s in
          let s := handleDependencyResponse env uri dep response s in
          if terminal (r_status response) then s else startPolling uri dep s
      | Rejected _ =>
          emit (Notify (Notifications.showError
                          ("Failed to validate " ++ packageName d))) s
      end
  end.

Definition checkDependencyStatus (env : Env) (uri : string) (dep : loc)
    (s : State) : State :=
  match getConfig env with
  | None => s
  | Some config =>
      let d := deref s dep in
      let payload := checkPayload d (hasRepository s) in
      let s := emit (ApiCheck payload) s in
      match check env payload with
      | Resolved response =>
          let s := set_status dep (status_of_response (r_status response)) s in
          let s := handleDependencyResponse env uri dep response s in
          if terminal (r_status response) then stopPolling uri dep s else s
      | Rejected _ => s
      end
  end.

(** [handleRemovedDependency], once it has its configuration, up to the
    call of [client.update]. *)
Definition removalSent (env : Env) (uri : string) (dep : loc) (s : State)
    : State :=
  let d := deref s dep in
  let s := stopPolling uri dep s in
  let s :=
    mkState (fileCache s) (statusCache s) (pollingIntervals s)
            (pendingNotifications s) (hasRepository s) (heap s) (timers s)
            (Diagnostics.removeDiagnostic uri (packageName d) (diagnostics s))
            (effects s) (starting s) in
  let payload := updatePayload d (now env) (hasRepository s) in
  emit (ApiUpdate payload) s.

(** What follows [await client.update(payload)]: [dep.status] is read
    when the call has been answered. *)
Definition removalAnswered (outcome : Promise unit) (dep : loc) (s : State)
    : State :=
  match outcome with
  | Resolved _ =>
      let d := deref s dep in
      if decide (status d = DENIED)
      then emit (Notify (Notifications.showRemovalConfirmed
                           (packageName d) (version d))) s
      else s
  | Rejected _ => s
  end.

Definition handleRemovedDependency (env : Env) (uri : string) (dep : loc)
    (s : State) : State :=
  match getConfig env with
  | None => s
  | Some config =>
      let payload := updatePayload (deref s dep) (now env) (hasRepository s) in
      removalAnswered (update env payload) dep (removalSent env uri dep s)
  end.

(** [statusMap.delete(depName)] on the map of [uri]. *)
Definition untrack (uri depName : string) (s : State) : State :=
  mkState (fileCache s)
          (alter (fun m => Js.map_delete m depName) uri (statusCache s))
          (pollingIntervals s) (pendingNotifications s) (hasRepository s)
          (heap s) (timers s) (diagnostics s) (effects s) (starting s).

(** The loop over [statusMap] in [handleFileChange]: every entry whose
    name is not among [currentDepNames] is handed to
    [handleRemovedDependency] and deleted. *)
Definition removeMissing (env : Env) (uri : string)
    (currentDepNames : list string) (s : State) : State :=
  match statusCache s !! uri with
  | None => s
  | Some statusMap =>
      fold_left
        (fun s e =>
           if existsb (String.eqb (fst e)) currentDepNames then s
           else untrack uri (fst e) (handleRemovedDependency env uri (snd e) s))
        statusMap s
  end.

(** [handleFileChange]; [content] is what [readFile] resolves with, or
    [None] when it rejects. *)
Definition handleFileChange (env : Env) (uri : string) (content : option string)
    (s : State) : State :=
  if Js.includes uri "node_modules" then s
  else
    match content with
    | None => s
    | Some currentContent =>
        let previousContent := default "" (fileCache s !! uri) in
        let newDependencies :=
          parseNewDependencies parser currentContent previousContent in
        let s := fold_left (fun s dep => handleNewDependency env uri dep s)
                           newDependencies s in
        let currentDeps := parseAllDependencies parser currentContent in
        let currentDepNames := packageName <$> currentDeps in
        let s := removeMissing env uri currentDepNames s in
        mkState (<[uri := currentContent]> (fileCache s)) (statusCache s)
                (pollingIntervals s) (pendingNotifications s) (hasRepository s)
                (heap s) (timers s) (diagnostics s) (effects s) (starting s)
    end.

Definition handleFileDelete (uri : string) (s : State) : State :=
  mkState (delete uri (fileCache s)) (delete uri (statusCache s))
          (pollingIntervals s) (pendingNotifications s) (hasRepository s)
          (heap s) (timers s) (Diagnostics.clearFile uri (diagnostics s))
          (effects s) (starting s).

(** One firing of the interval with handle [h]: its callback runs if the
    interval is still live. *)
Definition tick (env : Env) (h : nat) (s : State) : State :=
  match live s h with
  | Some i => checkDependencyStatus env (i_uri i) (i_dep i) s
  | None => s
  end.

(** The loop of [dispose]: [clearInterval] on every handle held in
    [pollingIntervals]. *)
Definition clearRegistered (s : State) : list (option Interval) :=
  map_fold (fun _ h ts => clearInterval h ts) (timers s) (pollingIntervals s).

(** [dispose]: the loop, then [pollingIntervals.clear()].  Intervals the
    registry does not hold and calls of [startPolling] that still wait
    are not reached. *)
Definition dispose (s : State) : State :=
  mkState (fileCache s) (statusCache s) ∅ (pendingNotifications s)
          (hasRepository s) (heap s) (clearRegistered s) (diagnostics s)
          (effects s) (starting s).

(** What can happen to a running watcher. *)
Inductive Event :=
  | FileChanged (env : Env) (uri : string) (content : option string)
  | FileDeleted (uri : string)
  | Tick (env : Env) (h : nat)
  | StartPollingResumed (env : Env) (n : nat)
  | Dispose.

Definition step (s : State) (e : Event) : State :=
  match e with
  | FileChanged env uri content => handleFileChange env uri content s
  | FileDeleted uri => handleFileDelete uri s
  | Tick env h => tick env h s
  | StartPollingResumed env n => startPolling_resumed env n s
  | Dispose => dispose s
  end.

Definition run (hasRepo : bool) (es : list Event) : State :=
  fold_left step es (init hasRepo).

(** The object tracked for a package of a manifest. *)
Definition tracked (s : State) (uri name : string) : option DependencyInfo :=
  deref s <$> (statusCache s !! uri ≫= fun m => Js.map_get m name).

(** The handle of the interval registered for a package of a manifest. *)
Definition pollTask (s : State) (uri name : string) : option nat :=
  pollingIntervals s !! key uri name.

(** The notification calls among the effects. *)
Definition notifications (s : State) : list Notifications.Call :=
  omap (fun e => match e with Notify c => Some c | _ => None end) (effects s).

(** The API calls among the effects. *)
Definition apiCalls (s : State) : list Effect :=
  List.filter (fun e => match e with Notify _ => false | _ => true end) (effects s).

(** *** Notions used to state the properties *)

Definition nameOf (s : State) (l : loc) : string := packageName (deref s l).

(** [frame s s']: [s'] has the intervals, the registry and the waiting
    calls of [s], and the objects of [s] kept their names. *)
Definition frame (s s' : State) : Prop :=
  pollingIntervals s' = pollingIntervals s /\
  timers s' = timers s /\
  starting s' = starting s /\
  length (heap s) <= length (heap s') /\
  forall l, l < length (heap s) -> nameOf s' l = nameOf s l.

(** Live intervals and waiting calls of [startPolling] refer to objects
    that exist. *)
Definition allocated (s : State) : Prop :=
  (forall h i, live s h = Some i -> i_dep i < length (heap s)) /\
  Forall (fun c => st_dep c < length (heap s)) (starting s).

(** The handle the registry holds for a key is cleared. *)
Definition clearHeld (held : option nat) (ts : list (option Interval))
    : list (option Interval) :=
  match held with
  | Some h => clearInterval h ts
  | None => ts
  end.

(** [wears s s']: the interval table of [s'] extends that of [s], and a
    slot of [s] is either as it was or cleared. *)
Definition wears (s s' : State) : Prop :=
  length (timers s) <= length (timers s') /\
  forall h, h < length (timers s) -> live s' h = None \/ live s' h = live s h.

Definition dwf (s : State) : Prop := Diagnostics.wf (diagnostics s).

Definition with_status (d : DependencyInfo) (st : ApprovalStatus) : DependencyInfo :=
  mkDependencyInfo (packageName d) (packageManager d) (version d) st.

(** The notification [handleDependencyResponse] selects for a response. *)
Definition verdictCall (d : DependencyInfo) (r : CheckResponse) : Notifications.Call :=
  match r_status r with
  | approved => Notifications.showApproved (packageName d) (version d) true
  | denied => Notifications.showDenied (packageName d) (version d) (r_message r)
                (r_reasonUrl r)
  | pending => Notifications.showPending (packageName d) (version d)
  | scanning => Notifications.showScanning (packageName d) (version d)
  | not_found => Notifications.showNotFound (packageName d) (version d)
  end.

(** An environment whose [check] never answers with a verdict. *)
Definition quiet (env : Env) : Prop :=
  forall p r, check env p = Resolved r -> terminal (r_status r) = false.

(** Successive firings of the interval of one dependency. *)
Definition pollAll (uri : string) (dep : loc) (envs : list Env) (s : State) : State :=
  fold_left (fun s env => checkDependencyStatus env uri dep s) envs s.

(** The [update] payloads among the effects. *)
Definition updates (s : State) : list UpdatePayload :=
  omap (fun e => match e with ApiUpdate p => Some p | _ => None end) (effects s).

(** One round of the loop, for the entry [e] of the status map. *)
Definition removeStep (env : Env) (uri : string) (currentDepNames : list string)
    (s : State) (e : string * loc) : State :=
  if existsb (String.eqb (fst e)) currentDepNames then s
  else untrack uri (fst e) (handleRemovedDependency env uri (snd e) s).

(** The [update] calls the loop makes for the entries it removes: none
    without a configuration. *)
Definition removalUpdates (env : Env) (s : State) (entries : list (string * loc))
    : list UpdatePayload :=
  match getConfig env with
  | Some _ =>
      (fun e => updatePayload (deref s (snd e)) (now env) (hasRepository s))
        <$> entries
  | None => []
  end.

(** The diagnostic [handleDependencyResponse] files for a response. *)
Definition diagnosticFor (env : Env) (uri : string) (d : DependencyInfo)
    (r : CheckResponse) : Diagnostics.DependencyDiagnostic :=
  Diagnostics.mkDiag (packageName d) (version d) (r_status r) (r_message r)
    (findDependencyLine env uri (packageName d)) (r_reasonUrl r).

(** The status map of a manifest after the removal loop ran without a
    configuration: the names missing from the revision are gone. *)
Definition keepCurrent (currentDepNames : list string)
    (entries : list (string * loc)) (statusMap : Js.Map loc) : Js.Map loc :=
  fold_left
    (fun m e => if existsb (String.eqb (fst e)) currentDepNames then m
                else Js.map_delete m (fst e))
    entries statusMap.

(** An approval is notified silently. *)
Definition silentApproval (e : Effect) : Prop :=
  match e with
  | Notify (Notifications.showApproved _ _ silent) => silent = true
  | _ => True
  end.

(** Two objects describe the same package: they differ in [status] at
    most. *)
Definition sameIdentity (d d' : DependencyInfo) : Prop :=
  packageName d = packageName d' /\ packageManager d = packageManager d' /\
  version d = version d'.

(** [s'] holds every object of [s], each with the identity it had. *)
Definition keeps (s s' : State) : Prop :=
  length (heap s) <= length (heap s') /\
  forall l, l < length (heap s) -> sameIdentity (deref s l) (deref s' l).

(** *** Framing: what leaves the polling registry alone *)

Lemma frame_refl s : frame s s.
Proof. repeat split; auto. Qed.

Lemma frame_trans s1 s2 s3 : frame s1 s2 -> frame s2 s3 -> frame s1 s3.
Proof.
  intros (Hp & Ht & Hs & Hl & Hn) (Hp' & Ht' & Hs' & Hl' & Hn'). repeat split.
  - congruence.
  - congruence.
  - congruence.
  - lia.
  - intros l Hlt. rewrite Hn' by lia. auto.
Qed.

Lemma frame_allocated s s' : allocated s -> frame s s' -> allocated s'.
Proof.
  intros [Hlive Hwait] (Hp & Ht & Hs & Hl & Hn). split.
  - intros h i Hi. unfold live in *. rewrite Ht in Hi.
    specialize (Hlive h i Hi). lia.
  - rewrite Hs. eapply Forall_impl; [exact Hwait|]. simpl. intros c Hc. lia.
Qed.

Lemma emit_frame e s : frame s (emit e s).
Proof. repeat split; auto. Qed.

Lemma set_status_name l st s l' : nameOf (set_status l st s) l' = nameOf s l'.
Proof.
  unfold nameOf, deref, set_status. simpl.
  destruct (decide (l = l')) as [->|Hne].
  - destruct (heap s !! l') as [d|] eqn:E.
    + rewrite list_lookup_insert_eq by (by eapply lookup_lt_Some).
      simpl. unfold deref. by rewrite E.
    + rewrite list_insert_ge by (by apply lookup_ge_None). by rewrite E.
  - by rewrite list_lookup_insert_ne.
Qed.

Lemma set_status_frame l st s : frame s (set_status l st s).
Proof.
  repeat split; auto.
  - simpl. by rewrite length_insert.
  - intros l' _. apply set_status_name.
Qed.

Lemma alloc_frame d s : frame s (alloc d s).2.
Proof.
  repeat split; auto.
  - simpl. rewrite length_app. lia.
  - intros l Hl. unfold nameOf, deref. simpl. by rewrite lookup_app_l.
Qed.

Lemma track_frame uri n dep s : frame s (track uri n dep s).
Proof. repeat split; auto. Qed.

Lemma untrack_frame uri n s : frame s (untrack uri n s).
Proof. repeat split; auto. Qed.

Lemma notifyOnce_frame n c s : frame s (notifyOnce n c s).
Proof. unfold notifyOnce. case_decide; repeat split; auto. Qed.

Lemma handleDependencyResponse_frame env uri dep r s :
  frame s (handleDependencyResponse env uri dep r s).
Proof.
  unfold handleDependencyResponse.
  destruct (r_status r);
    (eapply frame_trans; [|apply emit_frame || apply notifyOnce_frame]);
    repeat split; auto.
Qed.

Lemma removalAnswered_frame outcome dep s : frame s (removalAnswered outcome dep s).
Proof.
  unfold removalAnswered. destruct outcome; [case_decide|];
    apply frame_refl || apply emit_frame.
Qed.

Lemma live_clear h h' ts :
  mjoin (clearInterval h ts !! h') = if decide (h = h') then None else mjoin (ts !! h').
Proof.
  unfold clearInterval. case_decide as Hh.
  - subst h'. destruct (ts !! h) eqn:E.
    + rewrite list_lookup_insert_eq by (by eapply lookup_lt_Some). done.
    + rewrite list_insert_ge by (by apply lookup_ge_None). by rewrite E.
  - by rewrite list_lookup_insert_ne.
Qed.

Lemma live_lt s h i : live s h = Some i -> h < length (timers s).
Proof.
  unfold live. destruct (timers s !! h) eqn:E; [|done].
  intros _. by eapply lookup_lt_Some.
Qed.

Lemma clearHeld_length held ts : length (clearHeld held ts) = length ts.
Proof. destruct held; [apply length_insert|done]. Qed.

(** Clearing the handle a key holds kills that interval and no other. *)
Lemma clearHeld_live held ts h :
  mjoin (clearHeld held ts !! h)
  = if decide (held = Some h) then None else mjoin (ts !! h).
Proof.
  destruct held as [h0|]; simpl.
  - rewrite live_clear. repeat case_decide; congruence.
  - done.
Qed.

(** *** The two halves of [startPolling], and [stopPolling] *)

Lemma startPolling_spec uri dep s :
  let s' := startPolling uri dep s in
  let k := key uri (nameOf s dep) in
  starting s' = (starting s ++ [mkStart uri dep k])%list /\
  pollingIntervals s' = pollingIntervals s /\
  timers s' = clearHeld (pollingIntervals s !! k) (timers s) /\
  (forall h, live s' h
             = if decide (pollingIntervals s !! k = Some h) then None else live s h).
Proof.
  simpl. repeat split. intros h. unfold live, startPolling, nameOf. simpl.
  apply (clearHeld_live (pollingIntervals s !! key uri (packageName (deref s dep)))).
Qed.

Lemma startPolling_same uri dep s :
  let s' := startPolling uri dep s in
  fileCache s' = fileCache s /\ statusCache s' = statusCache s /\
  heap s' = heap s /\ effects s' = effects s /\
  pendingNotifications s' = pendingNotifications s.
Proof. simpl. auto. Qed.

(** When a waiting call resumes, its interval gets a fresh handle, is
    live and is the one its key holds; no other interval is touched, and
    no other key. *)
Lemma startPolling_resumed_spec env n c s :
  starting s !! n = Some c ->
  let s' := startPolling_resumed env n s in
  let h := length (timers s) in
  exists delay,
    delay = match getConfig env with
            | Some config =>
                if (pollIntervalMs config =? 0)%N then 10000%N
                else pollIntervalMs config
            | None => 10000%N
            end /\
    timers s' = (timers s ++ [Some (mkInterval (st_uri c) (st_dep c) delay)])%list /\
    pollingIntervals s' = <[st_key c := h]> (pollingIntervals s) /\
    starting s' = delete n (starting s) /\
    live s' h = Some (mkInterval (st_uri c) (st_dep c) delay) /\
    (forall h', h' <> h -> live s' h' = live s h').
Proof.
  intros Hc. simpl. unfold startPolling_resumed. rewrite Hc.
  eexists. split; [reflexivity|]. cbn [timers pollingIntervals starting].
  split; [done|]. split; [done|]. split; [done|]. unfold live. cbn [timers]. split.
  - by rewrite list_lookup_middle.
  - intros h' Hne. destruct (decide (h' < length (timers s))) as [Hlt|Hge].
    + by rewrite lookup_app_l.
    + rewrite !lookup_ge_None_2; [done|lia|]. rewrite length_app. simpl. lia.
Qed.

Lemma startPolling_resumed_same env n s :
  let s' := startPolling_resumed env n s in
  fileCache s' = fileCache s /\ statusCache s' = statusCache s /\
  heap s' = heap s /\ effects s' = effects s /\
  pendingNotifications s' = pendingNotifications s /\
  hasRepository s' = hasRepository s /\ diagnostics s' = diagnostics s.
Proof.
  simpl. unfold startPolling_resumed. destruct (starting s !! n); simpl; auto 10.
Qed.

Lemma stopPolling_spec uri dep s :
  let s' := stopPolling uri dep s in
  let k := key uri (nameOf s dep) in
  pollingIntervals s' = delete k (pollingIntervals s) /\
  timers s' = clearHeld (pollingIntervals s !! k) (timers s) /\
  starting s' = starting s /\ heap s' = heap s /\
  (forall h, live s' h
             = if decide (pollingIntervals s !! k = Some h) then None else live s h).
Proof.
  simpl. unfold stopPolling, nameOf, live.
  destruct (pollingIntervals s !! key uri (packageName (deref s dep))) as [h0|] eqn:Ek;
    cbn [pollingIntervals timers starting heap clearHeld].
  - repeat split; auto. intros h. rewrite live_clear.
    repeat case_decide; congruence.
  - split; [by rewrite delete_id|]. repeat split; auto.
Qed.

(** *** Live intervals and waiting calls refer to allocated objects *)

Lemma startPolling_allocated uri dep s :
  allocated s -> dep < length (heap s) -> allocated (startPolling uri dep s).
Proof.
  intros [Hlive Hwait] Hdep.
  destruct (startPolling_spec uri dep s) as (Hs & _ & _ & Hl). cbv zeta in *.
  split.
  - intros h i. rewrite Hl. case_decide; [done|]. apply Hlive.
  - rewrite Hs. apply Forall_app. split; [exact Hwait|]. by constructor.
Qed.

Lemma startPolling_resumed_allocated env n s :
  allocated s -> allocated (startPolling_resumed env n s).
Proof.
  intros [Hlive Hwait]. destruct (starting s !! n) as [c|] eqn:Hc.
  - destruct (startPolling_resumed_spec env n c s Hc)
      as (delay & _ & _ & _ & Hs & Hh & Hother). cbv zeta in *.
    destruct (startPolling_resumed_same env n s) as (_ & _ & Hheap & _).
    cbv zeta in Hheap. split.
    + intros h i. rewrite Hheap.
      destruct (decide (h = length (timers s))) as [->|Hne].
      * rewrite Hh. intros [= <-]. simpl.
        rewrite Forall_forall in Hwait. apply Hwait.
        by eapply list_elem_of_lookup_2.
      * rewrite (Hother h Hne). apply Hlive.
    + rewrite Hs, Hheap. by apply Forall_delete.
  - unfold startPolling_resumed. by rewrite Hc.
Qed.

Lemma stopPolling_allocated uri dep s : allocated s -> allocated (stopPolling uri dep s).
Proof.
  intros [Hlive Hwait].
  destruct (stopPolling_spec uri dep s) as (_ & _ & Hs & Hheap & Hl). cbv zeta in *.
  split.
  - intros h i. rewrite Hl, Hheap. case_decide; [done|]. apply Hlive.
  - by rewrite Hs, Hheap.
Qed.

Ltac frame_chain :=
  repeat first
    [ apply frame_refl
    | eapply frame_trans;
      [| first [ apply emit_frame | apply set_status_frame
               | apply handleDependencyResponse_frame | apply track_frame
               | apply untrack_frame | apply notifyOnce_frame
               | apply removalAnswered_frame ] ] ].

Lemma handleNewDependency_allocated env uri d s :
  allocated s -> allocated (handleNewDependency env uri d s).
Proof.
  intros Hinv. unfold handleNewDependency.
  destruct (getConfig env) as [config|]; [|done].
  pose proof (alloc_frame d s) as Ha. unfold alloc in *. simpl in *.
  match goal with |- context [request env ?p] => destruct (request env p) as [r|] end.
  - match goal with
    | |- allocated (if _ then ?a else startPolling _ ?dep ?a') =>
        assert (Hf : frame (alloc d s).2 a) by frame_chain
    end.
    pose proof (frame_trans _ _ _ Ha Hf) as Hf'.
    destruct (terminal (r_status r)).
    + eapply frame_allocated; eauto.
    + apply startPolling_allocated; [eapply frame_allocated; eauto|].
      destruct Hf as (_ & _ & _ & Hlen & _). unfold alloc in Hlen. simpl in Hlen.
      rewrite length_app in Hlen. simpl in Hlen. lia.
  - eapply frame_allocated; [exact Hinv|]. frame_chain. exact Ha.
Qed.

Lemma checkDependencyStatus_allocated env uri dep s :
  allocated s -> allocated (checkDependencyStatus env uri dep s).
Proof.
  intros Hinv. unfold checkDependencyStatus.
  destruct (getConfig env) as [config|]; [|done].
  match goal with |- context [check env ?p] => destruct (check env p) as [r|] end.
  - match goal with
    | |- allocated (if _ then stopPolling _ _ ?a else _) =>
        assert (Hf : allocated a) by (eapply frame_allocated; [exact Hinv|frame_chain])
    end.
    destruct (terminal (r_status r)); [by apply stopPolling_allocated|done].
  - eapply frame_allocated; [exact Hinv|frame_chain].
Qed.

Lemma removalSent_allocated env uri dep s :
  allocated s -> allocated (removalSent env uri dep s).
Proof.
  intros Hinv. unfold removalSent.
  pose proof (stopPolling_allocated uri dep s Hinv) as Hs.
  eapply frame_allocated; [exact Hs|]. frame_chain. repeat split; auto.
Qed.

Lemma handleRemovedDependency_allocated env uri dep s :
  allocated s -> allocated (handleRemovedDependency env uri dep s).
Proof.
  intros Hinv. unfold handleRemovedDependency.
  destruct (getConfig env) as [config|]; [|done].
  eapply frame_allocated; [apply removalSent_allocated, Hinv|].
  apply removalAnswered_frame.
Qed.

Lemma fold_left_preserves {A} (P : State -> Prop) (f : State -> A -> State)
    (l : list A) (s : State) :
  (forall s a, P s -> P (f s a)) -> P s -> P (fold_left f l s).
Proof. intros Hf. revert s. induction l; simpl; auto. Qed.

Lemma removeMissing_allocated env uri names s :
  allocated s -> allocated (removeMissing env uri names s).
Proof.
  intros Hinv. unfold removeMissing.
  destruct (statusCache s !! uri) as [m|]; [|done].
  apply (fold_left_preserves allocated); [|done].
  intros s' e Hs'. destruct (existsb _ names); [done|].
  eapply frame_allocated; [apply handleRemovedDependency_allocated, Hs'
                          |apply untrack_frame].
Qed.

Lemma handleFileChange_allocated env uri content s :
  allocated s -> allocated (handleFileChange env uri content s).
Proof.
  intros Hinv. unfold handleFileChange.
  destruct (Js.includes uri "node_modules"); [done|].
  destruct content as [c|]; [|done].
  eapply frame_allocated; [|repeat split; auto].
  apply removeMissing_allocated, (fold_left_preserves allocated); [|done].
  intros s' dep. apply handleNewDependency_allocated.
Qed.

(** *** Shutting down *)

Lemma clearRegistered_spec (T : list (option Interval)) (m : gmap string nat) :
  let ts := map_fold (fun _ h ts => clearInterval h ts) T m in
  length ts = length T /\
  (forall k h, m !! k = Some h -> h < length T -> ts !! h = Some None) /\
  (forall h x, ts !! h = Some x -> x = None \/ T !! h = Some x) /\
  (forall h, (forall k, m !! k <> Some h) -> ts !! h = T !! h).
Proof.
  simpl.
  apply (map_fold_weak_ind
           (fun ts m =>
              length ts = length T /\
              (forall k h, m !! k = Some h -> h < length T -> ts !! h = Some None) /\
              (forall h x, ts !! h = Some x -> x = None \/ T !! h = Some x) /\
              (forall h, (forall k, m !! k <> Some h) -> ts !! h = T !! h))).
  - split; [done|]. split; [|split; [by right|done]].
    intros k h. by rewrite lookup_empty.
  - intros k h m' ts Hk (Hlen & Hreg & Hold & Hout). unfold clearInterval.
    split; [by rewrite length_insert|]. split; [|split].
    + intros k' h' Hk' Hlt. destruct (decide (h' = h)) as [->|Hne].
      * apply list_lookup_insert_eq. by rewrite Hlen.
      * rewrite list_lookup_insert_ne by done.
        rewrite lookup_insert in Hk'. case_decide; [congruence|].
        by apply (Hreg k').
    + intros h' x. destruct (decide (h' = h)) as [->|Hne].
      * destruct (decide (h < length ts)) as [Hlt|Hge].
        -- rewrite list_lookup_insert_eq by done. intros [= <-]. by left.
        -- rewrite list_insert_ge by lia. apply Hold.
      * rewrite list_lookup_insert_ne by done. apply Hold.
    + intros h' Hh'. assert (Hne : h' <> h).
      { intros ->. apply (Hh' k). by rewrite lookup_insert_eq. }
      rewrite list_lookup_insert_ne by done. apply Hout.
      intros k' Hk'. apply (Hh' k'). rewrite lookup_insert_ne; [done|].
      intros ->. congruence.
Qed.

(** [dispose] clears the intervals the registry holds, and only them. *)
Lemma dispose_live s :
  (forall k h, pollingIntervals s !! k = Some h -> live (dispose s) h = None) /\
  (forall h, (forall k, pollingIntervals s !! k <> Some h) ->
     live (dispose s) h = live s h) /\
  (forall h, live (dispose s) h = None \/ live (dispose s) h = live s h).
Proof.
  unfold live, dispose, clearRegistered. cbn [timers].
  destruct (clearRegistered_spec (timers s) (pollingIntervals s))
    as (Hlen & Hreg & Hold & Hout).
  split; [|split].
  - intros k h Hk. destruct (decide (h < length (timers s))) as [Hlt|Hge].
    + by rewrite (Hreg k h Hk Hlt).
    + rewrite lookup_ge_None_2; [done|]. rewrite Hlen. lia.
  - intros h Hh. by rewrite Hout.
  - intros h. destruct (map_fold _ _ _ !! h) as [x|] eqn:Ex; [|by left].
    destruct (Hold h x Ex) as [->|Hx]; [by left|]. right. by rewrite Hx.
Qed.

Lemma dispose_allocated s : allocated s -> allocated (dispose s).
Proof.
  intros [Hlive Hwait]. split; [|exact Hwait].
  intros h i. destruct (dispose_live s) as (_ & _ & Hd).
  destruct (Hd h) as [He|He]; rewrite He; [done|]. apply Hlive.
Qed.

Lemma step_allocated s e : allocated s -> allocated (step s e).
Proof.
  intros Hinv. destruct e as [env uri c|uri|env h|env n|]; simpl.
  - by apply handleFileChange_allocated.
  - eapply frame_allocated; [exact Hinv|repeat split; auto].
  - unfold tick. destruct (live s h); [by apply checkDependencyStatus_allocated|done].
  - by apply startPolling_resumed_allocated.
  - by apply dispose_allocated.
Qed.

Lemma init_allocated b : allocated (init b).
Proof. split; [|constructor]. intros h i. unfold live. simpl. by destruct h. Qed.

Lemma run_allocated b es : allocated (run b es).
Proof.
  unfold run.
  apply (fold_left_preserves allocated); [apply step_allocated|apply init_allocated].
Qed.

(** *** Cleared intervals stay cleared *)

Lemma wears_refl s : wears s s.
Proof. split; [lia|]. intros h _. by right. Qed.

Lemma wears_trans s1 s2 s3 : wears s1 s2 -> wears s2 s3 -> wears s1 s3.
Proof.
  intros [Hl H] [Hl' H']. split; [lia|]. intros h Hh.
  destruct (H' h ltac:(lia)) as [Hd|He]; [by left|].
  rewrite He. by apply H.
Qed.

Lemma wears_timers s s' : timers s' = timers s -> wears s s'.
Proof.
  intros Ht. split; [by rewrite Ht|]. intros h _. right. unfold live. by rewrite Ht.
Qed.

Lemma frame_wears s s' : frame s s' -> wears s s'.
Proof. intros (_ & Ht & _). by apply wears_timers. Qed.

Lemma startPolling_wears uri dep s : wears s (startPolling uri dep s).
Proof.
  destruct (startPolling_spec uri dep s) as (_ & _ & Ht & Hl). cbv zeta in *.
  split; [by rewrite Ht, clearHeld_length|].
  intros h _. rewrite Hl. case_decide; auto.
Qed.

Lemma stopPolling_wears uri dep s : wears s (stopPolling uri dep s).
Proof.
  destruct (stopPolling_spec uri dep s) as (_ & Ht & _ & _ & Hl). cbv zeta in *.
  split; [by rewrite Ht, clearHeld_length|].
  intros h _. rewrite Hl. case_decide; auto.
Qed.

Lemma startPolling_resumed_wears env n s : wears s (startPolling_resumed env n s).
Proof.
  destruct (starting s !! n) as [c|] eqn:Hc.
  - destruct (startPolling_resumed_spec env n c s Hc)
      as (delay & _ & Ht & _ & _ & _ & Hother). cbv zeta in *.
    split; [rewrite Ht, length_app; lia|].
    intros h Hh. right. apply Hother. lia.
  - unfold startPolling_resumed. rewrite Hc. apply wears_refl.
Qed.

Lemma dispose_wears s : wears s (dispose s).
Proof.
  split.
  - unfold dispose, clearRegistered. cbn [timers].
    by destruct (clearRegistered_spec (timers s) (pollingIntervals s)) as (-> & _).
  - intros h _. by destruct (dispose_live s) as (_ & _ & Hd).
Qed.

Lemma handleNewDependency_wears env uri d s : wears s (handleNewDependency env uri d s).
Proof.
  unfold handleNewDependency.
  destruct (getConfig env) as [config|]; [|apply wears_refl].
  unfold alloc. cbn [fst snd]. cbv zeta.
  match goal with |- context [request env ?p] => destruct (request env p) as [r|] end;
    [|by apply wears_timers].
  match goal with
  | |- wears s (if _ then ?a else startPolling _ ?dep ?a') =>
      assert (Hw : wears s a)
  end.
  { eapply wears_trans; [|apply frame_wears, handleDependencyResponse_frame].
    by apply wears_timers. }
  destruct (terminal (r_status r)); [exact Hw|].
  eapply wears_trans; [exact Hw|apply startPolling_wears].
Qed.

Lemma checkDependencyStatus_wears env uri dep s :
  wears s (checkDependencyStatus env uri dep s).
Proof.
  unfold checkDependencyStatus.
  destruct (getConfig env) as [config|]; [|apply wears_refl]. cbv zeta.
  match goal with |- context [check env ?p] => destruct (check env p) as [r|] end;
    [|by apply wears_timers].
  match goal with
  | |- wears s (if _ then stopPolling _ _ ?a else _) => assert (Hw : wears s a)
  end.
  { eapply wears_trans; [|apply frame_wears, handleDependencyResponse_frame].
    by apply wears_timers. }
  destruct (terminal (r_status r)); [|exact Hw].
  eapply wears_trans; [exact Hw|apply stopPolling_wears].
Qed.

Lemma removalSent_wears env uri dep s : wears s (removalSent env uri dep s).
Proof.
  unfold removalSent. eapply wears_trans; [apply stopPolling_wears|].
  by apply wears_timers.
Qed.

Lemma handleRemovedDependency_wears env uri dep s :
  wears s (handleRemovedDependency env uri dep s).
Proof.
  unfold handleRemovedDependency.
  destruct (getConfig env) as [config|]; [|apply wears_refl].
  eapply wears_trans; [apply removalSent_wears|].
  apply frame_wears, removalAnswered_frame.
Qed.

Lemma fold_left_wears {A} (f : State -> A -> State) (l : list A) (s : State) :
  (forall s a, wears s (f s a)) -> wears s (fold_left f l s).
Proof.
  intros Hf. revert s. induction l as [|a l IH]; intros s; [apply wears_refl|].
  cbn [fold_left]. eapply wears_trans; [apply Hf|apply IH].
Qed.

Lemma step_wears s e : wears s (step s e).
Proof.
  destruct e as [env uri c|uri|env h|env n|]; simpl.
  - unfold handleFileChange.
    destruct (Js.includes uri "node_modules"); [apply wears_refl|].
    destruct c as [c|]; [|apply wears_refl]. cbv zeta.
    match goal with |- wears s (mkState _ _ _ _ _ _ (timers ?t) _ _ _) =>
      apply (wears_trans _ t); [|by apply wears_timers]
    end.
    match goal with |- context [fold_left ?f ?l s] =>
      apply (wears_trans _ (fold_left f l s));
        [apply (fold_left_wears f l s); intros; apply handleNewDependency_wears|];
      generalize (fold_left f l s) as s1
    end.
    intros s1. unfold removeMissing.
    destruct (statusCache s1 !! uri) as [m|]; [|apply wears_refl].
    apply fold_left_wears. intros t e.
    destruct (existsb _ _); [apply wears_refl|].
    eapply wears_trans; [apply handleRemovedDependency_wears|].
    by apply wears_timers.
  - by apply wears_timers.
  - unfold tick. destruct (live s h); [apply checkDependencyStatus_wears|apply wears_refl].
  - apply startPolling_resumed_wears.
  - apply dispose_wears.
Qed.

(** An interval that was cleared is never live again, whatever happens
    afterwards. *)
Lemma cleared_for_good s es h :
  h < length (timers s) -> live s h = None -> live (fold_left step es s) h = None.
Proof.
  assert (Hw : wears s (fold_left step es s)).
  { apply fold_left_wears. intros. apply step_wears. }
  intros Hlt Hdead. destruct Hw as [_ Hw].
  destruct (Hw h Hlt) as [Hd|He]; [done|]. by rewrite He.
Qed.

(** *** The handlers keep the diagnostics well formed *)

Lemma handleDependencyResponse_diagnostics env uri dep r s :
  diagnostics (handleDependencyResponse env uri dep r s) =
  Diagnostics.addDiagnostic uri
    (Diagnostics.mkDiag (nameOf s dep) (version (deref s dep)) (r_status r)
       (r_message r) (findDependencyLine env uri (nameOf s dep)) (r_reasonUrl r))
    (diagnostics s).
Proof.
  unfold handleDependencyResponse, notifyOnce.
  destruct (r_status r); simpl; try case_decide; reflexivity.
Qed.

Lemma handleNewDependency_dwf env uri d s :
  dwf s -> dwf (handleNewDependency env uri d s).
Proof.
  unfold dwf, handleNewDependency. intros Hwf.
  destruct (getConfig env) as [config|]; [|done]. simpl.
  match goal with |- context [request env ?p] => destruct (request env p) as [r|] end;
    [|done].
  destruct (terminal (r_status r)); simpl;
    rewrite handleDependencyResponse_diagnostics;
    by apply Diagnostics.addDiagnostic_wf.
Qed.

Lemma checkDependencyStatus_dwf env uri dep s :
  dwf s -> dwf (checkDependencyStatus env uri dep s).
Proof.
  unfold dwf, checkDependencyStatus. intros Hwf.
  destruct (getConfig env) as [config|]; [|done].
  match goal with |- context [check env ?p] => destruct (check env p) as [r|] end;
    [|done].
  destruct (terminal (r_status r)).
  - unfold stopPolling.
    match goal with |- context [pollingIntervals ?a !! ?k] =>
      destruct (pollingIntervals a !! k) end; simpl;
      rewrite handleDependencyResponse_diagnostics;
      by apply Diagnostics.addDiagnostic_wf.
  - rewrite handleDependencyResponse_diagnostics.
    by apply Diagnostics.addDiagnostic_wf.
Qed.

Lemma stopPolling_diagnostics uri dep s :
  diagnostics (stopPolling uri dep s) = diagnostics s.
Proof.
  unfold stopPolling.
  by destruct (pollingIntervals s !! key uri (packageName (deref s dep))).
Qed.

Lemma handleRemovedDependency_dwf env uri dep s :
  dwf s -> dwf (handleRemovedDependency env uri dep s).
Proof.
  unfold dwf, handleRemovedDependency. intros Hwf.
  destruct (getConfig env) as [config|]; [|done]. cbv zeta.
  unfold removalAnswered, removalSent.
  match goal with |- context [update env ?p] => destruct (update env p) end;
    [case_decide|]; simpl; rewrite stopPolling_diagnostics;
    by apply Diagnostics.removeDiagnostic_wf.
Qed.

Lemma step_dwf s e : dwf s -> dwf (step s e).
Proof.
  intros Hwf. destruct e as [env uri c|uri|env h|env n|]; simpl.
  - unfold handleFileChange.
    destruct (Js.includes uri "node_modules"); [done|].
    destruct c as [c|]; [|done]. unfold dwf. simpl.
    unfold removeMissing.
    match goal with |- context [fold_left ?f ?l s] => set (s1 := fold_left f l s) end.
    assert (H1 : dwf s1).
    { apply (fold_left_preserves dwf); [|done].
      intros ??. apply handleNewDependency_dwf. }
    destruct (statusCache s1 !! uri); [|done].
    apply (fold_left_preserves dwf); [|done].
    intros s' e Hs'. destruct (existsb _ _); [done|].
    apply (handleRemovedDependency_dwf env uri e.2) in Hs'. exact Hs'.
  - apply (Diagnostics.step_wf _ (Diagnostics.ClearFile uri)), Hwf.
  - unfold tick. destruct (live s h); [by apply checkDependencyStatus_dwf|done].
  - unfold dwf, startPolling_resumed. by destruct (starting s !! n).
  - done.
Qed.

Lemma run_dwf b es : dwf (run b es).
Proof.
  unfold run. apply (fold_left_preserves dwf); [apply step_dwf|].
  apply Diagnostics.empty_wf.
Qed.

(** *** What each handler does to the tracked objects and the registry *)

Lemma handleDependencyResponse_same env uri dep r s :
  let s' := handleDependencyResponse env uri dep r s in
  fileCache s' = fileCache s /\ statusCache s' = statusCache s /\
  pollingIntervals s' = pollingIntervals s /\ hasRepository s' = hasRepository s /\
  heap s' = heap s /\ timers s' = timers s /\ starting s' = starting s.
Proof.
  unfold handleDependencyResponse, notifyOnce.
  destruct (r_status r); simpl; try case_decide; simpl; auto 10.
Qed.

Lemma handleDependencyResponse_effects env uri dep r s :
  let s' := handleDependencyResponse env uri dep r s in
  let d := deref s dep in
  if terminal (r_status r) then
    effects s' = (effects s ++ [Notify (verdictCall d r)])%list /\
    pendingNotifications s' = pendingNotifications s
  else if decide (packageName d ∈ pendingNotifications s) then
    effects s' = effects s /\ pendingNotifications s' = pendingNotifications s
  else
    effects s' = (effects s ++ [Notify (verdictCall d r)])%list /\
    pendingNotifications s' = {[packageName d]} ∪ pendingNotifications s.
Proof.
  unfold handleDependencyResponse, notifyOnce, verdictCall.
  destruct (r_status r); simpl; try done; case_decide; simpl; done.
Qed.

Lemma map_get_set {V} (m : Js.Map V) k v : Js.map_get (Js.map_set m k v) k = Some v.
Proof.
  unfold Js.map_get. induction m as [|[k' v'] m IH]; simpl.
  - by rewrite String.eqb_refl.
  - destruct (String.eqb k' k) eqn:E; simpl.
    + by rewrite String.eqb_refl.
    + by rewrite E.
Qed.

Lemma tracked_intro s uri n m l :
  statusCache s !! uri = Some m -> Js.map_get m n = Some l ->
  tracked s uri n = Some (deref s l).
Proof. intros Hm Hl. unfold tracked. rewrite Hm. simpl. by rewrite Hl. Qed.

(** A submission that is answered: the object is tracked with the status
    of the answer; a verdict starts nothing, any other status calls
    [startPolling], which clears the interval the key holds and waits. *)
Lemma handleNewDependency_resolved env uri d s config r :
  getConfig env = Some config ->
  request env (requestPayload uri d (hasRepository s)) = Resolved r ->
  let s' := handleNewDependency env uri d s in
  let dep := length (heap s) in
  let k := key uri (packageName d) in
  tracked s' uri (packageName d)
    = Some (with_status d (status_of_response (r_status r))) /\
  deref s' dep = with_status d (status_of_response (r_status r)) /\
  pollingIntervals s' = pollingIntervals s /\
  if terminal (r_status r)
  then timers s' = timers s /\ starting s' = starting s
  else starting s' = (starting s ++ [mkStart uri dep k])%list /\
       timers s' = clearHeld (pollingIntervals s !! k) (timers s).
Proof.
  intros Hc Hr. unfold handleNewDependency. rewrite Hc. cbn zeta.
  unfold alloc. cbn [fst snd]. simpl hasRepository. rewrite Hr.
  match goal with
  | |- context [handleDependencyResponse env uri ?dep r ?a] =>
      set (s0 := a); set (s1 := handleDependencyResponse env uri dep r s0)
  end.
  cbv zeta.
  pose proof (handleDependencyResponse_same env uri (length (heap s)) r s0)
    as (_ & Hsc & Hpi & _ & Hh & Ht & Hst). fold s1 in Hsc, Hpi, Hh, Ht, Hst.
  assert (Hd0 : deref s0 (length (heap s))
                = with_status d (status_of_response (r_status r))).
  { unfold deref, s0, set_status. simpl.
    rewrite list_lookup_insert_eq by (rewrite length_app; simpl; lia).
    simpl. unfold deref. simpl. by rewrite list_lookup_middle. }
  assert (Hd1 : deref s1 (length (heap s))
                = with_status d (status_of_response (r_status r))).
  { unfold deref. rewrite Hh. exact Hd0. }
  assert (Htr : statusCache s1 !! uri
                = Some (Js.map_set (default [] (statusCache s !! uri))
                          (packageName d) (length (heap s)))).
  { rewrite Hsc. unfold s0. simpl. by rewrite lookup_insert_eq. }
  destruct (terminal (r_status r)).
  - rewrite (tracked_intro _ _ _ _ _ Htr (map_get_set _ _ _)), Hd1.
    repeat split; auto.
  - destruct (startPolling_same uri (length (heap s)) s1) as (_ & Hsc' & Hh' & _).
    assert (Hd2 : deref (startPolling uri (length (heap s)) s1) (length (heap s))
                  = with_status d (status_of_response (r_status r))).
    { unfold deref. rewrite Hh'. exact Hd1. }
    rewrite <- Hsc' in Htr.
    rewrite (tracked_intro _ _ _ _ _ Htr (map_get_set _ _ _)), Hd2.
    destruct (startPolling_spec uri (length (heap s)) s1) as (Hs & Hp & Htm & _).
    cbv zeta in Hs, Hp, Htm. unfold nameOf in Hs, Htm. rewrite Hd1 in Hs, Htm.
    cbn [with_status packageName] in Hs, Htm.
    rewrite Hs, Hp, Htm, Hpi, Ht, Hst. repeat split; auto.
Qed.

Lemma handleNewDependency_rejected env uri d s config reason :
  getConfig env = Some config ->
  request env (requestPayload uri d (hasRepository s)) = Rejected reason ->
  let s' := handleNewDependency env uri d s in
  tracked s' uri (packageName d) = Some d /\
  timers s' = timers s /\ pollingIntervals s' = pollingIntervals s /\
  starting s' = starting s.
Proof.
  intros Hc Hr. unfold handleNewDependency. rewrite Hc. cbn zeta.
  unfold alloc. cbn [fst snd]. simpl hasRepository. rewrite Hr.
  split; [|done].
  erewrite tracked_intro; [| simpl; apply lookup_insert_eq | apply map_get_set].
  unfold deref. simpl. by rewrite list_lookup_middle.
Qed.

(** A poll that is answered records the status of the answer; a verdict
    makes it call [stopPolling], which drops the entry of the key and
    clears the interval the key holds. *)
Lemma tick_resolved env h i s config r :
  i_dep i < length (heap s) -> live s h = Some i -> getConfig env = Some config ->
  check env (checkPayload (deref s (i_dep i)) (hasRepository s)) = Resolved r ->
  let s' := tick env h s in
  let k := key (i_uri i) (nameOf s (i_dep i)) in
  deref s' (i_dep i)
    = with_status (deref s (i_dep i)) (status_of_response (r_status r)) /\
  starting s' = starting s /\
  if terminal (r_status r)
  then pollingIntervals s' = delete k (pollingIntervals s) /\
       timers s' = clearHeld (pollingIntervals s !! k) (timers s)
  else timers s' = timers s /\ pollingIntervals s' = pollingIntervals s.
Proof.
  intros Hlt Hl Hc Hr. unfold tick. rewrite Hl.
  unfold checkDependencyStatus. rewrite Hc. cbn zeta. simpl hasRepository.
  rewrite Hr.
  match goal with
  | |- context [handleDependencyResponse env ?u ?dep r ?a] =>
      set (s0 := a); set (s1 := handleDependencyResponse env u dep r s0)
  end.
  pose proof (handleDependencyResponse_same env (i_uri i) (i_dep i) r s0)
    as (_ & Hsc & Hpi & _ & Hh & Ht & Hst). fold s1 in Hsc, Hpi, Hh, Ht, Hst.
  assert (Hd1 : deref s1 (i_dep i)
                = with_status (deref s (i_dep i)) (status_of_response (r_status r))).
  { unfold deref at 1. rewrite Hh. unfold s0, set_status. simpl.
    by rewrite list_lookup_insert_eq. }
  assert (Hn1 : nameOf s1 (i_dep i) = nameOf s (i_dep i)).
  { unfold nameOf. by rewrite Hd1. }
  destruct (terminal (r_status r)).
  - destruct (stopPolling_spec (i_uri i) (i_dep i) s1) as (Hp & Htm & Hs & Hhp & _).
    cbv zeta in Hp, Htm, Hs, Hhp. rewrite Hn1 in Hp, Htm.
    split; [unfold deref; rewrite Hhp; exact Hd1|].
    rewrite Hs, Hp, Htm, Hpi, Ht, Hst. auto.
  - split; [exact Hd1|]. auto.
Qed.

(** *** Notifications *)

Lemma notifications_app s e :
  notifications (emit e s)
  = (notifications s ++ match e with Notify c => [c] | _ => [] end)%list.
Proof. unfold notifications, emit. simpl. rewrite omap_app. by destruct e. Qed.

Lemma handleDependencyResponse_notifications env uri dep r s :
  let s' := handleDependencyResponse env uri dep r s in
  let d := deref s dep in
  notifications s'
  = (notifications s ++
       if terminal (r_status r) then [verdictCall d r]
       else if decide (packageName d ∈ pendingNotifications s) then []
            else [verdictCall d r])%list.
Proof.
  pose proof (handleDependencyResponse_effects env uri dep r s) as H.
  simpl in *. unfold notifications.
  destruct (terminal (r_status r)); [|case_decide];
    destruct H as [-> _]; rewrite ?omap_app, ?app_nil_r; done.
Qed.

Lemma checkDependencyStatus_name env uri dep s l :
  nameOf (checkDependencyStatus env uri dep s) l = nameOf s l.
Proof.
  unfold checkDependencyStatus.
  destruct (getConfig env) as [config|]; [|done].
  match goal with |- context [check env ?p] => destruct (check env p) as [r|] end;
    [|done].
  match goal with
  | |- context [handleDependencyResponse env uri dep r ?a] =>
      pose proof (handleDependencyResponse_same env uri dep r a) as (_ & _ & _ & _ & Hh & _)
  end.
  destruct (terminal (r_status r)).
  - unfold nameOf, deref, stopPolling in *.
    match goal with |- context [pollingIntervals ?a !! ?k] =>
      destruct (pollingIntervals a !! k) end; simpl; rewrite Hh;
      apply set_status_name.
  - unfold nameOf, deref in *. rewrite Hh. apply set_status_name.
Qed.

Lemma checkDependencyStatus_quiet env uri dep s :
  quiet env ->
  let s' := checkDependencyStatus env uri dep s in
  ((notifications s' = notifications s /\
    pendingNotifications s' = pendingNotifications s) \/
   ((nameOf s dep ∉ pendingNotifications s) /\
    (exists c, notifications s' = (notifications s ++ [c])%list) /\
    nameOf s dep ∈ pendingNotifications s')).
Proof.
  intros Hq. simpl. unfold checkDependencyStatus.
  destruct (getConfig env) as [config|]; [|by left].
  match goal with |- context [check env ?p] =>
    destruct (check env p) as [r|] eqn:Hr end.
  - rewrite (Hq _ _ Hr).
    match goal with
    | |- context [handleDependencyResponse env uri dep r ?a] => set (s0 := a)
    end.
    pose proof (handleDependencyResponse_notifications env uri dep r s0) as Hn.
    pose proof (handleDependencyResponse_effects env uri dep r s0) as He.
    simpl in Hn, He. rewrite (Hq _ _ Hr) in Hn, He.
    assert (Hname : packageName (deref s0 dep) = nameOf s dep).
    { unfold s0. simpl. apply (set_status_name dep _ (emit _ s) dep). }
    assert (Hnot : notifications s0 = notifications s).
    { unfold s0, notifications. simpl. rewrite omap_app. simpl. by rewrite app_nil_r. }
    rewrite Hname, Hnot in Hn. rewrite Hname in He.
    change (pendingNotifications s0) with (pendingNotifications s) in *.
    case_decide as Hin.
    + left. destruct He as [_ ->]. by rewrite Hn, app_nil_r.
    + right. split; [done|]. split; [eauto|]. destruct He as [_ ->]. set_solver.
  - left. split; [|done]. rewrite notifications_app. by rewrite app_nil_r.
Qed.

Lemma pollAll_quiet uri dep envs s :
  Forall quiet envs ->
  exists l, notifications (pollAll uri dep envs s) = (notifications s ++ l)%list /\
            length l <= 1 /\
            (nameOf s dep ∈ pendingNotifications s -> l = []).
Proof.
  intros Hq. revert s. induction Hq as [|env envs Hq _ IH]; intros s; simpl.
  - exists []. rewrite app_nil_r. auto.
  - destruct (IH (checkDependencyStatus env uri dep s)) as (l & Hl & Hlen & Hsup).
    rewrite checkDependencyStatus_name in Hsup.
    destruct (checkDependencyStatus_quiet env uri dep s Hq)
      as [[Hn Hp]|(Hnin & [c Hc] & Hin)].
    + exists l. rewrite Hl, Hn, <- Hp. auto.
    + exists [c]. rewrite Hl, (Hsup Hin), app_nil_r. simpl. split; [done|].
      split; [lia|done].
Qed.

(** *** Removal *)

Lemma removalSent_spec env uri dep s :
  dwf s ->
  let d := deref s dep in
  let k := key uri (packageName d) in
  let s1 := removalSent env uri dep s in
  pollingIntervals s1 = delete k (pollingIntervals s) /\
  timers s1 = clearHeld (pollingIntervals s !! k) (timers s) /\
  (forall h, live s1 h
             = if decide (pollingIntervals s !! k = Some h) then None else live s h) /\
  starting s1 = starting s /\ heap s1 = heap s /\
  Diagnostics.entries (diagnostics s1) uri (packageName d) = [] /\
  effects s1
  = (effects s ++ [ApiUpdate (updatePayload d (now env) (hasRepository s))])%list.
Proof.
  intros Hwf. cbv zeta.
  destruct (stopPolling_spec uri dep s) as (Hp & Ht & Hs & Hh & Hl).
  cbv zeta in Hp, Ht, Hs, Hh, Hl. unfold nameOf in *.
  pose proof (stopPolling_diagnostics uri dep s) as Hdiag.
  assert (Heff : effects (stopPolling uri dep s) = effects s).
  { unfold stopPolling.
    by destruct (pollingIntervals s !! key uri (packageName (deref s dep))). }
  assert (Hrepo : hasRepository (stopPolling uri dep s) = hasRepository s).
  { unfold stopPolling.
    by destruct (pollingIntervals s !! key uri (packageName (deref s dep))). }
  unfold removalSent. cbv zeta.
  split; [exact Hp|]. split; [exact Ht|]. split; [exact Hl|].
  split; [exact Hs|]. split; [exact Hh|]. split.
  - cbn [emit diagnostics]. rewrite Hdiag.
    by apply Diagnostics.removeDiagnostic_entries.
  - cbn [emit effects hasRepository]. by rewrite Heff, Hrepo.
Qed.

Lemma removalAnswered_spec outcome dep s :
  let s' := removalAnswered outcome dep s in
  let d := deref s dep in
  effects s'
  = (effects s ++
       match outcome with
       | Resolved _ =>
           if decide (status d = DENIED)
           then [Notify (Notifications.showRemovalConfirmed (packageName d) (version d))]
           else []
       | Rejected _ => []
       end)%list /\
  fileCache s' = fileCache s /\ statusCache s' = statusCache s /\
  pollingIntervals s' = pollingIntervals s /\ timers s' = timers s /\
  starting s' = starting s /\ heap s' = heap s /\
  diagnostics s' = diagnostics s /\ hasRepository s' = hasRepository s /\
  pendingNotifications s' = pendingNotifications s.
Proof.
  cbv zeta. unfold removalAnswered.
  destruct outcome; [case_decide|]; simpl; rewrite ?app_nil_r; auto 12.
Qed.

(** *** The removal loop of [handleFileChange] *)

Lemma handleRemovedDependency_same env uri dep s :
  let s' := handleRemovedDependency env uri dep s in
  fileCache s' = fileCache s /\ statusCache s' = statusCache s /\
  heap s' = heap s /\ hasRepository s' = hasRepository s.
Proof.
  simpl. unfold handleRemovedDependency.
  destruct (getConfig env) as [config|]; [|done]. cbv zeta.
  unfold removalAnswered, removalSent.
  match goal with |- context [update env ?p] => destruct (update env p) end;
    [case_decide|]; simpl; unfold stopPolling;
    destruct (pollingIntervals s !! _); simpl; done.
Qed.

Lemma handleRemovedDependency_updates env uri dep s :
  updates (handleRemovedDependency env uri dep s)
  = (updates s ++
       match getConfig env with
       | Some _ => [updatePayload (deref s dep) (now env) (hasRepository s)]
       | None => []
       end)%list.
Proof.
  unfold handleRemovedDependency.
  destruct (getConfig env) as [config|]; [|by rewrite app_nil_r]. cbn zeta.
  assert (He : effects (stopPolling uri dep s) = effects s
               /\ hasRepository (stopPolling uri dep s) = hasRepository s).
  { unfold stopPolling. by destruct (pollingIntervals s !! _). }
  destruct He as [He Hr]. unfold removalAnswered, removalSent.
  simpl hasRepository. rewrite Hr.
  match goal with |- context [update env ?p] => destruct (update env p) end;
    [case_decide|]; unfold updates; simpl; rewrite He, !omap_app; simpl;
    by rewrite ?app_nil_r.
Qed.

Lemma removeStep_none_current env uri entries s :
  let s' := fold_left (removeStep env uri []) entries s in
  statusCache s' !! uri
  = (fun m => fold_left (fun m e => Js.map_delete m (fst e)) entries m)
      <$> statusCache s !! uri /\
  heap s' = heap s /\ hasRepository s' = hasRepository s /\
  fileCache s' = fileCache s /\
  updates s' = (updates s ++ removalUpdates env s entries)%list.
Proof.
  simpl. revert s. induction entries as [|e entries IH]; intros s; simpl.
  - unfold removalUpdates. destruct (getConfig env); simpl; rewrite app_nil_r;
      by destruct (statusCache s !! uri).
  - set (s1 := removeStep env uri [] s e).
    destruct (IH s1) as (Hsc & Hh & Hr & Hf & Hu).
    destruct (handleRemovedDependency_same env uri e.2 s) as (Hf1 & Hsc1 & Hh1 & Hr1).
    assert (Hs1 : statusCache s1 !! uri
                  = (fun m => Js.map_delete m e.1) <$> statusCache s !! uri).
    { unfold s1, removeStep, untrack. simpl. rewrite lookup_alter_eq.
      by rewrite Hsc1. }
    assert (Hu1 : updates s1
                  = (updates s ++ removalUpdates env s [e])%list).
    { transitivity (updates (handleRemovedDependency env uri e.2 s)); [done|].
      rewrite handleRemovedDependency_updates. unfold removalUpdates.
      by destruct (getConfig env). }
    assert (Hh' : heap s1 = heap s) by (unfold s1, removeStep; simpl; exact Hh1).
    assert (Hr' : hasRepository s1 = hasRepository s)
      by (unfold s1, removeStep; simpl; exact Hr1).
    assert (Hf' : fileCache s1 = fileCache s)
      by (unfold s1, removeStep; simpl; exact Hf1).
    rewrite Hsc, Hs1, Hh, Hr, Hf, Hu, Hu1, Hh', Hr', Hf'.
    repeat split; auto.
    + by destruct (statusCache s !! uri).
    + unfold removalUpdates, deref. rewrite Hh', Hr'.
      destruct (getConfig env); simpl; by rewrite <- app_assoc.
Qed.

Lemma map_delete_all {V} (l m : Js.Map V) :
  (forall e, e ∈ m -> fst e ∈ fst <$> l) ->
  fold_left (fun m e => Js.map_delete m (fst e)) l m = [].
Proof.
  revert m. induction l as [|e l IH]; intros m Hm; simpl.
  - destruct m as [|e m]; [done|]. specialize (Hm e). rewrite fmap_nil in Hm.
    exfalso. eapply not_elem_of_nil, Hm. left.
  - apply IH. intros e' He'. unfold Js.map_delete in He'.
    apply list_elem_of_In, filter_In in He' as [Hin Hne].
    apply list_elem_of_In in Hin. specialize (Hm e' Hin).
    rewrite fmap_cons in Hm. apply elem_of_cons in Hm as [Heq|Hm]; [|done].
    apply negb_true_iff, String.eqb_neq in Hne. congruence.
Qed.

(** When the new revision parses to no dependency at all, every tracked
    dependency of the manifest is handed to [handleRemovedDependency] and
    dropped from the status map. *)
Lemma handleFileChange_nothing_parsed env uri content s m :
  Js.includes uri "node_modules" = false ->
  parseNewDependencies parser content (default "" (fileCache s !! uri)) = [] ->
  parseAllDependencies parser content = [] ->
  statusCache s !! uri = Some m ->
  let s' := handleFileChange env uri (Some content) s in
  fileCache s' !! uri = Some content /\
  (forall n, tracked s' uri n = None) /\
  updates s' = (updates s ++ removalUpdates env s m)%list.
Proof.
  intros Hn Hnew Hall Hm.
  assert (Hrm : removeMissing env uri [] s = fold_left (removeStep env uri []) m s).
  { unfold removeMissing. by rewrite Hm. }
  unfold handleFileChange. rewrite Hn, Hnew, Hall. cbn [fold_left].
  change (packageName <$> []) with (@nil string). rewrite Hrm.
  destruct (removeStep_none_current env uri m s) as (Hsc & Hh & Hr & Hf & Hu).
  set (s1 := fold_left (removeStep env uri []) m s) in *.
  split; [simpl; apply lookup_insert_eq|]. split.
  - intros n. unfold tracked. cbn [statusCache]. rewrite Hsc, Hm. simpl.
    rewrite map_delete_all; [done|]. intros e He. by apply list_elem_of_fmap_2.
  - exact Hu.
Qed.

(** *** The claims about the watcher *)

(** C1 (amended). An initial submission that succeeds leaves the
    dependency tracked with the status of the response.  A response of
    approved or denied starts nothing.  Any other response calls
    [startPolling]: at once the interval registered under the key of the
    dependency is cleared (the registry is left as it is) and the call
    waits for the configuration; when it resumes, it creates an interval
    under a fresh handle for that dependency and stores the handle under
    the key, and no other interval is touched.  A submission that fails
    leaves the dependency tracked with the status the parser gave it and
    starts nothing.  A poll that is answered records the status of the
    answer; on approved or denied it drops the entry of the key and
    clears the interval the key held, so the polling interval stops when
    it is the registered one; any other answer leaves intervals and
    registry as they are. *)
Theorem poll_task_follows_response (s : State) :
  (forall env uri d config,
     getConfig env = Some config ->
     let s' := handleNewDependency env uri d s in
     let dep := length (heap s) in
     match request env (requestPayload uri d (hasRepository s)) with
     | Resolved r =>
         tracked s' uri (packageName d)
           = Some (with_status d (status_of_response (r_status r))) /\
         tracked s' uri (packageName d) = Some (deref s' dep) /\
         pollingIntervals s' = pollingIntervals s /\
         if terminal (r_status r)
         then timers s' = timers s /\ starting s' = starting s
         else starting s'
              = (starting s ++ [mkStart uri dep (key uri (packageName d))])%list /\
              (forall h, live s' h
                         = if decide (pollTask s uri (packageName d) = Some h)
                           then None else live s h)
     | Rejected _ =>
         tracked s' uri (packageName d) = Some d /\
         timers s' = timers s /\ pollingIntervals s' = pollingIntervals s /\
         starting s' = starting s
     end) /\
  (forall env n c,
     starting s !! n = Some c ->
     let s' := startPolling_resumed env n s in
     let h := length (timers s) in
     exists delay,
       live s h = None /\
       live s' h = Some (mkInterval (st_uri c) (st_dep c) delay) /\
       pollingIntervals s' = <[st_key c := h]> (pollingIntervals s) /\
       starting s' = delete n (starting s) /\
       (forall h', h' <> h -> live s' h' = live s h')) /\
  (forall env h i config r,
     live s h = Some i -> i_dep i < length (heap s) ->
     getConfig env = Some config ->
     check env (checkPayload (deref s (i_dep i)) (hasRepository s)) = Resolved r ->
     let s' := tick env h s in
     let name := nameOf s (i_dep i) in
     status (deref s' (i_dep i)) = status_of_response (r_status r) /\
     starting s' = starting s /\
     if terminal (r_status r)
     then pollTask s' (i_uri i) name = None /\
          (forall h', live s' h'
                      = if decide (pollTask s (i_uri i) name = Some h')
                        then None else live s h') /\
          (pollTask s (i_uri i) name = Some h -> live s' h = None)
     else timers s' = timers s /\ pollingIntervals s' = pollingIntervals s).
Proof.
  split; [|split].
  - intros env uri d config Hc. cbv zeta.
    destruct (request env _) as [r|reason] eqn:Hr.
    + destruct (handleNewDependency_resolved env uri d _ config r Hc Hr)
        as (Ht & Hd & Hp & Hpoll). cbv zeta in Ht, Hd, Hp, Hpoll.
      split; [exact Ht|]. split; [by rewrite Hd|]. split; [exact Hp|].
      destruct (terminal (r_status r)); [exact Hpoll|].
      destruct Hpoll as [Hs Htm]. split; [exact Hs|].
      intros h. unfold live, pollTask. rewrite Htm. apply clearHeld_live.
    + by eapply handleNewDependency_rejected.
  - intros env n c Hc. cbv zeta.
    destruct (startPolling_resumed_spec env n c s Hc)
      as (delay & _ & _ & Hp & Hs & Hl & Hother).
    exists delay. split; [|auto].
    unfold live. by rewrite lookup_ge_None_2.
  - intros env h i config r Hl Hlt Hc Hr. cbv zeta.
    destruct (tick_resolved env h i _ config r Hlt Hl Hc Hr) as (Hd & Hs & Hrest).
    cbv zeta in Hrest. split; [by rewrite Hd|]. split; [exact Hs|].
    destruct (terminal (r_status r)); [|exact Hrest].
    destruct Hrest as [Hp Htm].
    assert (Hlive : forall h', live (tick env h s) h'
                      = if decide (pollTask s (i_uri i) (nameOf s (i_dep i)) = Some h')
                        then None else live s h').
    { intros h'. unfold live, pollTask. rewrite Htm. apply clearHeld_live. }
    split; [unfold pollTask; rewrite Hp; apply lookup_delete_eq|].
    split; [exact Hlive|]. intros Hreg. rewrite Hlive. by rewrite decide_True.
Qed.

(** C2 (amended). A terminal response (approved, denied) always calls the
    notification manager exactly once, whatever the dedup set holds
    ([showApproved] is called with [silent = true]).  A non-terminal
    response notifies only while the package name is not in the set, and
    puts it there; the set is keyed by package name alone, so over any run
    of poll ticks that bring no verdict at most one notification is made
    in total, whichever of pending, scanning and not_found the ticks
    report and however they alternate, and none at all when the name is
    already in the set. *)
Theorem notification_gate (s : State) (uri : string) (dep : loc) :
  (forall env r,
     terminal (r_status r) = true ->
     notifications (handleDependencyResponse env uri dep r s)
     = (notifications s ++ [verdictCall (deref s dep) r])%list) /\
  (forall env r,
     terminal (r_status r) = false ->
     let s' := handleDependencyResponse env uri dep r s in
     notifications s'
     = (notifications s ++
          if decide (nameOf s dep ∈ pendingNotifications s) then []
          else [verdictCall (deref s dep) r])%list /\
     nameOf s dep ∈ pendingNotifications s') /\
  (forall envs,
     Forall quiet envs ->
     exists l,
       notifications (pollAll uri dep envs s) = (notifications s ++ l)%list /\
       length l <= 1 /\
       (nameOf s dep ∈ pendingNotifications s -> l = [])).
Proof.
  split; [|split].
  - intros env r Hr.
    pose proof (handleDependencyResponse_notifications env uri dep r s) as H.
    simpl in H. by rewrite Hr in H.
  - intros env r Hr. simpl. split.
    + pose proof (handleDependencyResponse_notifications env uri dep r s) as Hn.
      simpl in Hn. by rewrite Hr in Hn.
    + pose proof (handleDependencyResponse_effects env uri dep r s) as He.
      simpl in He. rewrite Hr in He. unfold nameOf. case_decide.
      * destruct He as [_ ->]. done.
      * destruct He as [_ ->]. set_solver.
  - intros envs. apply pollAll_quiet.
Qed.

(** C7 (amended). While a configuration (API token) is available and
    the diagnostics hold at most one entry per package and manifest, as
    the provider keeps them, processing a removal drops the entry of the
    key from the registry and clears the interval the key held, whose
    callback is never started again whatever happens afterwards; it
    removes the diagnostic entry of the package and sends one [update]
    with action "removed".  All this is done when the [update] call is
    made.  When the call is answered, the removal confirmation is shown
    exactly when the call succeeded and the status of the dependency is
    denied at that moment; nothing else changes then.  Intervals the key
    does not hold and calls of [startPolling] that still wait are left
    as they are. *)
Theorem removal_is_processed (s : State) (env : Env) (uri : string) (dep : loc)
    (config : RepoGateConfig) :
  getConfig env = Some config -> dwf s ->
  let d := deref s dep in
  let payload := updatePayload d (now env) (hasRepository s) in
  let s1 := removalSent env uri dep s in
  handleRemovedDependency env uri dep s
  = removalAnswered (update env payload) dep s1 /\
  pollTask s1 uri (packageName d) = None /\
  (forall h i, pollTask s uri (packageName d) = Some h -> live s h = Some i ->
     live s1 h = None /\
     forall es env',
       live (fold_left step es s1) h = None /\
       tick env' h (fold_left step es s1) = fold_left step es s1) /\
  (forall h, pollTask s uri (packageName d) <> Some h -> live s1 h = live s h) /\
  (forall k, k <> key uri (packageName d) ->
     pollingIntervals s1 !! k = pollingIntervals s !! k) /\
  starting s1 = starting s /\
  Diagnostics.entries (diagnostics s1) uri (packageName d) = [] /\
  up_action payload = "removed" /\
  effects s1 = (effects s ++ [ApiUpdate payload])%list /\
  (forall outcome t,
     let t' := removalAnswered outcome dep t in
     let d' := deref t dep in
     effects t'
     = (effects t ++
          match outcome with
          | Resolved _ =>
              if decide (status d' = DENIED)
              then [Notify (Notifications.showRemovalConfirmed
                              (packageName d') (version d'))]
              else []
          | Rejected _ => []
          end)%list /\
     timers t' = timers t /\ pollingIntervals t' = pollingIntervals t /\
     starting t' = starting t /\ diagnostics t' = diagnostics t /\
     heap t' = heap t /\ statusCache t' = statusCache t).
Proof.
  intros Hc Hwf. cbv zeta.
  destruct (removalSent_spec env uri dep s Hwf)
    as (Hp & Ht & Hl & Hs & Hh & Hd & He).
  cbv zeta in Hp, Ht, Hl, Hs, Hh, Hd, He.
  split; [unfold handleRemovedDependency; by rewrite Hc|].
  split; [unfold pollTask; rewrite Hp; apply lookup_delete_eq|].
  split; [|split; [|split; [|split; [|split; [|split; [|split]]]]]];
    try done.
  - intros h i Hreg Hlive.
    assert (Hdead : live (removalSent env uri dep s) h = None).
    { rewrite Hl. by rewrite decide_True. }
    split; [exact Hdead|]. intros es env'.
    assert (Hgone : live (fold_left step es (removalSent env uri dep s)) h = None).
    { apply cleared_for_good; [|exact Hdead].
      rewrite Ht, clearHeld_length. by eapply live_lt. }
    split; [exact Hgone|]. unfold tick. by rewrite Hgone.
  - intros h Hne. rewrite Hl. by rewrite decide_False.
  - intros k Hk. rewrite Hp. by rewrite lookup_delete_ne.
  - intros outcome t. cbv zeta.
    destruct (removalAnswered_spec outcome dep t)
      as (E1 & _ & E3 & E4 & E5 & E6 & E7 & E8 & _).
    cbv zeta in E1. auto 10.
Qed.

(** X2. [dispose] empties the registry and clears every interval the
    registry held, and each of them stays cleared whatever happens
    afterwards.  It reaches nothing else: an interval the registry did
    not hold is as live as it was, the tracked dependencies are left as
    they were, and a call of [startPolling] that still waits for the
    configuration goes on waiting, so that when it resumes after
    [dispose] it installs a live interval and registers it. *)
Theorem dispose_clears_what_the_registry_holds (s : State) :
  let s' := dispose s in
  pollingIntervals s' = ∅ /\
  (forall k h, pollingIntervals s !! k = Some h -> live s' h = None) /\
  (forall k h i es, pollingIntervals s !! k = Some h -> live s h = Some i ->
     live (fold_left step es s') h = None) /\
  (forall h, (forall k, pollingIntervals s !! k <> Some h) -> live s' h = live s h) /\
  starting s' = starting s /\
  (forall uri n, tracked s' uri n = tracked s uri n) /\
  (forall env n c,
     starting s !! n = Some c ->
     let s'' := startPolling_resumed env n s' in
     let h := length (timers s) in
     exists delay,
       live s'' h = Some (mkInterval (st_uri c) (st_dep c) delay) /\
       pollingIntervals s'' = {[st_key c := h]}).
Proof.
  cbv zeta. destruct (dispose_live s) as (Hreg & Hout & _).
  split; [done|]. split; [exact Hreg|]. split; [|split; [exact Hout|]].
  - intros k h i es Hk Hl. apply cleared_for_good; [|by eapply Hreg].
    destruct (dispose_wears s) as [Hlen _]. apply live_lt in Hl. lia.
  - split; [done|]. split; [done|]. intros env n c Hc.
    destruct (startPolling_resumed_spec env n c (dispose s) Hc)
      as (delay & _ & _ & Hp & _ & Hl & _). cbv zeta in Hp, Hl.
    assert (Hlen : length (timers (dispose s)) = length (timers s)).
    { unfold dispose, clearRegistered. cbn [timers].
      by destruct (clearRegistered_spec (timers s) (pollingIntervals s)) as (-> & _). }
    rewrite Hlen in Hp, Hl. exists delay. split; [exact Hl|].
    rewrite Hp. cbn [dispose pollingIntervals]. by rewrite insert_empty.
Qed.

(** *** The diagnostic of a polled dependency *)

Lemma set_status_identity l st s l' :
  sameIdentity (deref s l') (deref (set_status l st s) l').
Proof.
  unfold sameIdentity, deref, set_status. simpl.
  destruct (decide (l = l')) as [->|Hne].
  - destruct (heap s !! l') as [d|] eqn:E.
    + rewrite list_lookup_insert_eq by (by eapply lookup_lt_Some).
      simpl. unfold deref. by rewrite E.
    + rewrite list_insert_ge by (by apply lookup_ge_None). by rewrite E.
  - by rewrite list_lookup_insert_ne.
Qed.

(** A check that is answered files the diagnostic of the answer, and it
    is then the only entry of the package in its manifest. *)
Lemma checkDependencyStatus_diagnostic env uri dep s config r :
  dwf s -> getConfig env = Some config ->
  check env (checkPayload (deref s dep) (hasRepository s)) = Resolved r ->
  Diagnostics.entries (diagnostics (checkDependencyStatus env uri dep s)) uri
    (packageName (deref s dep))
  = [diagnosticFor env uri (deref s dep) r].
Proof.
  intros Hwf Hc Hr. unfold checkDependencyStatus. rewrite Hc. cbn zeta.
  simpl hasRepository. rewrite Hr.
  match goal with
  | |- context [handleDependencyResponse env uri dep r ?a] => set (s0 := a)
  end.
  assert (Hid : sameIdentity (deref s dep) (deref s0 dep)).
  { unfold s0. apply (set_status_identity dep _ (emit _ s) dep). }
  destruct Hid as (Hn & _ & Hv).
  assert (Hd : diagnostics
                 (if terminal (r_status r)
                  then stopPolling uri dep (handleDependencyResponse env uri dep r s0)
                  else handleDependencyResponse env uri dep r s0)
               = Diagnostics.addDiagnostic uri (diagnosticFor env uri (deref s dep) r)
                   (diagnostics s)).
  { destruct (terminal (r_status r)); rewrite ?stopPolling_diagnostics;
      rewrite handleDependencyResponse_diagnostics; unfold diagnosticFor, nameOf;
      by rewrite <- Hn, <- Hv. }
  rewrite Hd.
  apply (Diagnostics.addDiagnostic_entries uri (diagnosticFor env uri (deref s dep) r)).
  exact Hwf.
Qed.

(** X3. Deleting a manifest drops its cached content, its tracked
    dependencies and its diagnostics, but cancels no polling interval:
    every interval stays live and registered.  When such a poll is next
    answered, the diagnostic of the answer is filed again under the
    deleted manifest. *)
Theorem file_delete_keeps_polling (b : bool) (es : list Event) (uri : string) :
  let s := run b es in
  let s' := handleFileDelete uri s in
  fileCache s' !! uri = None /\
  (forall n, tracked s' uri n = None) /\
  (forall n, Diagnostics.entries (diagnostics s') uri n = []) /\
  pollingIntervals s' = pollingIntervals s /\
  (forall h, live s' h = live s h) /\
  (forall env h i config r,
     live s h = Some i -> i_uri i = uri -> getConfig env = Some config ->
     check env (checkPayload (deref s (i_dep i)) (hasRepository s)) = Resolved r ->
     Diagnostics.entries (diagnostics (tick env h s')) uri (nameOf s (i_dep i))
     = [diagnosticFor env uri (deref s (i_dep i)) r]).
Proof.
  cbv zeta. set (s := run b es).
  split; [simpl; apply lookup_delete_eq|].
  split; [intros n; unfold tracked; simpl; by rewrite lookup_delete_eq|].
  split; [intros n; unfold Diagnostics.entries; simpl; by rewrite lookup_delete_eq|].
  split; [done|]. split; [done|].
  intros env h i config r Hl Hu Hc Hr.
  assert (Hwf : dwf (handleFileDelete uri s)).
  { apply (step_dwf s (FileDeleted uri)), run_dwf. }
  unfold tick. change (live (handleFileDelete uri s) h) with (live s h).
  rewrite Hl, Hu.
  apply (checkDependencyStatus_diagnostic env uri (i_dep i) _ config r Hwf Hc).
  exact Hr.
Qed.

(** X4. In a state the watcher can reach, a poll that is answered leaves
    exactly one diagnostic for the package in its manifest: the one built
    from the answer (its status, message and reason link, at the line
    where the package was found), and the tracked object carries the
    status of that same answer. *)
Theorem diagnostic_follows_poll (b : bool) (es : list Event) (env : Env) (h : nat)
    (i : Interval) (config : RepoGateConfig) (r : CheckResponse) :
  let s := run b es in
  live s h = Some i -> getConfig env = Some config ->
  check env (checkPayload (deref s (i_dep i)) (hasRepository s)) = Resolved r ->
  let s' := tick env h s in
  let d := deref s (i_dep i) in
  Diagnostics.entries (diagnostics s') (i_uri i) (packageName d)
  = [Diagnostics.mkDiag (packageName d) (version d) (r_status r) (r_message r)
       (findDependencyLine env (i_uri i) (packageName d)) (r_reasonUrl r)] /\
  status (deref s' (i_dep i)) = status_of_response (r_status r).
Proof.
  cbv zeta. intros Hl Hc Hr. split.
  - unfold tick. rewrite Hl.
    apply (checkDependencyStatus_diagnostic env (i_uri i) (i_dep i) _ config r
             (run_dwf b es) Hc Hr).
  - destruct (run_allocated b es) as [Hlive _].
    destruct (tick_resolved env h i _ config r (Hlive h i Hl) Hl Hc Hr) as [Hd _].
    by rewrite Hd.
Qed.

(** *** Changes handled without a configuration *)

Lemma existsb_eqb_elem (x : string) (l : list string) :
  existsb (String.eqb x) l = true <-> x ∈ l.
Proof.
  rewrite existsb_exists. split.
  - intros (y & Hin & ->%String.eqb_eq). by apply list_elem_of_In.
  - intros Hin. exists x. split; [by apply list_elem_of_In|apply String.eqb_refl].
Qed.

Lemma map_get_delete {V} (m : Js.Map V) k n :
  Js.map_get (Js.map_delete m k) n
  = if decide (k = n) then None else Js.map_get m n.
Proof.
  unfold Js.map_get, Js.map_delete.
  induction m as [|[k' v] m IH]; simpl; [by case_decide|].
  destruct (String.eqb k' k) eqn:Ek; simpl.
  - apply String.eqb_eq in Ek. subst k'. rewrite IH.
    case_decide as Hkn; [done|].
    apply String.eqb_neq in Hkn. by rewrite Hkn.
  - destruct (String.eqb k' n) eqn:En; simpl; [|exact IH].
    apply String.eqb_eq in En. subst k'. apply String.eqb_neq in Ek.
    case_decide; [congruence|done].
Qed.

Lemma map_get_None {V} (m : Js.Map V) n : n ∉ fst <$> m -> Js.map_get m n = None.
Proof.
  unfold Js.map_get. induction m as [|[k v] m IH]; simpl; [done|].
  rewrite not_elem_of_cons. intros [Hne Hnin].
  apply not_eq_sym, String.eqb_neq in Hne. rewrite Hne. auto.
Qed.

Lemma keepCurrent_get names entries m n :
  Js.map_get (keepCurrent names entries m) n
  = if decide (n ∈ names) then Js.map_get m n
    else if decide (n ∈ fst <$> entries) then None else Js.map_get m n.
Proof.
  unfold keepCurrent. revert m.
  induction entries as [|[k l] entries IH]; intros m.
  - cbn [fold_left]. case_decide; [done|].
    rewrite decide_False; [done|apply not_elem_of_nil].
  - cbn [fold_left fst]. rewrite fmap_cons. cbn [fst]. rewrite IH. clear IH.
    destruct (existsb (String.eqb k) names) eqn:Ek.
    + apply existsb_eqb_elem in Ek. case_decide as Hn; [done|].
      assert (Hne : n <> k) by congruence.
      case_decide as Hin; case_decide as Hin'; try done;
        rewrite elem_of_cons in Hin'; tauto.
    + assert (Hk : k ∉ names).
      { intros Hin%existsb_eqb_elem. congruence. }
      rewrite map_get_delete. case_decide as Hn.
      * rewrite decide_False; [done|congruence].
      * case_decide as Hin.
        -- rewrite decide_True; [done|]. rewrite elem_of_cons. tauto.
        -- case_decide as Hkn.
           ++ subst n. rewrite decide_True; [done|]. rewrite elem_of_cons. tauto.
           ++ rewrite decide_False; [done|]. rewrite elem_of_cons.
              intros [?|?]; congruence.
Qed.

(** Without a configuration the removal loop only edits the status map
    of the manifest. *)
Lemma removeStep_no_config env uri names entries s :
  getConfig env = None ->
  fold_left (removeStep env uri names) entries s
  = mkState (fileCache s)
      (alter (keepCurrent names entries) uri (statusCache s))
      (pollingIntervals s) (pendingNotifications s) (hasRepository s) (heap s)
      (timers s) (diagnostics s) (effects s) (starting s).
Proof.
  intros Hc. revert s. induction entries as [|e entries IH]; intros s.
  - simpl. destruct s. simpl. f_equal. symmetry. by apply alter_id.
  - cbn [fold_left]. rewrite IH. unfold removeStep, handleRemovedDependency.
    rewrite Hc. unfold keepCurrent. cbn [fold_left].
    destruct (existsb (String.eqb e.1) names); [done|].
    unfold untrack. cbn. f_equal. by rewrite alter_alter_eq.
Qed.

Lemma handleNewDependency_no_config env uri deps s :
  getConfig env = None ->
  fold_left (fun s dep => handleNewDependency env uri dep s) deps s = s.
Proof.
  intros Hc. induction deps as [|d deps IH]; [done|].
  cbn [fold_left]. unfold handleNewDependency at 2. by rewrite Hc.
Qed.

(** X5. While no configuration (API token) is available, a changed
    manifest is recorded as the new baseline although nothing is sent: no
    API call, no notification, no diagnostic, no new object and no change
    to the polling intervals.  Of the dependencies tracked for the
    manifest exactly those still present in the revision stay tracked;
    the others are dropped without a removal being reported, and the new
    ones are not tracked. *)
Theorem changes_without_token_are_dropped (env : Env) (uri content : string)
    (s : State) :
  getConfig env = None -> Js.includes uri "node_modules" = false ->
  let s' := handleFileChange env uri (Some content) s in
  let current := packageName <$> parseAllDependencies parser content in
  effects s' = effects s /\ diagnostics s' = diagnostics s /\
  heap s' = heap s /\ timers s' = timers s /\
  pollingIntervals s' = pollingIntervals s /\
  fileCache s' !! uri = Some content /\
  (forall n, tracked s' uri n
             = if decide (n ∈ current) then tracked s uri n else None).
Proof.
  intros Hc Hn. cbv zeta. unfold handleFileChange. rewrite Hn.
  rewrite (handleNewDependency_no_config env uri _ s Hc).
  set (names := packageName <$> parseAllDependencies parser content).
  unfold removeMissing.
  destruct (statusCache s !! uri) as [m|] eqn:Hm.
  - change (fold_left _ m s) with (fold_left (removeStep env uri names) m s).
    rewrite (removeStep_no_config env uri names m s Hc). cbn.
    repeat (split; [done|]). split; [apply lookup_insert_eq|].
    intros n. unfold tracked. cbn. rewrite lookup_alter_eq, Hm. cbn.
    rewrite keepCurrent_get. case_decide; [done|].
    case_decide as Hin; [done|]. by rewrite (map_get_None m n Hin).
  - cbn. repeat (split; [done|]). split; [apply lookup_insert_eq|].
    intros n. unfold tracked. cbn. rewrite Hm. cbn. by case_decide.
Qed.

(** *** Approvals are silent *)

Lemma silent_emit e s :
  silentApproval e -> Forall silentApproval (effects s) ->
  Forall silentApproval (effects (emit e s)).
Proof. intros He Hs. simpl. apply Forall_app. split; [done|by constructor]. Qed.

Lemma handleDependencyResponse_silent env uri dep r s :
  Forall silentApproval (effects s) ->
  Forall silentApproval (effects (handleDependencyResponse env uri dep r s)).
Proof.
  intros Hs. pose proof (handleDependencyResponse_effects env uri dep r s) as He.
  cbv zeta in He.
  assert (Hv : silentApproval (Notify (verdictCall (deref s dep) r))).
  { unfold verdictCall. by destruct (r_status r). }
  destruct (terminal (r_status r)); [|case_decide];
    destruct He as [-> _]; try done;
    (apply Forall_app; split; [done|by constructor]).
Qed.

Lemma stopPolling_effects uri dep s : effects (stopPolling uri dep s) = effects s.
Proof.
  unfold stopPolling.
  by destruct (pollingIntervals s !! key uri (packageName (deref s dep))).
Qed.

Lemma handleNewDependency_silent env uri d s :
  Forall silentApproval (effects s) ->
  Forall silentApproval (effects (handleNewDependency env uri d s)).
Proof.
  intros Hs. unfold handleNewDependency.
  destruct (getConfig env) as [config|]; [|done]. cbn zeta.
  unfold alloc. cbn [fst snd].
  match goal with |- context [request env ?p] => destruct (request env p) as [r|] end.
  - match goal with
    | |- context [handleDependencyResponse env uri ?dep r ?a] =>
        assert (H1 : Forall silentApproval
                       (effects (handleDependencyResponse env uri dep r a)))
    end.
    { apply handleDependencyResponse_silent. simpl.
      apply Forall_app. split; [done|by constructor]. }
    by destruct (terminal (r_status r)).
  - apply silent_emit; [done|]. by apply silent_emit.
Qed.

Lemma checkDependencyStatus_silent env uri dep s :
  Forall silentApproval (effects s) ->
  Forall silentApproval (effects (checkDependencyStatus env uri dep s)).
Proof.
  intros Hs. unfold checkDependencyStatus.
  destruct (getConfig env) as [config|]; [|done]. cbn zeta.
  match goal with |- context [check env ?p] => destruct (check env p) as [r|] end.
  - match goal with
    | |- context [handleDependencyResponse env uri dep r ?a] =>
        assert (H1 : Forall silentApproval
                       (effects (handleDependencyResponse env uri dep r a)))
    end.
    { apply handleDependencyResponse_silent. simpl.
      apply Forall_app. split; [done|by constructor]. }
    destruct (terminal (r_status r)); [by rewrite stopPolling_effects|done].
  - by apply silent_emit.
Qed.

Lemma handleRemovedDependency_silent env uri dep s :
  Forall silentApproval (effects s) ->
  Forall silentApproval (effects (handleRemovedDependency env uri dep s)).
Proof.
  intros Hs. unfold handleRemovedDependency.
  destruct (getConfig env) as [config|]; [|done]. cbn zeta.
  unfold removalAnswered, removalSent.
  match goal with |- context [update env ?p] => destruct (update env p) end;
    [case_decide|]; repeat (apply silent_emit; [done|]); simpl;
    by rewrite stopPolling_effects.
Qed.

Lemma step_silent s e :
  Forall silentApproval (effects s) -> Forall silentApproval (effects (step s e)).
Proof.
  intros Hs. destruct e as [env uri c|uri|env h|env n|]; simpl;
    [| done | | | done].
  - unfold handleFileChange.
    destruct (Js.includes uri "node_modules"); [done|].
    destruct c as [c|]; [|done]. cbn [effects]. unfold removeMissing.
    match goal with |- context [fold_left ?f ?l s] => set (s1 := fold_left f l s) end.
    assert (H1 : Forall silentApproval (effects s1)).
    { apply (fold_left_preserves (fun s => Forall silentApproval (effects s)));
        [|done]. intros ??. apply handleNewDependency_silent. }
    destruct (statusCache s1 !! uri); [|done].
    apply (fold_left_preserves (fun s => Forall silentApproval (effects s)));
      [|done].
    intros s' e Hs'. destruct (existsb _ _); [done|].
    apply (handleRemovedDependency_silent env uri e.2) in Hs'. exact Hs'.
  - unfold tick. destruct (live s h); [by apply checkDependencyStatus_silent|done].
  - unfold startPolling_resumed. by destruct (starting s !! n).
Qed.

(** X6. The watcher never opens a popup for an approval: whatever
    happens to it, every [showApproved] call it makes passes
    [silent = true], for which the notification manager opens nothing. *)
Theorem approvals_are_never_announced (b : bool) (es : list Event)
    (n v : string) (silent : bool) :
  Notifications.showApproved n v silent ∈ notifications (run b es) ->
  silent = true /\ Notifications.popups (Notifications.showApproved n v silent) = [].
Proof.
  intros Hin.
  assert (Hall : Forall silentApproval (effects (run b es))).
  { unfold run.
    apply (fold_left_preserves (fun s => Forall silentApproval (effects s)));
      [apply step_silent|constructor]. }
  assert (Hs : silent = true).
  { unfold notifications in Hin. apply list_elem_of_omap in Hin as (e & He & Hc).
    rewrite Forall_forall in Hall. specialize (Hall e He).
    destruct e as [| | |c]; try discriminate. injection Hc as ->. exact Hall. }
  split; [exact Hs|]. by rewrite Hs.
Qed.

(** *** What the handlers leave of an object *)

Lemma keeps_refl s : keeps s s.
Proof. split; [lia|]. by intros l _. Qed.

Lemma keeps_trans s1 s2 s3 : keeps s1 s2 -> keeps s2 s3 -> keeps s1 s3.
Proof.
  intros [Hl H] [Hl' H']. split; [lia|]. intros l Hlt.
  destruct (H l Hlt) as (A1 & A2 & A3).
  destruct (H' l ltac:(lia)) as (B1 & B2 & B3).
  unfold sameIdentity. split; [congruence|]. split; congruence.
Qed.

Lemma keeps_heap s s' : heap s' = heap s -> keeps s s'.
Proof.
  intros Hh. split; [by rewrite Hh|]. intros l _. unfold deref. by rewrite Hh.
Qed.

Lemma set_status_keeps l st s : keeps s (set_status l st s).
Proof.
  split; [simpl; by rewrite length_insert|]. intros l' _. apply set_status_identity.
Qed.

Lemma alloc_keeps d s : keeps s (alloc d s).2.
Proof.
  split; [simpl; rewrite length_app; lia|]. intros l Hl.
  unfold deref. simpl. by rewrite lookup_app_l.
Qed.

Lemma handleNewDependency_keeps env uri d s : keeps s (handleNewDependency env uri d s).
Proof.
  unfold handleNewDependency.
  destruct (getConfig env) as [config|]; [|apply keeps_refl]. cbn zeta.
  eapply keeps_trans; [apply (alloc_keeps d s)|]. unfold alloc. cbn [fst snd].
  match goal with |- context [request env ?p] => destruct (request env p) as [r|] end;
    [|by apply keeps_heap].
  match goal with
  | |- context [handleDependencyResponse env uri ?dep r (set_status ?l ?st ?a)] =>
      eapply (keeps_trans _ (set_status l st a));
        [eapply keeps_trans; [|apply set_status_keeps]; by apply keeps_heap|];
      pose proof (handleDependencyResponse_same env uri dep r (set_status l st a))
        as (_ & _ & _ & _ & Hh & _)
  end.
  destruct (terminal (r_status r)); apply keeps_heap; exact Hh.
Qed.

Lemma stopPolling_heap uri dep s : heap (stopPolling uri dep s) = heap s.
Proof.
  unfold stopPolling.
  by destruct (pollingIntervals s !! key uri (packageName (deref s dep))).
Qed.

Lemma checkDependencyStatus_keeps env uri dep s :
  keeps s (checkDependencyStatus env uri dep s).
Proof.
  unfold checkDependencyStatus.
  destruct (getConfig env) as [config|]; [|apply keeps_refl]. cbn zeta.
  match goal with |- context [check env ?p] => destruct (check env p) as [r|] end;
    [|by apply keeps_heap].
  match goal with
  | |- context [handleDependencyResponse env uri ?dep r (set_status ?l ?st ?a)] =>
      eapply (keeps_trans _ (set_status l st a));
        [eapply keeps_trans; [|apply set_status_keeps]; by apply keeps_heap|];
      pose proof (handleDependencyResponse_same env uri dep r (set_status l st a))
        as (_ & _ & _ & _ & Hh & _)
  end.
  destruct (terminal (r_status r)); apply keeps_heap;
    rewrite ?stopPolling_heap; exact Hh.
Qed.

Lemma fold_left_keeps {A} (f : State -> A -> State) (l : list A) (s : State) :
  (forall s a, keeps s (f s a)) -> keeps s (fold_left f l s).
Proof.
  intros Hf. revert s. induction l as [|a l IH]; intros s; [apply keeps_refl|].
  cbn [fold_left]. eapply keeps_trans; [apply Hf|apply IH].
Qed.

Lemma step_keeps s e : keeps s (step s e).
Proof.
  destruct e as [env uri c|uri|env h|env n|]; simpl;
    [| by apply keeps_heap | | | by apply keeps_heap].
  - unfold handleFileChange.
    destruct (Js.includes uri "node_modules"); [apply keeps_refl|].
    destruct c as [c|]; [|apply keeps_refl]. cbv zeta.
    match goal with |- keeps s (mkState _ _ _ _ _ (heap ?t) _ _ _ _) =>
      apply (keeps_trans _ t); [|by apply keeps_heap]
    end.
    match goal with |- context [fold_left ?f ?l s] =>
      apply (keeps_trans _ (fold_left f l s));
        [apply (fold_left_keeps f l s); intros; apply handleNewDependency_keeps|];
      generalize (fold_left f l s) as s1
    end.
    intros s1. unfold removeMissing.
    destruct (statusCache s1 !! uri) as [m|]; [|apply keeps_refl].
    apply fold_left_keeps. intros t e.
    destruct (existsb _ _); [apply keeps_refl|]. apply keeps_heap.
    by destruct (handleRemovedDependency_same env uri e.2 t) as (_ & _ & ? & _).
  - unfold tick. destruct (live s h); [apply checkDependencyStatus_keeps|apply keeps_refl].
  - apply keeps_heap. by destruct (startPolling_resumed_same env n s) as (_ & _ & ? & _).
Qed.

(** X7. The watcher never rewrites what a dependency object says about
    its package: over any sequence of events, from any state, every
    object keeps its package name, package manager and version, and no
    object disappears; only the [status] field is ever assigned. *)
Theorem identity_is_never_rewritten (s : State) (es : list Event) (l : loc) :
  let s' := fold_left step es s in
  length (heap s) <= length (heap s') /\
  (l < length (heap s) ->
   packageName (deref s' l) = packageName (deref s l) /\
   packageManager (deref s' l) = packageManager (deref s l) /\
   version (deref s' l) = version (deref s l)).
Proof.
  cbv zeta.
  assert (Hk : keeps s (fold_left step es s)).
  { revert s. induction es as [|e es IH]; intros s; [apply keeps_refl|].
    cbn [fold_left]. eapply keeps_trans; [apply step_keeps|apply IH]. }
  destruct Hk as [Hlen Hid]. split; [exact Hlen|].
  intros Hl. destruct (Hid l Hl) as (H1 & H2 & H3). auto.
Qed.

(** *** The same revision, handled again *)

Lemma handleFileChange_no_config env uri content s :
  getConfig env = None -> Js.includes uri "node_modules" = false ->
  handleFileChange env uri (Some content) s
  = mkState (<[uri := content]> (fileCache s))
      (alter (keepCurrent (packageName <$> parseAllDependencies parser content)
                (default [] (statusCache s !! uri)))
             uri (statusCache s))
      (pollingIntervals s) (pendingNotifications s) (hasRepository s) (heap s)
      (timers s) (diagnostics s) (effects s) (starting s).
Proof.
  intros Hc Hn. unfold handleFileChange. rewrite Hn.
  rewrite (handleNewDependency_no_config env uri _ s Hc).
  set (names := packageName <$> parseAllDependencies parser content).
  unfold removeMissing.
  destruct (statusCache s !! uri) as [m|] eqn:Hm.
  - change (fold_left _ m s) with (fold_left (removeStep env uri names) m s).
    by rewrite (removeStep_no_config env uri names m s Hc).
  - cbn. by rewrite (alter_id' _ _ _ Hm).
Qed.

Lemma keepCurrent_kept names entries m e :
  e ∈ keepCurrent names entries m ->
  e ∈ m /\ (fst e ∈ names \/ fst e ∉ fst <$> entries).
Proof.
  unfold keepCurrent. revert m.
  induction entries as [|[k l] entries IH]; intros m.
  - cbn [fold_left]. intros He. split; [done|]. right. apply not_elem_of_nil.
  - cbn [fold_left fst]. rewrite fmap_cons. cbn [fst]. intros He.
    apply IH in He as [He Hk].
    destruct (existsb (String.eqb k) names) eqn:Ek.
    + apply existsb_eqb_elem in Ek. split; [done|].
      destruct Hk as [Hk|Hk]; [by left|].
      destruct (decide (e.1 = k)) as [->|Hne]; [by left|].
      right. rewrite not_elem_of_cons. done.
    + unfold Js.map_delete in He.
      apply list_elem_of_In, filter_In in He as [He Hne].
      apply list_elem_of_In in He. split; [done|].
      destruct Hk as [Hk|Hk]; [by left|]. right.
      apply negb_true_iff, String.eqb_neq in Hne.
      rewrite not_elem_of_cons. done.
Qed.

Lemma removeStep_all_current env uri names entries s :
  (forall e, e ∈ entries -> fst e ∈ names) ->
  fold_left (removeStep env uri names) entries s = s.
Proof.
  revert s. induction entries as [|e entries IH]; intros s Hall; [done|].
  cbn [fold_left]. unfold removeStep at 2.
  assert (He : existsb (String.eqb e.1) names = true).
  { apply existsb_eqb_elem, Hall. left. }
  rewrite He. apply IH. intros e' He'. apply Hall. by right.
Qed.

(** A revision recorded without a configuration is the baseline of the
    next comparison: handled again unchanged, it changes nothing, provided
    the parser reports nothing new between a text and itself. *)
Lemma handleFileChange_again env1 env2 uri content s :
  getConfig env1 = None -> Js.includes uri "node_modules" = false ->
  parseNewDependencies parser content content = [] ->
  handleFileChange env2 uri (Some content) (handleFileChange env1 uri (Some content) s)
  = handleFileChange env1 uri (Some content) s.
Proof.
  intros Hc Hn Hsame. rewrite (handleFileChange_no_config env1 uri content s Hc Hn).
  set (names := packageName <$> parseAllDependencies parser content).
  match goal with |- _ = ?t => set (s1 := t) end.
  assert (Hf : fileCache s1 !! uri = Some content) by apply lookup_insert_eq.
  assert (Hrm : removeMissing env2 uri names s1 = s1).
  { unfold removeMissing.
    destruct (statusCache s1 !! uri) as [m1|] eqn:Hm1; [|done].
    apply removeStep_all_current. intros e He.
    unfold s1 in Hm1. cbn [statusCache] in Hm1. rewrite lookup_alter_eq in Hm1.
    destruct (statusCache s !! uri) as [m|]; [|done].
    injection Hm1 as <-. cbn [default] in He.
    apply keepCurrent_kept in He as [He [Hk|Hk]]; [done|].
    exfalso. apply Hk. apply list_elem_of_fmap. by exists e. }
  unfold handleFileChange. rewrite Hn, Hf.
  change (default "" (Some content)) with content. rewrite Hsame.
  cbn [fold_left]. fold names. rewrite Hrm.
  unfold s1. cbn. by rewrite insert_insert_eq.
Qed.

End Handlers.

End Watcher.

(* ------------------------------------------------------------------ *)
(** ** JSON values

    The values [JSON.parse] produces and [JSON.stringify] consumes.
    Numbers are integers here; strings are byte strings. *)

Module Json.

Inductive value :=
  | Undefined
  | Null
  | Bool (b : bool)
  | Num (z : Z)
  | Str (s : string)
  | Arr (items : list value)
  | Obj (fields : list (string * value)).

(** [if (v)]: JavaScript truthiness. *)
Definition truthy (v : value) : bool :=
  match v with
  | Undefined | Null => false
  | Bool b => b
  | Num z => negb (z =? 0)%Z
  | Str s => negb (String.eqb s "")
  | Arr _ | Obj _ => true
  end.

(** [v.k] for a property name [k] that is neither an index nor a member
    of a prototype: a [TypeError] ([None]) on [null] and [undefined],
    [undefined] on a value that has no such own property. *)
Definition field (v : value) (k : string) : option value :=
  match v with
  | Undefined | Null => None
  | Obj fields => Some (default Undefined (Js.map_get fields k))
  | _ => Some Undefined
  end.

Fixpoint indexed {A} (i : nat) (l : list A) : list (string * A) :=
  match l with
  | [] => []
  | x :: l' => (Js.natToString i, x) :: indexed (S i) l'
  end.

Fixpoint chars (s : string) : list value :=
  match s with
  | EmptyString => []
  | String c s' => Str (String c EmptyString) :: chars s'
  end.

(** The own enumerable string-keyed properties of a value, as
    [Object.keys], [Object.entries] and object spread enumerate them. *)
Definition ownEntries (v : value) : list (string * value) :=
  match v with
  | Obj fields => fields
  | Arr items => indexed 0 items
  | Str s => indexed 0 (chars s)
  | _ => []
  end.

(** A key is an array index when it is the canonical numeral of an
    integer below [2^32 - 1]; such keys are enumerated first, in
    ascending order. *)
Definition arrayIndex (k : string) : option N :=
  match NilZero.uint_of_string k with
  | Some u =>
      let n := N.of_uint u in
      if String.eqb (NilZero.string_of_uint (N.to_uint n)) k
         && (n <? 4294967295)%N
      then Some n else None
  | None => None
  end.

Fixpoint insertIndexed {A} (n : N) (e : A) (l : list (N * A)) : list (N * A) :=
  match l with
  | [] => [(n, e)]
  | (m, x) :: l' =>
      if (n <? m)%N then (n, e) :: l else (m, x) :: insertIndexed n e l'
  end.

(** Property order of an ordinary object whose properties were created
    in the order of [fields]. *)
Definition propertyOrder {A} (fields : list (string * A)) : list (string * A) :=
  let idx :=
    fold_left (fun acc e => match arrayIndex (fst e) with
                            | Some n => insertIndexed n e acc
                            | None => acc
                            end) fields [] in
  (snd <$> idx) ++
  List.filter (fun e => match arrayIndex (fst e) with
                        | Some _ => false
                        | None => true
                        end) fields.

(** [{...a, ...b}] *)
Definition spread (a b : value) : list (string * value) :=
  propertyOrder
    (fold_left (fun acc e => Js.map_set acc (fst e) (snd e))
               (ownEntries a ++ ownEntries b) []).

(** *** Keys and lookups of a [Map] kept as a list *)

Lemma map_get_Some_elem {V} (m : Js.Map V) k v :
  Js.map_get m k = Some v -> (k, v) ∈ m.
Proof.
  unfold Js.map_get. induction m as [|[k' v'] m IH]; simpl; [done|].
  destruct (String.eqb k' k) eqn:E; simpl.
  - apply String.eqb_eq in E. intros [= <-]. subst k'. left.
  - intros H. right. by apply IH.
Qed.

Lemma map_get_elem_NoDup {V} (m : Js.Map V) k v :
  NoDup (fst <$> m) -> (k, v) ∈ m -> Js.map_get m k = Some v.
Proof.
  unfold Js.map_get. induction m as [|[k' v'] m IH]; simpl.
  - intros _ Hin. by apply elem_of_nil in Hin.
  - rewrite NoDup_cons. intros [Hk Hnd] Hin.
    apply elem_of_cons in Hin as [[= <- <-]|Hin].
    + by rewrite String.eqb_refl.
    + destruct (String.eqb k' k) eqn:E; simpl; [|by apply IH].
      apply String.eqb_eq in E. subst k'. exfalso. apply Hk.
      apply list_elem_of_fmap. by exists (k, v).
Qed.

Lemma map_get_is_None {V} (m : Js.Map V) k :
  Js.map_get m k = None <-> k ∉ fst <$> m.
Proof.
  unfold Js.map_get. induction m as [|[k' v'] m IH]; simpl.
  - split; [intros _; apply not_elem_of_nil|done].
  - rewrite not_elem_of_cons. destruct (String.eqb k' k) eqn:E; simpl.
    + apply String.eqb_eq in E. split; [done|]. intros [? _]. congruence.
    + apply String.eqb_neq in E. rewrite IH. split; [by split|by intros [_ ?]].
Qed.

Lemma map_get_keys {V} (m : Js.Map V) k :
  k ∈ fst <$> m <-> is_Some (Js.map_get m k).
Proof.
  rewrite <- not_eq_None_Some, map_get_is_None.
  destruct (decide (k ∈ fst <$> m)); tauto.
Qed.

(** Two listings of the same entries, with keys that are pairwise
    distinct, answer every lookup alike. *)
Lemma map_get_Permutation {V} (m m' : Js.Map V) k :
  NoDup (fst <$> m) -> m ≡ₚ m' -> Js.map_get m k = Js.map_get m' k.
Proof.
  intros Hnd Hp.
  assert (Hnd' : NoDup (fst <$> m')) by (by rewrite <- Hp).
  destruct (Js.map_get m k) as [v|] eqn:E.
  - symmetry. apply map_get_elem_NoDup; [done|].
    rewrite <- Hp. by apply map_get_Some_elem.
  - symmetry. apply map_get_is_None. rewrite <- Hp. by apply map_get_is_None.
Qed.

Lemma map_get_app {V} (m1 m2 : Js.Map V) k :
  Js.map_get (m1 ++ m2) k
  = match Js.map_get m1 k with
    | Some v => Some v
    | None => Js.map_get m2 k
    end.
Proof.
  unfold Js.map_get. induction m1 as [|[k' v'] m1 IH]; simpl; [done|].
  destruct (String.eqb k' k); simpl; [done|exact IH].
Qed.

Lemma map_get_set_other {V} (m : Js.Map V) k' v k :
  Js.map_get (Js.map_set m k' v) k
  = if decide (k' = k) then Some v else Js.map_get m k.
Proof.
  unfold Js.map_get. induction m as [|[k0 v0] m IH]; simpl.
  - case_decide as Hk.
    + subst k'. by rewrite String.eqb_refl.
    + apply String.eqb_neq in Hk. by rewrite Hk.
  - destruct (String.eqb k0 k') eqn:E; simpl.
    + apply String.eqb_eq in E. subst k0. case_decide as Hk.
      * subst k'. by rewrite String.eqb_refl.
      * apply String.eqb_neq in Hk. by rewrite Hk.
    + destruct (String.eqb k0 k) eqn:E'; simpl; [|exact IH].
      apply String.eqb_eq in E'. subst k0. apply String.eqb_neq in E.
      by rewrite decide_False by congruence.
Qed.

Lemma map_set_keys {V} (m : Js.Map V) k v :
  fst <$> Js.map_set m k v
  = if decide (k ∈ fst <$> m) then fst <$> m else ((fst <$> m) ++ [k])%list.
Proof.
  induction m as [|[k0 v0] m IH]; [reflexivity|].
  cbn [Js.map_set fst]. rewrite (fmap_cons fst _ m). cbn [fst].
  destruct (String.eqb k0 k) eqn:E.
  - apply String.eqb_eq in E. subst k0. rewrite fmap_cons. cbn [fst].
    rewrite decide_True; [done|left].
  - apply String.eqb_neq in E. rewrite fmap_cons, IH. cbn [fst].
    destruct (decide (k ∈ fst <$> m)) as [Hin|Hnin].
    + rewrite decide_True; [done|by right].
    + rewrite decide_False; [done|].
      rewrite not_elem_of_cons. split; [congruence|done].
Qed.

Lemma map_set_NoDup {V} (m : Js.Map V) k v :
  NoDup (fst <$> m) -> NoDup (fst <$> Js.map_set m k v).
Proof.
  intros Hnd. rewrite map_set_keys. case_decide as Hin; [done|].
  apply NoDup_app. split; [done|]. split; [|apply NoDup_singleton].
  by intros x Hx ->%list_elem_of_singleton.
Qed.

(** Writing a list of entries into a [Map] one after the other: the
    keys stay distinct, and for each key the last entry written wins. *)
Lemma fold_map_set_NoDup {V} (l : list (string * V)) (m : Js.Map V) :
  NoDup (fst <$> m) ->
  NoDup (fst <$> fold_left (fun acc e => Js.map_set acc (fst e) (snd e)) l m).
Proof.
  revert m. induction l as [|e l IH]; intros m Hnd; [done|].
  cbn [fold_left]. by apply IH, map_set_NoDup.
Qed.

Lemma fold_map_set_get {V} (l : list (string * V)) (m : Js.Map V) k :
  Js.map_get (fold_left (fun acc e => Js.map_set acc (fst e) (snd e)) l m) k
  = match Js.map_get (reverse l) k with
    | Some v => Some v
    | None => Js.map_get m k
    end.
Proof.
  revert m. induction l as [|[k' v'] l IH]; intros m; [done|].
  cbn [fold_left fst snd]. rewrite IH, reverse_cons, map_get_app.
  destruct (Js.map_get (reverse l) k); [done|].
  rewrite map_get_set_other. unfold Js.map_get. simpl.
  case_decide as Hk.
  - subst k'. by rewrite String.eqb_refl.
  - apply String.eqb_neq in Hk. by rewrite Hk.
Qed.

(** *** Property order *)

Lemma insertIndexed_Permutation {A} (n : N) (e : A) (l : list (N * A)) :
  snd <$> insertIndexed n e l ≡ₚ e :: (snd <$> l).
Proof.
  induction l as [|[m x] l IH]; simpl; [done|].
  destruct (n <? m)%N; simpl; [done|].
  rewrite IH. apply Permutation_swap.
Qed.

Lemma indexed_Permutation {A} (fields : list (string * A)) (acc : list (N * (string * A))) :
  snd <$> fold_left (fun acc e => match arrayIndex (fst e) with
                                  | Some n => insertIndexed n e acc
                                  | None => acc
                                  end) fields acc
  ≡ₚ ((snd <$> acc) ++
      List.filter (fun e => match arrayIndex (fst e) with
                            | Some _ => true
                            | None => false
                            end) fields)%list.
Proof.
  revert acc. induction fields as [|e fields IH]; intros acc; simpl.
  - by rewrite app_nil_r.
  - rewrite IH. destruct (arrayIndex e.1); [|done].
    rewrite insertIndexed_Permutation. apply Permutation_middle.
Qed.

Lemma filter_split_Permutation {A} (p : A -> bool) (l : list A) :
  (List.filter p l ++ List.filter (fun x => negb (p x)) l)%list ≡ₚ l.
Proof.
  induction l as [|x l IH]; simpl; [done|].
  destruct (p x); simpl.
  - by rewrite IH.
  - rewrite <- Permutation_middle. by rewrite IH.
Qed.

(** [propertyOrder] rearranges the properties and loses none. *)
Lemma propertyOrder_Permutation {A} (fields : list (string * A)) :
  propertyOrder fields ≡ₚ fields.
Proof.
  unfold propertyOrder. rewrite indexed_Permutation. simpl.
  rewrite <- (filter_split_Permutation
                (fun e => match arrayIndex (fst e) with
                          | Some _ => true
                          | None => false
                          end) fields) at 3.
  apply Permutation_app_head.
  erewrite (List.filter_ext (fun e : string * A => negb _)); [done|].
  intros e. cbn beta. by destruct (arrayIndex e.1).
Qed.

Lemma spread_NoDup a b : NoDup (fst <$> spread a b).
Proof.
  unfold spread. rewrite propertyOrder_Permutation.
  apply fold_map_set_NoDup. constructor.
Qed.

(** [{...a, ...b}] answers a lookup with the property of [b] when [b]
    has it, and with the property of [a] otherwise. *)
Lemma spread_get a b k :
  Js.map_get (spread a b) k
  = match Js.map_get (reverse (ownEntries b)) k with
    | Some v => Some v
    | None => Js.map_get (reverse (ownEntries a)) k
    end.
Proof.
  unfold spread.
  rewrite <- (map_get_Permutation _ _ k
                (fold_map_set_NoDup _ [] (NoDup_nil_2))
                (symmetry (propertyOrder_Permutation _))).
  rewrite fold_map_set_get, reverse_app, map_get_app.
  destruct (Js.map_get (reverse (ownEntries b)) k); [done|].
  by destruct (Js.map_get (reverse (ownEntries a)) k).
Qed.

End Json.

(* ------------------------------------------------------------------ *)
(** ** parsers/NpmDependencyParser.ts

    [JSON.parse] belongs to the host: it is a section variable, [None]
    standing for the [SyntaxError] it throws on malformed text. *)

Module Npm.
Import Model.

Section Parser.

Variable JSON_parse : string -> option Json.value.

(** A [Set<string>] in insertion order. *)
Definition set_add (deps : list string) (dep : string) : list string :=
  if existsb (String.eqb dep) deps then deps else deps ++ [dep].

Definition addKeys (deps : list string) (v : Json.value) : list string :=
  if Json.truthy v then fold_left set_add (fst <$> Json.ownEntries v) deps
  else deps.

Definition extractDependencies (content : string) : list string :=
  if String.eqb content "" || String.eqb (Js.trim content) "" then []
  else
    match JSON_parse content with
    | None => []
    | Some json =>
        match Json.field json "dependencies" with
        | None => []
        | Some dependencies =>
            let deps := addKeys [] dependencies in
            match Json.field json "devDependencies" with
            | None => deps
            | Some devDependencies => addKeys deps devDependencies
            end
        end
    end.

(** The version recorded for a package.  [package.json] declares
    versions as strings; a value of another type lies outside the
    declared type of [DependencyInfo.version] and is recorded as the
    empty version here. *)
Definition versionOf (v : Json.value) : string :=
  match v with
  | Json.Str s => s
  | _ => ""
  end.

Definition parseNewDependencies (content previousContent : string)
    : list DependencyInfo :=
  let previousDeps := extractDependencies previousContent in
  let currentDeps := extractDependencies content in
  match JSON_parse content with
  | None => []
  | Some currentJson =>
      match Json.field currentJson "dependencies",
            Json.field currentJson "devDependencies" with
      | Some dependencies, Some devDependencies =>
          let allDeps := Json.spread dependencies devDependencies in
          flat_map
            (fun dep =>
               if existsb (String.eqb dep) previousDeps then []
               else
                 let found := default Json.Undefined (Js.map_get allDeps dep) in
                 let version := if Json.truthy found then versionOf found else "" in
                 [createDependencyInfo "npm" dep version])
            currentDeps
      | _, _ => []
      end
  end.

Definition parseAllDependencies (content : string) : list DependencyInfo :=
  match JSON_parse content with
  | None => []
  | Some json =>
      match Json.field json "dependencies",
            Json.field json "devDependencies" with
      | Some dependencies, Some devDependencies =>
          (fun e => createDependencyInfo "npm" (fst e) (versionOf (snd e)))
            <$> Json.spread dependencies devDependencies
      | _, _ => []
      end
  end.

Definition parser : DependencyParser :=
  {| supports := fun fileName => String.eqb fileName "package.json";
     Model.parseNewDependencies := parseNewDependencies;
     Model.parseAllDependencies := parseAllDependencies;
     getPackageManager := "npm" |}.

(** Malformed text yields no dependency, on either entry point. *)
Lemma malformed_parses_to_nothing content previousContent :
  JSON_parse content = None ->
  parseAllDependencies content = [] /\
  parseNewDependencies content previousContent = [].
Proof.
  intros H. unfold parseAllDependencies, parseNewDependencies. by rewrite H.
Qed.

(** *** The dependencies a revision adds *)

Lemma set_add_elem deps dep n : n ∈ set_add deps dep <-> n ∈ deps \/ n = dep.
Proof.
  unfold set_add. destruct (existsb (String.eqb dep) deps) eqn:E.
  - apply Watcher.existsb_eqb_elem in E. split; [by left|].
    intros [?| ->]; done.
  - rewrite elem_of_app, list_elem_of_singleton. done.
Qed.

Lemma set_add_NoDup deps dep : NoDup deps -> NoDup (set_add deps dep).
Proof.
  intros Hnd. unfold set_add.
  destruct (existsb (String.eqb dep) deps) eqn:E; [done|].
  apply NoDup_app. split; [done|]. split; [|apply NoDup_singleton].
  intros x Hx ->%list_elem_of_singleton.
  apply Watcher.existsb_eqb_elem in Hx. congruence.
Qed.

Lemma addKeys_NoDup deps v : NoDup deps -> NoDup (addKeys deps v).
Proof.
  unfold addKeys. destruct (Json.truthy v); [|done].
  generalize (fst <$> Json.ownEntries v). intros keys. revert deps.
  induction keys as [|k keys IH]; intros deps Hnd; [done|].
  cbn [fold_left]. by apply IH, set_add_NoDup.
Qed.

Lemma extractDependencies_NoDup content : NoDup (extractDependencies content).
Proof.
  unfold extractDependencies.
  destruct (String.eqb content "" || String.eqb (Js.trim content) "");
    [constructor|].
  destruct (JSON_parse content) as [json|]; [|constructor].
  destruct (Json.field json "dependencies") as [dependencies|]; [|constructor].
  destruct (Json.field json "devDependencies") as [devDependencies|];
    repeat apply addKeys_NoDup; constructor.
Qed.

(** A revision that cannot be read as an object with properties has no
    dependency on either side of the comparison. *)
Lemma extractDependencies_unreadable content :
  match JSON_parse content with
  | Some json => Json.field json "dependencies" = None
  | None => True
  end ->
  extractDependencies content = [].
Proof.
  unfold extractDependencies.
  destruct (String.eqb content "" || String.eqb (Js.trim content) ""); [done|].
  destruct (JSON_parse content) as [json|]; [|done]. by intros ->.
Qed.

Lemma new_names previousDeps allDeps currentDeps :
  packageName <$>
    flat_map
      (fun dep =>
         if existsb (String.eqb dep) previousDeps then []
         else
           let found := default Json.Undefined (Js.map_get allDeps dep) in
           let version := if Json.truthy found then versionOf found else "" in
           [createDependencyInfo "npm" dep version])
      currentDeps
  = filter (fun n => n ∉ previousDeps) currentDeps.
Proof.
  match goal with |- context [flat_map ?g _] => set (f := g) end.
  induction currentDeps as [|dep deps IH]; [done|].
  change (flat_map f (dep :: deps)) with (f dep ++ flat_map f deps)%list.
  rewrite fmap_app, IH. unfold f.
  destruct (existsb (String.eqb dep) previousDeps) eqn:E.
  - apply Watcher.existsb_eqb_elem in E. by rewrite filter_cons_False by tauto.
  - rewrite filter_cons_True; [done|].
    intros Hin%Watcher.existsb_eqb_elem. congruence.
Qed.

Lemma parseNewDependencies_names content previousContent :
  packageName <$> parseNewDependencies content previousContent
  = filter (fun n => n ∉ extractDependencies previousContent)
           (extractDependencies content).
Proof.
  unfold parseNewDependencies.
  destruct (JSON_parse content) as [json|] eqn:Hp.
  - destruct (Json.field json "dependencies") as [dependencies|] eqn:Hd.
    + destruct (Json.field json "devDependencies") as [devDependencies|] eqn:Hv.
      * apply new_names.
      * destruct json; discriminate.
    + rewrite (extractDependencies_unreadable content); [|by rewrite Hp].
      by destruct (Json.field json "devDependencies").
  - rewrite (extractDependencies_unreadable content); [done|by rewrite Hp].
Qed.

Lemma filter_all_out (l : list string) : filter (fun n => n ∉ l) l = [].
Proof.
  assert (H : forall l', (forall n, n ∈ l' -> n ∈ l) -> filter (fun n => n ∉ l) l' = []).
  { induction l' as [|x l' IH]; intros Hsub; [done|].
    rewrite filter_cons_False.
    - apply IH. intros n Hn. apply Hsub. by right.
    - intros Hx. apply Hx, Hsub. by left. }
  by apply H.
Qed.

(** Reading an unchanged revision again reports nothing. *)
Lemma parseNewDependencies_same content : parseNewDependencies content content = [].
Proof.
  apply (fmap_nil_inv packageName).
  by rewrite parseNewDependencies_names, filter_all_out.
Qed.

Lemma parseNewDependencies_fresh content previousContent :
  Forall (fun d => packageManager d = "npm" /\ status d = PENDING)
         (parseNewDependencies content previousContent).
Proof.
  unfold parseNewDependencies.
  destruct (JSON_parse content) as [json|]; [|constructor].
  destruct (Json.field json "dependencies"); [|constructor].
  destruct (Json.field json "devDependencies"); [|constructor].
  apply Forall_flat_map, Forall_forall. intros dep _.
  destruct (existsb _ _); repeat constructor.
Qed.

(** X8. The dependencies [parseNewDependencies] reports are exactly the
    names declared by the current revision and not by the previous one,
    each once, in the order in which [extractDependencies] collects them,
    as npm packages with status pending; a revision that does not parse
    declares none.  In particular reading the same revision twice reports
    nothing the second time. *)
Theorem new_dependencies_are_the_difference (content previousContent : string) :
  let reported := parseNewDependencies content previousContent in
  packageName <$> reported
  = filter (fun n => n ∉ extractDependencies previousContent)
           (extractDependencies content) /\
  NoDup (packageName <$> reported) /\
  Forall (fun d => packageManager d = "npm" /\ status d = PENDING) reported /\
  (JSON_parse content = None -> extractDependencies content = []) /\
  parseNewDependencies content content = [].
Proof.
  cbv zeta. split; [apply parseNewDependencies_names|].
  split; [|split; [apply parseNewDependencies_fresh|split]].
  - rewrite parseNewDependencies_names. apply NoDup_filter, extractDependencies_NoDup.
  - intros Hp. apply extractDependencies_unreadable. by rewrite Hp.
  - apply parseNewDependencies_same.
Qed.

(** *** All the dependencies of a revision *)

Lemma keys_reverse {V} (l : list (string * V)) n :
  n ∈ fst <$> reverse l <-> n ∈ fst <$> l.
Proof. by rewrite fmap_reverse, elem_of_reverse. Qed.

Lemma map_get_reverse {V} (l : list (string * V)) n v :
  NoDup (fst <$> l) -> (n, v) ∈ l -> Js.map_get (reverse l) n = Some v.
Proof.
  intros Hnd Hin. apply Json.map_get_elem_NoDup.
  - by rewrite fmap_reverse, reverse_Permutation.
  - by apply elem_of_reverse.
Qed.

(** X9. For a manifest that parses to an object, [parseAllDependencies]
    lists every package declared under [dependencies] or
    [devDependencies], and each of them once: a package declared in both
    sections appears with the version [devDependencies] gives it, a
    package declared in [dependencies] alone with the version given
    there. *)
Theorem all_dependencies_once_each (content : string)
    (fields : list (string * Json.value)) :
  JSON_parse content = Some (Json.Obj fields) ->
  let dependencies := default Json.Undefined (Js.map_get fields "dependencies") in
  let devDependencies :=
    default Json.Undefined (Js.map_get fields "devDependencies") in
  NoDup (fst <$> Json.ownEntries dependencies) ->
  NoDup (fst <$> Json.ownEntries devDependencies) ->
  let all := parseAllDependencies content in
  NoDup (packageName <$> all) /\
  (forall n, n ∈ packageName <$> all <->
             n ∈ fst <$> Json.ownEntries dependencies \/
             n ∈ fst <$> Json.ownEntries devDependencies) /\
  (forall n v, (n, v) ∈ Json.ownEntries devDependencies ->
               createDependencyInfo "npm" n (versionOf v) ∈ all) /\
  (forall n v, (n, v) ∈ Json.ownEntries dependencies ->
               n ∉ fst <$> Json.ownEntries devDependencies ->
               createDependencyInfo "npm" n (versionOf v) ∈ all).
Proof.
  intros Hp. cbv zeta.
  set (a := default Json.Undefined (Js.map_get fields "dependencies")).
  set (b := default Json.Undefined (Js.map_get fields "devDependencies")).
  intros Ha Hb.
  assert (Hall : parseAllDependencies content
                 = (fun e => createDependencyInfo "npm" (fst e) (versionOf (snd e)))
                     <$> Json.spread a b).
  { unfold parseAllDependencies. by rewrite Hp. }
  assert (Hnames : packageName <$> parseAllDependencies content
                   = fst <$> Json.spread a b).
  { rewrite Hall, <- list_fmap_compose. by apply list_fmap_ext. }
  assert (Hin : forall n v, Js.map_get (Json.spread a b) n = Some v ->
                  createDependencyInfo "npm" n (versionOf v)
                    ∈ parseAllDependencies content).
  { intros n v Hg. rewrite Hall. apply list_elem_of_fmap.
    exists (n, v). split; [done|]. by apply Json.map_get_Some_elem. }
  split; [rewrite Hnames; apply Json.spread_NoDup|]. split; [|split].
  - intros n. rewrite Hnames.
    rewrite <- (keys_reverse (Json.ownEntries a)), <- (keys_reverse (Json.ownEntries b)).
    rewrite !Json.map_get_keys, Json.spread_get.
    destruct (Js.map_get (reverse (Json.ownEntries b)) n) as [vb|];
      destruct (Js.map_get (reverse (Json.ownEntries a)) n) as [va|];
      unfold is_Some; (split; [intros [x Hx]|intros [[x Hx]|[x Hx]]]);
      eauto; discriminate.
  - intros n v Hv. apply Hin. rewrite Json.spread_get.
    by rewrite (map_get_reverse _ n v Hb Hv).
  - intros n v Hv Hn. apply Hin. rewrite Json.spread_get.
    assert (Hnone : Js.map_get (reverse (Json.ownEntries b)) n = None).
    { apply Json.map_get_is_None. by rewrite keys_reverse. }
    by rewrite Hnone, (map_get_reverse _ n v Ha Hv).
Qed.

End Parser.

End Npm.

(* ------------------------------------------------------------------ *)
(** ** A malformed manifest revision *)

Module Manifest.
Import Model.

Section Malformed.

Variable JSON_parse : string -> option Json.value.
Variable ecosystem workspaceId : string.
Variable asRelativePath : string -> string.

(** The watcher handlers reading manifests with the npm parser. *)
Definition handleFileChange :=
  Watcher.handleFileChange (Npm.parser JSON_parse) ecosystem workspaceId
    asRelativePath.

(** C6 (amended). A manifest revision that does not parse never throws
    out of the parser: both entry points return the empty list, and the
    watcher records the revision as one without dependencies.  It then
    treats every dependency it tracks for that manifest as removed: each
    is handed to the removal handler (one [update] with action "removed"
    per tracked dependency when a configuration is available) and none
    stays tracked. *)
Theorem malformed_revision_drops_tracked (env : Watcher.Env) (uri content : string)
    (s : Watcher.State) (m : list (string * Watcher.loc)) :
  JSON_parse content = None ->
  Js.includes uri "node_modules" = false ->
  Watcher.statusCache s !! uri = Some m ->
  let s' := handleFileChange env uri (Some content) s in
  Npm.parseAllDependencies JSON_parse content = [] /\
  (forall previous, Npm.parseNewDependencies JSON_parse content previous = []) /\
  Watcher.fileCache s' !! uri = Some content /\
  (forall n, Watcher.tracked s' uri n = None) /\
  Watcher.updates s'
  = (Watcher.updates s
       ++ Watcher.removalUpdates ecosystem workspaceId env s m)%list.
Proof.
  intros Hbad Hn Hm. simpl.
  split; [apply (Npm.malformed_parses_to_nothing JSON_parse content "" Hbad)|].
  split; [intros previous;
          apply (Npm.malformed_parses_to_nothing JSON_parse content previous Hbad)|].
  apply Watcher.handleFileChange_nothing_parsed; [done| | |done]; simpl.
  - unfold Npm.parseNewDependencies. by rewrite Hbad.
  - unfold Npm.parseAllDependencies. by rewrite Hbad.
Qed.

(** X10. A manifest revision handled while no configuration (API
    token) is available is never submitted afterwards: it was recorded as
    the baseline without any request, so when the same content is handled
    again, now with a token, nothing is found to be new and nothing is
    sent; the state stays as the first handling left it. *)
Theorem unsent_additions_stay_unsent (env1 env2 : Watcher.Env)
    (uri content : string) (s : Watcher.State) :
  Watcher.getConfig env1 = None -> Js.includes uri "node_modules" = false ->
  let s1 := handleFileChange env1 uri (Some content) s in
  let s2 := handleFileChange env2 uri (Some content) s1 in
  s2 = s1 /\ Watcher.effects s2 = Watcher.effects s /\
  Watcher.fileCache s1 !! uri = Some content.
Proof.
  intros Hc Hn. cbv zeta. unfold handleFileChange.
  rewrite (Watcher.handleFileChange_again (Npm.parser JSON_parse) ecosystem
             workspaceId asRelativePath env1 env2 uri content s Hc Hn
             (Npm.parseNewDependencies_same JSON_parse content)).
  rewrite (Watcher.handleFileChange_no_config (Npm.parser JSON_parse) ecosystem
             workspaceId asRelativePath env1 uri content s Hc Hn).
  split; [done|]. split; [done|]. cbn. apply lookup_insert_eq.
Qed.

End Malformed.

End Manifest.

(* ------------------------------------------------------------------ *)
(** ** Concrete runs *)

Module Scenarios.
Import Model.

(** The double quote. *)
Definition dq : string := String "034"%char EmptyString.

(** [{"dependencies":{"lodash":"4.17.21"}}] *)
Definition manifest_lodash : string :=
  "{" ++ dq ++ "dependencies" ++ dq ++ ":{" ++ dq ++ "lodash" ++ dq ++ ":"
      ++ dq ++ "4.17.21" ++ dq ++ "}}".

(** A revision cut short while being written. *)
Definition manifest_malformed : string := "{" ++ dq ++ "dependencies" ++ dq ++ ":".

(** A parser agreeing with [JSON.parse] on the manifests used below: it
    accepts [manifest_lodash] and the empty object, and rejects the
    truncated revision like every text it does not know. *)
Definition JSON_parse (text : string) : option Json.value :=
  if String.eqb text manifest_lodash then
    Some (Json.Obj [("dependencies", Json.Obj [("lodash", Json.Str "4.17.21")])])
  else if String.eqb text "{}" then Some (Json.Obj [])
  else None.

Definition config : RepoGateConfig :=
  mkConfig "https://api.repogate.io/api/v1" "t0k3n" 10000 true.

Definition response (st : ResponseStatus) : CheckResponse :=
  mkCheckResponse st (bool_decide (st = approved)) "reviewed" "lodash" "npm" None.

(** An environment with a configured token, in which every request,
    check and update gets the given answer. *)
Definition world (req chk : Promise CheckResponse) (upd : Promise unit)
    : Watcher.Env :=
  {| Watcher.getConfig := Some config;
     Watcher.request := fun _ => req;
     Watcher.check := fun _ => chk;
     Watcher.update := fun _ => upd;
     Watcher.findDependencyLine := fun _ _ => 3;
     Watcher.now := "2025-11-16T10:00:00.000Z" |}.

Definition unreachable {A} : Promise A := Rejected "connect ECONNREFUSED".

Definition uri : string := "/ws/package.json".

Definition lodash : DependencyInfo := createDependencyInfo "npm" "lodash" "4.17.21".

Definition handleNewDependency :=
  Watcher.handleNewDependency "npm" "ws" (fun p => p).
Definition handleRemovedDependency :=
  Watcher.handleRemovedDependency "npm" "ws".
Definition tick := Watcher.tick "npm" "ws".
Definition run := Watcher.run (Npm.parser JSON_parse) "npm" "ws" (fun p => p).

(** The initial request fails: the dependency is tracked as pending, a
    non-terminal status, and nothing polls it or is about to. *)
Lemma failed_submission_is_pending_and_unpolled :
  let s := handleNewDependency (world unreachable unreachable unreachable)
             uri lodash (Watcher.init true) in
  status <$> Watcher.tracked s uri "lodash" = Some PENDING /\
  Watcher.pollTask s uri "lodash" = None /\
  Watcher.timers s = [] /\
  Watcher.starting s = [] /\
  Watcher.notifications s
  = [Notifications.showError "Failed to validate lodash"].
Proof. vm_compute. auto 10. Qed.

(** Pending, then scanning on the first poll tick of the interval that
    [startPolling] installed: the status changed to a different
    non-terminal one, reached for the first time, and no notification is
    made for it. *)
Lemma scanning_after_pending_is_silent :
  let s1 := handleNewDependency
              (world (Resolved (response pending)) unreachable unreachable)
              uri lodash (Watcher.init true) in
  let s2 := tick (world unreachable (Resolved (response scanning)) unreachable)
              0
              (Watcher.startPolling_resumed
                 (world unreachable unreachable unreachable) 0 s1) in
  status <$> Watcher.tracked s1 uri "lodash" = Some PENDING /\
  status <$> Watcher.tracked s2 uri "lodash" = Some SCANNING /\
  Watcher.notifications s1 = [Notifications.showPending "lodash" "4.17.21"] /\
  Watcher.notifications s2 = [Notifications.showPending "lodash" "4.17.21"].
Proof. vm_compute. auto. Qed.

(** An approved dependency is tracked; the next write is malformed, and
    the dependency is reported to the backend as removed and dropped. *)
Lemma malformed_write_reports_removal :
  let w := world (Resolved (response approved)) unreachable (Resolved tt) in
  let s1 := run true [Watcher.FileChanged w uri (Some manifest_lodash)] in
  let s2 := run true [Watcher.FileChanged w uri (Some manifest_lodash);
                      Watcher.FileChanged w uri (Some manifest_malformed)] in
  JSON_parse manifest_malformed = None /\
  status <$> Watcher.tracked s1 uri "lodash" = Some APPROVED /\
  Watcher.tracked s2 uri "lodash" = None /\
  (up_name <$> Watcher.updates s2) = ["lodash"] /\
  (up_action <$> Watcher.updates s2) = ["removed"].
Proof. vm_compute. auto. Qed.

(** A denied dependency is removed while the backend is unreachable: the
    [update] call fails and no removal confirmation is shown. *)
Lemma denied_removal_unconfirmed_when_update_fails :
  let s1 := handleNewDependency
              (world (Resolved (response denied)) unreachable unreachable)
              uri lodash (Watcher.init true) in
  let s2 := handleRemovedDependency (world unreachable unreachable unreachable)
              uri 0 s1 in
  status (Watcher.deref s1 0) = DENIED /\
  Watcher.notifications s1
  = [Notifications.showDenied "lodash" "4.17.21" "reviewed" None] /\
  Watcher.notifications s2 = Watcher.notifications s1 /\
  (up_action <$> Watcher.updates s2) = ["removed"].
Proof. vm_compute. auto. Qed.

(** The theorem on malformed revisions, at the run above. *)
Lemma malformed_revision_witness :
  let w := world (Resolved (response approved)) unreachable (Resolved tt) in
  let s1 := run true [Watcher.FileChanged w uri (Some manifest_lodash)] in
  let s2 := Manifest.handleFileChange JSON_parse "npm" "ws" (fun p => p) w uri
              (Some manifest_malformed) s1 in
  JSON_parse manifest_malformed = None /\
  Watcher.statusCache s1 !! uri = Some [("lodash", 0)] /\
  Npm.parseAllDependencies JSON_parse manifest_malformed = [] /\
  (forall n, Watcher.tracked s2 uri n = None) /\
  Watcher.updates s2
  = [mkUpdatePayload "ws" "npm" "lodash" "4.17.21" None "removed"
       "2025-11-16T10:00:00.000Z" true].
Proof.
  cbv zeta.
  assert (Hbad : JSON_parse manifest_malformed = None) by (vm_compute; reflexivity).
  assert (Hn : Js.includes uri "node_modules" = false) by (vm_compute; reflexivity).
  set (w := world (Resolved (response approved)) unreachable (Resolved tt)).
  assert (Hm : Watcher.statusCache
                 (run true [Watcher.FileChanged w uri (Some manifest_lodash)]) !! uri
               = Some [("lodash", 0)]) by (vm_compute; reflexivity).
  destruct (Manifest.malformed_revision_drops_tracked JSON_parse "npm" "ws"
              (fun p => p) w uri manifest_malformed _ _ Hbad Hn Hm)
    as (Hall & _ & _ & Hnone & Hupd).
  split; [exact Hbad|]. split; [exact Hm|]. split; [exact Hall|].
  split; [exact Hnone|]. rewrite Hupd. vm_compute. reflexivity.
Defined.

(** The theorem on removals: a pending dependency that is polled is
    removed, and the removal of a denied one is acknowledged by the
    backend. *)
Lemma removal_is_processed_witness :
  let w := world (Resolved (response pending)) unreachable (Resolved tt) in
  let s := run true [Watcher.FileChanged w uri (Some manifest_lodash);
                     Watcher.StartPollingResumed w 0] in
  let s1 := Watcher.removalSent "npm" "ws" w uri 0 s in
  let t := handleNewDependency
             (world (Resolved (response denied)) unreachable unreachable)
             uri lodash (Watcher.init true) in
  Watcher.getConfig w = Some config /\
  Watcher.deref s 0 = mkDependencyInfo "lodash" "npm" "4.17.21" PENDING /\
  Watcher.pollTask s uri "lodash" = Some 0 /\
  Watcher.live s 0 = Some (Watcher.mkInterval uri 0 10000) /\
  Watcher.live s1 0 = None /\
  Watcher.pollTask s1 uri "lodash" = None /\
  Diagnostics.entries (Watcher.diagnostics s1) uri "lodash" = [] /\
  (up_action <$> Watcher.updates s1) = ["removed"] /\
  Watcher.notifications (Watcher.removalAnswered (Resolved tt) 0 t)
  = [Notifications.showDenied "lodash" "4.17.21" "reviewed" None;
     Notifications.showRemovalConfirmed "lodash" "4.17.21"].
Proof.
  cbv zeta.
  set (w := world (Resolved (response pending)) unreachable (Resolved tt)).
  set (s := run true [Watcher.FileChanged w uri (Some manifest_lodash);
                      Watcher.StartPollingResumed w 0]).
  set (t := handleNewDependency
              (world (Resolved (response denied)) unreachable unreachable)
              uri lodash (Watcher.init true)).
  assert (Hwf : Watcher.dwf s) by apply Watcher.run_dwf.
  assert (Hd : Watcher.deref s 0 = mkDependencyInfo "lodash" "npm" "4.17.21" PENDING)
    by (vm_compute; reflexivity).
  assert (Hreg : Watcher.pollTask s uri "lodash" = Some 0)
    by (vm_compute; reflexivity).
  assert (Hlive : Watcher.live s 0 = Some (Watcher.mkInterval uri 0 10000))
    by (vm_compute; reflexivity).
  pose proof (Watcher.removal_is_processed (Npm.parser JSON_parse) "npm" "ws"
                (fun p => p) s w uri 0 config eq_refl Hwf) as H.
  cbv zeta in H. rewrite Hd in H. cbn [packageName] in H.
  destruct H as (_ & Hpoll & Hdead & _ & _ & _ & Hdiag & _ & Heff & Hans).
  destruct (Hdead 0 _ Hreg Hlive) as [Hgone _].
  destruct (Hans (Resolved tt) t) as (Hconf & _).
  split; [reflexivity|]. split; [exact Hd|]. split; [exact Hreg|].
  split; [exact Hlive|]. split; [exact Hgone|]. split; [exact Hpoll|].
  split; [exact Hdiag|].
  split; [unfold Watcher.updates; rewrite Heff; vm_compute; reflexivity|].
  unfold Watcher.notifications. rewrite Hconf. vm_compute. reflexivity.
Defined.

End Scenarios.

(** *** Further runs of the watcher *)

Module WatcherRuns.
Import Model Scenarios.

(** An environment without a configuration: no token is stored. *)
Definition signedOut : Watcher.Env :=
  {| Watcher.getConfig := None;
     Watcher.request := fun _ => unreachable;
     Watcher.check := fun _ => unreachable;
     Watcher.update := fun _ => unreachable;
     Watcher.findDependencyLine := fun _ _ => 3;
     Watcher.now := "2025-11-16T10:00:00.000Z" |}.

(** [{"dependencies":{"lodash":"4.17.20","chalk":"5.3.0"},
      "devDependencies":{"lodash":"4.17.21"}}] *)
Definition manifest_both : string :=
  "{" ++ dq ++ "dependencies" ++ dq ++ ":{" ++ dq ++ "lodash" ++ dq ++ ":"
      ++ dq ++ "4.17.20" ++ dq ++ "," ++ dq ++ "chalk" ++ dq ++ ":"
      ++ dq ++ "5.3.0" ++ dq ++ "}," ++ dq ++ "devDependencies" ++ dq ++ ":{"
      ++ dq ++ "lodash" ++ dq ++ ":" ++ dq ++ "4.17.21" ++ dq ++ "}}".

Definition both : list (string * Json.value) :=
  [("dependencies", Json.Obj [("lodash", Json.Str "4.17.20");
                              ("chalk", Json.Str "5.3.0")]);
   ("devDependencies", Json.Obj [("lodash", Json.Str "4.17.21")])].

(** A parser agreeing with [JSON.parse] on [manifest_both] and on the
    manifests of [Scenarios]. *)
Definition JSON_parse_both (text : string) : option Json.value :=
  if String.eqb text manifest_both then Some (Json.Obj both)
  else JSON_parse text.

(** The watcher polls [lodash], which is pending: the request was
    answered and [startPolling] has installed its interval. *)
Definition polling : Watcher.State :=
  run true [Watcher.FileChanged
              (world (Resolved (response pending)) unreachable unreachable)
              uri (Some manifest_lodash);
            Watcher.StartPollingResumed
              (world (Resolved (response pending)) unreachable unreachable) 0].

(** The poll of a pending dependency is answered with an approval. *)
Lemma diagnostic_follows_poll_witness :
  let w := world unreachable (Resolved (response approved)) unreachable in
  Watcher.live polling 0 = Some (Watcher.mkInterval uri 0 10000) /\
  Diagnostics.entries (Watcher.diagnostics (tick w 0 polling)) uri "lodash"
  = [Diagnostics.mkDiag "lodash" "4.17.21" approved "reviewed" 3 None] /\
  status (Watcher.deref (tick w 0 polling) 0) = APPROVED.
Proof.
  cbv zeta.
  set (w := world unreachable (Resolved (response approved)) unreachable).
  assert (Hl : Watcher.live polling 0 = Some (Watcher.mkInterval uri 0 10000))
    by (vm_compute; reflexivity).
  assert (Hd : Watcher.deref polling 0
               = mkDependencyInfo "lodash" "npm" "4.17.21" PENDING)
    by (vm_compute; reflexivity).
  pose proof (Watcher.diagnostic_follows_poll (Npm.parser JSON_parse) "npm" "ws"
                (fun p => p) true
                [Watcher.FileChanged
                   (world (Resolved (response pending)) unreachable unreachable)
                   uri (Some manifest_lodash);
                 Watcher.StartPollingResumed
                   (world (Resolved (response pending)) unreachable unreachable) 0]
                w 0 (Watcher.mkInterval uri 0 10000) config (response approved)
                Hl eq_refl eq_refl) as H.
  cbv zeta in H. fold run in H. fold polling in H. destruct H as [He Hs].
  cbn [Watcher.i_dep Watcher.i_uri] in He, Hs. rewrite Hd in He.
  split; [exact Hl|]. split; [exact He|exact Hs].
Defined.

(** The manifest of a polled dependency is deleted, and the poll is
    answered afterwards: the diagnostic comes back. *)
Example deleted_manifest_gets_its_diagnostic_back :
  let w := world unreachable (Resolved (response scanning)) unreachable in
  let s := Watcher.handleFileDelete uri polling in
  Watcher.tracked s uri "lodash" = None /\
  Diagnostics.entries (Watcher.diagnostics s) uri "lodash" = [] /\
  Watcher.live s 0 = Some (Watcher.mkInterval uri 0 10000) /\
  Diagnostics.entries (Watcher.diagnostics (tick w 0 s)) uri "lodash"
  = [Diagnostics.mkDiag "lodash" "4.17.21" scanning "reviewed" 3 None].
Proof. vm_compute. auto. Qed.

(** A dependency is added while signed out; lodash, tracked before, is
    gone from the revision. *)
Lemma changes_without_token_witness :
  let s := Watcher.handleFileChange (Npm.parser JSON_parse) "npm" "ws" (fun p => p)
             signedOut uri (Some "{}") polling in
  Watcher.getConfig signedOut = None /\
  Watcher.effects s = Watcher.effects polling /\
  Watcher.fileCache s !! uri = Some "{}" /\
  Watcher.tracked s uri "lodash" = None /\
  Watcher.timers s = Watcher.timers polling.
Proof.
  cbv zeta.
  destruct (Watcher.changes_without_token_are_dropped (Npm.parser JSON_parse)
              "npm" "ws" (fun p => p) signedOut uri "{}" polling eq_refl eq_refl)
    as (He & _ & _ & Ht & _ & Hf & Htr).
  split; [reflexivity|]. split; [exact He|]. split; [exact Hf|].
  split; [|exact Ht]. rewrite (Htr "lodash"). reflexivity.
Defined.

(** The same addition handled twice, signed out and then signed in. *)
Lemma unsent_additions_witness :
  let w := world (Resolved (response approved)) unreachable unreachable in
  let s1 := Manifest.handleFileChange JSON_parse "npm" "ws" (fun p => p)
              signedOut uri (Some manifest_lodash) (Watcher.init true) in
  let s2 := Manifest.handleFileChange JSON_parse "npm" "ws" (fun p => p)
              w uri (Some manifest_lodash) s1 in
  Watcher.getConfig signedOut = None /\
  (packageName <$> Npm.parseAllDependencies JSON_parse manifest_lodash) = ["lodash"] /\
  Watcher.effects s2 = [] /\ Watcher.tracked s2 uri "lodash" = None.
Proof.
  cbv zeta.
  destruct (Manifest.unsent_additions_stay_unsent JSON_parse "npm" "ws" (fun p => p)
              signedOut
              (world (Resolved (response approved)) unreachable unreachable)
              uri manifest_lodash (Watcher.init true) eq_refl eq_refl)
    as (Hs & He & _).
  split; [reflexivity|]. split; [vm_compute; reflexivity|].
  split; [exact He|]. rewrite Hs. vm_compute. reflexivity.
Defined.

(** A package declared in both sections. *)
Lemma all_dependencies_witness :
  JSON_parse_both manifest_both = Some (Json.Obj both) /\
  Npm.parseAllDependencies JSON_parse_both manifest_both
  = [createDependencyInfo "npm" "lodash" "4.17.21";
     createDependencyInfo "npm" "chalk" "5.3.0"] /\
  createDependencyInfo "npm" "lodash" "4.17.21"
    ∈ Npm.parseAllDependencies JSON_parse_both manifest_both.
Proof.
  assert (Hp : JSON_parse_both manifest_both = Some (Json.Obj both))
    by (vm_compute; reflexivity).
  destruct (Npm.all_dependencies_once_each JSON_parse_both manifest_both both Hp)
    as (_ & _ & Hdev & _).
  - apply (bool_decide_unpack _). vm_compute. exact I.
  - apply (bool_decide_unpack _). vm_compute. exact I.
  - split; [exact Hp|]. split; [vm_compute; reflexivity|].
    apply (Hdev "lodash" (Json.Str "4.17.21")). vm_compute. left.
Defined.

(** The watcher is disposed of while the [startPolling] call for
    [lodash] waits for the configuration: the interval is installed
    afterwards, and its first firing sends a check. *)
Example interval_installed_after_dispose :
  let w := world (Resolved (response pending)) (Resolved (response pending))
             unreachable in
  let s := run true [Watcher.FileChanged w uri (Some manifest_lodash);
                     Watcher.Dispose;
                     Watcher.StartPollingResumed w 0;
                     Watcher.Tick w 0] in
  Watcher.live s 0 = Some (Watcher.mkInterval uri 0 10000) /\
  Watcher.pollTask s uri "lodash" = Some 0 /\
  (fun e => match e with Watcher.ApiCheck _ => true | _ => false end)
    <$> Watcher.apiCalls s = [false; true].
Proof. vm_compute. auto. Qed.

(** The same dependency is submitted twice before either call of
    [startPolling] has resumed, as when the creation and the change
    event of a new manifest are both handled and each handler finds
    [lodash] new: both intervals are installed, the registry holds the
    second, and a verdict observed by the second leaves the first
    polling. *)
Example two_submissions_leave_two_intervals :
  let w := world (Resolved (response pending)) (Resolved (response approved))
             unreachable in
  let s := Watcher.startPolling_resumed w 0
             (Watcher.startPolling_resumed w 0
                (handleNewDependency w uri lodash
                   (handleNewDependency w uri lodash (Watcher.init true)))) in
  Watcher.live s 0 = Some (Watcher.mkInterval uri 0 10000) /\
  Watcher.live s 1 = Some (Watcher.mkInterval uri 1 10000) /\
  Watcher.pollTask s uri "lodash" = Some 1 /\
  Watcher.live (tick w 1 s) 1 = None /\
  Watcher.live (tick w 1 s) 0 = Some (Watcher.mkInterval uri 0 10000) /\
  Watcher.pollTask (tick w 1 s) uri "lodash" = None.
Proof. vm_compute. auto 10. Qed.

(** The request for [lodash] is answered with an approval: the one
    notification call is the silent one. *)
Lemma approvals_witness :
  let es := [Watcher.FileChanged
               (world (Resolved (response approved)) unreachable unreachable)
               uri (Some manifest_lodash)] in
  Watcher.notifications (run true es)
  = [Notifications.showApproved "lodash" "4.17.21" true] /\
  Notifications.popups (Notifications.showApproved "lodash" "4.17.21" true) = [].
Proof.
  cbv zeta.
  set (es := [Watcher.FileChanged
                (world (Resolved (response approved)) unreachable unreachable)
                uri (Some manifest_lodash)]).
  assert (Hn : Watcher.notifications (run true es)
               = [Notifications.showApproved "lodash" "4.17.21" true])
    by (vm_compute; reflexivity).
  assert (Hin : Notifications.showApproved "lodash" "4.17.21" true
                ∈ Watcher.notifications (run true es))
    by (rewrite Hn; apply list_elem_of_here).
  destruct (Watcher.approvals_are_never_announced (Npm.parser JSON_parse) "npm"
              "ws" (fun p => p) true es "lodash" "4.17.21" true Hin) as [_ Hp].
  split; [exact Hn|exact Hp].
Defined.

End WatcherRuns.

(* ------------------------------------------------------------------ *)
(** ** auth/authManager.ts

    The token lives in the secret storage, the other values in the
    [repogate] section of the settings.  A value that is not set is
    [None]; [pollIntervalMs] is modelled on the integers. *)

Module Auth.
Import Model.

(** What the manager reads: [secrets.get(TOKEN_KEY)] and three settings. *)
Record Host := mkHost {
  secret : option string;
  setting_apiUrl : option string;
  setting_pollIntervalMs : option Z;
  setting_includeDevDependencies : option bool
}.

Inductive Effect :=
  | Prompt (text : string) (items : list string)
  | ExecuteCommand (command : string)
  | OpenExternal (url : string).

(** [config.get('apiUrl') || 'https://api.repogate.io/api/v1'] *)
Definition apiUrlOf (h : Host) : string :=
  match setting_apiUrl h with
  | Some url => if String.eqb url "" then "https://api.repogate.io/api/v1" else url
  | None => "https://api.repogate.io/api/v1"
  end.

(** [Math.max(config.get('pollIntervalMs') || 10000, 3000)]: the delay
    the watcher hands to [setInterval].  It has no upper bound; the
    period of the timer is [Js.timerPeriod] of it. *)
Definition pollIntervalOf (h : Host) : N :=
  let configured :=
    match setting_pollIntervalMs h with
    | Some n => if (n =? 0)%Z then 10000%Z else n
    | None => 10000%Z
    end in
  Z.to_N (Z.max configured 3000).

(** [config.get('includeDevDependencies') ?? true] *)
Definition includeDevOf (h : Host) : bool :=
  default true (setting_includeDevDependencies h).

Definition configOf (h : Host) (apiToken : string) : RepoGateConfig :=
  mkConfig (apiUrlOf h) apiToken (pollIntervalOf h) (includeDevOf h).

(** [result] is the button the user picks, if any. *)
Definition promptForToken (result : option string) : list Effect :=
  Prompt "RepoGate: API token is required to use this extension."
         ["Set Token"; "Get Token Help"]
  :: match result with
     | Some r =>
         if String.eqb r "Set Token" then [ExecuteCommand "repogate.setToken"]
         else if String.eqb r "Get Token Help" then
           [OpenExternal "https://repogate.io/docs/getting-started"]
         else []
     | None => []
     end.

Definition ensureAuthOrPrompt (result : option string) (h : Host)
    : option RepoGateConfig * list Effect :=
  match secret h with
  | Some apiToken =>
      if String.eqb apiToken "" || String.eqb (Js.trim apiToken) "" then
        (None, promptForToken result)
      else (Some (configOf h apiToken), [])
  | None => (None, promptForToken result)
  end.

Definition getToken (h : Host) : option string := secret h.

Definition setToken (token : string) (h : Host) : Host :=
  mkHost (Some token) (setting_apiUrl h) (setting_pollIntervalMs h)
         (setting_includeDevDependencies h).

Definition clearToken (h : Host) : Host :=
  mkHost None (setting_apiUrl h) (setting_pollIntervalMs h)
         (setting_includeDevDependencies h).

Definition getConfig (h : Host) : option RepoGateConfig :=
  match getToken h with
  | Some apiToken =>
      if String.eqb apiToken "" then None else Some (configOf h apiToken)
  | None => None
  end.

(** A host whose stored token consists of blanks. *)
Definition blankToken : Host := mkHost (Some "   ") None (Some 500%Z) None.

(** *** The two ways to a configuration *)

Lemma pollIntervalOf_min h : (3000 <= pollIntervalOf h)%N.
Proof. unfold pollIntervalOf. lia. Qed.

Lemma getConfig_Some h c :
  getConfig h = Some c ->
  exists token, secret h = Some token /\ token <> "" /\ c = configOf h token.
Proof.
  unfold getConfig, getToken. destruct (secret h) as [token|]; [|done].
  destruct (String.eqb_spec token ""); [done|].
  intros [= <-]. by exists token.
Qed.

(** X11. [ensureAuthOrPrompt] and [getConfig] disagree on a token that
    consists of white space.  Whenever the first returns a configuration
    the second returns the same one, and no prompt is shown; [getConfig]
    returns nothing exactly when no token or the empty token is stored.
    For a stored token that is not empty but trims to nothing, activation
    is refused with a prompt, while [getConfig], which the watchers, the
    heartbeat and the commands use, hands out a configuration carrying
    that token. *)
Theorem blank_token_passes_getConfig (h : Host) (result : option string) :
  (forall c, fst (ensureAuthOrPrompt result h) = Some c ->
     getConfig h = Some c /\ snd (ensureAuthOrPrompt result h) = [] /\
     Js.trim (apiToken c) <> "") /\
  (getConfig h = None <-> secret h = None \/ secret h = Some "") /\
  (forall token, secret h = Some token -> token <> "" -> Js.trim token = "" ->
     getConfig h = Some (configOf h token) /\
     ensureAuthOrPrompt result h = (None, promptForToken result)).
Proof.
  split; [|split].
  - intros c. unfold ensureAuthOrPrompt, getConfig, getToken.
    destruct (secret h) as [token|]; [|done].
    destruct (String.eqb_spec token "") as [->|Hne]; [done|].
    destruct (String.eqb_spec (Js.trim token) "") as [Ht|Ht]; [done|].
    simpl. intros [= <-]. by repeat split.
  - unfold getConfig, getToken. destruct (secret h) as [token|].
    + destruct (String.eqb_spec token "") as [->|Hne].
      * split; auto.
      * split; [done|]. intros [?|[= ?]]; done.
    + split; auto.
  - intros token Hs Hne Ht. unfold ensureAuthOrPrompt, getConfig, getToken.
    rewrite Hs, Ht. apply String.eqb_neq in Hne. rewrite Hne. by simpl.
Qed.

(** The third case is not vacuous. *)
Example blank_token_is_handed_out :
  fst (ensureAuthOrPrompt None blankToken) = None /\
  getConfig blankToken
  = Some (mkConfig "https://api.repogate.io/api/v1" "   " 3000 true).
Proof. vm_compute. auto. Qed.

(** X12. The delay [startPolling] hands to [setInterval] is at least
    3000: with a token stored it is the [pollIntervalMs] setting, raised
    to 3000 when it is smaller and taken as 10000 when it is unset or
    zero; the fallback of [startPolling] is used only when no token is
    stored.  The interval fires with that period as long as the delay
    does not exceed 2147483647, the largest delay of a timer; a setting
    above it makes the interval fire every millisecond. *)
Theorem poll_period_follows_the_setting (h : Host) (env : Watcher.Env)
    (n : nat) (c : Watcher.Start) (s : Watcher.State) :
  Watcher.getConfig env = getConfig h ->
  Watcher.starting s !! n = Some c ->
  let s' := Watcher.startPolling_resumed env n s in
  exists delay,
    Watcher.live s' (length (Watcher.timers s))
    = Some (Watcher.mkInterval (Watcher.st_uri c) (Watcher.st_dep c) delay) /\
    (3000 <= delay)%N /\
    (getConfig h <> None -> delay = pollIntervalOf h) /\
    (getConfig h = None -> delay = 10000%N) /\
    Js.timerPeriod delay = (if (delay <=? 2147483647)%N then delay else 1%N) /\
    (forall m, setting_pollIntervalMs h = Some m -> getConfig h <> None ->
       Js.timerPeriod delay
       = if (m =? 0)%Z then 10000%N
         else if (m <? 3000)%Z then 3000%N
         else if (m <=? 2147483647)%Z then Z.to_N m else 1%N).
Proof.
  intros Hc Hn. cbv zeta.
  destruct (Watcher.startPolling_resumed_spec env n c s Hn)
    as (delay & Hdelay & _ & _ & _ & Hl & _). cbv zeta in Hl.
  assert (Hd : delay = match getConfig h with
                       | Some _ => pollIntervalOf h
                       | None => 10000%N
                       end).
  { rewrite Hdelay, Hc. destruct (getConfig h) as [c0|] eqn:E; [|done].
    apply getConfig_Some in E as (token & _ & _ & ->). cbn [pollIntervalMs configOf].
    pose proof (pollIntervalOf_min h) as Hmin.
    destruct (N.eqb_spec (pollIntervalOf h) 0) as [H0|_]; [lia|done]. }
  assert (Hmin : (3000 <= delay)%N).
  { rewrite Hd. destruct (getConfig h); [apply pollIntervalOf_min|lia]. }
  assert (Hp : Js.timerPeriod delay
               = (if (delay <=? 2147483647)%N then delay else 1%N)).
  { unfold Js.timerPeriod.
    destruct (N.ltb_spec delay 1); [lia|].
    destruct (N.ltb_spec 2147483647 delay), (N.leb_spec delay 2147483647);
      simpl; lia. }
  exists delay. split; [exact Hl|]. split; [exact Hmin|].
  split; [|split; [|split; [exact Hp|]]].
  - rewrite Hd. by destruct (getConfig h).
  - rewrite Hd. by intros ->.
  - intros m Hm Hsome. rewrite Hp, Hd.
    destruct (getConfig h); [|done]. unfold pollIntervalOf. rewrite Hm.
    destruct (Z.eqb_spec m 0) as [->|H0]; [done|].
    destruct (Z.ltb_spec m 3000).
    + rewrite Z.max_r by lia. done.
    + rewrite Z.max_l by lia.
      destruct (Z.leb_spec m 2147483647), (N.leb_spec (Z.to_N m) 2147483647);
        lia.
Qed.

(** The theorem on the period, for a setting of half a second and for
    one of a hundred days. *)
Lemma poll_period_witness :
  let h := mkHost (Some "t0k3n") None (Some 500%Z) None in
  let h' := mkHost (Some "t0k3n") None (Some 8640000000%Z) None in
  let env := fun h => Watcher.mkEnv (getConfig h) (fun _ => Rejected "down")
               (fun _ => Rejected "down") (fun _ => Rejected "down")
               (fun _ _ => 0) "2025-11-16T10:00:00.000Z" in
  let s := Watcher.startPolling "/ws/package.json" 0 (Watcher.init true) in
  Watcher.live (Watcher.startPolling_resumed (env h) 0 s) 0
  = Some (Watcher.mkInterval "/ws/package.json" 0 3000) /\
  Watcher.live (Watcher.startPolling_resumed (env h') 0 s) 0
  = Some (Watcher.mkInterval "/ws/package.json" 0 8640000000) /\
  Js.timerPeriod 3000 = 3000%N /\ Js.timerPeriod 8640000000 = 1%N.
Proof.
  cbv zeta.
  set (s := Watcher.startPolling "/ws/package.json" 0 (Watcher.init true)).
  set (h := mkHost (Some "t0k3n") None (Some 500%Z) None).
  set (h' := mkHost (Some "t0k3n") None (Some 8640000000%Z) None).
  set (env := fun h => Watcher.mkEnv (getConfig h) (fun _ => Rejected "down")
                (fun _ => Rejected "down") (fun _ => Rejected "down")
                (fun _ _ => 0) "2025-11-16T10:00:00.000Z").
  pose (c := Watcher.mkStart "/ws/package.json" 0 "/ws/package.json:").
  destruct (poll_period_follows_the_setting h (env h) 0 c s eq_refl eq_refl)
    as (delay & Hl & _ & Hd & _ & _ & Hp).
  destruct (poll_period_follows_the_setting h' (env h') 0 c s eq_refl eq_refl)
    as (delay' & Hl' & _ & Hd' & _ & _ & Hp').
  cbv zeta in Hl, Hl'.
  rewrite (Hd ltac:(discriminate)) in Hl, Hp.
  rewrite (Hd' ltac:(discriminate)) in Hl', Hp'.
  split; [exact Hl|]. split; [exact Hl'|].
  split; [exact (Hp 500%Z eq_refl ltac:(discriminate))|].
  exact (Hp' 8640000000%Z eq_refl ltac:(discriminate)).
Defined.

End Auth.

(* ------------------------------------------------------------------ *)
(** ** api/client.ts: the retrying client

    [retryRequest] wraps every operation of [RepoGateApiClient].  The
    wrapped call [fn] and [Math.random] are given by the attempt at which
    they are used; the delay is computed over the rationals. *)

Module ApiClient.
Import QArith Lqa.

Definition maxRetries : nat := 3.
Definition baseDelay : Z := 1000.

(** What a rejected axios call carries: [error.response] with its HTTP
    status, or no response at all (time-out, refused connection). *)
Inductive AxiosError :=
  | WithResponse (status : Z)
  | NoResponse.

Inductive Outcome (A : Type) :=
  | Fulfilled (a : A)
  | Failed (e : AxiosError).
Arguments Fulfilled {A} a.
Arguments Failed {A} e.

(** [error.response && status >= 400 && status < 500] *)
Definition clientError (e : AxiosError) : bool :=
  match e with
  | WithResponse status => (400 <=? status)%Z && (status <? 500)%Z
  | NoResponse => false
  end.

(** What [retryRequest] does, in order: it invokes [fn], and it sleeps. *)
Inductive Action :=
  | Invoke (attempt : nat)
  | Sleep (attempt : nat) (ms : Q).

Section Retry.

Context {A : Type}.
Variable fn : nat -> Outcome A.
Variable random : nat -> Q.

(** [baseDelay * Math.pow(2, attempt) + Math.random() * 1000] *)
Definition delay (attempt : nat) : Q :=
  inject_Z (baseDelay * 2 ^ Z.of_nat attempt) + random attempt * 1000.

Equations? retryRequest (attempt : nat) : list Action * Outcome A
    by wf (maxRetries - attempt)%nat lt :=
  retryRequest attempt with fn attempt => {
    | Fulfilled a => ([Invoke attempt], Fulfilled a)
    | Failed e with clientError e => {
        | true => ([Invoke attempt], Failed e)
        | false with lt_dec attempt maxRetries => {
            | left more =>
                let r := retryRequest (S attempt) in
                (Invoke attempt :: Sleep attempt (delay attempt) :: fst r, snd r)
            | right _ => ([Invoke attempt], Failed e) } } }.
Proof. unfold maxRetries in *. lia. Qed.

(** An outcome after which [retryRequest] goes on: a failure that is
    not a 4xx response. *)
Definition retriable (o : Outcome A) : Prop :=
  exists e, o = Failed e /\ clientError e = false.

(** The actions of the attempts [a], ..., [m - 1], each followed by its
    back-off. *)
Definition retried (a m : nat) : list Action :=
  flat_map (fun k => [Invoke k; Sleep k (delay k)]) (seq a (m - a)).

(** The attempts at which [fn] was invoked. *)
Definition invocations (tr : list Action) : list nat :=
  omap (fun a => match a with Invoke k => Some k | Sleep _ _ => None end) tr.

(** The time spent sleeping between the attempts, in milliseconds. *)
Definition slept (tr : list Action) : Q :=
  fold_right (fun a acc => match a with
                           | Sleep _ ms => ms + acc
                           | Invoke _ => acc
                           end) 0 tr.

Lemma retried_step a m :
  (a < m)%nat -> retried a m = Invoke a :: Sleep a (delay a) :: retried (S a) m.
Proof.
  intros H. unfold retried.
  replace (m - a)%nat with (S (m - S a)) by lia. reflexivity.
Qed.

Lemma retried_nil a : retried a a = [].
Proof. unfold retried. by rewrite Nat.sub_diag. Qed.

Lemma retryRequest_spec a :
  (a <= maxRetries)%nat ->
  exists m,
    (a <= m <= maxRetries)%nat /\
    retryRequest a = (retried a m ++ [Invoke m], fn m)%list /\
    (forall k, (a <= k < m)%nat -> retriable (fn k)) /\
    match fn m with
    | Fulfilled _ => True
    | Failed e => clientError e = true \/ m = maxRetries
    end.
Proof.
  funelim (retryRequest a); intros Ha.
  - exists attempt. rewrite retried_nil, Heq.
    split; [lia|]. split; [done|]. split; [intros; lia|done].
  - exists attempt. rewrite retried_nil, Heq0.
    split; [lia|]. split; [done|]. split; [intros; lia|by left].
  - destruct H as (m & Hm & Hr & Hk & Hfin); [lia|].
    exists m. split; [lia|]. split.
    + rewrite Hr. simpl. rewrite (retried_step attempt m) by lia. done.
    + split; [|done]. intros k Hk'.
      destruct (decide (k = attempt)) as [->|Hne]; [|apply Hk; lia].
      exists e. auto.
  - exists attempt. rewrite retried_nil, Heq1.
    split; [lia|]. split; [done|]. split; [intros; lia|].
    right. unfold maxRetries in *. lia.
Qed.

Lemma invocations_retried a m :
  (a <= m)%nat ->
  invocations (retried a m ++ [Invoke m]) = seq a (S m - a).
Proof.
  intros H. remember (m - a)%nat as n eqn:Hn. revert a H Hn.
  induction n as [|n IH]; intros a H Hn.
  - assert (a = m) as -> by lia. rewrite retried_nil.
    replace (S m - m)%nat with 1%nat by lia. reflexivity.
  - rewrite (retried_step a m) by lia.
    replace (S m - a)%nat with (S (S m - S a)) by lia.
    change (invocations ((Invoke a :: Sleep a (delay a) :: retried (S a) m)
                           ++ [Invoke m]))
      with (a :: invocations (retried (S a) m ++ [Invoke m])).
    rewrite (IH (S a)) by lia. reflexivity.
Qed.


(** X13. The back-off of [retryRequest] is bounded.  When the wrapped
    call was invoked at the attempts 0, ..., m (so m retries were made),
    the time slept in between is at least 1000 * (2^m - 1) ms, the sum
    of the exponential delays, and exceeds it by at most 1000 ms of
    jitter per retry; a call that succeeds at once never sleeps, and a
    call that fails throughout gives up after less than ten seconds of
    waiting. *)
Theorem backoff_is_bounded :
  (forall n, 0 <= random n /\ random n < 1) ->
  let tr := fst (retryRequest 0) in
  exists m,
    (m <= maxRetries)%nat /\
    invocations tr = seq 0 (S m) /\
    inject_Z (1000 * (2 ^ Z.of_nat m - 1)) <= slept tr /\
    slept tr <= inject_Z (1000 * (2 ^ Z.of_nat m - 1) + 1000 * Z.of_nat m) /\
    (m = 0%nat -> slept tr == 0) /\
    slept tr < 10000.
Proof.
  intros Hrandom. cbv zeta.
  destruct (retryRequest_spec 0) as (m & Hm & Hr & _); [lia|].
  exists m. rewrite Hr. cbn [fst].
  split; [lia|]. split; [rewrite invocations_retried by lia; f_equal; lia|].
  pose proof (Hrandom 0%nat) as [A0 B0]. pose proof (Hrandom 1%nat) as [A1 B1].
  pose proof (Hrandom 2%nat) as [A2 B2].
  unfold maxRetries in Hm.
  destruct m as [|[|[|[|m]]]]; [| | | |lia];
    unfold retried, delay, baseDelay; cbn;
    repeat match goal with
           | |- context [inject_Z ?z] =>
               let v := eval vm_compute in z in
               progress change (inject_Z z) with (v # 1)
           end;
    repeat split; try (intros; discriminate); try lra; try reflexivity.
Qed.

End Retry.



(** The same backend: three retries, eight and a half seconds slept. *)
Lemma backoff_witness :
  let fn := fun _ : nat => @Failed unit (WithResponse 503) in
  let random := fun _ : nat => 1 # 2 in
  (forall n : nat, 0 <= random n /\ random n < 1) /\
  slept (fst (retryRequest fn random 0)) == 8500 /\
  slept (fst (retryRequest fn random 0)) < 10000.
Proof.
  cbv zeta.
  assert (Hr : forall n : nat, 0 <= 1 # 2 /\ 1 # 2 < 1)
    by (intros _; split; reflexivity || discriminate).
  destruct (backoff_is_bounded (fun _ : nat => @Failed unit (WithResponse 503))
              (fun _ : nat => 1 # 2) Hr) as (m & _ & _ & _ & _ & _ & Hlt).
  split; [exact Hr|]. split; [vm_compute; reflexivity|exact Hlt].
Defined.

(** A 404 on the second attempt ends the retries there. *)
Example not_found_is_not_retried :
  let fn := fun k : nat =>
    @Failed unit (WithResponse (if (k =? 1)%nat then 404 else 500)) in
  let r := retryRequest fn (fun _ => 1 # 4) 0 in
  invocations (fst r) = [0; 1]%nat /\ snd r = Failed (WithResponse 404).
Proof. vm_compute. auto. Qed.

End ApiClient.

(* ------------------------------------------------------------------ *)
(** ** services/bootstrap.ts and the guarded entry point of extension.ts

    The completion marker lives in the workspace memento under
    [BOOTSTRAP_KEY], as the list of the workspace ids already scanned. *)

Module Bootstrap.
Import Model.

Definition BOOTSTRAP_KEY : string := "repogate.bootstrapCompleted".

Record QueuePackage := mkQueuePackage {
  qp_name : string;
  qp_version : string;
  qp_path : string
}.

Record QueueRequest := mkQueueRequest {
  q_projectName : string;
  q_ecosystem : string;
  q_packages : list QueuePackage;
  q_timestamp : string;
  q_repository : bool
}.

Record State := mkState {
  workspaceState : gmap string (list string);
  queued : list QueueRequest;
  popups : list Notifications.Popup
}.

(** The outside world during one activation or scan. *)
Record Env := mkEnv {
  enabled : bool;
  ensureAuthOrPrompt : option RepoGateConfig;
  workspaceId : string;
  hasRepository : bool;
  findFiles : string -> Promise (list string);
  readFile : string -> Promise string;
  queue : QueueRequest -> Promise unit;
  now : string;
  basename : string -> string;
  asRelativePath : string -> string
}.

Section Service.

(** [this.parsers], in the order of the constructor. *)
Variable parsers : list DependencyParser.

Definition completedList (s : State) : list string :=
  default [] (workspaceState s !! BOOTSTRAP_KEY).

Definition isBootstrapCompleted (env : Env) (s : State) : bool :=
  existsb (String.eqb (workspaceId env)) (completedList s).

Definition markBootstrapCompleted (env : Env) (s : State) : State :=
  let completed := completedList s in
  if existsb (String.eqb (workspaceId env)) completed then s
  else mkState (<[BOOTSTRAP_KEY := Js.push completed (workspaceId env)]>
                  (workspaceState s))
               (queued s) (popups s).

Definition resetBootstrap (env : Env) (s : State) : State :=
  let completed := completedList s in
  match Js.findIndex (String.eqb (workspaceId env)) completed with
  | Some index =>
      mkState (<[BOOTSTRAP_KEY := Js.splice1 index completed]> (workspaceState s))
              (queued s) (popups s)
  | None => s
  end.

Definition patterns : list string :=
  ["**/package.json"; "**/pom.xml"; "**/build.gradle"; "**/build.gradle.kts"].

(** [findDependencyFiles]: rejects as soon as one search rejects. *)
Definition findDependencyFiles (env : Env) : Promise (list string) :=
  fold_left
    (fun acc pattern =>
       match acc with
       | Resolved files =>
           match findFiles env pattern with
           | Resolved found => Resolved (files ++ found)%list
           | Rejected reason => Rejected reason
           end
       | Rejected reason => Rejected reason
       end)
    patterns (Resolved []).

Definition findParser (fileName : string) : option DependencyParser :=
  List.find (fun parser => supports parser fileName) parsers.

Definition getEcosystem (fileName : string) : string :=
  if String.eqb fileName "package.json" then "npm"
  else if String.eqb fileName "pom.xml" then "maven"
  else if Js.includes fileName "build.gradle" then "gradle"
  else "unknown".

(** The first loop of [bootstrapQueue]: the packages of each file are
    appended to the group of its ecosystem. *)
Definition groupFile (env : Env)
    (ecosystemPackages : Js.Map (list QueuePackage)) (file : string)
    : Js.Map (list QueuePackage) :=
  let fileName := basename env file in
  match findParser fileName with
  | None => ecosystemPackages
  | Some parser =>
      match readFile env file with
      | Rejected _ => ecosystemPackages
      | Resolved content =>
          let dependencies := parseAllDependencies parser content in
          let ecosystem := getEcosystem fileName in
          let packages := default [] (Js.map_get ecosystemPackages ecosystem) in
          Js.map_set ecosystemPackages ecosystem
            (packages ++
               ((fun dep => mkQueuePackage (packageName dep) (version dep)
                              (asRelativePath env file)) <$> dependencies))%list
      end
  end.

Definition groupPackages (env : Env) (files : list string)
    : Js.Map (list QueuePackage) :=
  fold_left (groupFile env) files [].

(** The second loop: one [queue] call per non-empty group; [None] when a
    call rejects, otherwise the number of packages queued. *)
Fixpoint sendGroups (env : Env) (groups : Js.Map (list QueuePackage))
    (totalPackages : nat) (s : State) : option nat * State :=
  match groups with
  | [] => (Some totalPackages, s)
  | (ecosystem, packages) :: rest =>
      if (length packages =? 0)%nat then sendGroups env rest totalPackages s
      else
        let payload :=
          mkQueueRequest (workspaceId env) ecosystem packages (now env)
            (hasRepository env) in
        let s := mkState (workspaceState s) (queued s ++ [payload])%list (popups s) in
        match queue env payload with
        | Resolved _ => sendGroups env rest (totalPackages + length packages) s
        | Rejected _ => (None, s)
        end
  end.

Definition failurePopup : Notifications.Popup :=
  Notifications.ErrorMessage
    "❌ RepoGate: Failed to scan existing packages. Please check your API connection."
    [].

Definition popup (p : Notifications.Popup) (s : State) : State :=
  mkState (workspaceState s) (queued s) (popups s ++ [p])%list.

Definition bootstrapQueue (env : Env) (s : State) : bool * State :=
  match findDependencyFiles env with
  | Rejected _ => (false, popup failurePopup s)
  | Resolved files =>
      if (length files =? 0)%nat then (true, markBootstrapCompleted env s)
      else
        match sendGroups env (groupPackages env files) 0 s with
        | (Some totalPackages, s) =>
            let s := markBootstrapCompleted env s in
            (true,
             popup (Notifications.InformationMessage
                      ("✓ RepoGate: Successfully queued "
                         ++ Js.natToString totalPackages ++ " packages for review")
                      []) s)
        | (None, s) => (false, popup failurePopup s)
        end
  end.

(** How [activate] ends. *)
Inductive Activation := Disabled | NoToken | BootstrapFailed | Activated.

(** [activate], up to the start of the watchers. *)
Definition activate (env : Env) (s : State) : Activation * State :=
  if negb (enabled env) then (Disabled, s)
  else
    match ensureAuthOrPrompt env with
    | None => (NoToken, s)
    | Some repoGateConfig =>
        if negb (isBootstrapCompleted env s) then
          let '(success, s) := bootstrapQueue env s in
          if negb success then
            (BootstrapFailed,
             popup (Notifications.ErrorMessage
                      "❌ RepoGate: Failed to scan existing packages. Please check your API connection."
                      []) s)
          else (Activated, s)
        else (Activated, s)
    end.

(** The [repogate.scanNow] command. *)
Definition scanNow (getConfig : option RepoGateConfig) (env : Env) (s : State)
    : State :=
  match getConfig with
  | None => popup (Notifications.ErrorMessage "❌ RepoGate: No API token configured" []) s
  | Some config => snd (bootstrapQueue env (resetBootstrap env s))
  end.

(** What can happen to the completion marker: an activation, the
    [repogate.scanNow] command, and a call of [resetBootstrap]. *)
Inductive Command :=
  | Activate (env : Env)
  | ScanNow (getConfig : option RepoGateConfig) (env : Env)
  | Reset (env : Env).

Definition exec (s : State) (c : Command) : State :=
  match c with
  | Activate env => snd (activate env s)
  | ScanNow getConfig env => scanNow getConfig env s
  | Reset env => resetBootstrap env s
  end.

(** A workspace memento nothing was written to. *)
Definition initial : State := mkState ∅ [] [].

(** The dependencies of the manifests that have a parser and can be
    read. *)
Definition parsedCount (env : Env) (files : list string) : nat :=
  sum_list_with
    (fun file =>
       match findParser (basename env file) with
       | Some parser =>
           match readFile env file with
           | Resolved content => length (parseAllDependencies parser content)
           | Rejected _ => 0
           end
       | None => 0
       end) files.

(** The packages of a list of [queue] requests. *)
Definition queuedCount (requests : list QueueRequest) : nat :=
  sum_list_with (fun q => length (q_packages q)) requests.

(** The inventory read off the workspace: the dependencies of one
    manifest with their names, versions and the relative path of the
    manifest, and the entries of an ecosystem, manifest after manifest. *)
Definition packagesOfFile (env : Env) (file : string) : list QueuePackage :=
  match findParser (basename env file) with
  | Some parser =>
      match readFile env file with
      | Resolved content =>
          (fun dep => mkQueuePackage (packageName dep) (version dep)
                        (asRelativePath env file))
            <$> parseAllDependencies parser content
      | Rejected _ => []
      end
  | None => []
  end.

Definition packagesOf (env : Env) (files : list string) (ecosystem : string)
    : list QueuePackage :=
  flat_map
    (fun file =>
       if String.eqb (getEcosystem (basename env file)) ecosystem
       then packagesOfFile env file else [])
    files.

(** *** The completion marker *)

Lemma isBootstrapCompleted_same_workspace env1 env2 s :
  workspaceId env2 = workspaceId env1 ->
  isBootstrapCompleted env2 s = isBootstrapCompleted env1 s.
Proof. unfold isBootstrapCompleted. by intros ->. Qed.

Lemma markBootstrapCompleted_sets env s :
  isBootstrapCompleted env (markBootstrapCompleted env s) = true /\
  queued (markBootstrapCompleted env s) = queued s.
Proof.
  unfold markBootstrapCompleted, isBootstrapCompleted.
  destruct (existsb (String.eqb (workspaceId env)) (completedList s)) eqn:E;
    [done|].
  unfold completedList, Js.push. simpl. rewrite lookup_insert_eq. simpl.
  rewrite existsb_app. simpl. by rewrite String.eqb_refl, orb_true_r.
Qed.

Lemma popup_same p s :
  workspaceState (popup p s) = workspaceState s /\ queued (popup p s) = queued s.
Proof. done. Qed.

Lemma sendGroups_workspaceState env groups total s :
  workspaceState (snd (sendGroups env groups total s)) = workspaceState s.
Proof.
  revert total s. induction groups as [|[eco pkgs] rest IH]; intros total s; simpl.
  - done.
  - destruct (length pkgs =? 0)%nat; [apply IH|].
    destruct (queue env _); [|done]. by rewrite IH.
Qed.

(** With nothing but empty groups, no [queue] call is made. *)
Lemma sendGroups_all_empty env groups total s :
  Forall (fun g => snd g = []) groups ->
  sendGroups env groups total s = (Some total, s).
Proof.
  intros H. revert total s. induction H as [|[eco pkgs] rest Hg _ IH];
    intros total s; simpl; [done|].
  simpl in Hg. subst pkgs. simpl. apply IH.
Qed.

Lemma bootstrapQueue_success env s :
  fst (bootstrapQueue env s) = true ->
  isBootstrapCompleted env (snd (bootstrapQueue env s)) = true.
Proof.
  unfold bootstrapQueue. destruct (findDependencyFiles env) as [files|]; [|done].
  destruct (length files =? 0)%nat; [intros _; apply markBootstrapCompleted_sets|].
  destruct (sendGroups env _ 0 s) as [[total|] s']; [|done].
  intros _. simpl. unfold isBootstrapCompleted, completedList. simpl.
  apply markBootstrapCompleted_sets.
Qed.

(** Once the marker is set, [activate] leaves the state alone. *)
Lemma activate_skips env s :
  isBootstrapCompleted env s = true -> snd (activate env s) = s.
Proof.
  intros H. unfold activate. rewrite H. simpl.
  destruct (negb (enabled env)); [done|].
  by destruct (ensureAuthOrPrompt env).
Qed.

Lemma activate_activated env s :
  fst (activate env s) = Activated ->
  isBootstrapCompleted env (snd (activate env s)) = true.
Proof.
  unfold activate. destruct (negb (enabled env)); [done|].
  destruct (ensureAuthOrPrompt env); [|done].
  destruct (isBootstrapCompleted env s) eqn:E; simpl; [by rewrite E|].
  pose proof (bootstrapQueue_success env s) as H.
  destruct (bootstrapQueue env s) as [[|] s']; simpl in *; [auto|done].
Qed.

(** C3. After an activation that ended with the watchers started (the
    bootstrap succeeded, now or on an earlier run), the completion marker
    of the workspace is set; a further activation for the same workspace,
    with no reset in between, finds the marker, skips [bootstrapQueue]
    and issues no [queue] call at all.  A [bootstrapQueue] that returns
    true has set the marker. *)
Theorem bootstrap_runs_once (env1 env2 : Env) (s : State) :
  workspaceId env2 = workspaceId env1 ->
  fst (activate env1 s) = Activated ->
  let s1 := snd (activate env1 s) in
  isBootstrapCompleted env1 s1 = true /\
  snd (activate env2 s1) = s1 /\
  queued (snd (activate env2 s1)) = queued s1 /\
  (fst (bootstrapQueue env1 s) = true ->
   isBootstrapCompleted env1 (snd (bootstrapQueue env1 s)) = true).
Proof.
  intros Hw Ha. simpl.
  pose proof (activate_activated env1 s Ha) as Hc.
  assert (Hskip : snd (activate env2 (snd (activate env1 s))) = snd (activate env1 s)).
  { apply activate_skips. by rewrite (isBootstrapCompleted_same_workspace env1 env2). }
  split; [done|]. split; [done|]. split; [by rewrite Hskip|].
  apply bootstrapQueue_success.
Qed.

(** C10. When the search finds no manifest, or when every ecosystem
    group built from the manifests found is empty, [bootstrapQueue]
    makes no [queue] call, marks the bootstrap of the workspace as
    completed and returns true. *)
Theorem empty_inventory_completes_bootstrap (env : Env) (s : State)
    (files : list string) :
  findDependencyFiles env = Resolved files ->
  files = [] \/ Forall (fun g => snd g = []) (groupPackages env files) ->
  let r := bootstrapQueue env s in
  fst r = true /\
  queued (snd r) = queued s /\
  isBootstrapCompleted env (snd r) = true.
Proof.
  intros Hf Hempty. simpl. unfold bootstrapQueue. rewrite Hf.
  destruct (length files =? 0)%nat eqn:Hlen.
  - simpl. split; [done|]. split; apply markBootstrapCompleted_sets.
  - assert (Hg : Forall (fun g => snd g = []) (groupPackages env files)).
    { destruct Hempty as [->|H]; [discriminate|done]. }
    rewrite (sendGroups_all_empty env _ 0 s Hg). simpl.
    split; [done|]. split; apply markBootstrapCompleted_sets.
Qed.

(** *** The marker under resets *)

Lemma completed_elem (w : string) (l : list string) :
  existsb (String.eqb w) l = true <-> w ∈ l.
Proof. apply Watcher.existsb_eqb_elem. Qed.

Lemma markBootstrapCompleted_NoDup env s :
  NoDup (completedList s) -> NoDup (completedList (markBootstrapCompleted env s)).
Proof.
  intros Hnd. unfold markBootstrapCompleted.
  destruct (existsb (String.eqb (workspaceId env)) (completedList s)) eqn:E;
    [done|].
  unfold completedList at 1. simpl. rewrite lookup_insert_eq. simpl.
  unfold Js.push. apply NoDup_app. split; [done|].
  split; [|apply NoDup_singleton].
  intros x Hx ->%list_elem_of_singleton. apply completed_elem in Hx. congruence.
Qed.

(** What [resetBootstrap] leaves of the list. *)
Lemma resetBootstrap_list env s :
  NoDup (completedList s) ->
  let l := completedList (resetBootstrap env s) in
  NoDup l /\ (forall w, w ∈ l <-> w ∈ completedList s /\ w <> workspaceId env).
Proof.
  intros Hnd. cbv zeta. unfold resetBootstrap.
  destruct (Js.findIndex (String.eqb (workspaceId env)) (completedList s))
    as [i|] eqn:Hi.
  - destruct (Diagnostics.findIndex_Some _ _ _ Hi) as (x & Hx & Heq & _).
    apply String.eqb_eq in Heq. subst x.
    unfold completedList at 1 3. simpl. rewrite lookup_insert_eq. simpl.
    unfold Js.splice1. rewrite delete_take_drop.
    rewrite <- (take_drop_middle _ _ _ Hx) in Hnd.
    apply NoDup_app in Hnd as (Ht & Hdisj & Hd).
    apply NoDup_cons in Hd as [Hw Hd].
    split.
    + apply NoDup_app. split; [done|]. split; [|done].
      intros y Hy Hy'. apply (Hdisj y Hy). by right.
    + intros w. rewrite <- (take_drop_middle _ _ _ Hx) at 3.
      rewrite !elem_of_app, elem_of_cons. split.
      * intros [Hin|Hin].
        -- split; [by left|]. intros ->. apply (Hdisj _ Hin). left.
        -- split; [by right; right|]. by intros ->.
      * intros [[Hin|[->|Hin]] Hne]; [by left|done|by right].
  - split; [done|]. intros w. split; [|by intros [? _]].
    intros Hw. split; [done|]. intros ->.
    apply Diagnostics.findIndex_None in Hi. rewrite Forall_forall in Hi.
    specialize (Hi _ Hw). by rewrite String.eqb_refl in Hi.
Qed.

Lemma bootstrapQueue_list env s :
  completedList (snd (bootstrapQueue env s)) = completedList s \/
  completedList (snd (bootstrapQueue env s))
  = completedList (markBootstrapCompleted env s).
Proof.
  unfold bootstrapQueue. destruct (findDependencyFiles env) as [files|]; [|by left].
  destruct (length files =? 0)%nat; [by right|].
  pose proof (sendGroups_workspaceState env (groupPackages env files) 0 s) as Hw.
  destruct (sendGroups env _ 0 s) as [[total|] s']; simpl in *.
  - right. unfold completedList, markBootstrapCompleted, completedList.
    rewrite Hw. destruct (existsb _ _); simpl; by rewrite ?Hw.
  - left. unfold completedList. simpl. by rewrite Hw.
Qed.

Lemma bootstrapQueue_NoDup env s :
  NoDup (completedList s) -> NoDup (completedList (snd (bootstrapQueue env s))).
Proof.
  intros Hnd. destruct (bootstrapQueue_list env s) as [->| ->]; [done|].
  by apply markBootstrapCompleted_NoDup.
Qed.

Lemma exec_NoDup s c : NoDup (completedList s) -> NoDup (completedList (exec s c)).
Proof.
  intros Hnd. destruct c as [env|getConfig env|env]; simpl.
  - unfold activate. destruct (negb (enabled env)); [done|].
    destruct (ensureAuthOrPrompt env); [|done].
    destruct (negb (isBootstrapCompleted env s)); [|done].
    pose proof (bootstrapQueue_NoDup env s Hnd) as H.
    by destruct (bootstrapQueue env s) as [[|] s'].
  - unfold scanNow. destruct getConfig; [|done].
    apply bootstrapQueue_NoDup. by apply (resetBootstrap_list env s).
  - by apply (resetBootstrap_list env s).
Qed.

(** X14. The completion marker is kept per workspace and without
    repetition.  After any sequence of activations, manual scans and
    resets on a fresh memento, the list of completed workspaces holds no
    workspace twice; so [resetBootstrap] really unsets the marker of its
    workspace (the next activation scans again), marking sets it, and
    neither touches the marker of another workspace. *)
Theorem marker_round_trip (cs : list Command) (env other : Env) :
  let s := fold_left exec cs initial in
  NoDup (completedList s) /\
  isBootstrapCompleted env (markBootstrapCompleted env s) = true /\
  isBootstrapCompleted env (resetBootstrap env s) = false /\
  isBootstrapCompleted env (markBootstrapCompleted env (resetBootstrap env s)) = true /\
  (workspaceId other <> workspaceId env ->
   isBootstrapCompleted other (resetBootstrap env s) = isBootstrapCompleted other s /\
   isBootstrapCompleted other (markBootstrapCompleted env s)
   = isBootstrapCompleted other s).
Proof.
  cbv zeta.
  assert (Hnd : NoDup (completedList (fold_left exec cs initial))).
  { generalize initial, (NoDup_nil_2 : NoDup (completedList initial)).
    induction cs as [|c cs IH]; intros s Hs; [done|].
    cbn [fold_left]. by apply IH, exec_NoDup. }
  set (s := fold_left exec cs initial) in *.
  destruct (resetBootstrap_list env s Hnd) as [Hnd' Hreset]. cbv zeta in Hreset.
  split; [done|]. split; [apply markBootstrapCompleted_sets|].
  split; [|split; [apply markBootstrapCompleted_sets|]].
  - unfold isBootstrapCompleted. apply not_true_is_false.
    rewrite completed_elem, Hreset. tauto.
  - intros Hne. unfold isBootstrapCompleted. split.
    + apply eq_true_iff_eq. rewrite !completed_elem, Hreset. tauto.
    + apply eq_true_iff_eq. rewrite !completed_elem.
      unfold markBootstrapCompleted.
      destruct (existsb (String.eqb (workspaceId env)) (completedList s)); [done|].
      unfold completedList at 1. simpl. rewrite lookup_insert_eq. simpl.
      unfold Js.push. rewrite elem_of_app, list_elem_of_singleton. tauto.
Qed.

(** *** What a bootstrap sends and shows *)

Lemma sendGroups_popups env groups total s :
  popups (snd (sendGroups env groups total s)) = popups s.
Proof.
  revert total s. induction groups as [|[eco pkgs] rest IH]; intros total s; simpl.
  - done.
  - destruct (length pkgs =? 0)%nat; [apply IH|].
    destruct (queue env _); [|done]. by rewrite IH.
Qed.

Lemma sendGroups_extends env groups total s :
  exists sent, queued (snd (sendGroups env groups total s)) = (queued s ++ sent)%list.
Proof.
  revert total s. induction groups as [|[eco pkgs] rest IH]; intros total s; simpl.
  - exists []. by rewrite app_nil_r.
  - destruct (length pkgs =? 0)%nat; [apply IH|].
    destruct (queue env _).
    + match goal with |- context [sendGroups env rest ?t ?a] =>
        destruct (IH t a) as [sent Hs] end.
      rewrite Hs. simpl. rewrite <- app_assoc. eauto.
    + simpl. eauto.
Qed.

Lemma bootstrapQueue_failure env s :
  fst (bootstrapQueue env s) = false ->
  let s' := snd (bootstrapQueue env s) in
  workspaceState s' = workspaceState s /\
  popups s' = (popups s ++ [failurePopup])%list /\
  exists sent, queued s' = (queued s ++ sent)%list.
Proof.
  cbv zeta. unfold bootstrapQueue.
  destruct (findDependencyFiles env) as [files|].
  - destruct (length files =? 0)%nat; [discriminate|].
    pose proof (sendGroups_workspaceState env (groupPackages env files) 0 s) as Hw.
    pose proof (sendGroups_popups env (groupPackages env files) 0 s) as Hp.
    pose proof (sendGroups_extends env (groupPackages env files) 0 s) as Hq.
    destruct (sendGroups env _ 0 s) as [[total|] s']; [discriminate|].
    simpl in *. intros _. by rewrite Hp.
  - intros _. simpl. split; [done|]. split; [done|].
    exists []. by rewrite app_nil_r.
Qed.

(** X15. An activation that ends with a failed bootstrap tells the user
    twice: [bootstrapQueue] shows the error and [activate] shows the same
    text again.  The completion marker stays unset, so the next
    activation bootstraps again; requests accepted before the failure were
    sent and are not taken back. *)
Theorem failed_bootstrap_reports_twice (env : Env) (s : State) :
  fst (activate env s) = BootstrapFailed ->
  let s' := snd (activate env s) in
  isBootstrapCompleted env s' = false /\
  workspaceState s' = workspaceState s /\
  popups s' = (popups s ++ [failurePopup; failurePopup])%list /\
  exists sent, queued s' = (queued s ++ sent)%list.
Proof.
  cbv zeta. unfold activate.
  destruct (negb (enabled env)); [discriminate|].
  destruct (ensureAuthOrPrompt env); [|discriminate].
  destruct (isBootstrapCompleted env s) eqn:Hc; simpl; [discriminate|].
  pose proof (bootstrapQueue_failure env s) as Hf.
  destruct (bootstrapQueue env s) as [[|] s1]; simpl in *; [discriminate|].
  intros _. destruct (Hf eq_refl) as (Hw & Hp & Hq).
  split; [|split; [done|split; [|done]]].
  - unfold isBootstrapCompleted, completedList in *. simpl. by rewrite Hw.
  - rewrite Hp, <- app_assoc. done.
Qed.

Lemma total_map_set (m : Js.Map (list QueuePackage)) k new :
  sum_list_with (fun g => length (snd g))
    (Js.map_set m k (default [] (Js.map_get m k) ++ new)%list)
  = sum_list_with (fun g => length (snd g)) m + length new.
Proof.
  unfold Js.map_get. induction m as [|[k0 v0] m IH]; simpl; [lia|].
  destruct (String.eqb k0 k); simpl.
  - rewrite length_app. lia.
  - rewrite IH. lia.
Qed.

Lemma groupFile_total env m file :
  sum_list_with (fun g => length (snd g)) (groupFile env m file)
  = sum_list_with (fun g => length (snd g)) m + parsedCount env [file].
Proof.
  unfold groupFile, parsedCount. simpl.
  destruct (findParser (basename env file)) as [parser|]; [|lia].
  destruct (readFile env file) as [content|]; [|lia].
  rewrite total_map_set, length_fmap. lia.
Qed.

Lemma groupPackages_total env files :
  sum_list_with (fun g => length (snd g)) (groupPackages env files)
  = parsedCount env files.
Proof.
  unfold groupPackages.
  assert (H : forall m,
             sum_list_with (fun g => length (snd g)) (fold_left (groupFile env) files m)
             = sum_list_with (fun g => length (snd g)) m + parsedCount env files).
  { induction files as [|file files IH]; intros m; [simpl; lia|].
    cbn [fold_left]. rewrite IH, groupFile_total. unfold parsedCount. simpl. lia. }
  by rewrite H.
Qed.

Lemma groupFile_keys env m file :
  NoDup (fst <$> m) -> NoDup (fst <$> groupFile env m file).
Proof.
  intros Hnd. unfold groupFile.
  destruct (findParser (basename env file)); [|done].
  destruct (readFile env file); [|done]. by apply Json.map_set_NoDup.
Qed.

Lemma groupPackages_keys env files : NoDup (fst <$> groupPackages env files).
Proof.
  unfold groupPackages.
  assert (H : forall m : Js.Map (list QueuePackage),
             NoDup (fst <$> m) -> NoDup (fst <$> fold_left (groupFile env) files m)).
  { induction files as [|file files IH]; intros m Hm; [done|].
    cbn [fold_left]. by apply IH, groupFile_keys. }
  apply H. constructor.
Qed.

Lemma groupFile_get env m file ecosystem :
  default [] (Js.map_get (groupFile env m file) ecosystem)
  = (default [] (Js.map_get m ecosystem) ++ packagesOf env [file] ecosystem)%list.
Proof.
  unfold groupFile, packagesOf, packagesOfFile. cbn [flat_map].
  rewrite app_nil_r.
  destruct (findParser (basename env file)) as [parser|];
    [|by destruct (String.eqb _ _); rewrite app_nil_r].
  destruct (readFile env file) as [content|];
    [|by destruct (String.eqb _ _); rewrite app_nil_r].
  rewrite Json.map_get_set_other. case_decide as Hk.
  - subst ecosystem. by rewrite String.eqb_refl.
  - destruct (String.eqb _ _) eqn:E; [by apply String.eqb_eq in E|].
    by rewrite app_nil_r.
Qed.

Lemma packagesOf_app env files files' ecosystem :
  packagesOf env (files ++ files') ecosystem
  = (packagesOf env files ecosystem ++ packagesOf env files' ecosystem)%list.
Proof. unfold packagesOf. apply flat_map_app. Qed.

(** The group of an ecosystem holds the packages of its manifests. *)
Lemma groupPackages_get env files ecosystem :
  default [] (Js.map_get (groupPackages env files) ecosystem)
  = packagesOf env files ecosystem.
Proof.
  unfold groupPackages.
  assert (H : forall m,
             default [] (Js.map_get (fold_left (groupFile env) files m) ecosystem)
             = (default [] (Js.map_get m ecosystem)
                  ++ packagesOf env files ecosystem)%list).
  { induction files as [|file files IH]; intros m.
    - simpl. by rewrite app_nil_r.
    - cbn [fold_left]. rewrite IH, groupFile_get, <- app_assoc.
      by rewrite (packagesOf_app env [file] files). }
  by rewrite H.
Qed.

(** The requests of a run of [sendGroups] that is not interrupted. *)
Lemma sendGroups_sent env groups total s total' s' :
  sendGroups env groups total s = (Some total', s') ->
  queued s'
  = (queued s ++
       ((fun g => mkQueueRequest (workspaceId env) (fst g) (snd g) (now env)
                    (hasRepository env))
          <$> List.filter (fun g => negb (length (snd g) =? 0)%nat) groups))%list.
Proof.
  revert total s. induction groups as [|[eco pkgs] rest IH]; intros total s;
    cbn [sendGroups].
  - intros [= <- <-]. simpl. by rewrite app_nil_r.
  - cbn [List.filter snd]. destruct (length pkgs =? 0)%nat eqn:El.
    + cbn [negb]. apply IH.
    + destruct (queue env _) eqn:Eq; [|discriminate].
      intros H. rewrite (IH _ _ H). cbn [negb queued fmap list_fmap fst snd].
      by rewrite <- app_assoc.
Qed.

(** A run of [sendGroups] that is not interrupted sends one request for
    each group that is not empty. *)
Lemma sendGroups_success env groups total s total' s' :
  sendGroups env groups total s = (Some total', s') ->
  exists sent,
    queued s' = (queued s ++ sent)%list /\
    q_ecosystem <$> sent = fst <$> List.filter (fun g => negb (length (snd g) =? 0)%nat) groups /\
    Forall (fun q => q_packages q <> [] /\ q_projectName q = workspaceId env /\
                     q_timestamp q = now env /\
                     q_repository q = hasRepository env) sent /\
    queuedCount sent = sum_list_with (fun g => length (snd g)) groups /\
    total' = total + queuedCount sent /\
    popups s' = popups s /\ workspaceState s' = workspaceState s.
Proof.
  revert total s. induction groups as [|[eco pkgs] rest IH]; intros total s;
    cbn [sendGroups].
  - intros [= <- <-]. exists []. rewrite app_nil_r.
    repeat split; auto; unfold queuedCount; simpl; lia.
  - cbn [List.filter snd sum_list_with]. destruct (length pkgs =? 0)%nat eqn:El.
    + intros H. destruct (IH _ _ H) as (sent & H1 & H2 & H3 & H4 & H5 & H6 & H7).
      exists sent. apply Nat.eqb_eq in El. rewrite El. cbn [negb].
      repeat split; auto.
    + destruct (queue env _) eqn:Eq; [|discriminate].
      intros H. destruct (IH _ _ H) as (sent & H1 & H2 & H3 & H4 & H5 & H6 & H7).
      cbn [queued popups workspaceState] in H1, H6, H7.
      exists (mkQueueRequest (workspaceId env) eco pkgs (now env) (hasRepository env)
                :: sent).
      split; [by rewrite H1, <- app_assoc|].
      split; [cbn [negb]; by rewrite !fmap_cons, H2|].
      split.
      * constructor; [|done]. cbn. split; [|done].
        intros ->. simpl in El. discriminate.
      * unfold queuedCount in *. cbn [sum_list_with q_packages].
        split; [lia|]. split; [lia|done].
Qed.

(** X16. A bootstrap that succeeds on a workspace with manifests sends
    one [queue] request per ecosystem that has packages, none of them
    empty, each stamped with the workspace, the time and the repository
    flag.  The request of an ecosystem carries exactly the dependencies
    parsed from the manifests of that ecosystem that have a parser and
    could be read, manifest after manifest, each with its name, its
    version and the relative path of its manifest; every ecosystem with
    such a dependency has its request.  The number of packages sent is
    the number parsed, and it is the one the final message reports. *)
Theorem bootstrap_queues_what_was_parsed (env : Env) (s : State)
    (files : list string) :
  findDependencyFiles env = Resolved files -> files <> [] ->
  fst (bootstrapQueue env s) = true ->
  let s' := snd (bootstrapQueue env s) in
  exists sent,
    queued s' = (queued s ++ sent)%list /\
    NoDup (q_ecosystem <$> sent) /\
    Forall (fun q => q_packages q <> [] /\ q_projectName q = workspaceId env /\
                     q_timestamp q = now env /\
                     q_repository q = hasRepository env) sent /\
    (forall q, q ∈ sent -> q_packages q = packagesOf env files (q_ecosystem q)) /\
    (forall ecosystem, packagesOf env files ecosystem <> [] ->
       exists q, q ∈ sent /\ q_ecosystem q = ecosystem /\
                 q_packages q = packagesOf env files ecosystem) /\
    queuedCount sent = parsedCount env files /\
    popups s'
    = (popups s ++
         [Notifications.InformationMessage
            ("✓ RepoGate: Successfully queued "
               ++ Js.natToString (parsedCount env files) ++ " packages for review")
            []])%list.
Proof.
  intros Hf Hne. cbv zeta. unfold bootstrapQueue. rewrite Hf.
  destruct (length files =? 0)%nat eqn:El.
  { apply Nat.eqb_eq in El. by destruct files. }
  destruct (sendGroups env (groupPackages env files) 0 s) as [[total|] s1] eqn:Es;
    [|discriminate].
  intros _. destruct (sendGroups_success _ _ _ _ _ _ Es)
    as (sent & H1 & H2 & H3 & H4 & H5 & H6 & H7).
  rewrite groupPackages_total in H4. simpl in H5. subst total.
  pose proof (sendGroups_sent _ _ _ _ _ _ Es) as Hsent.
  rewrite H1 in Hsent. apply app_inv_head in Hsent.
  pose proof (groupPackages_keys env files) as Hkeys.
  assert (Hin : forall q, q ∈ sent <->
            exists g, g ∈ groupPackages env files /\ snd g <> [] /\
                      q = mkQueueRequest (workspaceId env) (fst g) (snd g) (now env)
                            (hasRepository env)).
  { intros q. rewrite Hsent, list_elem_of_fmap. split.
    - intros (g & -> & Hg). exists g.
      apply list_elem_of_In, filter_In in Hg as [Hg Hl].
      split; [by apply list_elem_of_In|]. split; [|done].
      intros E. by rewrite E in Hl.
    - intros (g & Hg & Hl & ->). exists g. split; [done|].
      apply list_elem_of_In, filter_In. split; [by apply list_elem_of_In|].
      by destruct (snd g). }
  exists sent. simpl.
  assert (Hq : queued (markBootstrapCompleted env s1) = queued s1)
    by apply markBootstrapCompleted_sets.
  assert (Hp : popups (markBootstrapCompleted env s1) = popups s1).
  { unfold markBootstrapCompleted. by destruct (existsb _ _). }
  split; [by rewrite Hq, H1|].
  split; [|split; [done|split; [|split; [|split; [done|]]]]].
  2:{ intros q Hq'. apply Hin in Hq' as ([eco pkgs] & Hg & _ & ->).
      cbn [q_packages q_ecosystem fst snd].
      rewrite <- groupPackages_get.
      by rewrite (Json.map_get_elem_NoDup _ _ _ Hkeys Hg). }
  2:{ intros eco Hne'. rewrite <- groupPackages_get in Hne'.
      destruct (Js.map_get (groupPackages env files) eco) as [pkgs|] eqn:Eg;
        [|done].
      cbn [default] in Hne'.
      exists (mkQueueRequest (workspaceId env) eco pkgs (now env)
                (hasRepository env)).
      split; [|split; [done|]].
      - apply Hin. exists (eco, pkgs). split; [|done].
        by apply Json.map_get_Some_elem.
      - cbn [q_packages]. by rewrite <- groupPackages_get, Eg. }
  - rewrite H2. apply NoDup_fmap_fst.
    + intros k x y Hx Hy.
      apply list_elem_of_In, filter_In in Hx as [Hx _].
      apply list_elem_of_In, filter_In in Hy as [Hy _].
      apply list_elem_of_In in Hx, Hy.
      pose proof (groupPackages_keys env files) as Hk.
      pose proof (Json.map_get_elem_NoDup _ k x Hk Hx).
      pose proof (Json.map_get_elem_NoDup _ k y Hk Hy). congruence.
    + apply NoDup_ListNoDup, List.NoDup_filter, NoDup_ListNoDup.
      eapply NoDup_fmap_1, groupPackages_keys.
  - by rewrite Hp, H6, H4.
Qed.

End Service.

End Bootstrap.

(** *** Concrete workspaces *)

Module BootstrapScenarios.
Import Model Bootstrap.

(** [path.basename] for a POSIX path that does not end in a slash. *)
Fixpoint lastSegment (path acc : string) : string :=
  match path with
  | EmptyString => acc
  | String c rest =>
      if Ascii.eqb c "/" then lastSegment rest ""
      else lastSegment rest (acc ++ String c "")
  end.

Definition parsers : list DependencyParser := [Npm.parser Scenarios.JSON_parse].

(** A workspace whose only manifest, if any, is [/ws/package.json]. *)
Definition workspace (manifests : list string) (content : string)
    (answer : Promise unit) : Env :=
  {| enabled := true;
     ensureAuthOrPrompt := Some Scenarios.config;
     workspaceId := "ws";
     hasRepository := true;
     findFiles := fun pattern =>
       Resolved (if String.eqb pattern "**/package.json" then manifests else []);
     readFile := fun _ => Resolved content;
     queue := fun _ => answer;
     now := "2025-11-16T10:00:00.000Z";
     basename := fun path => lastSegment path "";
     asRelativePath := fun path => path |}.

Definition fresh : State := mkState ∅ [] [].

(** First activation queues the inventory once; the second queues nothing. *)
Lemma bootstrap_runs_once_witness :
  let env := workspace ["/ws/package.json"] Scenarios.manifest_lodash (Resolved tt) in
  let s1 := snd (activate parsers env fresh) in
  fst (activate parsers env fresh) = Activated /\
  (q_packages <$> queued s1)
  = [[mkQueuePackage "lodash" "4.17.21" "/ws/package.json"]] /\
  isBootstrapCompleted env s1 = true /\
  queued (snd (activate parsers env s1)) = queued s1.
Proof.
  cbv zeta.
  set (env := workspace ["/ws/package.json"] Scenarios.manifest_lodash (Resolved tt)).
  assert (Ha : fst (activate parsers env fresh) = Activated)
    by (vm_compute; reflexivity).
  destruct (bootstrap_runs_once parsers env env fresh eq_refl Ha)
    as (Hc & _ & Hq & _).
  split; [exact Ha|]. split; [vm_compute; reflexivity|].
  split; [exact Hc|exact Hq].
Defined.

(** A workspace whose only manifest declares no dependency. *)
Lemma empty_inventory_witness :
  let env := workspace ["/ws/package.json"] "{}" (Rejected "unreachable") in
  let r := bootstrapQueue parsers env fresh in
  groupPackages parsers env ["/ws/package.json"] = [("npm", [])] /\
  fst r = true /\
  queued (snd r) = [] /\
  workspaceState (snd r) !! BOOTSTRAP_KEY = Some ["ws"].
Proof.
  cbv zeta.
  set (env := workspace ["/ws/package.json"] "{}" (Rejected "unreachable")).
  assert (Hg : groupPackages parsers env ["/ws/package.json"] = [("npm", [])])
    by (vm_compute; reflexivity).
  assert (Hf : findDependencyFiles env = Resolved ["/ws/package.json"])
    by (vm_compute; reflexivity).
  destruct (empty_inventory_completes_bootstrap parsers env fresh
              ["/ws/package.json"] Hf)
    as (Hr & Hq & _).
  { right. rewrite Hg. repeat constructor. }
  split; [exact Hg|]. split; [exact Hr|]. split; [exact Hq|].
  vm_compute. reflexivity.
Defined.

(** No manifest at all: the bootstrap is consumed without a call. *)
Example no_manifest_completes_bootstrap :
  let env := workspace [] "" (Rejected "unreachable") in
  bootstrapQueue parsers env fresh
  = (true, mkState {[BOOTSTRAP_KEY := ["ws"]]} [] []).
Proof. vm_compute. reflexivity. Qed.

(** A failing [queue] call leaves the marker unset, so the next
    activation bootstraps again. *)
Example failed_bootstrap_is_retried :
  let down := workspace ["/ws/package.json"] Scenarios.manifest_lodash
                (Rejected "unreachable") in
  let up := workspace ["/ws/package.json"] Scenarios.manifest_lodash (Resolved tt) in
  let '(r1, s1) := activate parsers down fresh in
  let '(r2, s2) := activate parsers up s1 in
  r1 = BootstrapFailed /\ isBootstrapCompleted down s1 = false /\
  r2 = Activated /\ length (queued s1) = 1 /\ length (queued s2) = 2.
Proof. vm_compute. auto. Qed.

(** The manual scan resets the marker first: two scans in a row send the
    inventory twice. *)
Example manual_scan_is_unconditional :
  let env := workspace ["/ws/package.json"] Scenarios.manifest_lodash (Resolved tt) in
  let s1 := scanNow parsers (Some Scenarios.config) env fresh in
  let s2 := scanNow parsers (Some Scenarios.config) env s1 in
  length (queued s1) = 1 /\ length (queued s2) = 2.
Proof. vm_compute. auto. Qed.

(** The backend is down during the first activation. *)
Lemma failed_bootstrap_witness :
  let down := workspace ["/ws/package.json"] Scenarios.manifest_lodash
                (Rejected "unreachable") in
  let s' := snd (activate parsers down fresh) in
  fst (activate parsers down fresh) = BootstrapFailed /\
  popups s' = [failurePopup; failurePopup] /\
  isBootstrapCompleted down s' = false.
Proof.
  cbv zeta.
  set (down := workspace ["/ws/package.json"] Scenarios.manifest_lodash
                 (Rejected "unreachable")).
  assert (Ha : fst (activate parsers down fresh) = BootstrapFailed)
    by (vm_compute; reflexivity).
  destruct (failed_bootstrap_reports_twice parsers down fresh Ha)
    as (Hc & _ & Hp & _).
  split; [exact Ha|]. split; [exact Hp|exact Hc].
Defined.

(** The inventory of a workspace with one manifest. *)
Lemma bootstrap_queues_witness :
  let env := workspace ["/ws/package.json"] Scenarios.manifest_lodash (Resolved tt) in
  let s' := snd (bootstrapQueue parsers env fresh) in
  findDependencyFiles env = Resolved ["/ws/package.json"] /\
  fst (bootstrapQueue parsers env fresh) = true /\
  parsedCount parsers env ["/ws/package.json"] = 1 /\
  (q_ecosystem <$> queued s') = ["npm"] /\
  (exists q, q ∈ queued s' /\
             q_packages q = [mkQueuePackage "lodash" "4.17.21" "/ws/package.json"]) /\
  popups s'
  = [Notifications.InformationMessage
       "✓ RepoGate: Successfully queued 1 packages for review" []].
Proof.
  cbv zeta.
  set (env := workspace ["/ws/package.json"] Scenarios.manifest_lodash (Resolved tt)).
  assert (Hf : findDependencyFiles env = Resolved ["/ws/package.json"])
    by (vm_compute; reflexivity).
  assert (Hr : fst (bootstrapQueue parsers env fresh) = true)
    by (vm_compute; reflexivity).
  assert (Hn : parsedCount parsers env ["/ws/package.json"] = 1)
    by (vm_compute; reflexivity).
  destruct (bootstrap_queues_what_was_parsed parsers env fresh ["/ws/package.json"]
              Hf ltac:(discriminate) Hr) as (sent & Hq & _ & _ & _ & Hall & _ & Hp).
  split; [exact Hf|]. split; [exact Hr|]. split; [exact Hn|].
  split; [vm_compute; reflexivity|].
  split; [|rewrite Hp, Hn; reflexivity].
  destruct (Hall "npm") as (q & Hin & _ & Hpk); [vm_compute; discriminate|].
  exists q. split; [rewrite Hq; simpl; exact Hin|].
  rewrite Hpk. vm_compute. reflexivity.
Defined.

End BootstrapScenarios.

(* ------------------------------------------------------------------ *)
(** ** services/DependencyValidator.ts

    The validator of the monitor-based code path.  It talks to the
    backend through the client of api/RepoGateApiClient.ts, whose calls
    reject with an [Error] carrying a message; it reports statuses to the
    monitor, whose own cache is not part of this model. *)

Module Validator.
Import Model.

(** The part of a response the validator reads.  [status] is switched on
    as a string, with a [default] branch. *)
Record Response := mkResponse {
  res_status : string;
  res_message : string
}.

(** The [repogate] settings read by [validateDependency]. *)
Record Settings := mkSettings {
  enabled : bool;
  apiToken : string;
  apiUrl : string
}.

Inductive Effect :=
  | Window (p : Notifications.Popup)
  | MonitorUpdate (packageName packageManager : string) (status : ApprovalStatus)
  | RequestDependency (packageName packageManager version : string)
      (projectName : option string)
  | CheckDependency (packageName packageManager : string).

Definition loc := nat.

(** The closures of the two [setInterval] callbacks; [retryCount] is the
    counter the retry callback increments. *)
Inductive Interval :=
  | Retrying (key : string) (dep : loc) (apiUrl apiToken : string)
      (projectName : option string) (retryCount : nat)
  | Polling (key : string) (dep : loc).

Record State := mkState {
  heap : list DependencyInfo;
  pendingDependencies : gmap string loc;
  pollingIntervals : gmap string nat;
  timers : list (option Interval);
  isConnected : bool;
  effects : list Effect
}.

Definition deref (s : State) (l : loc) : DependencyInfo :=
  default (mkDependencyInfo "" "" "" PENDING) (heap s !! l).

Definition live (s : State) (h : nat) : option Interval := mjoin (timers s !! h).

Definition emit (e : Effect) (s : State) : State :=
  mkState (heap s) (pendingDependencies s) (pollingIntervals s) (timers s)
          (isConnected s) (effects s ++ [e]).

Definition set_status (l : loc) (st : ApprovalStatus) (s : State) : State :=
  let d := deref s l in
  mkState (<[l := mkDependencyInfo (packageName d) (packageManager d) (version d) st]>
             (heap s))
          (pendingDependencies s) (pollingIntervals s) (timers s)
          (isConnected s) (effects s).

Definition set_connected (b : bool) (s : State) : State :=
  mkState (heap s) (pendingDependencies s) (pollingIntervals s) (timers s) b
          (effects s).

Definition forget (key : string) (s : State) : State :=
  mkState (heap s) (delete key (pendingDependencies s)) (pollingIntervals s)
          (timers s) (isConnected s) (effects s).

Definition key (d : DependencyInfo) : string :=
  packageName d ++ ":" ++ packageManager d.

Definition maxRetries : nat := 30.
Definition retryDelay : N := 10000.
Definition pollDelay : N := 10000.

(** [dependency.status = st] followed by [monitor.updateDependencyStatus]. *)
Definition report (dep : loc) (st : ApprovalStatus) (s : State) : State :=
  let d := deref s dep in
  emit (MonitorUpdate (packageName d) (packageManager d) st) (set_status dep st s).

(** Replaces the interval registered under [k], if any, by [i]. *)
Definition schedule (k : string) (i : Interval) (s : State) : State :=
  let ts :=
    match pollingIntervals s !! k with
    | Some existingInterval => <[existingInterval := None]> (timers s)
    | None => timers s
    end in
  mkState (heap s) (pendingDependencies s) (<[k := length ts]> (pollingIntervals s))
          (ts ++ [Some i]) (isConnected s) (effects s).

Definition stopPolling (k : string) (s : State) : State :=
  match pollingIntervals s !! k with
  | Some interval =>
      mkState (heap s) (pendingDependencies s) (delete k (pollingIntervals s))
              (<[interval := None]> (timers s)) (isConnected s) (effects s)
  | None => s
  end.

Definition startPolling (dep : loc) (s : State) : State :=
  let k := key (deref s dep) in
  schedule k (Polling k dep) s.

Definition retryConnection (dep : loc) (apiUrl apiToken : string)
    (projectName : option string) (s : State) : State :=
  let k := key (deref s dep) in
  schedule k (Retrying k dep apiUrl apiToken projectName 0) s.

(** The popup of a denial offers two buttons; [choice] is the one the
    user picks, if any. *)
Definition afterDenial (choice : option string) (s : State) : State :=
  match choice with
  | Some action =>
      if String.eqb action "Remove It" then
        emit (Window (Notifications.InformationMessage
                "RepoGate: Please manually remove the dependency from your configuration file."
                [])) s
      else s
  | None => s
  end.

Definition handleDependencyResponse (choice : option string) (dep : loc)
    (response : Response) (s : State) : State :=
  let d := deref s dep in
  let k := key d in
  let status := res_status response in
  if String.eqb status "approved" then
    let s := report dep APPROVED s in
    let s := emit (Window (Notifications.InformationMessage
                     ("✓ RepoGate: " ++ res_message response ++ " - Package '"
                        ++ packageName d ++ "' can be used.") [])) s in
    forget k s
  else if String.eqb status "denied" then
    let s := report dep DENIED s in
    let s := emit (Window (Notifications.ErrorMessage
                     ("✗ RepoGate: " ++ res_message response ++ " - Package '"
                        ++ packageName d ++ "' should not be used.")
                     ["I Understand"; "Remove It"])) s in
    afterDenial choice (forget k s)
  else if String.eqb status "pending" then
    let s := report dep PENDING s in
    let s := emit (Window (Notifications.WarningMessage
                     ("⏳ RepoGate: " ++ res_message response) [])) s in
    startPolling dep s
  else if String.eqb status "scanning" then
    let s := report dep SCANNING s in
    let s := emit (Window (Notifications.InformationMessage
                     ("🔍 RepoGate: " ++ res_message response) [])) s in
    startPolling dep s
  else if String.eqb status "not_found" then
    let s := report dep NOT_FOUND s in
    let s := emit (Window (Notifications.WarningMessage
                     ("❓ RepoGate: " ++ res_message response) [])) s in
    startPolling dep s
  else
    let s := report dep PENDING s in
    let s := emit (Window (Notifications.WarningMessage
                     ("⏳ RepoGate: "
                        ++ (if String.eqb (res_message response) ""
                            then "Package status unknown"
                            else res_message response)) [])) s in
    startPolling dep s.

Definition connectedPopup : Notifications.Popup :=
  Notifications.InformationMessage
    "✓ RepoGate: Connected successfully to RepoGate service" [].

(** [if (!this.isConnected) { this.isConnected = true; show... }] *)
Definition noteConnected (s : State) : State :=
  if isConnected s then s
  else emit (Window connectedPopup) (set_connected true s).

(** The test [validateDependency] applies to the message of the error. *)
Definition transportFailure (errorMessage : string) : bool :=
  Js.includes errorMessage "ECONNREFUSED"
  || Js.includes errorMessage "Failed to fetch"
  || Js.includes errorMessage "Network".

Definition request (dep : loc) (projectName : option string) (s : State) : State :=
  let d := deref s dep in
  emit (RequestDependency (packageName d) (packageManager d) (version d)
          projectName) s.

(** [!apiToken || apiToken.trim() === ''] *)
Definition tokenMissing (settings : Settings) : bool :=
  String.eqb (apiToken settings) "" || String.eqb (Js.trim (apiToken settings)) "".

(** [config.get('apiUrl') || 'https://api.repogate.io/api/v1'] *)
Definition effectiveUrl (settings : Settings) : string :=
  if String.eqb (apiUrl settings) "" then "https://api.repogate.io/api/v1"
  else apiUrl settings.

(** Both callbacks are installed with a period of ten seconds. *)
Definition period (i : Interval) : N :=
  match i with
  | Retrying _ _ _ _ _ _ => retryDelay
  | Polling _ _ => pollDelay
  end.

Definition validateDependency (settings : Settings) (outcome : Promise Response)
    (choice : option string) (dep : loc) (projectName : option string)
    (s : State) : State :=
  if negb (enabled settings) then s
  else if tokenMissing settings then
    emit (Window (Notifications.WarningMessage
            "RepoGate: API Token Required. Please configure your token in settings."
            ["Open Settings"])) s
  else
    let url := effectiveUrl settings in
    let k := key (deref s dep) in
    let s := mkState (heap s) (<[k := dep]> (pendingDependencies s))
                     (pollingIntervals s) (timers s) (isConnected s) (effects s) in
    let s := emit (Window (Notifications.InformationMessage
                     "⏳ RepoGate: Waiting for RepoGate service to respond..." [])) s in
    let s := request dep projectName s in
    match outcome with
    | Resolved response =>
        handleDependencyResponse choice dep response (noteConnected s)
    | Rejected errorMessage =>
        let s := set_connected false s in
        if transportFailure errorMessage then
          let s := emit (Window (Notifications.WarningMessage
                           "⏳ RepoGate: Waiting for RepoGate service to start... Will retry automatically."
                           [])) s in
          let s := report dep PENDING s in
          retryConnection dep url (apiToken settings) projectName s
        else
          let s := emit (Window (Notifications.ErrorMessage
                           ("RepoGate: Unable to connect - " ++ errorMessage) [])) s in
          report dep ERROR s
    end.

Definition couldNotConnect : Notifications.Popup :=
  Notifications.WarningMessage
    "RepoGate: Could not connect to service after 30 attempts. Please check if the service is running."
    [].

(** One firing of the callback of [retryConnection], running under
    handle [h]. *)
Definition retryTick (outcome : Promise Response) (choice : option string)
    (h : nat) (k : string) (dep : loc) (apiUrl apiToken : string)
    (projectName : option string) (retryCount : nat) (s : State) : State :=
  let retryCount := S retryCount in
  let s := mkState (heap s) (pendingDependencies s) (pollingIntervals s)
             (<[h := Some (Retrying k dep apiUrl apiToken projectName retryCount)]>
                (timers s))
             (isConnected s) (effects s) in
  if (maxRetries <? retryCount)%nat then
    emit (Window couldNotConnect) (stopPolling k s)
  else
    let s := request dep projectName s in
    match outcome with
    | Resolved response =>
        let s := noteConnected s in
        let s := stopPolling k s in
        handleDependencyResponse choice dep response s
    | Rejected _ => s
    end.

(** One firing of the callback of [startPolling]. *)
Definition pollTick (outcome : Promise Response) (choice : option string)
    (k : string) (dep : loc) (s : State) : State :=
  let d := deref s dep in
  let s := emit (CheckDependency (packageName d) (packageManager d)) s in
  match outcome with
  | Resolved response =>
      let status := res_status response in
      if String.eqb status "approved" then
        let s := set_status dep APPROVED s in
        let s := stopPolling k (forget k s) in
        let s := emit (MonitorUpdate (packageName d) (packageManager d) APPROVED) s in
        emit (Window (Notifications.InformationMessage
                ("✓ RepoGate: " ++ res_message response ++ " - Package '"
                   ++ packageName d ++ "' can now be used.") [])) s
      else if String.eqb status "denied" then
        let s := set_status dep DENIED s in
        let s := stopPolling k (forget k s) in
        let s := emit (MonitorUpdate (packageName d) (packageManager d) DENIED) s in
        let s := emit (Window (Notifications.ErrorMessage
                         ("✗ RepoGate: " ++ res_message response ++ Js.nl ++ Js.nl
                            ++ "Package '" ++ packageName d
                            ++ "' should not be used in production code.")
                         ["I Understand"; "Remove It"])) s in
        afterDenial choice s
      else if String.eqb status "pending" then report dep PENDING s
      else if String.eqb status "scanning" then report dep SCANNING s
      else if String.eqb status "not_found" then report dep NOT_FOUND s
      else s
  | Rejected _ => s
  end.

(** One firing of the interval with handle [h], if it is still live. *)
Definition tick (outcome : Promise Response) (choice : option string) (h : nat)
    (s : State) : State :=
  match live s h with
  | Some (Retrying k dep apiUrl apiToken projectName retryCount) =>
      retryTick outcome choice h k dep apiUrl apiToken projectName retryCount s
  | Some (Polling k dep) => pollTick outcome choice k dep s
  | None => s
  end.

(** The [requestDependency] calls made so far, and the "could not
    connect" warnings shown. *)
Definition isRequest (e : Effect) : bool :=
  match e with
  | RequestDependency _ _ _ _ => true
  | _ => false
  end.

Definition isGiveUp (e : Effect) : bool :=
  match e with
  | Window (Notifications.WarningMessage text []) =>
      String.eqb text
        "RepoGate: Could not connect to service after 30 attempts. Please check if the service is running."
  | _ => false
  end.

Definition requests (s : State) : nat := length (List.filter isRequest (effects s)).

Definition giveUps (s : State) : nat := length (List.filter isGiveUp (effects s)).

(** Successive firings of the interval with handle [h]. *)
Definition ticks (outcomes : list (Promise Response)) (choice : option string)
    (h : nat) (s : State) : State :=
  fold_left (fun s outcome => tick outcome choice h s) outcomes s.

Definition rejected {A} (o : Promise A) : Prop := exists reason, o = Rejected reason.

(** The status a response leads to. *)
Definition statusFor (response : Response) : ApprovalStatus :=
  let status := res_status response in
  if String.eqb status "approved" then APPROVED
  else if String.eqb status "denied" then DENIED
  else if String.eqb status "scanning" then SCANNING
  else if String.eqb status "not_found" then NOT_FOUND
  else PENDING.

(** Terminal verdicts among the statuses. *)
Definition settled (st : ApprovalStatus) : bool :=
  match st with APPROVED | DENIED => true | _ => false end.

(** The retry interval [h] has fired [j] times in vain since [s1]. *)
Definition retrying (s1 : State) (k : string) (h : nat) (i : nat -> Interval)
    (j : nat) (s : State) : Prop :=
  live s h = Some (i j) /\
  pollingIntervals s !! k = Some h /\
  heap s = heap s1 /\
  requests s = (requests s1 + j)%nat /\
  giveUps s = giveUps s1.

(** The retry interval [h] gave up. *)
Definition gaveUp (s1 : State) (k : string) (h : nat) (s : State) : Prop :=
  live s h = None /\
  pollingIntervals s !! k = None /\
  heap s = heap s1 /\
  requests s = (requests s1 + maxRetries)%nat /\
  giveUps s = (giveUps s1 + 1)%nat.

(** An outcome of a status check that brings no verdict: the call
    fails, or the status it reports is neither approved nor denied. *)
Definition inconclusive (o : Promise Response) : Prop :=
  match o with
  | Resolved response =>
      res_status response <> "approved" /\ res_status response <> "denied"
  | Rejected _ => True
  end.

(** The [checkDependency] calls made so far. *)
Definition isCheck (e : Effect) : bool :=
  match e with
  | CheckDependency _ _ => true
  | _ => false
  end.

Definition checks (s : State) : nat := length (List.filter isCheck (effects s)).

(** *** The retry loop *)

Lemma requests_emit e s :
  requests (emit e s) = (requests s + if isRequest e then 1 else 0)%nat.
Proof.
  unfold requests, emit. simpl. rewrite List.filter_app, length_app. simpl.
  by destruct (isRequest e).
Qed.

Lemma giveUps_emit e s :
  giveUps (emit e s) = (giveUps s + if isGiveUp e then 1 else 0)%nat.
Proof.
  unfold giveUps, emit. simpl. rewrite List.filter_app, length_app. simpl.
  by destruct (isGiveUp e).
Qed.

Lemma live_insert s h x :
  h < length (timers s) -> mjoin (<[h := x]> (timers s) !! h) = x.
Proof. intros H. by rewrite list_lookup_insert_eq. Qed.

Lemma live_length s h i : live s h = Some i -> h < length (timers s).
Proof.
  unfold live. destruct (timers s !! h) eqn:E; [|done].
  intros _. by eapply lookup_lt_Some.
Qed.

Lemma deref_set_status dep st s :
  dep < length (heap s) ->
  deref (set_status dep st s) dep
  = mkDependencyInfo (packageName (deref s dep)) (packageManager (deref s dep))
      (version (deref s dep)) st.
Proof.
  intros H. unfold deref at 1, set_status. simpl.
  by rewrite list_lookup_insert_eq.
Qed.

Lemma deref_ext t u l : heap t = heap u -> deref t l = deref u l.
Proof. intros H. unfold deref. by rewrite H. Qed.

Lemma status_recorded dep st s t :
  dep < length (heap s) -> heap t = heap (set_status dep st s) ->
  status (deref t dep) = st /\ key (deref t dep) = key (deref s dep).
Proof.
  intros Hd Ht. rewrite (deref_ext t _ dep Ht), deref_set_status by done. done.
Qed.

(** A verdict: the status is recorded and nothing is scheduled. *)
Lemma verdict_recorded choice dep st text buttons k s :
  dep < length (heap s) ->
  let s' := afterDenial choice
              (forget k (emit (Window (Notifications.ErrorMessage text buttons))
                           (report dep st s))) in
  let s'' := forget k (emit (Window (Notifications.InformationMessage text buttons))
                         (report dep st s)) in
  (status (deref s' dep) = st /\ requests s' = requests s /\
   timers s' = timers s /\ pollingIntervals s' = pollingIntervals s) /\
  (status (deref s'' dep) = st /\ requests s'' = requests s /\
   timers s'' = timers s /\ pollingIntervals s'' = pollingIntervals s).
Proof.
  intros Hd. simpl. split.
  - unfold afterDenial.
    destruct choice as [action|]; [destruct (String.eqb action "Remove It")|];
      (split; [by apply (status_recorded dep st s)|]); unfold requests; simpl;
      rewrite ?List.filter_app, ?length_app; simpl; repeat split; auto; lia.
  - split; [by apply (status_recorded dep st s)|].
    unfold requests. simpl. rewrite ?List.filter_app, ?length_app. simpl.
    repeat split; auto; lia.
Qed.

(** A non-terminal answer: the status is recorded and a polling interval
    is scheduled under the key of the dependency. *)
Lemma polling_scheduled dep st popup k s :
  dep < length (heap s) -> key (deref s dep) = k ->
  pollingIntervals s !! k = None ->
  let s' := startPolling dep (emit (Window popup) (report dep st s)) in
  status (deref s' dep) = st /\ requests s' = requests s /\
  (forall h, h < length (timers s) -> live s' h = live s h) /\
  pollingIntervals s' !! k = Some (length (timers s)) /\
  live s' (length (timers s)) = Some (Polling k dep).
Proof.
  intros Hd Hk Hnone. simpl.
  assert (Hkey : key (deref (emit (Window popup) (report dep st s)) dep) = k).
  { rewrite <- Hk. by apply (status_recorded dep st s). }
  unfold startPolling. rewrite Hkey. unfold schedule. simpl. rewrite Hnone.
  split; [|split; [|split; [|split]]].
  - by apply (status_recorded dep st s).
  - unfold requests. simpl. rewrite ?List.filter_app, ?length_app. simpl. lia.
  - intros h Hh. unfold live. simpl. by rewrite lookup_app_l.
  - simpl. by rewrite lookup_insert_eq.
  - unfold live. simpl. by rewrite list_lookup_middle.
Qed.

Lemma handleDependencyResponse_outcome choice dep response k s :
  dep < length (heap s) -> key (deref s dep) = k ->
  pollingIntervals s !! k = None ->
  let s' := handleDependencyResponse choice dep response s in
  status (deref s' dep) = statusFor response /\
  requests s' = requests s /\
  (forall h, h < length (timers s) -> live s' h = live s h) /\
  if settled (statusFor response) then pollingIntervals s' !! k = None
  else exists h', pollingIntervals s' !! k = Some h' /\
                  live s' h' = Some (Polling k dep).
Proof.
  intros Hd Hk Hnone. simpl. unfold handleDependencyResponse, statusFor.
  cbn zeta. rewrite Hk.
  destruct (String.eqb (res_status response) "approved") eqn:Ea.
  { destruct (verdict_recorded choice dep APPROVED
                ("✓ RepoGate: " ++ res_message response ++ " - Package '"
                   ++ packageName (deref s dep) ++ "' can be used.") [] k s Hd)
      as [_ (H1 & H2 & H3 & H4)].
    split; [exact H1|]. split; [exact H2|]. split.
    - intros h _. unfold live. by rewrite H3.
    - cbn [settled]. by rewrite H4, Hnone. }
  destruct (String.eqb (res_status response) "denied") eqn:Ed.
  { destruct (verdict_recorded choice dep DENIED
                ("✗ RepoGate: " ++ res_message response ++ " - Package '"
                   ++ packageName (deref s dep) ++ "' should not be used.")
                ["I Understand"; "Remove It"] k s Hd)
      as [(H1 & H2 & H3 & H4) _].
    split; [exact H1|]. split; [exact H2|]. split.
    - intros h _. unfold live. by rewrite H3.
    - cbn [settled]. by rewrite H4, Hnone. }
  destruct (String.eqb (res_status response) "pending") eqn:Ep.
  { apply String.eqb_eq in Ep. rewrite Ep. simpl.
    edestruct (polling_scheduled dep PENDING) as (H1 & H2 & H3 & H4 & H5); eauto 10. }
  destruct (String.eqb (res_status response) "scanning") eqn:Es.
  { edestruct (polling_scheduled dep SCANNING) as (H1 & H2 & H3 & H4 & H5);
      [exact Hd|exact Hk|exact Hnone|].
    cbn [settled]. split; [exact H1|]. split; [exact H2|]. split; [exact H3|].
    eauto. }
  destruct (String.eqb (res_status response) "not_found") eqn:En.
  { edestruct (polling_scheduled dep NOT_FOUND) as (H1 & H2 & H3 & H4 & H5);
      [exact Hd|exact Hk|exact Hnone|].
    cbn [settled]. split; [exact H1|]. split; [exact H2|]. split; [exact H3|].
    eauto. }
  edestruct (polling_scheduled dep PENDING) as (H1 & H2 & H3 & H4 & H5);
    [exact Hd|exact Hk|exact Hnone|].
  cbn [settled]. split; [exact H1|]. split; [exact H2|]. split; [exact H3|].
  eauto.
Qed.

Section RetryLoop.

Variables (s1 : State) (k : string) (h : nat) (dep : loc).
Variables (url token : string) (projectName : option string).

Let closure (j : nat) : Interval := Retrying k dep url token projectName j.

Lemma retry_fails choice reason j s :
  retrying s1 k h closure j s -> j < maxRetries ->
  retrying s1 k h closure (S j) (tick (Rejected reason) choice h s).
Proof.
  intros (Hl & Hp & Hh & Hr & Hg) Hj. unfold tick. rewrite Hl. unfold closure.
  unfold retryTick. cbn zeta.
  destruct (maxRetries <? S j)%nat eqn:E; [apply Nat.ltb_lt in E; lia|].
  pose proof (live_length _ _ _ Hl) as Hlt.
  unfold retrying, request. rewrite requests_emit, giveUps_emit. simpl.
  unfold live. simpl. rewrite list_lookup_insert_eq by done. simpl.
  repeat split; auto.
  - change (requests (mkState _ _ _ _ _ (effects s))) with (requests s). lia.
  - change (giveUps (mkState _ _ _ _ _ (effects s))) with (giveUps s). lia.
Qed.

Lemma retry_exhausts outcome choice s :
  retrying s1 k h closure maxRetries s ->
  gaveUp s1 k h (tick outcome choice h s).
Proof.
  intros (Hl & Hp & Hh & Hr & Hg). unfold tick. rewrite Hl. unfold closure.
  unfold retryTick. cbn zeta.
  replace (maxRetries <? S maxRetries)%nat with true by done.
  pose proof (live_length _ _ _ Hl) as Hlt.
  unfold gaveUp. rewrite requests_emit, giveUps_emit.
  unfold stopPolling. simpl. rewrite Hp. unfold live, requests, giveUps in *. simpl.
  rewrite list_lookup_insert_eq by (by rewrite length_insert). simpl.
  rewrite lookup_delete_eq. repeat split; auto; lia.
Qed.

Lemma gaveUp_is_final outcomes choice s :
  gaveUp s1 k h s -> ticks outcomes choice h s = s.
Proof.
  intros (Hl & _).
  assert (Ht : forall o, tick o choice h s = s)
    by (intros o; unfold tick; by rewrite Hl).
  unfold ticks. induction outcomes as [|o outcomes IH]; simpl; [done|].
  by rewrite Ht.
Qed.

Lemma retry_loop outcomes choice j s :
  retrying s1 k h closure j s -> j <= maxRetries ->
  Forall rejected outcomes ->
  let n := j + length outcomes in
  let s' := ticks outcomes choice h s in
  (n <= maxRetries -> retrying s1 k h closure n s') /\
  (maxRetries < n -> gaveUp s1 k h s').
Proof.
  intros Hs Hj Hall. revert j s Hs Hj.
  induction Hall as [|o outcomes [reason ->] _ IH]; intros j s Hs Hj; simpl.
  - rewrite Nat.add_0_r. split; [done|lia].
  - destruct (decide (j < maxRetries)) as [Hlt|Hge].
    + destruct (IH (S j) _ (retry_fails choice reason j s Hs Hlt)) as [H1 H2]; [lia|].
      replace (j + S (length outcomes)) with (S j + length outcomes) by lia.
      done.
    + assert (j = maxRetries) as -> by lia.
      pose proof (retry_exhausts (Rejected reason) choice s Hs) as Hg.
      fold (ticks outcomes choice h (tick (Rejected reason) choice h s)).
      rewrite (gaveUp_is_final outcomes choice _ Hg). split; [lia|done].
Qed.

Lemma stopPolling_registered key0 h0 t :
  pollingIntervals t !! key0 = Some h0 ->
  stopPolling key0 t
  = mkState (heap t) (pendingDependencies t) (delete key0 (pollingIntervals t))
            (<[h0 := None]> (timers t)) (isConnected t) (effects t).
Proof. intros H. unfold stopPolling. by rewrite H. Qed.

Lemma noteConnected_same s :
  heap (noteConnected s) = heap s /\ timers (noteConnected s) = timers s /\
  pollingIntervals (noteConnected s) = pollingIntervals s /\
  requests (noteConnected s) = requests s.
Proof.
  unfold noteConnected. destruct (isConnected s); [done|].
  rewrite requests_emit. simpl. repeat split; auto.
Qed.

Lemma retry_succeeds choice response j s :
  retrying s1 k h closure j s -> j < maxRetries ->
  dep < length (heap s) -> key (deref s dep) = k ->
  let s' := tick (Resolved response) choice h s in
  live s' h = None /\
  status (deref s' dep) = statusFor response /\
  requests s' = (requests s + 1)%nat /\
  if settled (statusFor response) then pollingIntervals s' !! k = None
  else exists h', pollingIntervals s' !! k = Some h' /\
                  live s' h' = Some (Polling k dep).
Proof.
  intros (Hl & Hp & Hh & Hr & Hg) Hj Hd Hk. simpl. unfold tick. rewrite Hl.
  unfold closure, retryTick. cbn zeta.
  destruct (maxRetries <? S j)%nat eqn:E; [apply Nat.ltb_lt in E; lia|].
  pose proof (live_length _ _ _ Hl) as Hlt.
  match goal with
  | |- context [handleDependencyResponse choice dep response ?t] => set (sd := t)
  end.
  match type of sd with _ => idtac end.
  assert (Hsd : heap sd = heap s /\
                timers sd = <[h := None]>
                              (<[h := Some (Retrying k dep url token projectName (S j))]>
                                 (timers s)) /\
                pollingIntervals sd = delete k (pollingIntervals s) /\
                requests sd = (requests s + 1)%nat).
  { subst sd.
    match goal with
    | |- context [stopPolling k (noteConnected ?t)] =>
        destruct (noteConnected_same t) as (N1 & N2 & N3 & N4);
        set (sc := noteConnected t) in *
    end.
    assert (Hreg : pollingIntervals sc !! k = Some h) by (rewrite N3; exact Hp).
    rewrite (stopPolling_registered k h sc Hreg).
    cbn [heap timers pollingIntervals].
    split; [by rewrite N1|]. split; [by rewrite N2|]. split; [by rewrite N3|].
    change (requests (mkState _ _ _ _ _ (effects sc))) with (requests sc).
    rewrite N4. unfold request. rewrite requests_emit. simpl.
    change (requests (mkState _ _ _ _ _ (effects s))) with (requests s). lia. }
  destruct Hsd as (S1 & S2 & S3 & S4).
  destruct (handleDependencyResponse_outcome choice dep response k sd)
    as (O1 & O2 & O3 & O4).
  { by rewrite S1. }
  { by rewrite (deref_ext sd s dep S1). }
  { rewrite S3. apply lookup_delete_eq. }
  split.
  - rewrite O3 by (rewrite S2, !length_insert; exact Hlt).
    unfold live. rewrite S2. rewrite list_lookup_insert_eq; [done|].
    by rewrite length_insert.
  - split; [exact O1|]. split; [by rewrite O2|exact O4].
Qed.

End RetryLoop.

(** *** Entering and leaving connection-retry mode *)

Lemma validateDependency_enters_retry settings reason choice dep projectName s :
  enabled settings = true -> tokenMissing settings = false ->
  transportFailure reason = true -> dep < length (heap s) ->
  let s1 := validateDependency settings (Rejected reason) choice dep projectName s in
  let k := key (deref s dep) in
  let h := length (timers s) in
  retrying s1 k h
    (Retrying k dep (effectiveUrl settings) (apiToken settings) projectName) 0 s1 /\
  status (deref s1 dep) = PENDING /\
  key (deref s1 dep) = k /\
  length (heap s1) = length (heap s) /\
  requests s1 = (requests s + 1)%nat.
Proof.
  intros He Ht Hf Hd. simpl. unfold validateDependency.
  rewrite He, Ht, Hf. cbn [negb]. cbv zeta.
  match goal with
  | |- context [retryConnection dep _ _ _ (report dep PENDING ?t)] => set (s0 := t)
  end.
  assert (H0 : heap s0 = heap s /\ timers s0 = timers s /\
               pollingIntervals s0 = pollingIntervals s /\
               requests s0 = (requests s + 1)%nat).
  { subst s0. unfold request, requests, emit, set_connected. simpl.
    rewrite !List.filter_app, !length_app. simpl. repeat split; auto; lia. }
  destruct H0 as (A1 & A2 & A3 & A4).
  assert (Hd0 : dep < length (heap s0)) by (by rewrite A1).
  destruct (status_recorded dep PENDING s0 (report dep PENDING s0) Hd0 eq_refl)
    as [B1 B2].
  rewrite (deref_ext s0 s dep A1) in B2.
  unfold retryConnection. rewrite B2. unfold schedule.
  set (k := key (deref s dep)).
  set (ts := match pollingIntervals (report dep PENDING s0) !! k with
             | Some existingInterval =>
                 <[existingInterval := None]> (timers (report dep PENDING s0))
             | None => timers (report dep PENDING s0)
             end).
  assert (Hlen : length ts = length (timers s)).
  { subst ts. change (timers (report dep PENDING s0)) with (timers s0).
    rewrite A2. destruct (pollingIntervals _ !! k); [apply length_insert|done]. }
  rewrite Hlen. unfold retrying, live. cbn [timers pollingIntervals heap].
  rewrite <- Hlen, list_lookup_middle by done. rewrite lookup_insert_eq.
  split; [repeat split; auto; lia|].
  split; [by apply (status_recorded dep PENDING s0)|].
  split; [transitivity (key (deref s0 dep));
            [by apply (status_recorded dep PENDING s0)
            |by rewrite (deref_ext s0 s dep A1)]|].
  split.
  - unfold report, emit, set_status. cbn [heap].
    by rewrite length_insert, A1.
  - unfold requests at 1. cbn [effects].
    change (length (List.filter isRequest (effects (report dep PENDING s0))))
      with (requests (report dep PENDING s0)).
    unfold report. rewrite requests_emit. simpl.
    change (requests (set_status dep PENDING s0)) with (requests s0). lia.
Qed.

(** C5 (amended). Connection-retry mode is entered exactly when the
    message of the error of the initial submission contains
    [ECONNREFUSED], [Failed to fetch] or [Network].  Any other failure
    of the initial submission, a timeout or a name that does not resolve
    included, sets the status to error after the one request and
    schedules nothing.  When the message does contain one of the three,
    [validateDependency] records the status pending and
    installs a retry interval with a period of ten seconds.  While every
    attempt fails, the interval makes one request per firing, thirty at
    most; its thirty-first firing stops the interval, shows the "could not
    connect" warning once, and makes no request; no later firing does
    anything.  The status of the dependency is still pending then (it is
    never set to error on this path).  A firing whose request succeeds
    stops the retry interval and records the status of the response,
    scheduling status polling when that status is not a verdict. *)
Theorem connection_retry_is_bounded (settings : Settings) (reason : string)
    (choice : option string) (dep : loc) (projectName : option string)
    (s : State) (outcomes : list (Promise Response)) :
  enabled settings = true -> tokenMissing settings = false ->
  dep < length (heap s) ->
  Forall rejected outcomes ->
  let s1 := validateDependency settings (Rejected reason) choice dep projectName s in
  let k := key (deref s dep) in
  let h := length (timers s) in
  let closure := Retrying k dep (effectiveUrl settings) (apiToken settings)
                   projectName in
  let n := length outcomes in
  let sn := ticks outcomes choice h s1 in
  (transportFailure reason = false ->
   status (deref s1 dep) = ERROR /\
   timers s1 = timers s /\ pollingIntervals s1 = pollingIntervals s /\
   requests s1 = (requests s + 1)%nat /\
   giveUps s1 = giveUps s) /\
  (transportFailure reason = true ->
  (status (deref s1 dep) = PENDING /\ live s1 h = Some (closure 0) /\
   pollingIntervals s1 !! k = Some h /\ period (closure 0) = 10000%N) /\
  requests sn = (requests s1 + Nat.min n maxRetries)%nat /\
  giveUps sn = (giveUps s1 + if (maxRetries <? n)%nat then 1 else 0)%nat /\
  status (deref sn dep) = PENDING /\
  (n <= maxRetries ->
   live sn h = Some (closure n) /\ pollingIntervals sn !! k = Some h) /\
  (maxRetries < n ->
   live sn h = None /\ pollingIntervals sn !! k = None /\
   forall outcome, tick outcome choice h sn = sn) /\
  (n < maxRetries ->
   forall response,
     let s' := tick (Resolved response) choice h sn in
     live s' h = None /\
     status (deref s' dep) = statusFor response /\
     requests s' = (requests sn + 1)%nat /\
     if settled (statusFor response) then pollingIntervals s' !! k = None
     else exists h', pollingIntervals s' !! k = Some h' /\
                     live s' h' = Some (Polling k dep))).
Proof.
  intros He Ht Hd Hall. cbv zeta. split.
  { intros Hf. unfold validateDependency.
    rewrite He, Ht, Hf. cbn [negb]. cbv zeta.
    match goal with |- context [report dep ERROR ?t] => set (s0 := t) end.
    assert (Hh : heap s0 = heap s) by done.
    assert (Hd0 : dep < length (heap s0)) by (by rewrite Hh).
    split; [by apply (status_recorded dep ERROR s0)|].
    split; [done|]. split; [done|].
    assert (Heff : effects (report dep ERROR s0)
                   = (effects s0 ++
                        [MonitorUpdate (packageName (deref s dep))
                           (packageManager (deref s dep)) ERROR])%list).
    { unfold report. simpl. by rewrite (deref_ext s0 s dep Hh). }
    split.
    - unfold requests. rewrite Heff. unfold s0, request. simpl.
      rewrite !List.filter_app, !length_app. simpl. lia.
    - unfold giveUps. rewrite Heff. unfold s0, request. simpl.
      rewrite !List.filter_app, !length_app. simpl. lia. }
  intros Hf.
  destruct (validateDependency_enters_retry settings reason choice dep projectName
              s He Ht Hf Hd) as (Hr0 & Hst & Hk & Hlen & _).
  cbv zeta in Hr0, Hst, Hk, Hlen.
  set (s1 := validateDependency settings (Rejected reason) choice dep projectName s)
    in *.
  set (k := key (deref s dep)) in *. set (h := length (timers s)) in *.
  set (closure := Retrying k dep (effectiveUrl settings) (apiToken settings)
                    projectName) in *.
  destruct (retry_loop s1 k h dep (effectiveUrl settings) (apiToken settings)
              projectName outcomes choice 0 s1 Hr0 ltac:(unfold maxRetries; lia) Hall)
    as [Hle Hgt].
  cbv zeta in Hle, Hgt. simpl in Hle, Hgt. fold closure in Hle.
  set (sn := ticks outcomes choice h s1) in *.
  assert (Hheap : heap sn = heap s1).
  { destruct (decide (length outcomes <= maxRetries)) as [H|H].
    - by destruct (Hle H) as (_ & _ & ? & _).
    - by destruct (Hgt ltac:(lia)) as (_ & _ & ? & _). }
  split; [|split; [|split; [|split; [|split; [|split]]]]].
  - destruct Hr0 as (? & ? & _). auto.
  - destruct (decide (length outcomes <= maxRetries)) as [H|H].
    + destruct (Hle H) as (_ & _ & _ & -> & _). lia.
    + destruct (Hgt ltac:(lia)) as (_ & _ & _ & -> & _). lia.
  - destruct (decide (length outcomes <= maxRetries)) as [H|H].
    + destruct (Hle H) as (_ & _ & _ & _ & ->).
      destruct (maxRetries <? length outcomes)%nat eqn:E;
        [apply Nat.ltb_lt in E; lia|lia].
    + destruct (Hgt ltac:(lia)) as (_ & _ & _ & _ & ->).
      destruct (maxRetries <? length outcomes)%nat eqn:E;
        [lia|apply Nat.ltb_ge in E; lia].
  - by rewrite (deref_ext sn s1 dep Hheap).
  - intros H. destruct (Hle H) as (? & ? & _). auto.
  - intros H. destruct (Hgt H) as (Hl & Hp & _). split; [done|]. split; [done|].
    intros outcome. unfold tick. by rewrite Hl.
  - intros H response.
    apply (retry_succeeds s1 k h dep (effectiveUrl settings) (apiToken settings)
             projectName choice response (length outcomes) sn).
    + apply Hle. lia.
    + done.
    + rewrite Hheap, Hlen. done.
    + by rewrite (deref_ext sn s1 dep Hheap).
Qed.

(** *** Status polling *)

Lemma checks_emit e s :
  checks (emit e s) = (checks s + if isCheck e then 1 else 0)%nat.
Proof.
  unfold checks, emit. simpl. rewrite List.filter_app, length_app. simpl.
  by destruct (isCheck e).
Qed.

(** A firing that brings no verdict leaves the intervals as they are. *)
Lemma pollTick_inconclusive o choice k dep s :
  inconclusive o ->
  let s' := pollTick o choice k dep s in
  timers s' = timers s /\ pollingIntervals s' = pollingIntervals s /\
  pendingDependencies s' = pendingDependencies s /\
  checks s' = (checks s + 1)%nat.
Proof.
  intros Ho. cbv zeta. unfold pollTick.
  destruct o as [response|reason].
  - destruct Ho as [Ha Hd].
    apply String.eqb_neq in Ha, Hd. rewrite Ha, Hd.
    destruct (String.eqb (res_status response) "pending");
      [|destruct (String.eqb (res_status response) "scanning");
        [|destruct (String.eqb (res_status response) "not_found")]];
      unfold report; rewrite ?checks_emit; simpl;
      change (checks (set_status ?d ?st ?t)) with (checks t);
      rewrite ?checks_emit; simpl; repeat split; auto; lia.
  - rewrite checks_emit. simpl. repeat split; auto.
Qed.

Lemma polling_goes_on outcomes choice h k dep s :
  live s h = Some (Polling k dep) -> pollingIntervals s !! k = Some h ->
  Forall inconclusive outcomes ->
  let sn := ticks outcomes choice h s in
  live sn h = Some (Polling k dep) /\ pollingIntervals sn !! k = Some h /\
  checks sn = (checks s + length outcomes)%nat.
Proof.
  intros Hl Hk Hall. cbv zeta. revert s Hl Hk.
  induction Hall as [|o outcomes Ho _ IH]; intros s Hl Hk.
  - simpl. repeat split; auto.
  - assert (Hstep : tick o choice h s = pollTick o choice k dep s)
      by (unfold tick; by rewrite Hl).
    unfold ticks. cbn [fold_left]. rewrite Hstep.
    destruct (pollTick_inconclusive o choice k dep s Ho) as (Ht & Hp & _ & Hc).
    destruct (IH (pollTick o choice k dep s)) as (A & B & C).
    + unfold live. by rewrite Ht.
    + by rewrite Hp.
    + fold (ticks outcomes choice h (pollTick o choice k dep s)).
      split; [exact A|]. split; [exact B|].
      rewrite C, Hc. simpl. lia.
Qed.

Lemma afterDenial_same choice s :
  heap (afterDenial choice s) = heap s /\
  timers (afterDenial choice s) = timers s /\
  pollingIntervals (afterDenial choice s) = pollingIntervals s /\
  pendingDependencies (afterDenial choice s) = pendingDependencies s.
Proof.
  unfold afterDenial.
  destruct choice as [action|]; [destruct (String.eqb action "Remove It")|];
    repeat split; auto.
Qed.

(** A verdict ends the polling of the dependency. *)
Lemma pollTick_verdict message verdict choice h k dep s :
  verdict = "approved" \/ verdict = "denied" ->
  live s h = Some (Polling k dep) -> pollingIntervals s !! k = Some h ->
  let s' := pollTick (Resolved (mkResponse verdict message)) choice k dep s in
  live s' h = None /\ pollingIntervals s' !! k = None /\
  pendingDependencies s' !! k = None /\
  (dep < length (heap s) ->
   status (deref s' dep) = statusFor (mkResponse verdict message)).
Proof.
  intros Hv Hl Hk. cbv zeta.
  assert (Hlt : h < length (timers s)) by (by eapply live_length).
  unfold pollTick. cbn [res_status res_message].
  destruct Hv as [-> | ->]; cbn [String.eqb Ascii.eqb Bool.eqb].
  - rewrite (stopPolling_registered k h) by exact Hk.
    unfold live. cbn. rewrite list_lookup_insert_eq by done.
    rewrite !lookup_delete_eq. repeat split; auto.
    intros Hd. unfold deref. cbn. by rewrite list_lookup_insert_eq.
  - rewrite (stopPolling_registered k h) by exact Hk.
    match goal with |- context [afterDenial choice ?t] =>
      destruct (afterDenial_same choice t) as (Hh & Ht & Hp & Hq) end.
    split; [|split; [|split]].
    + unfold live. rewrite Ht. cbn. by rewrite list_lookup_insert_eq.
    + rewrite Hp. cbn. by rewrite lookup_delete_eq.
    + rewrite Hq. cbn. by rewrite lookup_delete_eq.
    + intros Hd. rewrite (deref_ext _ _ dep Hh). unfold deref at 1. cbn.
      by rewrite list_lookup_insert_eq.
Qed.

(** X17. Status polling has no bound of its own: as long as the checks
    fail or report a status other than approved and denied, every firing
    of the interval sends one check and the interval stays registered and
    live, however many times it fires.  The first approved or denied
    answer records that status, forgets the dependency and cancels the
    interval, after which its firings do nothing. *)
Theorem polling_runs_until_a_verdict (outcomes : list (Promise Response))
    (choice : option string) (h : nat) (k : string) (dep : loc) (s : State) :
  live s h = Some (Polling k dep) -> pollingIntervals s !! k = Some h ->
  Forall inconclusive outcomes ->
  let sn := ticks outcomes choice h s in
  live sn h = Some (Polling k dep) /\ pollingIntervals sn !! k = Some h /\
  checks sn = (checks s + length outcomes)%nat /\
  (forall message verdict,
     verdict = "approved" \/ verdict = "denied" ->
     let s' := tick (Resolved (mkResponse verdict message)) choice h sn in
     live s' h = None /\ pollingIntervals s' !! k = None /\
     pendingDependencies s' !! k = None /\
     (dep < length (heap sn) ->
      status (deref s' dep) = statusFor (mkResponse verdict message)) /\
     forall o, tick o choice h s' = s').
Proof.
  intros Hl Hk Hall. cbv zeta.
  destruct (polling_goes_on outcomes choice h k dep s Hl Hk Hall) as (A & B & C).
  cbv zeta in A, B, C. split; [exact A|]. split; [exact B|]. split; [exact C|].
  intros message verdict Hv.
  assert (Hstep : tick (Resolved (mkResponse verdict message)) choice h
                    (ticks outcomes choice h s)
                  = pollTick (Resolved (mkResponse verdict message)) choice k dep
                      (ticks outcomes choice h s))
    by (unfold tick at 1; by rewrite A).
  rewrite Hstep.
  destruct (pollTick_verdict message verdict choice h k dep _ Hv A B)
    as (V1 & V2 & V3 & V4).
  split; [exact V1|]. split; [exact V2|]. split; [exact V3|]. split; [exact V4|].
  intros o. unfold tick. by rewrite V1.
Qed.

(** *** Failures that are not retried *)

(** X18. An error of the initial request that is not a transport failure
    is final: the status becomes error, the user is shown the reason once,
    and no retry and no poll is scheduled, so nothing will look at the
    dependency again until it is submitted anew.  Exactly one request was
    made. *)
Theorem other_failures_are_final (settings : Settings) (reason : string)
    (choice : option string) (dep : loc) (projectName : option string)
    (s : State) :
  enabled settings = true -> tokenMissing settings = false ->
  transportFailure reason = false -> dep < length (heap s) ->
  let s' := validateDependency settings (Rejected reason) choice dep projectName s in
  let d := deref s dep in
  status (deref s' dep) = ERROR /\
  timers s' = timers s /\ pollingIntervals s' = pollingIntervals s /\
  isConnected s' = false /\
  requests s' = (requests s + 1)%nat /\
  effects s'
  = (effects s ++
       [Window (Notifications.InformationMessage
                  "⏳ RepoGate: Waiting for RepoGate service to respond..." []);
        RequestDependency (packageName d) (packageManager d) (version d) projectName;
        Window (Notifications.ErrorMessage
                  ("RepoGate: Unable to connect - " ++ reason) []);
        MonitorUpdate (packageName d) (packageManager d) ERROR])%list.
Proof.
  intros He Ht Hf Hd. cbv zeta. unfold validateDependency.
  rewrite He, Ht, Hf. cbn [negb]. cbv zeta.
  match goal with |- context [report dep ERROR ?t] => set (s0 := t) end.
  assert (Hh : heap s0 = heap s) by done.
  assert (Hd0 : dep < length (heap s0)) by (by rewrite Hh).
  split; [by apply (status_recorded dep ERROR s0)|].
  split; [done|]. split; [done|]. split; [done|].
  assert (Heff : effects (report dep ERROR s0)
                 = (effects s0 ++
                      [MonitorUpdate (packageName (deref s dep))
                         (packageManager (deref s dep)) ERROR])%list).
  { unfold report. simpl. by rewrite (deref_ext s0 s dep Hh). }
  split.
  - unfold requests. rewrite Heff. unfold s0, request. simpl.
    rewrite !List.filter_app, !length_app. simpl. lia.
  - rewrite Heff. unfold s0, request. simpl. by rewrite <- !app_assoc.
Qed.

End Validator.

(** *** A backend that never comes up *)

Module ValidatorScenarios.
Import Model Validator.

Definition settings : Settings :=
  mkSettings true "t0k3n" "http://localhost:3000/api/v1".

Definition refused : Promise Response :=
  Rejected
    "Failed to request dependency validation: Error: connect ECONNREFUSED 127.0.0.1:3000".

Definition reason : string :=
  "Failed to request dependency validation: Error: connect ECONNREFUSED 127.0.0.1:3000".

(** The validator right after the monitor found [lodash] in a manifest. *)
Definition start : State :=
  mkState [createDependencyInfo "npm" "lodash" "4.17.21"] ∅ ∅ [] false [].

Definition entered : State :=
  validateDependency settings refused None 0 (Some "ws") start.

(** A timeout of the initial request, as the client reports it. *)
Definition timedOut : string :=
  "Failed to request dependency validation: AxiosError: timeout of 30000ms exceeded".

(** Thirty-one firings in vain: the retry interval is gone, the warning
    was shown once, and the status is pending, not error.  And a
    submission that fails with a timeout, a transport reason, is not
    retried at all: no interval is installed and the one request is the
    last. *)
Lemma exhausted_retry_leaves_pending :
  (let s := ticks (replicate 31 refused) None 0 entered in
   status (deref s 0) = PENDING /\
   live s 0 = None /\
   giveUps s = 1 /\
   requests s = 31 /\
   ticks (replicate 5 refused) None 0 s = s) /\
  (let s := validateDependency settings (Rejected timedOut) None 0 (Some "ws")
              start in
   status (deref s 0) = ERROR /\
   timers s = [] /\ pollingIntervals s = ∅ /\
   requests s = 1 /\
   forall outcomes h, ticks outcomes None h s = s).
Proof.
  split; [vm_compute; auto|].
  cbv zeta. split; [vm_compute; auto|]. split; [vm_compute; auto|].
  split; [vm_compute; auto|]. split; [vm_compute; auto|].
  intros outcomes h. induction outcomes as [|o os IH]; [done|].
  unfold ticks in *. cbn [fold_left].
  replace (tick o None h _) with
    (validateDependency settings (Rejected timedOut) None 0 (Some "ws") start);
    [exact IH|].
  unfold tick. by destruct h.
Qed.

(** Another failure of the network that the test on the message does
    not recognise: the name of the service does not resolve. *)
Definition unresolved : string :=
  "Failed to request dependency validation: Error: getaddrinfo ENOTFOUND api.repogate.io".

(** The theorem on connection retries, on that run and on a name that
    does not resolve. *)
Lemma connection_retry_witness :
  let s := ticks (replicate 31 refused) None 0 entered in
  let s' := validateDependency settings (Rejected unresolved) None 0 (Some "ws")
              start in
  transportFailure reason = true /\
  requests s = (requests entered + 30)%nat /\
  giveUps s = (giveUps entered + 1)%nat /\
  status (deref s 0) = PENDING /\
  live s 0 = None /\
  transportFailure unresolved = false /\
  status (deref s' 0) = ERROR /\
  timers s' = [] /\
  requests s' = 1.
Proof.
  cbv zeta.
  assert (Hall : Forall rejected (replicate 31 refused)).
  { apply Forall_replicate. by exists reason. }
  destruct (connection_retry_is_bounded settings reason None 0 (Some "ws") start
              (replicate 31 refused) eq_refl eq_refl
              ltac:(simpl; lia) Hall)
    as (_ & Hretry).
  destruct (Hretry eq_refl) as (_ & Hreq & Hgive & Hst & _ & Hgt & _).
  cbv zeta in Hreq, Hgive, Hst, Hgt.
  destruct Hgt as (Hl & _); [rewrite length_replicate; unfold maxRetries; lia|].
  split; [reflexivity|]. split; [exact Hreq|]. split; [exact Hgive|].
  split; [exact Hst|]. split; [exact Hl|].
  destruct (connection_retry_is_bounded settings unresolved None 0 (Some "ws") start
              [] eq_refl eq_refl ltac:(simpl; lia) (Forall_nil_2 _))
    as (Hother & _).
  destruct (Hother eq_refl) as (Hst' & Ht' & _ & Hreq' & _).
  split; [reflexivity|]. split; [exact Hst'|]. split; [exact Ht'|exact Hreq'].
Defined.

(** The seventh attempt succeeds with [pending]: retrying stops and
    status polling takes over under the same key. *)
Example seventh_attempt_switches_to_polling :
  let s := ticks (replicate 6 refused ++ [Resolved (mkResponse "pending" "queued")])
             None 0 entered in
  status (deref s 0) = PENDING /\
  live s 0 = None /\
  pollingIntervals s !! "lodash:npm" = Some 1 /\
  live s 1 = Some (Polling "lodash:npm" 0) /\
  requests s = 8.
Proof. vm_compute. auto. Qed.

(** An error that is not a transport failure sets the status to error
    and schedules nothing. *)
Example client_error_is_not_retried :
  let s := validateDependency settings
             (Rejected "Failed to request dependency validation: Error: Request failed with status code 401")
             None 0 (Some "ws") start in
  status (deref s 0) = ERROR /\ timers s = [] /\ pollingIntervals s = ∅.
Proof. vm_compute. auto. Qed.

(** The request is answered [pending]: status polling starts under
    handle 0. *)
Definition queued : State :=
  validateDependency settings (Resolved (mkResponse "pending" "queued")) None 0
    (Some "ws") start.

Definition undecided : list (Promise Response) :=
  [Rejected "Failed to check dependency status: Error: timeout of 10000ms exceeded";
   Resolved (mkResponse "scanning" "scan in progress");
   Resolved (mkResponse "on_hold" "");
   Resolved (mkResponse "pending" "queued")].

(** Four checks without a verdict, then a denial: the theorem on status
    polling, on that run. *)
Lemma polling_until_verdict_witness :
  let sn := ticks undecided None 0 queued in
  let s' := tick (Resolved (mkResponse "denied" "license")) None 0 sn in
  live queued 0 = Some (Polling "lodash:npm" 0) /\
  live sn 0 = Some (Polling "lodash:npm" 0) /\
  checks sn = 4 /\
  live s' 0 = None /\
  pollingIntervals s' !! "lodash:npm" = None /\
  status (deref s' 0) = DENIED.
Proof.
  cbv zeta.
  assert (Hall : Forall inconclusive undecided).
  { unfold undecided. repeat constructor; simpl; discriminate. }
  destruct (polling_runs_until_a_verdict undecided None 0 "lodash:npm" 0 queued
              eq_refl eq_refl Hall) as (Hl & _ & Hc & Hv).
  cbv zeta in Hl, Hc, Hv.
  destruct (Hv "license" "denied" (or_intror eq_refl)) as (V1 & V2 & _ & V4 & _).
  split; [reflexivity|]. split; [exact Hl|]. split; [exact Hc|].
  split; [exact V1|]. split; [exact V2|].
  apply V4. vm_compute. lia.
Defined.

Definition unauthorized : string :=
  "Failed to request dependency validation: Error: Request failed with status code 401".

(** The theorem on failures that are not retried, on a rejected token. *)
Lemma other_failures_witness :
  let s := validateDependency settings (Rejected unauthorized) None 0 (Some "ws")
             start in
  transportFailure unauthorized = false /\
  status (deref s 0) = ERROR /\
  timers s = [] /\ pollingIntervals s = ∅ /\
  requests s = 1.
Proof.
  cbv zeta.
  destruct (other_failures_are_final settings unauthorized None 0 (Some "ws") start
              eq_refl eq_refl eq_refl ltac:(simpl; lia))
    as (Hst & Ht & Hp & _ & Hr & _).
  cbv zeta in Hst, Ht, Hp, Hr.
  split; [reflexivity|]. split; [exact Hst|]. split; [exact Ht|].
  split; [exact Hp|exact Hr].
Defined.

End ValidatorScenarios.

(* ------------------------------------------------------------------ *)
(** ** utils/logger.ts

    [log] appends the formatted message and, when there are arguments,
    [JSON.stringify(args, this.sanitize, 2)].  [JSON.stringify] calls the
    replacer on every property before it looks at the value, and walks
    into what the replacer returns.  [sanitize] returns either its
    argument or a string, so the walk is structural: [redact] is the tree
    after all replacer calls, [serialize] prints it with an indentation of
    two spaces.  [toLowerCase] is modelled on the ASCII letters. *)

Module Logger.
Import Json.

Definition lowerChar (c : ascii) : ascii :=
  let n := nat_of_ascii c in
  if (65 <=? n)%nat && (n <=? 90)%nat then ascii_of_nat (n + 32) else c.

Fixpoint toLowerCase (s : string) : string :=
  match s with
  | EmptyString => EmptyString
  | String c s' => String (lowerChar c) (toLowerCase s')
  end.

(** The test of [sanitize] on the key. *)
Definition sensitive (key : string) : bool :=
  Js.includes (toLowerCase key) "token"
  || Js.includes (toLowerCase key) "password"
  || Js.includes (toLowerCase key) "secret".

Definition REDACTED : string := "***REDACTED***".

Definition sanitize (key : string) (v : value) : value :=
  if sensitive key then Str REDACTED else v.

(** The value tree after the replacer calls of [JSON.stringify]: the
    replacer sees a property before its children are visited. *)
Fixpoint redact (key : string) (v : value) {struct v} : value :=
  if sensitive key then Str REDACTED
  else
    match v with
    | Arr items =>
        Arr ((fix elements (i : nat) (l : list value) : list value :=
                match l with
                | [] => []
                | x :: l' => redact (Js.natToString i) x :: elements (S i) l'
                end) 0%nat items)
    | Obj fields =>
        Obj ((fix members (l : list (string * value)) : list (string * value) :=
                match l with
                | [] => []
                | (k, x) :: l' => (k, redact k x) :: members l'
                end) fields)
    | _ => v
    end.

(** *** Printing *)

Definition hexDigit (n : nat) : ascii :=
  if (n <? 10)%nat then ascii_of_nat (48 + n) else ascii_of_nat (87 + n).

(** One character inside a JSON string literal. *)
Definition escapeChar (c : ascii) : string :=
  let n := nat_of_ascii c in
  if (n =? 34)%nat then String "\" (String c "")
  else if (n =? 92)%nat then "\\"
  else if (n =? 8)%nat then "\b"
  else if (n =? 12)%nat then "\f"
  else if (n =? 10)%nat then "\n"
  else if (n =? 13)%nat then "\r"
  else if (n =? 9)%nat then "\t"
  else if (n <? 32)%nat then
    "\u00" ++ String (hexDigit (n / 16)) (String (hexDigit (n mod 16)) "")
  else String c "".

Fixpoint escape (s : string) : string :=
  match s with
  | EmptyString => EmptyString
  | String c s' => escapeChar c ++ escape s'
  end.

(** [QuoteJSONString] *)
Definition quote (s : string) : string := Scenarios.dq ++ escape s ++ Scenarios.dq.

Definition gap : string := "  ".

Definition numeral (z : Z) : string := NilZero.string_of_int (Z.to_int z).

Fixpoint join (sep : string) (parts : list string) : string :=
  match parts with
  | [] => ""
  | [p] => p
  | p :: rest => p ++ sep ++ join sep rest
  end.

Definition wrap (opening closing stepback indent : string) (partial : list string)
    : string :=
  match partial with
  | [] => opening ++ closing
  | _ =>
      opening ++ Js.nl ++ indent ++ join ("," ++ Js.nl ++ indent) partial
        ++ Js.nl ++ stepback ++ closing
  end.

(** [SerializeJSONProperty] on a value the replacer has been applied to;
    [None] is the result [undefined]. *)
Fixpoint serialize (stepback : string) (v : value) {struct v} : option string :=
  let indent := stepback ++ gap in
  match v with
  | Undefined => None
  | Null => Some "null"
  | Bool true => Some "true"
  | Bool false => Some "false"
  | Num z => Some (numeral z)
  | Str s => Some (quote s)
  | Arr items =>
      Some (wrap "[" "]" stepback indent
              ((fix elements (l : list value) : list string :=
                  match l with
                  | [] => []
                  | x :: l' => default "null" (serialize indent x) :: elements l'
                  end) items))
  | Obj fields =>
      Some (wrap "{" "}" stepback indent
              ((fix members (l : list (string * value)) : list string :=
                  match l with
                  | [] => []
                  | (k, x) :: l' =>
                      match serialize indent x with
                      | Some text => (quote k ++ ": " ++ text) :: members l'
                      | None => members l'
                      end
                  end) fields))
  end.

(** [JSON.stringify(args, this.sanitize, 2)] for the array [args]. *)
Definition stringify (args : list value) : string :=
  default "" (serialize "" (redact "" (Arr args))).

(** The lines [log] appends to the output channel. *)
Definition log (timestamp level message : string) (args : list value)
    : list string :=
  ("[" ++ timestamp ++ "] [" ++ level ++ "] " ++ message)
    :: match args with
       | [] => []
       | _ => [stringify args]
       end.

(** *** Levels

    The logger of utils/logger.ts drops a message whose level lies above
    its threshold.  The threshold is set by [initialize], from the
    [logLevel] setting; [setting] is that setting at the time of a call,
    unset being [None]. *)

Inductive LogLevel := ERROR | WARN | INFO | DEBUG.

Definition levelValue (l : LogLevel) : nat :=
  match l with ERROR => 0 | WARN => 1 | INFO => 2 | DEBUG => 3 end.

(** The logger: the lines of its output channel once created, its
    threshold, and what it passed to [console.error]. *)
Record Logger := mkLogger {
  outputChannel : option (list string);
  logLevel : LogLevel;
  console : list (string * list value)
}.

Definition fresh : Logger := mkLogger None ERROR [].

Definition setLogLevel (level : string) (s : Logger) : Logger :=
  let l := toLowerCase level in
  mkLogger (outputChannel s)
           (if String.eqb l "debug" then DEBUG
            else if String.eqb l "info" then INFO
            else if String.eqb l "warn" then WARN
            else ERROR)
           (console s).

Definition initialize (setting : option string) (s : Logger) : Logger :=
  let s :=
    match outputChannel s with
    | Some _ => s
    | None => mkLogger (Some []) (logLevel s) (console s)
    end in
  setLogLevel (default "error" setting) s.

Definition appendLines (ls : list string) (s : Logger) : Logger :=
  mkLogger ((fun channel => (channel ++ ls)%list) <$> outputChannel s) (logLevel s)
           (console s).

(** The private [log] with its threshold test. *)
Definition logAt (setting : option string) (timestamp level : string)
    (level_value : LogLevel) (message : string) (args : list value) (s : Logger)
    : Logger :=
  if (levelValue (logLevel s) <? levelValue level_value)%nat then s
  else
    let s :=
      match outputChannel s with
      | Some _ => s
      | None => initialize setting s
      end in
    appendLines (log timestamp level message args) s.

Definition info (setting : option string) (timestamp message : string)
    (args : list value) (s : Logger) : Logger :=
  logAt setting timestamp "INFO" INFO message args s.

Definition warn (setting : option string) (timestamp message : string)
    (args : list value) (s : Logger) : Logger :=
  logAt setting timestamp "WARN" WARN message args s.

Definition error (setting : option string) (timestamp message : string)
    (args : list value) (s : Logger) : Logger :=
  let s := logAt setting timestamp "ERROR" ERROR message args s in
  mkLogger (outputChannel s) (logLevel s) (console s ++ [(message, args)])%list.

Definition debug (setting : option string) (timestamp message : string)
    (args : list value) (s : Logger) : Logger :=
  logAt setting timestamp "DEBUG" DEBUG message args s.

(** A call of one of the four methods. *)
Record Call := mkCall {
  c_level : LogLevel;
  c_setting : option string;
  c_timestamp : string;
  c_message : string;
  c_args : list value
}.

Definition call (s : Logger) (c : Call) : Logger :=
  match c_level c with
  | ERROR => error (c_setting c) (c_timestamp c) (c_message c) (c_args c) s
  | WARN => warn (c_setting c) (c_timestamp c) (c_message c) (c_args c) s
  | INFO => info (c_setting c) (c_timestamp c) (c_message c) (c_args c) s
  | DEBUG => debug (c_setting c) (c_timestamp c) (c_message c) (c_args c) s
  end.

Definition levelName (l : LogLevel) : string :=
  match l with
  | ERROR => "ERROR" | WARN => "WARN" | INFO => "INFO" | DEBUG => "DEBUG"
  end.

(** The threshold a setting stands for. *)
Definition levelOf (setting : option string) : LogLevel :=
  logLevel (setLogLevel (default "error" setting) fresh).

(** What a call adds to the channel under a threshold. *)
Definition written (threshold : LogLevel) (c : Call) : list string :=
  if (levelValue (c_level c) <=? levelValue threshold)%nat then
    log (c_timestamp c) (levelName (c_level c)) (c_message c) (c_args c)
  else [].

Definition isError (c : Call) : bool :=
  match c_level c with ERROR => true | _ => false end.

Definition lines (s : Logger) : list string := default [] (outputChannel s).

(** *** Runs that differ in secret values only *)

(** Two values agree up to secrets when they are equal except below
    properties whose key [sanitize] recognises. *)
Fixpoint agree (v1 v2 : value) {struct v1} : Prop :=
  match v1, v2 with
  | Arr items1, Arr items2 =>
      (fix elements (l1 l2 : list value) : Prop :=
         match l1, l2 with
         | [], [] => True
         | x1 :: r1, x2 :: r2 => agree x1 x2 /\ elements r1 r2
         | _, _ => False
         end) items1 items2
  | Obj fields1, Obj fields2 =>
      (fix members (l1 l2 : list (string * value)) : Prop :=
         match l1, l2 with
         | [], [] => True
         | (k1, x1) :: r1, (k2, x2) :: r2 =>
             k1 = k2 /\ (sensitive k1 = true \/ agree x1 x2) /\ members r1 r2
         | _, _ => False
         end) fields1 fields2
  | _, _ => v1 = v2
  end.

(** Every property with a sensitive key holds the redaction marker. *)
Fixpoint clean (v : value) : Prop :=
  match v with
  | Arr items =>
      (fix elements (l : list value) : Prop :=
         match l with
         | [] => True
         | x :: r => clean x /\ elements r
         end) items
  | Obj fields =>
      (fix members (l : list (string * value)) : Prop :=
         match l with
         | [] => True
         | (k, x) :: r =>
             (sensitive k = true -> x = Str REDACTED) /\ clean x /\ members r
         end) fields
  | _ => True
  end.

(** Induction on values, with the hypothesis available for the items of
    an array and the members of an object. *)
Lemma value_induction (P : value -> Prop) :
  P Undefined -> P Null -> (forall b, P (Bool b)) -> (forall z, P (Num z)) ->
  (forall s, P (Str s)) ->
  (forall items, Forall P items -> P (Arr items)) ->
  (forall fields, Forall (fun e => P (snd e)) fields -> P (Obj fields)) ->
  forall v, P v.
Proof.
  intros HU HN HB HZ HS HA HO.
  fix IH 1. intros [| |b|z|s|items|fields].
  - exact HU.
  - exact HN.
  - apply HB.
  - apply HZ.
  - apply HS.
  - apply HA. induction items as [|x items IHitems]; constructor;
      [apply IH|exact IHitems].
  - apply HO. induction fields as [|[k x] fields IHfields]; constructor;
      [apply IH|exact IHfields].
Qed.

Lemma redact_sensitive key v : sensitive key = true -> redact key v = Str REDACTED.
Proof. intros H. destruct v; simpl; by rewrite H. Qed.

(** [redact] is the replacer followed by the walk into what it returns. *)
Lemma redact_sanitize key v :
  redact key v
  = match sanitize key v with
    | Arr items =>
        Arr ((fix elements (i : nat) (l : list value) : list value :=
                match l with
                | [] => []
                | x :: l' => redact (Js.natToString i) x :: elements (S i) l'
                end) 0%nat items)
    | Obj fields =>
        Obj ((fix members (l : list (string * value)) : list (string * value) :=
                match l with
                | [] => []
                | (k, x) :: l' => (k, redact k x) :: members l'
                end) fields)
    | w => w
    end.
Proof.
  unfold sanitize. destruct (sensitive key) eqn:E.
  - by apply redact_sensitive.
  - destruct v; simpl; by rewrite E.
Qed.

Lemma redact_agree v1 : forall v2 key, agree v1 v2 -> redact key v1 = redact key v2.
Proof.
  induction v1 as [| |b|z|s|items IH|fields IH] using value_induction;
    intros v2 key Hag.
  1-5: simpl in Hag; by subst v2.
  - destruct (sensitive key) eqn:E; [by rewrite !redact_sensitive|].
    destruct v2 as [| | | | |items2|]; simpl in Hag; try discriminate.
    simpl. rewrite E. f_equal. generalize 0%nat as i.
    revert items2 Hag. induction IH as [|x items Hx _ IHitems];
      intros [|x2 items2] Hag i; try done.
    destruct Hag as [H1 H2]. f_equal; [by apply Hx|by apply IHitems].
  - destruct (sensitive key) eqn:E; [by rewrite !redact_sensitive|].
    destruct v2 as [| | | | | |fields2]; simpl in Hag; try discriminate.
    simpl. rewrite E. f_equal.
    revert fields2 Hag. induction IH as [|[k x] fields Hx _ IHfields];
      intros [|[k2 x2] fields2] Hag; try done.
    destruct Hag as (-> & Hsec & Hrest). f_equal; [|by apply IHfields].
    f_equal. destruct Hsec as [Hs|Ha].
    + by rewrite !redact_sensitive.
    + by apply Hx.
Qed.

Lemma redact_clean v : forall key, clean (redact key v).
Proof.
  induction v as [| |b|z|s|items IH|fields IH] using value_induction;
    intros key; simpl; destruct (sensitive key) eqn:E; try done.
  - simpl. generalize 0%nat as i.
    induction IH as [|x items Hx _ IHitems]; intros i; [done|].
    split; [apply Hx|apply IHitems].
  - simpl. induction IH as [|[k x] fields Hx _ IHfields]; [done|].
    split; [apply redact_sensitive|]. split; [apply Hx|apply IHfields].
Qed.

(** C9. In what [log] serializes, every property whose key contains
    token, password or secret (in any letter case) holds the string
    ***REDACTED*** in place of its value; hence two argument lists that
    differ only in the values of such properties produce the same log
    lines. *)
Theorem secrets_stay_out_of_the_log (timestamp level message : string)
    (args1 args2 : list value) :
  agree (Arr args1) (Arr args2) ->
  log timestamp level message args1 = log timestamp level message args2 /\
  clean (redact "" (Arr args1)) /\
  (forall key v, sensitive key = true -> sanitize key v = Str REDACTED).
Proof.
  intros Hag. split; [|split].
  - unfold log, stringify. rewrite (redact_agree _ _ "" Hag).
    destruct args1, args2; simpl in Hag; try done.
  - apply redact_clean.
  - intros key v H. unfold sanitize. by rewrite H.
Qed.

(** Two runs that log a configuration with different credentials. *)
Lemma secrets_stay_out_witness :
  let run1 := [Obj [("apiUrl", Str "https://api.repogate.io");
                    ("apiToken", Str "first-token");
                    ("auth", Obj [("clientSecret", Num 1); ("user", Str "ada")])]] in
  let run2 := [Obj [("apiUrl", Str "https://api.repogate.io");
                    ("apiToken", Null);
                    ("auth", Obj [("clientSecret", Arr [Str "x"]);
                                  ("user", Str "ada")])]] in
  agree (Arr run1) (Arr run2) /\
  log "2025-11-16T10:00:00.000Z" "INFO" "config" run1
  = log "2025-11-16T10:00:00.000Z" "INFO" "config" run2.
Proof.
  cbv zeta.
  match goal with |- ?A /\ _ => assert (Hag : A) end.
  { vm_compute. repeat split; auto. right. repeat split; auto. }
  split; [exact Hag|].
  apply (secrets_stay_out_of_the_log "2025-11-16T10:00:00.000Z" "INFO" "config"
           _ _ Hag).
Defined.

(** What the output channel receives for the first of these runs. *)
Example redacted_output :
  stringify [Obj [("apiToken", Str "first-token"); ("user", Str "ada")]]
  = "[" ++ Js.nl ++ "  {" ++ Js.nl
    ++ "    " ++ quote "apiToken" ++ ": " ++ quote "***REDACTED***" ++ "," ++ Js.nl
    ++ "    " ++ quote "user" ++ ": " ++ quote "ada" ++ Js.nl
    ++ "  }" ++ Js.nl ++ "]".
Proof. vm_compute. reflexivity. Qed.

(** *** The threshold *)

Lemma call_initialized c ls l cs :
  call (mkLogger (Some ls) l cs) c
  = mkLogger (Some (ls ++ written l c)%list) l
      (cs ++ if isError c then [(c_message c, c_args c)] else [])%list.
Proof.
  unfold call, written, isError, error, warn, info, debug, logAt, appendLines.
  destruct (c_level c), l; simpl; by rewrite ?app_nil_r.
Qed.

Lemma calls_initialized calls : forall ls l cs,
  fold_left call calls (mkLogger (Some ls) l cs)
  = mkLogger (Some (ls ++ flat_map (written l) calls)%list) l
      (cs ++ map (fun c => (c_message c, c_args c)) (List.filter isError calls))%list.
Proof.
  induction calls as [|c calls IH]; intros ls l cs.
  - simpl. by rewrite !app_nil_r.
  - cbn [fold_left]. rewrite call_initialized, IH. cbn [flat_map List.filter].
    rewrite <- !app_assoc. by destruct (isError c).
Qed.

Lemma call_dropped c : c_level c <> ERROR -> call fresh c = fresh.
Proof. unfold call. by destruct (c_level c). Qed.

(** X19. The threshold is read once.  After [initialize], whatever the
    [logLevel] setting is at the time of the later calls, a call is
    written to the channel exactly when its level does not exceed the
    threshold of the setting read by [initialize], so errors are always
    written; every error is passed to the console as well, with its
    arguments as they are.  A logger that was never initialized drops
    every call below error without creating its channel. *)
Theorem log_level_is_read_once (setting : option string) (calls : list Call) :
  let s := fold_left call calls (initialize setting fresh) in
  lines s = flat_map (written (levelOf setting)) calls /\
  logLevel s = levelOf setting /\
  console s
  = map (fun c => (c_message c, c_args c)) (List.filter isError calls) /\
  (forall c, In c calls -> c_level c = ERROR ->
     written (levelOf setting) c
     = log (c_timestamp c) "ERROR" (c_message c) (c_args c)) /\
  (Forall (fun c => c_level c <> ERROR) calls -> fold_left call calls fresh = fresh).
Proof.
  cbv zeta.
  assert (Hi : initialize setting fresh = mkLogger (Some []) (levelOf setting) [])
    by reflexivity.
  rewrite Hi, calls_initialized. cbn [lines outputChannel logLevel console default].
  split; [done|]. split; [done|]. split; [done|]. split.
  - intros c _ Hc. unfold written. by rewrite Hc.
  - induction 1 as [|c l Hc _ IH]; [done|].
    cbn [fold_left]. by rewrite call_dropped.
Qed.

(** The setting says debug at every call, but [initialize] read warn. *)
Example later_settings_are_ignored :
  let s := fold_left call
             [mkCall DEBUG (Some "debug") "t1" "trace" [];
              mkCall WARN (Some "debug") "t2" "careful" [];
              mkCall ERROR (Some "debug") "t3" "broken" [Obj [("apiToken", Str "x")]]]
             (initialize (Some "Warn") fresh) in
  lines s = ["[t2] [WARN] careful"; "[t3] [ERROR] broken";
             stringify [Obj [("apiToken", Str "x")]]] /\
  console s = [("broken", [Obj [("apiToken", Str "x")]])].
Proof. vm_compute. auto. Qed.

End Logger.

(* ------------------------------------------------------------------ *)
(** ** services/heartbeatService.ts

    [client.heartbeat()] and the [authMode] of the configuration are not
    among the sources: the outcome of the call and the configuration the
    service reads are answers of the outside world, like the button
    picked in the modal warning. *)

Module Heartbeat.
Import Model.

Record Alert := mkAlert {
  a_title : string;
  a_message : string;
  a_packages : list string
}.

Record HeartbeatResponse := mkHeartbeatResponse {
  hb_status : string;
  hb_alert : option Alert
}.

(** What [sendHeartbeat] reads of the configuration. *)
Record Config := mkHeartbeatConfig {
  cfg_apiUrl : string;
  cfg_authMode : option string
}.

Record Env := mkEnv {
  getConfig : Promise (option Config);
  heartbeat : Promise (option HeartbeatResponse);
  action : option string
}.

Inductive Effect :=
  | HeartbeatRequest (apiUrl : string)
  | ModalWarning (title detail : string) (items : list string)
  | ExecuteCommand (command : string)
  | ShowWarning (message : string).

(** [timers] holds one entry per interval created, [true] while it was
    not cleared; [subscriptions] counts the disposables pushed;
    [starting] counts the calls of [start] that wait for their first
    heartbeat to be over. *)
Record State := mkState {
  interval : option nat;
  timers : list bool;
  isRunning : bool;
  notifiedPackages : gset string;
  subscriptions : nat;
  effects : list Effect;
  starting : nat
}.

Definition init : State := mkState None [] false ∅ 0 [] 0.

Definition HEARTBEAT_INTERVAL_MS : N := 60000.

Definition emit (e : Effect) (s : State) : State :=
  mkState (interval s) (timers s) (isRunning s) (notifiedPackages s)
          (subscriptions s) (effects s ++ [e]) (starting s).

(** [alert.packages.filter(pkg => !this.notifiedPackages.has(pkg))] *)
Definition newDeniedPackages (alert : Alert) (s : State) : list string :=
  List.filter (fun pkg => negb (bool_decide (pkg ∈ notifiedPackages s)))
              (a_packages alert).

Definition handleDeniedPackagesAlert (alert : Alert) (action : option string)
    (s : State) : State :=
  let newDenied := newDeniedPackages alert s in
  match newDenied with
  | [] => s
  | _ =>
      let s := mkState (interval s) (timers s) (isRunning s)
                       (list_to_set newDenied ∪ notifiedPackages s)
                       (subscriptions s) (effects s) (starting s) in
      let packageList :=
        Logger.join Js.nl (map (fun pkg => "â€¢ " ++ pkg) newDenied) in
      let fullMessage := a_message alert ++ Js.nl ++ Js.nl ++ packageList in
      let s := emit (ModalWarning (a_title alert) fullMessage
                       ["View Details"; "Dismiss"]) s in
      let s :=
        match action with
        | Some picked =>
            if String.eqb picked "View Details" then
              emit (ExecuteCommand "workbench.action.output.show") s
            else s
        | None => s
        end in
      emit (ShowWarning (a_title alert ++ ": "
                           ++ Js.natToString (length newDenied)
                           ++ " package(s) detected")) s
  end.

Definition handleHeartbeatResponse (response : HeartbeatResponse)
    (action : option string) (s : State) : State :=
  if String.eqb (hb_status response) "healthy" then s
  else if String.eqb (hb_status response) "warning" then
    match hb_alert response with
    | Some alert => handleDeniedPackagesAlert alert action s
    | None => s
    end
  else s.

Definition unauthenticated (config : Config) : bool :=
  match cfg_authMode config with
  | Some mode => String.eqb mode "UNAUTHENTICATED"
  | None => false
  end.

Definition sendHeartbeat (env : Env) (s : State) : State :=
  match getConfig env with
  | Resolved (Some config) =>
      if unauthenticated config then s
      else
        let s := emit (HeartbeatRequest (cfg_apiUrl config)) s in
        match heartbeat env with
        | Resolved (Some response) =>
            handleHeartbeatResponse response (action env) s
        | Resolved None => s
        | Rejected _ => s
        end
  | Resolved None => s
  | Rejected _ => s
  end.

(** [start] from its call to the end of [await this.sendHeartbeat()]:
    the flag is set and the first heartbeat is sent; no interval exists
    yet. *)
Definition start (env : Env) (s : State) : State :=
  if isRunning s then s
  else
    let s := mkState (interval s) (timers s) true (notifiedPackages s)
                     (subscriptions s) (effects s) (S (starting s)) in
    sendHeartbeat env s.

(** The rest of [start]: the interval is created and stored in
    [interval], over whatever handle is held there, and the disposable
    is pushed.  Nothing is tested before. *)
Definition start_resumed (s : State) : State :=
  match starting s with
  | O => s
  | S waiting =>
      mkState (Some (length (timers s))) (timers s ++ [true]) (isRunning s)
              (notifiedPackages s) (S (subscriptions s)) (effects s) waiting
  end.

Definition stop (s : State) : State :=
  mkState None
          (match interval s with
           | Some h => <[h := false]> (timers s)
           | None => timers s
           end)
          false (notifiedPackages s) (subscriptions s) (effects s) (starting s).

(** One firing of the interval with handle [h], if it was not cleared. *)
Definition tick (env : Env) (h : nat) (s : State) : State :=
  match timers s !! h with
  | Some true => sendHeartbeat env s
  | _ => s
  end.

Definition resetNotifications (s : State) : State :=
  mkState (interval s) (timers s) (isRunning s) ∅ (subscriptions s) (effects s)
          (starting s).

Definition isActive (s : State) : bool := isRunning s.

(** What can happen to the service; [Stop] is also what its disposable
    does. *)
Inductive Event :=
  | Start (env : Env)
  | StartResumed
  | Stop
  | Tick (env : Env) (h : nat).

Definition step (s : State) (e : Event) : State :=
  match e with
  | Start env => start env s
  | StartResumed => start_resumed s
  | Stop => stop s
  | Tick env h => tick env h s
  end.

Definition run (events : list Event) (s : State) : State :=
  fold_left step events s.

(** The effects the user sees. *)
Definition isWindow (e : Effect) : bool :=
  match e with
  | HeartbeatRequest _ => false
  | _ => true
  end.

Definition windows (s : State) : list Effect := List.filter isWindow (effects s).

(** The handles of the intervals that were not cleared. *)
Definition liveHandle (s : State) (h : nat) : Prop := timers s !! h = Some true.

(** *** Alerts *)

Lemma newDeniedPackages_elem alert s p :
  p ∈ newDeniedPackages alert s <-> p ∈ a_packages alert /\ p ∉ notifiedPackages s.
Proof.
  unfold newDeniedPackages. rewrite !list_elem_of_In, List.filter_In.
  rewrite negb_true_iff, bool_decide_eq_false. reflexivity.
Qed.

Lemma handleDeniedPackagesAlert_notified alert action s p :
  p ∈ notifiedPackages (handleDeniedPackagesAlert alert action s)
  <-> p ∈ notifiedPackages s \/ p ∈ a_packages alert.
Proof.
  unfold handleDeniedPackagesAlert.
  pose proof (newDeniedPackages_elem alert s p) as Hn.
  destruct (newDeniedPackages alert s) as [|x l] eqn:E.
  - split; [auto|]. intros [?|Hp]; [done|].
    destruct (decide (p ∈ notifiedPackages s)) as [?|Hnot]; [done|].
    assert (Hin : p ∈ @nil string) by (apply Hn; auto).
    by apply elem_of_nil in Hin.
  - assert (Hs : forall t picked,
              notifiedPackages
                (match picked with
                 | Some picked0 =>
                     if String.eqb picked0 "View Details" then
                       emit (ExecuteCommand "workbench.action.output.show") t
                     else t
                 | None => t
                 end) = notifiedPackages t).
    { intros t [picked|]; [|done]. by destruct (String.eqb picked _). }
    cbn [emit notifiedPackages]. rewrite Hs. cbn [emit notifiedPackages].
    rewrite elem_of_union, elem_of_list_to_set, Hn.
    destruct (decide (p ∈ notifiedPackages s)); tauto.
Qed.

Lemma sendHeartbeat_notified env s p :
  p ∈ notifiedPackages s -> p ∈ notifiedPackages (sendHeartbeat env s).
Proof.
  intros Hp. unfold sendHeartbeat.
  destruct (getConfig env) as [[config|]|]; [|done|done].
  destruct (unauthenticated config); [done|].
  destruct (heartbeat env) as [[response|]|]; [|done|done].
  unfold handleHeartbeatResponse.
  destruct (String.eqb (hb_status response) "healthy"); [done|].
  destruct (String.eqb (hb_status response) "warning"); [|done].
  destruct (hb_alert response) as [alert|]; [|done].
  apply handleDeniedPackagesAlert_notified. by left.
Qed.

Lemma step_notified s e p :
  p ∈ notifiedPackages s -> p ∈ notifiedPackages (step s e).
Proof.
  intros Hp. destruct e as [env| | |env h]; simpl.
  - unfold start. destruct (isRunning s); [done|]. simpl.
    by apply (sendHeartbeat_notified env (mkState _ _ _ _ _ _ _)).
  - unfold start_resumed. by destruct (starting s).
  - exact Hp.
  - unfold tick. destruct (timers s !! h) as [[|]|]; [|done|done].
    by apply sendHeartbeat_notified.
Qed.

Lemma run_notified events : forall s p,
  p ∈ notifiedPackages s -> p ∈ notifiedPackages (run events s).
Proof.
  induction events as [|e events IH]; intros s p Hp; [done|].
  apply IH. by apply step_notified.
Qed.

(** X20. A denied package is announced once.  After an alert was
    handled, each of its packages is remembered, whatever starts, stops
    and heartbeats follow; no later alert counts such a package as new,
    and an alert that names only packages of the earlier one opens
    nothing and changes nothing.  Only [resetNotifications] forgets. *)
Theorem denied_packages_are_announced_once (alert : Alert)
    (picked : option string) (s : State) (events : list Event)
    (later : Alert) (picked' : option string) :
  let s1 := handleDeniedPackagesAlert alert picked s in
  let s2 := run events s1 in
  (forall p, p ∈ a_packages alert ->
     p ∈ notifiedPackages s2 /\ p ∉ newDeniedPackages later s2) /\
  ((forall p, p ∈ a_packages later -> p ∈ a_packages alert) ->
   handleDeniedPackagesAlert later picked' s2 = s2) /\
  notifiedPackages (resetNotifications s2) = ∅.
Proof.
  cbv zeta.
  assert (Hkept : forall p, p ∈ a_packages alert ->
            p ∈ notifiedPackages
                  (run events (handleDeniedPackagesAlert alert picked s))).
  { intros p Hp. apply run_notified, handleDeniedPackagesAlert_notified.
    by right. }
  set (s2 := run events (handleDeniedPackagesAlert alert picked s)) in *.
  split; [|split; [|done]].
  - intros p Hp. split; [by apply Hkept|].
    rewrite newDeniedPackages_elem. intros [_ Hnot]. by apply Hnot, Hkept.
  - intros Hsub. unfold handleDeniedPackagesAlert.
    destruct (newDeniedPackages later s2) as [|x l] eqn:E; [done|].
    assert (Hx : x ∈ newDeniedPackages later s2)
      by (rewrite E; apply list_elem_of_here).
    apply newDeniedPackages_elem in Hx as [Hx Hnot].
    destruct Hnot. by apply Hkept, Hsub.
Qed.

(** *** Silence *)

Lemma windows_emit e s :
  windows (emit e s) = (windows s ++ if isWindow e then [e] else [])%list.
Proof.
  unfold windows, emit. cbn [effects]. rewrite List.filter_app. cbn [List.filter].
  by destruct (isWindow e).
Qed.

(** X21. A heartbeat opens a window only when the server answers with
    the status warning and an alert that names a package not announced
    before.  In every other case (no configuration, a failing call, no
    response, another status, no alert, nothing new) the user sees
    nothing and the set of announced packages stays as it is. *)
Theorem heartbeat_speaks_only_on_new_denials (env : Env) (s : State) :
  windows (sendHeartbeat env s) <> windows s \/
  notifiedPackages (sendHeartbeat env s) <> notifiedPackages s ->
  exists config response alert,
    getConfig env = Resolved (Some config) /\
    heartbeat env = Resolved (Some response) /\
    hb_status response = "warning" /\
    hb_alert response = Some alert /\
    newDeniedPackages alert s <> [].
Proof.
  unfold sendHeartbeat.
  destruct (getConfig env) as [[config|]|]; [|intros [?|?]; done..].
  destruct (unauthenticated config); [intros [?|?]; done|].
  destruct (heartbeat env) as [[response|]|].
  - unfold handleHeartbeatResponse.
    destruct (String.eqb_spec (hb_status response) "healthy") as [|_].
    { rewrite windows_emit, app_nil_r. intros [?|?]; done. }
    destruct (String.eqb_spec (hb_status response) "warning") as [Hw|_].
    2:{ rewrite windows_emit, app_nil_r. intros [?|?]; done. }
    destruct (hb_alert response) as [alert|] eqn:Ea.
    2:{ rewrite windows_emit, app_nil_r. intros [?|?]; done. }
    intros Hch. exists config, response, alert.
    repeat (split; [done|]).
    intros Hnil. unfold handleDeniedPackagesAlert in Hch.
    change (newDeniedPackages alert (emit (HeartbeatRequest (cfg_apiUrl config)) s))
      with (newDeniedPackages alert s) in Hch.
    rewrite Hnil in Hch. rewrite windows_emit, app_nil_r in Hch.
    destruct Hch as [?|?]; done.
  - rewrite windows_emit, app_nil_r. intros [?|?]; done.
  - rewrite windows_emit, app_nil_r. intros [?|?]; done.
Qed.

(** *** The interval *)

Lemma sendHeartbeat_frame env s :
  interval (sendHeartbeat env s) = interval s /\
  timers (sendHeartbeat env s) = timers s /\
  isRunning (sendHeartbeat env s) = isRunning s /\
  subscriptions (sendHeartbeat env s) = subscriptions s /\
  starting (sendHeartbeat env s) = starting s.
Proof.
  unfold sendHeartbeat.
  destruct (getConfig env) as [[config|]|]; [|done|done].
  destruct (unauthenticated config); [done|].
  destruct (heartbeat env) as [[response|]|]; [|done|done].
  unfold handleHeartbeatResponse.
  destruct (String.eqb (hb_status response) "healthy"); [done|].
  destruct (String.eqb (hb_status response) "warning"); [|done].
  destruct (hb_alert response) as [alert|]; [|done].
  unfold handleDeniedPackagesAlert.
  destruct (newDeniedPackages alert _); [done|].
  destruct (action env) as [picked|]; [|done].
  by destruct (String.eqb picked "View Details").
Qed.

Lemma start_spec env s :
  isRunning s = false ->
  let s1 := start env s in
  isRunning s1 = true /\ interval s1 = interval s /\ timers s1 = timers s /\
  subscriptions s1 = subscriptions s /\ starting s1 = S (starting s).
Proof.
  intros Hr. cbv zeta. unfold start. rewrite Hr.
  match goal with |- context [sendHeartbeat env ?t] => set (s0 := t) end.
  destruct (sendHeartbeat_frame env s0) as (-> & -> & -> & -> & ->). done.
Qed.

Lemma start_resumed_spec s waiting :
  starting s = S waiting ->
  let s' := start_resumed s in
  let h := length (timers s) in
  interval s' = Some h /\ liveHandle s' h /\
  (forall h', h' <> h -> timers s' !! h' = timers s !! h') /\
  isRunning s' = isRunning s /\ subscriptions s' = S (subscriptions s) /\
  starting s' = waiting.
Proof.
  intros Hs. cbv zeta. unfold start_resumed, liveHandle. rewrite Hs.
  cbn [interval timers isRunning subscriptions starting].
  split; [done|]. split; [by rewrite list_lookup_middle|].
  split; [|done]. intros h' Hne.
  destruct (decide (h' < length (timers s))) as [Hlt|Hge].
  - by rewrite lookup_app_l.
  - rewrite !lookup_ge_None_2; [done|lia|]. rewrite length_app. simpl. lia.
Qed.

Lemma stop_spec s :
  let s' := stop s in
  isRunning s' = false /\ interval s' = None /\ starting s' = starting s /\
  (forall h, interval s = Some h -> ~ liveHandle s' h) /\
  (forall h, interval s <> Some h -> timers s' !! h = timers s !! h).
Proof.
  cbv zeta. unfold stop, liveHandle. cbn [interval timers isRunning starting].
  split; [done|]. split; [done|]. split; [done|]. split.
  - intros h ->. destruct (decide (h < length (timers s))) as [Hlt|Hge].
    + by rewrite list_lookup_insert_eq.
    + rewrite lookup_ge_None_2; [done|]. rewrite length_insert. lia.
  - intros h Hne. destruct (interval s) as [h0|]; [|done].
    rewrite list_lookup_insert_ne; [done|]. congruence.
Qed.

(** X22. A start while the service runs does nothing.  A start of a
    stopped service sets the running flag and sends the first heartbeat
    before any interval exists; the interval is created when [start]
    resumes after that heartbeat.  It is created then whether or not the
    service still runs, under a fresh handle that is stored over the
    one held before, which is not cleared.  [stop] clears the interval
    stored at that moment and no other.  So a stop that comes while
    [start] waits clears nothing: once [start] has resumed the service
    is stopped and holds a live interval, whose firings go on sending
    heartbeats. *)
Theorem heartbeat_interval_is_created_late (env : Env) (s : State) :
  (isRunning s = true -> start env s = s) /\
  (isRunning s = false ->
   let s1 := start env s in
   isRunning s1 = true /\ interval s1 = interval s /\ timers s1 = timers s /\
   starting s1 = S (starting s)) /\
  (forall waiting, starting s = S waiting ->
   let s' := start_resumed s in
   let h := length (timers s) in
   interval s' = Some h /\ liveHandle s' h /\ isRunning s' = isRunning s /\
   (forall h', liveHandle s h' -> liveHandle s' h')) /\
  (let s' := stop s in
   isRunning s' = false /\ interval s' = None /\ starting s' = starting s /\
   (forall h, interval s = Some h -> ~ liveHandle s' h) /\
   (forall h, interval s <> Some h -> (liveHandle s' h <-> liveHandle s h))) /\
  (isRunning s = false ->
   let s' := run [Start env; Stop; StartResumed] s in
   let h := length (timers s) in
   isRunning s' = false /\ interval s' = Some h /\ liveHandle s' h /\
   forall env', tick env' h s' = sendHeartbeat env' s').
Proof.
  split; [|split; [|split; [|split]]].
  - intros Hr. unfold start. by rewrite Hr.
  - intros Hr. destruct (start_spec env s Hr) as (H1 & H2 & H3 & _ & H5). auto.
  - intros waiting Hs. cbv zeta.
    destruct (start_resumed_spec s waiting Hs) as (H1 & H2 & H3 & H4 & _).
    split; [exact H1|]. split; [exact H2|]. split; [exact H4|].
    intros h' Hl. unfold liveHandle in *. rewrite H3; [done|].
    apply lookup_lt_Some in Hl. lia.
  - cbv zeta. destruct (stop_spec s) as (H1 & H2 & H3 & H4 & H5).
    split; [exact H1|]. split; [exact H2|]. split; [exact H3|].
    split; [exact H4|]. intros h Hne. unfold liveHandle. by rewrite H5.
  - intros Hr. cbv zeta. unfold run. cbn [fold_left step].
    destruct (start_spec env s Hr) as (_ & _ & Ht1 & _ & Hs1). cbv zeta in Ht1, Hs1.
    destruct (stop_spec (start env s)) as (Hr2 & _ & Hs2 & _ & _).
    cbv zeta in Hr2, Hs2. rewrite Hs1 in Hs2.
    assert (Hlen : length (timers (stop (start env s))) = length (timers s)).
    { unfold stop. cbn [timers]. rewrite <- Ht1.
      destruct (interval (start env s)); [apply length_insert|done]. }
    destruct (start_resumed_spec (stop (start env s)) _ Hs2)
      as (H1 & H2 & _ & H4 & _). cbv zeta in H1, H2, H4. rewrite Hlen in H1, H2.
    split; [by rewrite H4|]. split; [exact H1|]. split; [exact H2|].
    intros env'. unfold tick. unfold liveHandle in H2. by rewrite H2.
Qed.

End Heartbeat.


(** *** Heartbeats of a workspace with a denied package *)

Module HeartbeatScenarios.
Import Model Heartbeat.

Definition denied_alert : Alert :=
  mkAlert "Denied packages" "These packages are denied:" ["left-pad"; "event-stream"].

Definition warning : Env :=
  mkEnv (Resolved (Some (mkHeartbeatConfig "https://api.repogate.io/api/v1" None)))
        (Resolved (Some (mkHeartbeatResponse "warning" (Some denied_alert))))
        (Some "Dismiss").

Definition down : Env :=
  mkEnv (Resolved (Some (mkHeartbeatConfig "https://api.repogate.io/api/v1" None)))
        (Rejected "connect ECONNREFUSED") None.

(** The first heartbeat announces both packages; the next two, one of
    them failing, announce nothing. *)
Example second_alert_is_not_shown :
  let s1 := run [Start warning; StartResumed] init in
  let s2 := run [Tick down 0; Tick warning 0] s1 in
  length (windows s1) = 2 /\ windows s2 = windows s1 /\
  length (effects s2) = 5.
Proof. vm_compute. auto. Qed.

(** The theorem on silent heartbeats, on the first heartbeat. *)
Lemma heartbeat_speaks_witness :
  windows (sendHeartbeat warning init) <> windows init /\
  newDeniedPackages denied_alert init = ["left-pad"; "event-stream"].
Proof.
  assert (Hw : windows (sendHeartbeat warning init) <> windows init)
    by (vm_compute; discriminate).
  destruct (heartbeat_speaks_only_on_new_denials warning init (or_introl Hw))
    as (config & response & alert & _ & Hr & _ & Ha & _).
  split; [exact Hw|]. vm_compute. reflexivity.
Defined.

(** The theorem on the interval, for a service that is stopped while
    its first heartbeat is under way. *)
Lemma heartbeat_interval_witness :
  let s := run [Start down; Stop; StartResumed] init in
  isRunning init = false /\
  isRunning s = false /\ interval s = Some 0 /\ timers s = [true] /\
  effects (tick down 0 s) = (effects s ++ [HeartbeatRequest
                                             "https://api.repogate.io/api/v1"])%list.
Proof.
  cbv zeta.
  destruct (heartbeat_interval_is_created_late down init)
    as (_ & _ & _ & _ & Hlate).
  destruct (Hlate eq_refl) as (Hr & Hi & _ & Ht).
  split; [reflexivity|]. split; [exact Hr|]. split; [exact Hi|].
  split; [vm_compute; reflexivity|]. rewrite Ht. vm_compute. reflexivity.
Defined.

End HeartbeatScenarios.

(* ------------------------------------------------------------------ *)
(** ** services/DiagnosticsManager.ts

    The manager marks the dependencies of an open document twice: with
    diagnostics and with editor decorations, computed by two loops over
    the same map.  The documents and the visible editors are those of
    the host; the length of a line is its length as a [string]. *)

Module Editor.
Import Model.

Inductive DiagnosticSeverity := Error | Warning | Information | Hint.

#[global] Instance DiagnosticSeverity_eq_dec : EqDecision DiagnosticSeverity.
Proof. solve_decision. Defined.

Record Range := mkRange {
  startLine : nat;
  startCharacter : nat;
  endLine : nat;
  endCharacter : nat
}.

Record Diagnostic := mkDiagnostic {
  range : Range;
  message : string;
  severity : DiagnosticSeverity;
  source : string
}.

Record TextDocument := mkDocument {
  uri : string;
  fileName : string;
  getText : string
}.

(** [vscode.workspace.textDocuments] and the documents of
    [vscode.window.visibleTextEditors]. *)
Record Host := mkHost {
  textDocuments : list TextDocument;
  visibleTextEditors : list TextDocument
}.

(** The ranges an editor shows in the approved, the denied and the
    pending decoration type. *)
Record Decorations := mkDecorations {
  approvedRanges : list Range;
  deniedRanges : list Range;
  pendingRanges : list Range
}.

Record State := mkState {
  diagnosticCollection : gmap string (list Diagnostic);
  decorations : gmap string Decorations
}.

(** [s.split(sep)] for a separator of one character. *)
Fixpoint split (sep : ascii) (s : string) : list string :=
  match s with
  | EmptyString => [""]
  | String c s' =>
      if Ascii.eqb c sep then "" :: split sep s'
      else match split sep s' with
           | p :: ps => String c p :: ps
           | [] => [String c ""]
           end
  end.

(** [fileName.split('/').pop() || ''] *)
Definition baseNameOf (fileName : string) : string :=
  default "" (last (split "/" fileName)).

(** [parts.length > 1 ? parts[1] : packageName] *)
Definition artifactIdOf (packageName : string) : string :=
  match split ":" packageName with
  | _ :: artifactId :: _ => artifactId
  | _ => packageName
  end.

(** The line a dependency is shown on, [None] standing for [-1]. *)
Definition findDependencyLine (lines : list string) (packageName fileName : string)
    : option nat :=
  let baseName := baseNameOf fileName in
  if String.eqb baseName "package.json" then
    Js.findIndex
      (fun line => Js.includes line (Scenarios.dq ++ packageName ++ Scenarios.dq ++ ":"))
      lines
  else if String.eqb baseName "pom.xml" then
    Js.findIndex
      (fun line =>
         Js.includes line
           ("<artifactId>" ++ artifactIdOf packageName ++ "</artifactId>"))
      lines
  else if String.prefix "build.gradle" baseName then
    Js.findIndex
      (fun line =>
         Js.includes line packageName
         && (Js.includes line "implementation" || Js.includes line "api"
             || Js.includes line "compile"))
      lines
  else None.

(** [new vscode.Range(lineIndex, 0, lineIndex, line.length)] *)
Definition lineRange (lines : list string) (lineIndex : nat) : Range :=
  mkRange lineIndex 0 lineIndex (String.length (nth lineIndex lines "")).

(** The [switch] of [updateDiagnostics]; its [default] skips the
    dependency. *)
Definition diagnosticFor (packageName : string) (depInfo : DependencyInfo)
    (r : Range) : option Diagnostic :=
  match status depInfo with
  | APPROVED =>
      Some (mkDiagnostic r
              ("✓ RepoGate: Package '" ++ packageName ++ "' is APPROVED")
              Information "RepoGate")
  | DENIED =>
      Some (mkDiagnostic r
              ("✗ RepoGate: Package '" ++ packageName
                 ++ "' is DENIED - Do not use in production")
              Error "RepoGate")
  | PENDING =>
      Some (mkDiagnostic r
              ("⏳ RepoGate: Package '" ++ packageName ++ "' is pending approval")
              Warning "RepoGate")
  | _ => None
  end.

(** The loop of [updateDiagnostics]. *)
Definition diagnosticsOf (document : TextDocument)
    (dependencies : Js.Map DependencyInfo) : list Diagnostic :=
  let lines := split "010" (getText document) in
  omap (fun entry : string * DependencyInfo =>
          match findDependencyLine lines (fst entry) (fileName document) with
          | Some lineIndex =>
              diagnosticFor (fst entry) (snd entry) (lineRange lines lineIndex)
          | None => None
          end)
       dependencies.

(** The loop of [updateDecorations], for one of the three lists. *)
Definition rangesOf (wanted : ApprovalStatus) (document : TextDocument)
    (dependencies : Js.Map DependencyInfo) : list Range :=
  let lines := split "010" (getText document) in
  omap (fun entry : string * DependencyInfo =>
          match findDependencyLine lines (fst entry) (fileName document) with
          | Some lineIndex =>
              if decide (status (snd entry) = wanted)
              then Some (lineRange lines lineIndex) else None
          | None => None
          end)
       dependencies.

Definition updateDecorations (host : Host) (document : TextDocument)
    (dependencies : Js.Map DependencyInfo) (s : State) : State :=
  match List.find (fun e => String.eqb (uri e) (uri document))
                  (visibleTextEditors host) with
  | None => s
  | Some editor =>
      mkState (diagnosticCollection s)
              (<[uri editor :=
                   mkDecorations (rangesOf APPROVED document dependencies)
                                 (rangesOf DENIED document dependencies)
                                 (rangesOf PENDING document dependencies)]>
                 (decorations s))
  end.

Definition updateDiagnostics (host : Host) (u : string)
    (dependencies : Js.Map DependencyInfo) (s : State) : State :=
  match List.find (fun doc => String.eqb (uri doc) u) (textDocuments host) with
  | None => s
  | Some document =>
      let s := mkState (<[u := diagnosticsOf document dependencies]>
                          (diagnosticCollection s))
                       (decorations s) in
      updateDecorations host document dependencies s
  end.

Definition clear (u : string) (s : State) : State :=
  mkState (delete u (diagnosticCollection s)) (decorations s).

(** The ranges of the diagnostics of one severity. *)
Definition rangesWith (sev : DiagnosticSeverity) (ds : list Diagnostic)
    : list Range :=
  range <$> List.filter (fun d => bool_decide (severity d = sev)) ds.

(** An entry of the map that [updateDiagnostics] reports. *)
Definition reported (document : TextDocument) (entry : string * DependencyInfo)
    (d : Diagnostic) : Prop :=
  let lines := split "010" (getText document) in
  exists lineIndex,
    findDependencyLine lines (fst entry) (fileName document) = Some lineIndex /\
    lineIndex < length lines /\
    range d = lineRange lines lineIndex /\
    (status (snd entry) = APPROVED /\ severity d = Information \/
     status (snd entry) = DENIED /\ severity d = Error \/
     status (snd entry) = PENDING /\ severity d = Warning).

(** *** Diagnostics and decorations *)

Lemma findDependencyLine_lt lines packageName fileName0 i :
  findDependencyLine lines packageName fileName0 = Some i -> i < length lines.
Proof.
  unfold findDependencyLine. intros H.
  assert (Hf : forall p, Js.findIndex p lines = Some i -> i < length lines).
  { intros p Hp. apply Diagnostics.findIndex_Some in Hp as (x & Hx & _).
    by eapply lookup_lt_Some. }
  destruct (String.eqb _ "package.json"); [by eapply Hf|].
  destruct (String.eqb _ "pom.xml"); [by eapply Hf|].
  destruct (String.prefix _ _); [by eapply Hf|done].
Qed.

Lemma rangesOf_diagnosticsOf document dependencies :
  rangesOf APPROVED document dependencies
  = rangesWith Information (diagnosticsOf document dependencies) /\
  rangesOf DENIED document dependencies
  = rangesWith Error (diagnosticsOf document dependencies) /\
  rangesOf PENDING document dependencies
  = rangesWith Warning (diagnosticsOf document dependencies).
Proof.
  unfold rangesOf, diagnosticsOf, rangesWith. cbv zeta.
  induction dependencies as [|[n d] l (IH1 & IH2 & IH3)]; [done|].
  cbn [omap list_omap fst snd].
  destruct (findDependencyLine _ n _) as [i|]; [|done].
  unfold diagnosticFor.
  destruct (status d); cbn; rewrite ?IH1, ?IH2, ?IH3; done.
Qed.

Lemma diagnosticsOf_reported document dependencies d :
  d ∈ diagnosticsOf document dependencies ->
  exists entry, entry ∈ dependencies /\ reported document entry d.
Proof.
  unfold diagnosticsOf. cbv zeta. intros Hd.
  apply list_elem_of_omap in Hd as ([n dep] & Hin & Hd).
  exists (n, dep). split; [done|]. cbn [fst snd] in Hd.
  destruct (findDependencyLine _ n _) as [i|] eqn:Ei; [|done].
  exists i. cbn [fst snd]. split; [done|].
  split; [by eapply findDependencyLine_lt|].
  unfold diagnosticFor in Hd.
  destruct (status dep); try discriminate; injection Hd as <-; simpl; auto.
Qed.

Lemma diagnosticsOf_others document dependencies :
  Forall (fun entry => status (snd entry) <> APPROVED /\
                       status (snd entry) <> DENIED /\
                       status (snd entry) <> PENDING) dependencies ->
  diagnosticsOf document dependencies = [].
Proof.
  intros Hall. unfold diagnosticsOf. cbv zeta.
  induction Hall as [|[n dep] l (Ha & Hd & Hp) _ IH]; [done|].
  cbn [omap list_omap fst snd] in *.
  destruct (findDependencyLine _ n _); [|exact IH].
  unfold diagnosticFor. destruct (status dep); try done; exact IH.
Qed.

(** X23. The decorations of an editor are the ranges of the
    diagnostics of its document: approved ranges for the diagnostics of
    severity information, denied ranges for the errors, pending ranges for
    the warnings, in the same order.  Every diagnostic belongs to a
    dependency that is approved, denied or pending and spans the first
    line found for it; a dependency in any other status (scanning, not
    found, error) gets neither a diagnostic nor a decoration. *)
Theorem decorations_match_diagnostics (host : Host) (u : string)
    (dependencies : Js.Map DependencyInfo) (s : State)
    (document editor : TextDocument) :
  List.find (fun doc => String.eqb (uri doc) u) (textDocuments host)
  = Some document ->
  List.find (fun e => String.eqb (uri e) (uri document)) (visibleTextEditors host)
  = Some editor ->
  let s' := updateDiagnostics host u dependencies s in
  exists ds,
    diagnosticCollection s' !! u = Some ds /\
    decorations s' !! u
    = Some (mkDecorations (rangesWith Information ds) (rangesWith Error ds)
                          (rangesWith Warning ds)) /\
    (forall d, d ∈ ds ->
       exists entry, entry ∈ dependencies /\ reported document entry d) /\
    (Forall (fun entry => status (snd entry) <> APPROVED /\
                          status (snd entry) <> DENIED /\
                          status (snd entry) <> PENDING) dependencies ->
     ds = []).
Proof.
  intros Hdoc Hed. cbv zeta. unfold updateDiagnostics. rewrite Hdoc.
  unfold updateDecorations. rewrite Hed. cbn [diagnosticCollection decorations].
  assert (Hu : uri editor = u).
  { apply List.find_some in Hed as [_ He]. apply List.find_some in Hdoc as [_ Hd].
    apply String.eqb_eq in He, Hd. congruence. }
  exists (diagnosticsOf document dependencies).
  split; [apply lookup_insert_eq|].
  destruct (rangesOf_diagnosticsOf document dependencies) as (R1 & R2 & R3).
  split; [by rewrite Hu, lookup_insert_eq, R1, R2, R3|].
  split; [intros d; apply diagnosticsOf_reported|apply diagnosticsOf_others].
Qed.

(** *** Lines of a pom.xml *)

Lemma split_cons sep c s :
  split sep (String c s)
  = if Ascii.eqb c sep then "" :: split sep s
    else match split sep s with
         | p :: ps => String c p :: ps
         | [] => [String c ""]
         end.
Proof. reflexivity. Qed.

Lemma includes_char_cons c sep g :
  Js.includes (String c g) (String sep "") = false ->
  Ascii.eqb c sep = false /\ Js.includes g (String sep "") = false.
Proof.
  cbn [Js.includes String.prefix]. intros Hg.
  destruct (Ascii.ascii_dec sep c) as [->|Hne].
  - destruct g; discriminate.
  - split; [|exact Hg]. apply Ascii.eqb_neq. congruence.
Qed.

Lemma split_prefix sep (g rest : string) :
  Js.includes g (String sep "") = false ->
  split sep (g ++ String sep rest) = g :: split sep rest.
Proof.
  induction g as [|c g IH]; intros Hg.
  - simpl. by rewrite Ascii.eqb_refl.
  - change (String c g ++ String sep rest) with (String c (g ++ String sep rest)).
    rewrite split_cons.
    apply includes_char_cons in Hg as [Hc Hg]. by rewrite Hc, IH.
Qed.

Lemma split_none sep (a : string) :
  Js.includes a (String sep "") = false -> split sep a = [a].
Proof.
  induction a as [|c a IH]; intros Ha; [done|].
  rewrite split_cons. apply includes_char_cons in Ha as [Hc Ha].
  by rewrite Hc, IH.
Qed.

Lemma baseNameOf_pom directory : baseNameOf (directory ++ "/pom.xml") = "pom.xml".
Proof.
  unfold baseNameOf.
  assert (H : exists p q ps, split "/" (directory ++ "/pom.xml") = p :: q :: ps /\
                             last (q :: ps) = Some "pom.xml").
  { induction directory as [|c d (p & q & ps & Hs & Hl)].
    - by exists "", "pom.xml", [].
    - change (String c d ++ "/pom.xml") with (String c (d ++ "/pom.xml")).
      rewrite split_cons, Hs. destruct (Ascii.eqb c "/").
      + exists "", p, (q :: ps). split; [done|]. exact Hl.
      + exists (String c p), q, ps. by split. }
  destruct H as (p & q & ps & -> & Hl).
  change (last (p :: q :: ps)) with (last (q :: ps)). by rewrite Hl.
Qed.

(** X24. In a pom.xml a dependency is looked up by its artifact id
    alone: two coordinates that differ only in the group are shown on the
    same line, the first one that holds an [artifactId] element with that
    id. *)
Theorem pom_lines_ignore_the_group (lines : list string)
    (group1 group2 artifact directory : string) :
  Js.includes group1 ":" = false -> Js.includes group2 ":" = false ->
  Js.includes artifact ":" = false ->
  findDependencyLine lines (group1 ++ ":" ++ artifact) (directory ++ "/pom.xml")
  = findDependencyLine lines (group2 ++ ":" ++ artifact) (directory ++ "/pom.xml")
  /\ artifactIdOf (group1 ++ ":" ++ artifact) = artifact.
Proof.
  intros H1 H2 Ha.
  assert (Hart : forall g, Js.includes g ":" = false ->
            artifactIdOf (g ++ ":" ++ artifact) = artifact).
  { intros g Hg. unfold artifactIdOf.
    change (g ++ ":" ++ artifact) with (g ++ String ":" artifact).
    rewrite (split_prefix ":"%char g artifact Hg).
    by rewrite (split_none ":"%char artifact Ha). }
  split; [|by apply Hart].
  unfold findDependencyLine. rewrite baseNameOf_pom. cbn [String.eqb Ascii.eqb Bool.eqb].
  by rewrite (Hart group1 H1), (Hart group2 H2).
Qed.

End Editor.

(** *** An open pom.xml *)

Module EditorScenarios.
Import Model Editor.

Definition pom : TextDocument :=
  mkDocument "file:///ws/pom.xml" "/ws/pom.xml"
    ("<dependencies>" ++ Js.nl
       ++ "  <dependency><groupId>org.a</groupId><artifactId>core</artifactId></dependency>"
       ++ Js.nl
       ++ "  <dependency><groupId>org.b</groupId><artifactId>core</artifactId></dependency>"
       ++ Js.nl ++ "</dependencies>").

Definition host : Host := mkHost [pom] [pom].

Definition tracked : Js.Map DependencyInfo :=
  [("org.a:core", mkDependencyInfo "org.a:core" "maven" "" APPROVED);
   ("org.b:core", mkDependencyInfo "org.b:core" "maven" "" DENIED);
   ("org.c:util", mkDependencyInfo "org.c:util" "maven" "" SCANNING)].

(** The theorem on decorations, on that document: both coordinates are
    shown on line 1. *)
Lemma decorations_match_witness :
  let s := updateDiagnostics host "file:///ws/pom.xml" tracked (mkState ∅ ∅) in
  (severity <$> default [] (diagnosticCollection s !! "file:///ws/pom.xml"))
  = [Information; Error] /\
  decorations s !! "file:///ws/pom.xml"
  = Some (mkDecorations [mkRange 1 0 1 80] [mkRange 1 0 1 80] []).
Proof.
  cbv zeta.
  destruct (decorations_match_diagnostics host "file:///ws/pom.xml" tracked
              (mkState ∅ ∅) pom pom eq_refl eq_refl)
    as (ds & Hds & Hdec & _).
  cbv zeta in Hds, Hdec.
  assert (Hc : diagnosticCollection
                 (updateDiagnostics host "file:///ws/pom.xml" tracked (mkState ∅ ∅))
                 !! "file:///ws/pom.xml"
               = Some (diagnosticsOf pom tracked)) by (vm_compute; reflexivity).
  rewrite Hc in Hds. injection Hds as <-.
  rewrite Hdec, Hc. split; vm_compute; reflexivity.
Defined.

(** The theorem on the lines of a pom.xml, on two groups. *)
Lemma pom_lines_witness :
  findDependencyLine (split "010" (getText pom)) "org.a:core" "/ws/pom.xml"
  = findDependencyLine (split "010" (getText pom)) "org.b:core" "/ws/pom.xml".
Proof.
  apply (pom_lines_ignore_the_group (split "010" (getText pom)) "org.a" "org.b"
           "core" "/ws" eq_refl eq_refl eq_refl).
Defined.

End EditorScenarios.

(* ------------------------------------------------------------------ *)
(** ** api/RepoGateApiClient.ts

    The client the validator and the monitor use.  [post] is the outcome
    of the HTTP call, the reason of a rejection being the text the error
    is rendered with. *)

Module LegacyClient.
Import Model.

Definition requestDependency {A} (post : Promise A) : Promise A :=
  match post with
  | Resolved data => Resolved data
  | Rejected error =>
      Rejected ("Failed to request dependency validation: " ++ error)
  end.

Definition checkDependency {A} (post : Promise A) : Promise A :=
  match post with
  | Resolved data => Resolved data
  | Rejected error => Rejected ("Failed to check dependency status: " ++ error)
  end.

(** The three notifications catch every error. *)
Definition reportInventory {A} (post : Promise A) : Promise unit := Resolved tt.

Definition queuePackages {A} (post : Promise A) : Promise unit := Resolved tt.

Definition updateDependency {A} (post : Promise A) : Promise unit := Resolved tt.

(** *** The validator behind the client *)

Lemma transportFailure_wrapped error :
  Validator.transportFailure ("Failed to request dependency validation: " ++ error)
  = Validator.transportFailure error.
Proof. unfold Validator.transportFailure. vm_compute. reflexivity. Qed.

(** X25. Whether a failed request is retried depends on the cause
    alone: the text the client puts in front of the error neither makes a
    transport failure of another error nor hides one.  Behind the client,
    a request that fails leaves the dependency pending, with a retry
    interval, when the error text mentions ECONNREFUSED, [Failed to fetch]
    or [Network], and in error, with nothing scheduled, otherwise. *)
Theorem retry_depends_on_the_cause (settings : Validator.Settings)
    (error : string) (choice : option string) (dep : Validator.loc)
    (projectName : option string) (s : Validator.State) :
  Validator.enabled settings = true -> Validator.tokenMissing settings = false ->
  dep < length (Validator.heap s) ->
  let s' := Validator.validateDependency settings
              (requestDependency (Rejected error)) choice dep projectName s in
  if Validator.transportFailure error then
    status (Validator.deref s' dep) = PENDING /\
    length (Validator.timers s') = S (length (Validator.timers s))
  else
    status (Validator.deref s' dep) = ERROR /\
    Validator.timers s' = Validator.timers s.
Proof.
  intros He Ht Hd. cbv zeta. unfold requestDependency, Validator.validateDependency.
  rewrite He, Ht, transportFailure_wrapped. cbn [negb]. cbv zeta.
  destruct (Validator.transportFailure error).
  - match goal with
    | |- context [Validator.retryConnection dep ?u ?t ?p (Validator.report dep PENDING ?s0)] =>
        set (t0 := s0);
        set (r := Validator.retryConnection dep u t p (Validator.report dep PENDING t0))
    end.
    assert (Hh : Validator.heap t0 = Validator.heap s) by done.
    split.
    + apply (Validator.status_recorded dep PENDING t0 r); [by rewrite Hh|done].
    + unfold r, Validator.retryConnection, Validator.schedule. cbn.
      destruct (Validator.pollingIntervals s !! _);
        rewrite length_app, ?length_insert; simpl; lia.
  - match goal with
    | |- context [Validator.report dep ERROR ?s0] => set (t0 := s0)
    end.
    assert (Hh : Validator.heap t0 = Validator.heap s) by done.
    split; [|done].
    apply (Validator.status_recorded dep ERROR t0); [by rewrite Hh|done].
Qed.

(** The theorem on the cause of a failure, on a network error. *)
Lemma retry_depends_witness :
  let s' := Validator.validateDependency ValidatorScenarios.settings
              (requestDependency (Rejected "AxiosError: Network Error")) None 0
              (Some "ws") ValidatorScenarios.start in
  status (Validator.deref s' 0) = PENDING /\
  length (Validator.timers s') = 1.
Proof.
  exact (retry_depends_on_the_cause ValidatorScenarios.settings
           "AxiosError: Network Error" None 0 (Some "ws") ValidatorScenarios.start
           eq_refl eq_refl (le_n 1)).
Defined.

End LegacyClient.

(* ------------------------------------------------------------------ *)
(** ** services/DependencyMonitor.ts

    The monitor scans the workspace once, on its first start, and on
    demand; it keeps the status of the dependencies of each file and
    shows a summary in its status bar item.  The folders, the files found
    in them and their contents are those of the host; the outcomes of the
    two HTTP calls are passed to the client of [LegacyClient]. *)

Module Monitor.
Import Model.

(** The [repogate] settings the monitor reads, unset being [None]. *)
Record Settings := mkSettings {
  enabled : option bool;
  apiToken : option string;
  apiUrl : option string
}.

Record File := mkFile {
  fsPath : string;
  path : string;
  readFile : Promise string
}.

(** A workspace folder and what [findFiles] returns for a pattern. *)
Record Folder := mkFolder {
  name : string;
  findFiles : string -> list File
}.

Record Developer := mkDeveloper {
  username : string;
  hostname : string;
  os : string
}.

Record Env := mkEnv {
  settings : Settings;
  workspaceFolders : option (list Folder);
  queuePost : Promise unit;
  updatePost : Promise unit;
  selection : option string;
  developer : Developer;
  now : string
}.

Record Package := mkPackage {
  pkg_packageName : string;
  pkg_packageVersion : string;
  pkg_packageManager : string;
  pkg_projectName : string
}.

Record UpdateData := mkUpdateData {
  ud_packageName : string;
  ud_packageManager : string;
  ud_action : string;
  ud_status : ApprovalStatus;
  ud_projectName : option string;
  ud_timestamp : string;
  ud_developer : Developer
}.

Inductive Effect :=
  | Window (p : Notifications.Popup)
  | ExecuteCommand (command argument : string)
  | QueuePackages (apiUrl apiToken : string) (packages : list Package)
  | UpdateDependency (apiUrl apiToken : string) (data : UpdateData).

Record StatusBarItem := mkStatusBarItem {
  text : string;
  backgroundColor : option string;
  visible : bool
}.

(** [globalState] is the value stored under
    [repogate.initialScanCompleted], if any. *)
Record State := mkState {
  fileContentsCache : Js.Map string;
  dependencyStatusCache : Js.Map (Js.Map DependencyInfo);
  initialScanCompleted : bool;
  globalState : option bool;
  statusBarItem : StatusBarItem;
  effects : list Effect
}.

Definition emit (e : Effect) (s : State) : State :=
  mkState (fileContentsCache s) (dependencyStatusCache s) (initialScanCompleted s)
          (globalState s) (statusBarItem s) (effects s ++ [e]).

Definition patterns : list string :=
  ["**/package.json"; "**/pom.xml"; "**/build.gradle"; "**/build.gradle.kts"].

(** [!enabled || !apiToken || apiToken.trim() === ''] fails: the URL and
    the token the client is created with. *)
Definition configured (st : Settings) : option (string * string) :=
  match enabled st, apiToken st with
  | Some true, Some token =>
      if String.eqb token "" || String.eqb (Js.trim token) "" then None
      else
        Some (match apiUrl st with
              | Some url =>
                  if String.eqb url "" then "https://app.repogate.io/api/v1" else url
              | None => "https://app.repogate.io/api/v1"
              end, token)
  | _, _ => None
  end.

Definition queuePackages (env : Env) (packages : list Package) (s : State)
    : State :=
  match configured (settings env) with
  | None => s
  | Some (url, token) =>
      let s := emit (QueuePackages url token packages) s in
      match LegacyClient.queuePackages (queuePost env) with
      | Resolved _ => s
      | Rejected _ => s
      end
  end.

(** The two counters of [updateStatusBar]. *)
Definition tally (counts : nat * nat) (depInfo : DependencyInfo) : nat * nat :=
  match status depInfo with
  | PENDING => (S (fst counts), snd counts)
  | DENIED => (fst counts, S (snd counts))
  | _ => counts
  end.

Definition tallyAll (cache : Js.Map (Js.Map DependencyInfo)) : nat * nat :=
  fold_left (fun counts statusMap => fold_left tally (map snd (snd statusMap)) counts)
            cache (0, 0).

Definition updateStatusBar (s : State) : State :=
  let pendingCount := fst (tallyAll (dependencyStatusCache s)) in
  let deniedCount := snd (tallyAll (dependencyStatusCache s)) in
  let item :=
    if (0 <? deniedCount)%nat then
      mkStatusBarItem ("$(error) RepoGate: " ++ Js.natToString deniedCount ++ " denied")
                      (Some "statusBarItem.errorBackground") true
    else if (0 <? pendingCount)%nat then
      mkStatusBarItem ("$(clock) RepoGate: " ++ Js.natToString pendingCount ++ " pending")
                      (Some "statusBarItem.warningBackground") true
    else mkStatusBarItem "$(check) RepoGate: All approved" None true in
  mkState (fileContentsCache s) (dependencyStatusCache s) (initialScanCompleted s)
          (globalState s) item (effects s).

Definition notifyDependencyRemoval (env : Env) (dependency : DependencyInfo)
    (projectName : option string) (s : State) : State :=
  match configured (settings env) with
  | None => s
  | Some (url, token) =>
      let s := emit (UpdateDependency url token
                       (mkUpdateData (packageName dependency)
                          (packageManager dependency) "removed" (status dependency)
                          projectName (now env) (developer env))) s in
      match LegacyClient.updateDependency (updatePost env) with
      | Resolved _ =>
          match status dependency with
          | DENIED =>
              emit (Window (Notifications.InformationMessage
                      ("✓ RepoGate: Removed denied package '" ++ packageName dependency
                         ++ "' - Platform has been notified") [])) s
          | _ => s
          end
      | Rejected _ => s
      end
  end.

Section Scan.

Variable parsers : list DependencyParser.

Definition findParser (fileName : string) : option DependencyParser :=
  List.find (fun parser => supports parser fileName) parsers.

Definition packageOf (projectName : string) (dep : DependencyInfo) : Package :=
  mkPackage (packageName dep) (version dep) (packageManager dep) projectName.

(** The status map of a file, created when missing, takes the
    dependencies under their names. *)
Definition track (file : string) (deps : list DependencyInfo) (s : State) : State :=
  let statusMap := default [] (Js.map_get (dependencyStatusCache s) file) in
  mkState (fileContentsCache s)
          (Js.map_set (dependencyStatusCache s) file
             (fold_left (fun m dep => Js.map_set m (packageName dep) dep) deps statusMap))
          (initialScanCompleted s) (globalState s) (statusBarItem s) (effects s).

Definition cacheContents (file contentStr : string) (s : State) : State :=
  mkState (Js.map_set (fileContentsCache s) file contentStr)
          (dependencyStatusCache s) (initialScanCompleted s) (globalState s)
          (statusBarItem s) (effects s).

(** The body of the innermost loop of the two scans; the initial scan
    fills the caches ([remember]), the manual scan does not.  A file that
    cannot be read is skipped. *)
Definition scanFile (remember : bool) (projectName : string)
    (acc : list Package * State) (file : File) : list Package * State :=
  match readFile file with
  | Rejected _ => acc
  | Resolved contentStr =>
      let s := if remember then cacheContents (fsPath file) contentStr (snd acc)
               else snd acc in
      match findParser (Editor.baseNameOf (path file)) with
      | Some parser =>
          let deps := parseAllDependencies parser contentStr in
          ((fst acc ++ map (packageOf projectName) deps)%list,
           if remember then track (fsPath file) deps s else s)
      | None => (fst acc, s)
      end
  end.

Definition scanFolders (remember : bool) (folders : list Folder) (s : State)
    : list Package * State :=
  fold_left
    (fun acc folder =>
       fold_left
         (fun acc pattern =>
            fold_left (scanFile remember (name folder)) (findFiles folder pattern) acc)
         patterns acc)
    folders ([], s).

Definition performInitialScan (env : Env) (s : State) : State :=
  if default false (globalState s) then
    mkState (fileContentsCache s) (dependencyStatusCache s) true (globalState s)
            (statusBarItem s) (effects s)
  else
    match workspaceFolders env with
    | None => s
    | Some folders =>
        let s := emit (Window (Notifications.InformationMessage
                         "RepoGate: Scanning existing packages..." [])) s in
        let scanned := scanFolders true folders s in
        let allPackages := fst scanned in
        let s := snd scanned in
        let s :=
          match allPackages with
          | [] => s
          | _ =>
              emit (Window (Notifications.InformationMessage
                      ("RepoGate: Queued " ++ Js.natToString (length allPackages)
                         ++ " existing packages for review") []))
                   (queuePackages env allPackages s)
          end in
        updateStatusBar
          (mkState (fileContentsCache s) (dependencyStatusCache s) true (Some true)
                   (statusBarItem s) (effects s))
    end.

Definition manualScan (env : Env) (s : State) : State :=
  let blank :=
    match apiToken (settings env) with
    | Some token => String.eqb token "" || String.eqb (Js.trim token) ""
    | None => true
    end in
  if blank then
    let s := emit (Window (Notifications.ErrorMessage
                     "RepoGate: API Token is required. Please configure it in settings."
                     ["Open Settings"])) s in
    match selection env with
    | Some picked =>
        if String.eqb picked "Open Settings" then
          emit (ExecuteCommand "workbench.action.openSettings" "repogate") s
        else s
    | None => s
    end
  else
    match workspaceFolders env with
    | None =>
        emit (Window (Notifications.WarningMessage
                "RepoGate: No workspace folder open" [])) s
    | Some folders =>
        let s := emit (Window (Notifications.InformationMessage
                         "RepoGate: Scanning all packages..." [])) s in
        let scanned := scanFolders false folders s in
        let allPackages := fst scanned in
        let s := snd scanned in
        match allPackages with
        | [] =>
            emit (Window (Notifications.InformationMessage
                    "RepoGate: No packages found in workspace" [])) s
        | _ =>
            emit (Window (Notifications.InformationMessage
                    ("✓ RepoGate: Successfully scanned and queued "
                       ++ Js.natToString (length allPackages)
                       ++ " packages for review") []))
                 (queuePackages env allPackages s)
        end
    end.

End Scan.

(** The popups among the effects, and the HTTP calls. *)
Definition isWindow (e : Effect) : bool :=
  match e with
  | Window _ | ExecuteCommand _ _ => true
  | _ => false
  end.

Definition windows (s : State) : list Effect := List.filter isWindow (effects s).

Definition posts (s : State) : list Effect :=
  List.filter (fun e => negb (isWindow e)) (effects s).

(** The dependencies of all files. *)
Definition tracked (s : State) : list DependencyInfo :=
  flat_map (fun statusMap => map snd (snd statusMap)) (dependencyStatusCache s).

(** *** The status bar *)

Lemma tally_fold l : forall counts,
  fold_left tally l counts
  = (fst counts + length (List.filter (fun d => bool_decide (status d = PENDING)) l),
     snd counts + length (List.filter (fun d => bool_decide (status d = DENIED)) l)).
Proof.
  induction l as [|d l IH]; intros [p q]; simpl.
  - f_equal; lia.
  - rewrite IH. unfold tally. destruct (status d); simpl; f_equal; lia.
Qed.

Lemma tallyAll_counts cache :
  tallyAll cache
  = (length (List.filter (fun d => bool_decide (status d = PENDING))
               (flat_map (fun statusMap => map snd (snd statusMap)) cache)),
     length (List.filter (fun d => bool_decide (status d = DENIED))
               (flat_map (fun statusMap => map snd (snd statusMap)) cache))).
Proof.
  unfold tallyAll.
  assert (H : forall counts,
            fold_left (fun counts statusMap =>
                         fold_left tally (map snd (snd statusMap)) counts) cache counts
            = (fst counts
               + length (List.filter (fun d => bool_decide (status d = PENDING))
                           (flat_map (fun statusMap => map snd (snd statusMap)) cache)),
               snd counts
               + length (List.filter (fun d => bool_decide (status d = DENIED))
                           (flat_map (fun statusMap => map snd (snd statusMap)) cache)))).
  { induction cache as [|e cache IH]; intros [p q]; simpl.
    - f_equal; lia.
    - rewrite IH, tally_fold. simpl.
      rewrite !List.filter_app, !length_app. f_equal; lia. }
  by rewrite H.
Qed.

Lemma filter_length_zero {A} (f : A -> bool) (l : list A) :
  length (List.filter f l) = 0 <-> Forall (fun x => f x = false) l.
Proof.
  induction l as [|x l IH]; simpl.
  - split; [constructor|done].
  - destruct (f x) eqn:E; simpl.
    + split; [done|]. intros H. inversion H; congruence.
    + rewrite IH. split; [by constructor|]. intros H. by inversion H.
Qed.

Lemma filter_length_pos {A} (f : A -> bool) (l : list A) :
  length (List.filter f l) <> 0 <-> Exists (fun x => f x = true) l.
Proof.
  induction l as [|x l IH]; simpl.
  - split; [done|]. intros H. inversion H.
  - destruct (f x) eqn:E; simpl.
    + split; [by left|done].
    + rewrite IH. split; [by right|]. intros H. inversion H; [congruence|done].
Qed.

(** X26. The status bar says [All approved] exactly when no tracked
    dependency is pending or denied: dependencies that are scanning, not
    found or in error do not keep it from saying so.  A denial takes
    precedence over everything else. *)
Theorem all_approved_hides_other_statuses (s : State) :
  let item := statusBarItem (updateStatusBar s) in
  (text item = "$(check) RepoGate: All approved"
   <-> Forall (fun d => status d <> PENDING /\ status d <> DENIED) (tracked s)) /\
  (backgroundColor item = Some "statusBarItem.errorBackground"
   <-> Exists (fun d => status d = DENIED) (tracked s)) /\
  visible item = true.
Proof.
  cbv zeta. unfold updateStatusBar. cbn [statusBarItem].
  rewrite tallyAll_counts. cbn [fst snd]. fold (tracked s).
  set (p := length (List.filter (fun d => bool_decide (status d = PENDING)) (tracked s))).
  set (q := length (List.filter (fun d => bool_decide (status d = DENIED)) (tracked s))).
  assert (Hp : p = 0 <-> Forall (fun d => status d <> PENDING) (tracked s)).
  { unfold p. rewrite filter_length_zero. apply Forall_iff. intros d.
    by rewrite bool_decide_eq_false. }
  assert (Hq : q = 0 <-> Forall (fun d => status d <> DENIED) (tracked s)).
  { unfold q. rewrite filter_length_zero. apply Forall_iff. intros d.
    by rewrite bool_decide_eq_false. }
  assert (Hboth : Forall (fun d => status d <> PENDING /\ status d <> DENIED) (tracked s)
                  <-> p = 0 /\ q = 0).
  { rewrite Hp, Hq, <- Forall_and. reflexivity. }
  assert (Hex : Exists (fun d => status d = DENIED) (tracked s) <-> q <> 0).
  { unfold q. rewrite filter_length_pos, !Exists_exists.
    split; intros (d & Hd & He); exists d; (split; [done|]).
    - by apply bool_decide_eq_true.
    - by apply bool_decide_eq_true in He. }
  rewrite Hboth, Hex.
  destruct (Nat.ltb_spec 0 q) as [Hq0|Hq0]; cbn [text backgroundColor visible].
  - split; [|split; [|done]].
    + split; [discriminate|lia].
    + split; [lia|done].
  - destruct (Nat.ltb_spec 0 p) as [Hp0|Hp0]; cbn [text backgroundColor visible].
    + split; [|split; [|done]].
      * split; [discriminate|lia].
      * split; [discriminate|lia].
    + split; [|split; [|done]].
      * split; [lia|done].
      * split; [discriminate|lia].
Qed.

(** *** Removals *)

(** X27. The monitor confirms the removal of a denied package whether
    or not the platform was told: the client swallows the failure of the
    update, so the confirmation is shown for every outcome of the call.
    Without a configuration nothing is sent and nothing is shown. *)
Theorem removal_is_confirmed_unheard (env : Env) (dependency : DependencyInfo)
    (projectName : option string) (s : State) :
  let s' := notifyDependencyRemoval env dependency projectName s in
  match configured (settings env) with
  | Some (url, token) =>
      posts s'
      = (posts s ++
           [UpdateDependency url token
              (mkUpdateData (packageName dependency) (packageManager dependency)
                 "removed" (status dependency) projectName (now env)
                 (developer env))])%list /\
      windows s'
      = (windows s ++
           if decide (status dependency = DENIED) then
             [Window (Notifications.InformationMessage
                        ("✓ RepoGate: Removed denied package '"
                           ++ packageName dependency
                           ++ "' - Platform has been notified") [])]
           else [])%list
  | None => s' = s
  end.
Proof.
  cbv zeta. unfold notifyDependencyRemoval.
  destruct (configured (settings env)) as [[url token]|]; [|done].
  unfold LegacyClient.updateDependency, posts, windows.
  destruct (status dependency); cbn [emit effects];
    rewrite ?List.filter_app; cbn; by rewrite ?app_nil_r.
Qed.

(** *** Scans *)

Section ScanFacts.

Variable parsers : list DependencyParser.

Lemma queuePackages_windows env packages s :
  windows (queuePackages env packages s) = windows s /\
  fileContentsCache (queuePackages env packages s) = fileContentsCache s /\
  dependencyStatusCache (queuePackages env packages s) = dependencyStatusCache s /\
  (configured (settings env) = None -> queuePackages env packages s = s).
Proof.
  unfold queuePackages.
  destruct (configured (settings env)) as [[url token]|]; [|done].
  unfold LegacyClient.queuePackages, windows. cbn [emit effects].
  rewrite List.filter_app. cbn. by rewrite app_nil_r.
Qed.

Lemma windows_emit_window p s :
  windows (emit (Window p) s) = (windows s ++ [Window p])%list.
Proof. unfold windows, emit. cbn [effects]. by rewrite List.filter_app. Qed.

Lemma posts_emit_window p s : posts (emit (Window p) s) = posts s.
Proof.
  unfold posts, emit. cbn [effects]. rewrite List.filter_app. cbn.
  by rewrite app_nil_r.
Qed.

Lemma scanFile_posts remember projectName acc file :
  posts (snd (scanFile parsers remember projectName acc file)) = posts (snd acc).
Proof.
  unfold scanFile. destruct (readFile file) as [contentStr|]; [|done].
  destruct (findParser parsers _); by destruct remember.
Qed.

Lemma scanFolders_posts remember folders s :
  posts (snd (scanFolders parsers remember folders s)) = posts s.
Proof.
  unfold scanFolders.
  assert (H3 : forall projectName files acc,
            posts (snd (fold_left (scanFile parsers remember projectName) files acc))
            = posts (snd acc)).
  { intros projectName files. induction files as [|f files IH]; intros acc; [done|].
    cbn [fold_left]. by rewrite IH, scanFile_posts. }
  assert (H2 : forall folder pats acc,
            posts (snd (fold_left
                          (fun acc pattern =>
                             fold_left (scanFile parsers remember (name folder))
                                       (findFiles folder pattern) acc) pats acc))
            = posts (snd acc)).
  { intros folder pats. induction pats as [|pat pats IH]; intros acc; [done|].
    cbn [fold_left]. by rewrite IH, H3. }
  assert (H1 : forall acc,
            posts (snd (fold_left
                          (fun acc folder =>
                             fold_left
                               (fun acc pattern =>
                                  fold_left (scanFile parsers remember (name folder))
                                            (findFiles folder pattern) acc)
                               patterns acc) folders acc))
            = posts (snd acc)).
  { induction folders as [|folder folders IH]; intros acc; [done|].
    cbn [fold_left]. by rewrite IH, H2. }
  apply H1.
Qed.

(** X28. The initial scan is final and says the same whatever became of
    the queue.  Two runs over the same folders, under any settings and
    any outcome of the POST, show the same messages, including the one
    that the packages were queued, and leave the same caches and status
    bar; the scan is marked as completed in both, so that no later start
    scans or sends again.  Without a configuration nothing was sent. *)
Theorem initial_scan_is_final (env1 env2 : Env) (folders : list Folder)
    (s : State) :
  workspaceFolders env1 = Some folders -> workspaceFolders env2 = Some folders ->
  default false (globalState s) = false ->
  let s1 := performInitialScan parsers env1 s in
  let s2 := performInitialScan parsers env2 s in
  globalState s1 = Some true /\
  windows s1 = windows s2 /\
  dependencyStatusCache s1 = dependencyStatusCache s2 /\
  fileContentsCache s1 = fileContentsCache s2 /\
  statusBarItem s1 = statusBarItem s2 /\
  (configured (settings env1) = None -> posts s1 = posts s) /\
  (forall env, effects (performInitialScan parsers env s1) = effects s1 /\
               globalState (performInitialScan parsers env s1) = Some true).
Proof.
  intros H1 H2 Hg. cbv zeta.
  set (s0 := emit (Window (Notifications.InformationMessage
                     "RepoGate: Scanning existing packages..." [])) s).
  assert (E : forall env, workspaceFolders env = Some folders ->
            performInitialScan parsers env s
            = let t :=
                match fst (scanFolders parsers true folders s0) with
                | [] => snd (scanFolders parsers true folders s0)
                | _ =>
                    emit (Window (Notifications.InformationMessage
                            ("RepoGate: Queued "
                               ++ Js.natToString
                                    (length (fst (scanFolders parsers true folders s0)))
                               ++ " existing packages for review") []))
                         (queuePackages env (fst (scanFolders parsers true folders s0))
                            (snd (scanFolders parsers true folders s0)))
                end in
              updateStatusBar
                (mkState (fileContentsCache t) (dependencyStatusCache t) true
                         (Some true) (statusBarItem t) (effects t))).
  { intros env He. unfold performInitialScan. by rewrite Hg, He. }
  rewrite (E env1 H1), (E env2 H2). clear E. cbv zeta.
  pose proof (scanFolders_posts true folders s0) as Hposts.
  destruct (scanFolders parsers true folders s0) as [allPackages t] eqn:Escan.
  cbn [fst snd] in *.
  pose (after := fun env : Env =>
          match allPackages with
          | [] => t
          | _ =>
              emit (Window (Notifications.InformationMessage
                      ("RepoGate: Queued " ++ Js.natToString (length allPackages)
                         ++ " existing packages for review") []))
                   (queuePackages env allPackages t)
          end).
  fold (after env1). fold (after env2).
  assert (Hcommon : forall env,
    windows (after env)
    = (windows t ++ match allPackages with
                    | [] => []
                    | _ => [Window (Notifications.InformationMessage
                                      ("RepoGate: Queued "
                                         ++ Js.natToString (length allPackages)
                                         ++ " existing packages for review") [])]
                    end)%list /\
    dependencyStatusCache (after env) = dependencyStatusCache t /\
    fileContentsCache (after env) = fileContentsCache t /\
    (configured (settings env) = None -> posts (after env) = posts t)).
  { intros env. unfold after.
    destruct (queuePackages_windows env allPackages t) as (Qw & Qf & Qd & Qn).
    destruct allPackages as [|pkg rest].
    - by rewrite app_nil_r.
    - rewrite windows_emit_window, Qw. cbn [emit dependencyStatusCache fileContentsCache].
      repeat split; auto. intros Hn. by rewrite posts_emit_window, (Qn Hn). }
  destruct (Hcommon env1) as (W1 & D1 & F1 & P1).
  destruct (Hcommon env2) as (W2 & D2 & F2 & _).
  clearbody after.
  unfold updateStatusBar, windows, posts in *.
  cbn [globalState dependencyStatusCache fileContentsCache statusBarItem effects].
  split; [done|]. split; [by rewrite W1, W2|].
  split; [by rewrite D1, D2|]. split; [by rewrite F1, F2|].
  split; [by rewrite D1, D2|].
  split.
  - intros Hn. rewrite (P1 Hn), Hposts.
    unfold s0, emit. cbn [effects]. rewrite List.filter_app. cbn.
    by rewrite app_nil_r.
  - intros env. unfold performInitialScan.
    by cbn [globalState default effects].
Qed.

(** X29. A manual scan does not look at [enabled] and does not learn
    of a failure either: with a token set, it shows the same messages,
    the success message included, whether the extension is enabled and
    the queue was sent or not; while it is not enabled, nothing is sent. *)
Theorem manual_scan_reports_success_unsent (env1 env2 : Env) (s : State) :
  workspaceFolders env1 = workspaceFolders env2 ->
  apiToken (settings env1) = apiToken (settings env2) ->
  selection env1 = selection env2 ->
  let s1 := manualScan parsers env1 s in
  let s2 := manualScan parsers env2 s in
  windows s1 = windows s2 /\
  (enabled (settings env1) <> Some true -> posts s1 = posts s).
Proof.
  intros Hf Ht Hs. cbv zeta. unfold manualScan. rewrite <- Hf, <- Ht, <- Hs.
  destruct (match apiToken (settings env1) with
            | Some token => String.eqb token "" || String.eqb (Js.trim token) ""
            | None => true
            end).
  { split; [done|]. intros _.
    destruct (selection env1) as [picked|];
      [destruct (String.eqb picked "Open Settings")|];
      unfold posts, emit; cbn [effects]; rewrite ?List.filter_app; cbn;
      by rewrite ?app_nil_r. }
  destruct (workspaceFolders env1) as [folders|].
  2:{ split; [done|]. intros _. apply posts_emit_window. }
  set (s0 := emit (Window (Notifications.InformationMessage
                     "RepoGate: Scanning all packages..." [])) s).
  pose proof (scanFolders_posts false folders s0) as Hposts.
  destruct (scanFolders parsers false folders s0) as [allPackages t].
  cbn [fst snd] in *.
  assert (Hs0 : posts s0 = posts s) by apply posts_emit_window.
  destruct allPackages as [|pkg rest].
  - split; [done|]. intros _. by rewrite posts_emit_window, Hposts.
  - rewrite !windows_emit_window.
    destruct (queuePackages_windows env1 (pkg :: rest) t) as (W1 & _).
    destruct (queuePackages_windows env2 (pkg :: rest) t) as (W2 & _).
    split; [by rewrite W1, W2|].
    intros He. rewrite posts_emit_window.
    assert (Hn : configured (settings env1) = None).
    { unfold configured. destruct (enabled (settings env1)) as [[|]|]; done. }
    destruct (queuePackages_windows env1 (pkg :: rest) t) as (_ & _ & _ & Q).
    by rewrite (Q Hn), Hposts.
Qed.

End ScanFacts.

End Monitor.

(** *** A workspace with one manifest *)

Module MonitorScenarios.
Import Model Monitor.

Definition parsers : list DependencyParser := [Npm.parser Scenarios.JSON_parse].

Definition manifest : File :=
  mkFile "/ws/package.json" "/ws/package.json" (Resolved Scenarios.manifest_lodash).

Definition ws : Folder :=
  mkFolder "ws" (fun pattern =>
                   if String.eqb pattern "**/package.json" then [manifest] else []).

Definition ada : Developer := mkDeveloper "ada" "analytical" "Linux 6.1".

(** Enabled with a token, but the queue endpoint answers with an error. *)
Definition failing : Env :=
  mkEnv (mkSettings (Some true) (Some "t0k3n") None) (Some [ws])
        (Rejected "AxiosError: Request failed with status code 503")
        (Rejected "AxiosError: Request failed with status code 503")
        None ada "2025-11-16T10:00:00.000Z".

(** Not enabled: nothing is sent. *)
Definition disabled : Env :=
  mkEnv (mkSettings None (Some "t0k3n") None) (Some [ws]) (Resolved tt) (Resolved tt)
        None ada "2025-11-16T10:00:00.000Z".

Definition init : State :=
  mkState [] [] false None (mkStatusBarItem "" None false) [].

(** The theorem on the initial scan: the failed queue is announced as
    done, as is the queue that was never sent. *)
Lemma initial_scan_witness :
  let s1 := performInitialScan parsers failing init in
  let s2 := performInitialScan parsers disabled init in
  windows s1
  = [Window (Notifications.InformationMessage
               "RepoGate: Scanning existing packages..." []);
     Window (Notifications.InformationMessage
               "RepoGate: Queued 1 existing packages for review" [])] /\
  windows s2 = windows s1 /\
  posts s2 = [] /\
  globalState s1 = Some true /\
  effects (performInitialScan parsers failing s1) = effects s1.
Proof.
  cbv zeta.
  destruct (initial_scan_is_final parsers failing disabled [ws] init
              eq_refl eq_refl eq_refl) as (Hg & Hw & _ & _ & _ & _ & Hagain).
  destruct (initial_scan_is_final parsers disabled failing [ws] init
              eq_refl eq_refl eq_refl) as (_ & _ & _ & _ & _ & Hp & _).
  cbv zeta in Hg, Hw, Hagain, Hp.
  split; [vm_compute; reflexivity|]. split; [by rewrite Hw|].
  split; [exact (Hp eq_refl)|]. split; [exact Hg|].
  exact (proj1 (Hagain failing)).
Defined.

(** The theorem on the manual scan, on the same two environments. *)
Lemma manual_scan_witness :
  windows (manualScan parsers disabled init)
  = windows (manualScan parsers failing init) /\
  posts (manualScan parsers disabled init) = [] /\
  last (windows (manualScan parsers disabled init))
  = Some (Window (Notifications.InformationMessage
                    "✓ RepoGate: Successfully scanned and queued 1 packages for review"
                    [])).
Proof.
  destruct (manual_scan_reports_success_unsent parsers disabled failing init
              eq_refl eq_refl eq_refl) as (Hw & Hp).
  cbv zeta in Hw, Hp.
  split; [exact Hw|]. split; [apply Hp; discriminate|].
  vm_compute. reflexivity.
Defined.

(** The removal of a denied package is confirmed although the update
    failed; a dependency in error leaves the status bar at its best. *)
Example removal_confirmed_after_failure :
  let d := mkDependencyInfo "left-pad" "npm" "1.3.0" DENIED in
  windows (notifyDependencyRemoval failing d (Some "ws") init)
  = [Window (Notifications.InformationMessage
               "✓ RepoGate: Removed denied package 'left-pad' - Platform has been notified"
               [])] /\
  text (statusBarItem
          (updateStatusBar
             (mkState [] [("/ws/package.json",
                           [("lodash", mkDependencyInfo "lodash" "npm" "4.17.21" ERROR)])]
                      true (Some true) (mkStatusBarItem "" None false) [])))
  = "$(check) RepoGate: All approved".
Proof. vm_compute. auto. Qed.

End MonitorScenarios.

(* ------------------------------------------------------------------ *)
(** ** parsers/MavenDependencyParser.ts

    The parser reads a pom.xml with one regular expression.  The regular
    expression engine is the host's: [matchAll] gives, for a text, the
    groups 1 to 3 of the successive matches of [DEPENDENCY_PATTERN], the
    third being absent when the dependency has no version. *)

Module Maven.
Import Model.

Record Match := mkMatch {
  m_groupId : string;
  m_artifactId : string;
  m_version : option string
}.

Section Parser.

Variable matchAll : string -> list Match.

Definition fullNameOf (m : Match) : string :=
  Js.trim (m_groupId m) ++ ":" ++ Js.trim (m_artifactId m).

(** [match[3] ? match[3].trim() : ''] *)
Definition versionOf (m : Match) : string :=
  match m_version m with
  | Some v => if String.eqb v "" then "" else Js.trim v
  | None => ""
  end.

Definition extractDependencies (content : string) : gset string :=
  if String.eqb content "" || String.eqb (Js.trim content) "" then ∅
  else
    fold_left (fun deps m => {[fullNameOf m]} ∪ deps) (matchAll content) ∅.

Definition parseNewDependencies (content previousContent : string)
    : list DependencyInfo :=
  let previousDeps := extractDependencies previousContent in
  let currentDeps := extractDependencies content in
  fold_left
    (fun newDeps m =>
       let fullName := fullNameOf m in
       if negb (bool_decide (fullName ∈ previousDeps))
          && bool_decide (fullName ∈ currentDeps)
       then Js.push newDeps (createDependencyInfo "maven" fullName (versionOf m))
       else newDeps)
    (matchAll content) [].

Definition parseAllDependencies (content : string) : list DependencyInfo :=
  fold_left
    (fun allDeps m =>
       Js.push allDeps (createDependencyInfo "maven" (fullNameOf m) (versionOf m)))
    (matchAll content) [].

Definition parser : DependencyParser :=
  {| supports := fun fileName => String.eqb fileName "pom.xml";
     Model.parseNewDependencies := parseNewDependencies;
     Model.parseAllDependencies := parseAllDependencies;
     getPackageManager := "maven" |}.

Definition blank (content : string) : bool :=
  String.eqb content "" || String.eqb (Js.trim content) "".

(** *** New coordinates *)

Lemma extract_fold_elem (ms : list Match) (n : string) : forall acc : gset string,
  n ∈ fold_left (fun deps m => {[fullNameOf m]} ∪ deps) ms acc
  <-> n ∈ acc \/ n ∈ fullNameOf <$> ms.
Proof.
  induction ms as [|m ms IH]; intros acc; cbn [fold_left].
  - rewrite fmap_nil, elem_of_nil. tauto.
  - rewrite IH, fmap_cons, elem_of_cons, elem_of_union, elem_of_singleton. tauto.
Qed.

Lemma extractDependencies_elem content n :
  n ∈ extractDependencies content
  <-> blank content = false /\ n ∈ fullNameOf <$> matchAll content.
Proof.
  unfold extractDependencies, blank.
  destruct (String.eqb content "" || String.eqb (Js.trim content) "").
  - rewrite elem_of_empty. split; [done|]. by intros [? _].
  - rewrite extract_fold_elem, elem_of_empty. split; [intros [?|?]; done|].
    intros [_ ?]. by right.
Qed.

Lemma parseAll_fold (ms : list Match) : forall acc,
  fold_left
    (fun allDeps m =>
       Js.push allDeps (createDependencyInfo "maven" (fullNameOf m) (versionOf m)))
    ms acc
  = (acc ++ map (fun m => createDependencyInfo "maven" (fullNameOf m) (versionOf m))
              ms)%list.
Proof.
  induction ms as [|m ms IH]; intros acc; cbn [fold_left map].
  - by rewrite app_nil_r.
  - rewrite IH. unfold Js.push. by rewrite <- app_assoc.
Qed.

Lemma parseNew_fold (keep : string -> bool) (ms : list Match) : forall acc,
  fold_left
    (fun newDeps m =>
       if keep (fullNameOf m)
       then Js.push newDeps (createDependencyInfo "maven" (fullNameOf m) (versionOf m))
       else newDeps)
    ms acc
  = (acc ++ List.filter (fun d => keep (packageName d))
              (map (fun m => createDependencyInfo "maven" (fullNameOf m) (versionOf m))
                   ms))%list.
Proof.
  induction ms as [|m ms IH]; intros acc; cbn [fold_left map List.filter].
  - by rewrite app_nil_r.
  - rewrite IH. cbn [createDependencyInfo packageName].
    destruct (keep (fullNameOf m)); [|done].
    unfold Js.push. by rewrite <- app_assoc.
Qed.

Lemma filter_nothing {A} (f : A -> bool) (l : list A) :
  (forall x, f x = false) -> List.filter f l = [].
Proof.
  intros Hf. induction l as [|x l IH]; [done|]. cbn [List.filter]. by rewrite Hf.
Qed.

(** X30. The new dependencies of a pom.xml are the dependencies of the
    current revision, in their order and with their versions, whose
    coordinate the previous revision did not have.  Nothing is merged: a
    coordinate that the current revision declares twice is reported
    twice.  A change of version alone is not new, a revision compared
    with itself has nothing new, and a blank revision has nothing at
    all. *)
Theorem maven_new_dependencies_keep_duplicates (content previousContent : string) :
  (blank content = false ->
   parseNewDependencies content previousContent
   = List.filter
       (fun d => negb (bool_decide (packageName d ∈ extractDependencies previousContent)))
       (parseAllDependencies content)) /\
  (blank content = true -> parseNewDependencies content previousContent = []) /\
  parseNewDependencies content content = [] /\
  (forall d, d ∈ parseNewDependencies content previousContent ->
     packageManager d = "maven" /\ status d = PENDING /\
     packageName d ∉ extractDependencies previousContent).
Proof.
  assert (Hgen : forall previous,
    parseNewDependencies content previous
    = List.filter
        (fun d => negb (bool_decide (packageName d ∈ extractDependencies previous))
                  && bool_decide (packageName d ∈ extractDependencies content))
        (parseAllDependencies content)).
  { intros previous. unfold parseNewDependencies, parseAllDependencies. cbv zeta.
    rewrite parseAll_fold. cbn [app].
    exact (parseNew_fold
             (fun n => negb (bool_decide (n ∈ extractDependencies previous))
                       && bool_decide (n ∈ extractDependencies content))
             (matchAll content) []). }
  assert (Hall : forall d, d ∈ parseAllDependencies content ->
            packageManager d = "maven" /\ status d = PENDING /\
            packageName d ∈ fullNameOf <$> matchAll content).
  { intros d. unfold parseAllDependencies. rewrite parseAll_fold. cbn [app].
    rewrite list_elem_of_In, in_map_iff. intros (m & <- & Hm).
    cbn [createDependencyInfo packageManager status packageName].
    repeat split. apply list_elem_of_fmap. exists m. split; [done|].
    by apply list_elem_of_In. }
  split; [|split; [|split]].
  - intros Hb. rewrite Hgen. apply List.filter_ext_in. intros d Hd.
    apply list_elem_of_In, Hall in Hd as (_ & _ & Hn).
    assert (Hc : packageName d ∈ extractDependencies content)
      by (by apply extractDependencies_elem).
    by rewrite (bool_decide_eq_true_2 _ Hc), andb_true_r.
  - intros Hb. rewrite Hgen.
    assert (He : extractDependencies content = ∅).
    { unfold extractDependencies. unfold blank in Hb. by rewrite Hb. }
    rewrite He. apply filter_nothing. intros d.
    rewrite (bool_decide_eq_false_2 (packageName d ∈ (∅ : gset string)))
      by apply not_elem_of_empty.
    apply andb_false_r.
  - rewrite Hgen. apply filter_nothing. intros d.
    by destruct (bool_decide (packageName d ∈ extractDependencies content)).
  - intros d. rewrite Hgen, list_elem_of_In, List.filter_In, <- list_elem_of_In.
    intros [Hd Hk]. apply Hall in Hd as (Hm & Hs & _).
    apply andb_true_iff in Hk as [Hk _].
    apply negb_true_iff, bool_decide_eq_false in Hk. done.
Qed.

End Parser.

(** A pom.xml that declares [junit:junit] in two places.  [matches]
    agrees with the regular expression on the two revisions. *)
Definition declared_twice : string :=
  "<dependency><groupId>junit</groupId><artifactId>junit</artifactId>"
    ++ "<version>4.13</version></dependency>"
    ++ "<dependency><groupId>junit</groupId><artifactId>junit</artifactId></dependency>".

Definition matches (content : string) : list Match :=
  if String.eqb content declared_twice then
    [mkMatch "junit" "junit" (Some "4.13"); mkMatch "junit" "junit" None]
  else [].

Example declared_twice_is_reported_twice :
  parseNewDependencies matches declared_twice "<project></project>"
  = [mkDependencyInfo "junit:junit" "maven" "4.13" PENDING;
     mkDependencyInfo "junit:junit" "maven" "" PENDING].
Proof. vm_compute. reflexivity. Qed.

End Maven.
